(** * iNaturalist Map Enhancer: the content script and the popup, embedded and verified

    The repository ships two variants of the content script:
    - [src/content.js], embedded in [Module Content];
    - the content script stored in [src/unnamed/part_000] (after the popup
      script), embedded in [Module Part000].  It adds the page check
      [isMapViewPage], the anchor check and the body marker class.

    Every function the two files share word for word is embedded once, in
    [Section Shared], over the [CONSTANTS] table of the variant.

    The utility [debounce] is embedded a second time with the clock, in
    [Module Debounce], and the popup script (the first part of
    [src/unnamed/part_000]) in [Module Popup].

    Conventions of the embedding:
    - a JavaScript number is a rational [Q]: the script only compares zoom
      levels with a constant and subtracts 0.5, which is exact on doubles for
      every zoom level between 1 and 2^52;
    - [null] and [undefined] properties are an absent value ([None], or a
      missing key of a [gmap]), except where the script can tell them apart
      ([jsref]);
    - objects shared by reference (DOM nodes, map instances) live in a store
      and are named by an identity ([node_id], [handle]);
    - a thrown exception is a [Thrown] completion of the monad [M];
    - console output is not part of the state. *)

From Stdlib Require Import QArith Lqa.
From stdpp Require Import base option list strings gmap pretty sorting.

(** ** DOM *)

Definition node_id := positive.

Record Attrs := {
  a_tag : string;
  a_id : string;
  a_classes : list string
}.

(** An element of the document, with what the script reads or writes of it.
    [el_ancestors] lists the attributes of the enclosing elements, for
    descendant selectors. *)
Record Element := {
  el_node : node_id;
  el_attrs : Attrs;
  el_ancestors : list Attrs;
  el_leaflet_id : option positive;
  el_textContent : string;
  el_style : gmap string string
}.

Record Body := {
  b_classList : list string;
  b_children : list Element
}.

Record Html := {
  h_head : option (list Element);
  h_body : option Body;
  h_rest : list Element
}.

(** [documentElement = None] is a document whose root element was removed:
    [document.documentElement], [document.head] and [document.body] are all
    [null] then. *)
Record Document := {
  documentElement : option Html;
  fresh_node : node_id
}.

Inductive simple_selector :=
| ById (i : string)
| ByClass (c : string)
| ByTag (t : string).

Inductive complex_selector :=
| Simple (s : simple_selector)
| Descendant (anc s : simple_selector).

(** A selector list: comma-separated alternatives. *)
Definition selector := list complex_selector.

Definition has_class (c : string) (cs : list string) : bool :=
  existsb (String.eqb c) cs.

Definition matches_simple (a : Attrs) (s : simple_selector) : bool :=
  match s with
  | ById i => String.eqb (a_id a) i
  | ByClass c => has_class c (a_classes a)
  | ByTag t => String.eqb (a_tag a) t
  end.

Definition matches_complex (e : Element) (c : complex_selector) : bool :=
  match c with
  | Simple s => matches_simple (el_attrs e) s
  | Descendant anc s =>
      matches_simple (el_attrs e) s
      && existsb (fun a => matches_simple a anc) (el_ancestors e)
  end.

Definition matches (sel : selector) (e : Element) : bool :=
  existsb (matches_complex e) sel.

Definition html_elements (h : Html) : list Element :=
  default [] (h_head h) ++ default [] (b_children <$> h_body h) ++ h_rest h.

(** The elements of the document, in document order. *)
Definition all_elements (d : Document) : list Element :=
  default [] (html_elements <$> documentElement d).

Definition has_id (i : string) (e : Element) : bool :=
  String.eqb (a_id (el_attrs e)) i.

Definition is_node (n : node_id) (e : Element) : bool :=
  Pos.eqb (el_node e) n.

Definition dom_getElementById (i : string) (d : Document) : option node_id :=
  el_node <$> List.find (has_id i) (all_elements d).

Definition dom_querySelector (sel : selector) (d : Document) : option node_id :=
  el_node <$> List.find (matches sel) (all_elements d).

Definition dom_contains (d : Document) (n : node_id) : bool :=
  existsb (is_node n) (all_elements d).

Definition dom_element (d : Document) (n : node_id) : option Element :=
  List.find (is_node n) (all_elements d).

Definition without (n : node_id) (l : list Element) : list Element :=
  List.filter (fun e => negb (is_node n e)) l.

Definition html_remove (n : node_id) (h : Html) : Html :=
  {| h_head := without n <$> h_head h;
     h_body := (fun b => {| b_classList := b_classList b;
                            b_children := without n (b_children b) |}) <$> h_body h;
     h_rest := without n (h_rest h) |}.

(** [node.remove()] *)
Definition dom_remove (n : node_id) (d : Document) : Document :=
  {| documentElement := html_remove n <$> documentElement d;
     fresh_node := fresh_node d |}.

Definition html_update (n : node_id) (f : Element -> Element) (h : Html) : Html :=
  let upd := List.map (fun e => if is_node n e then f e else e) in
  {| h_head := upd <$> h_head h;
     h_body := (fun b => {| b_classList := b_classList b;
                            b_children := upd (b_children b) |}) <$> h_body h;
     h_rest := upd (h_rest h) |}.

(** A write to a property of the element [n]. *)
Definition dom_update (n : node_id) (f : Element -> Element) (d : Document) : Document :=
  {| documentElement := html_update n f <$> documentElement d;
     fresh_node := fresh_node d |}.

(** [element.style]: the style declarations of the element, by longhand
    property ([el_style]).  An assignment to a shorthand property declares
    its longhands: [padding] and [borderRadius] with one length give that
    length to their four longhands; [background] with a colour gives it to
    [backgroundColor] and resets the other longhands of the background,
    which Chrome and Edge then report as [initial].  These are the
    shorthands, and the forms of their values, that the script assigns;
    every other property it assigns is a longhand. *)
Definition declarations (property value : string) : list (string * string) :=
  if String.eqb property "padding" then
    [ ("paddingTop", value); ("paddingRight", value);
      ("paddingBottom", value); ("paddingLeft", value) ]
  else if String.eqb property "borderRadius" then
    [ ("borderTopLeftRadius", value); ("borderTopRightRadius", value);
      ("borderBottomRightRadius", value); ("borderBottomLeftRadius", value) ]
  else if String.eqb property "background" then
    [ ("backgroundImage", "initial"); ("backgroundPositionX", "initial");
      ("backgroundPositionY", "initial"); ("backgroundSize", "initial");
      ("backgroundRepeat", "initial"); ("backgroundAttachment", "initial");
      ("backgroundOrigin", "initial"); ("backgroundClip", "initial");
      ("backgroundColor", value) ]
  else [ (property, value) ].

Definition declare (style : gmap string string) (d : string * string)
    : gmap string string :=
  <[d.1 := d.2]> style.

(** [style[property] = value] *)
Definition set_property (style : gmap string string)
    (assignment : string * string) : gmap string string :=
  fold_left declare (declarations assignment.1 assignment.2) style.

(** [Object.assign(element.style, styles)]: the properties of [styles] are
    assigned one after the other, in the order of the object. *)
Definition assign_style (styles : list (string * string)) (e : Element) : Element :=
  {| el_node := el_node e; el_attrs := el_attrs e; el_ancestors := el_ancestors e;
     el_leaflet_id := el_leaflet_id e; el_textContent := el_textContent e;
     el_style := fold_left set_property styles (el_style e) |}.

Definition classList_add (c : string) (cs : list string) : list string :=
  if has_class c cs then cs else cs ++ [c].

Definition classList_remove (c : string) (cs : list string) : list string :=
  List.filter (fun x => negb (String.eqb c x)) cs.

(** ** The host page's mapping library

    Modelled from the spec: the mapping library (Leaflet) belongs to the host
    page and is not part of this repository.  Its surface is the one the
    script consumes: a global with [latLng] and [latLngBounds], and
    per-instance [getZoom], [setZoom], [getCenter], [panTo], [invalidateSize],
    [setMaxBounds], [setMinZoom] and [eachLayer].  A setter stores its
    argument, as the scenarios of the spec expect (zoom 5 becomes 4.5).  An
    instance may lack a method ([lm_methods]) and a method may throw
    ([lm_faulty]); [lm_calls] records the calls received, oldest first. *)

Definition handle := positive.

Inductive MapMethod :=
| GetZoom | SetZoom | GetCenter | PanTo | InvalidateSize
| SetMaxBounds | SetMinZoom | EachLayer.

#[global] Instance MapMethod_eq_dec : EqDecision MapMethod.
Proof. solve_decision. Defined.

Record LatLng := { lat : Q; lng : Q }.

Record LatLngBounds := { southWest : LatLng; northEast : LatLng }.

Record TileOptions := { noWrap : bool }.

Record Layer := {
  layer_options : option TileOptions;
  layer_setUrl : bool
}.

Inductive MapCall :=
| CallGetZoom
| CallSetZoom (z : Q) (animate : bool)
| CallGetCenter
| CallPanTo (c : LatLng) (animate : bool)
| CallInvalidateSize (animate pan : bool)
| CallSetMaxBounds (b : LatLngBounds)
| CallSetMinZoom (z : Q)
| CallEachLayer.

Record LeafletMap := {
  lm_methods : list MapMethod;
  lm_faulty : list MapMethod;
  lm_zoom : Q;
  lm_center : LatLng;
  lm_maxBounds : option LatLngBounds;
  lm_minZoom : option Q;
  lm_layers : list Layer;
  lm_invalidations : nat;
  lm_calls : list MapCall
}.

Definition memb (m : MapMethod) (l : list MapMethod) : bool :=
  existsb (fun x => bool_decide (x = m)) l.

(** What a lookup in the page's objects can give the script. *)
Inductive jsref :=
| RNull
| RUndefined
| RObj (h : handle).

(** [window.L.map], with its [_instances] registry when it has one. *)
Record LMapFactory := {
  L_instances : option (gmap positive handle)
}.

Record LeafletGlobal := {
  L_map : option LMapFactory
}.

Record Globals := {
  GLOBALS_map : option handle
}.

Record Location := {
  href : string;
  pathname : string
}.

Record Window := {
  w_location : Location;
  w_L : option LeafletGlobal;
  w_GLOBALS : option Globals;
  w_resizes : nat
}.

(** ** State of a page session *)

Record OriginalStyles := {
  os_zoom : option Q;
  os_center : option LatLng;
  os_mapHeight : option string
}.

Record Config := {
  fullMapHeight : bool
}.

(** A response handed to [sendResponse]. *)
Inductive Response :=
| RespSuccess
| RespFailure (error : string)
| RespState (value : bool).

(** A callback handed to [requestAnimationFrame]. *)
Inductive FrameCallback :=
| PostPaint
| InitApply.

Record State := {
  document : Document;
  window : Window;
  heap : gmap handle LeafletMap;
  runtime_id : string;
  storage_throws : bool;
  originalStyles : OriginalStyles;
  config : Config;
  domCache : gmap string node_id;
  stylesApplied : bool;
  mapFound : bool;
  timer : bool;
  frames : list FrameCallback;
  storageReads : nat;
  observing : bool;
  outbox : list Response
}.

Definition with_document (f : Document -> Document) (s : State) : State :=
  {| document := f (document s); window := window s; heap := heap s;
     runtime_id := runtime_id s; storage_throws := storage_throws s;
     originalStyles := originalStyles s; config := config s;
     domCache := domCache s; stylesApplied := stylesApplied s;
     mapFound := mapFound s; timer := timer s; frames := frames s;
     storageReads := storageReads s; observing := observing s;
     outbox := outbox s |}.

Definition with_window (f : Window -> Window) (s : State) : State :=
  {| document := document s; window := f (window s); heap := heap s;
     runtime_id := runtime_id s; storage_throws := storage_throws s;
     originalStyles := originalStyles s; config := config s;
     domCache := domCache s; stylesApplied := stylesApplied s;
     mapFound := mapFound s; timer := timer s; frames := frames s;
     storageReads := storageReads s; observing := observing s;
     outbox := outbox s |}.

Definition with_heap (f : gmap handle LeafletMap -> gmap handle LeafletMap)
    (s : State) : State :=
  {| document := document s; window := window s; heap := f (heap s);
     runtime_id := runtime_id s; storage_throws := storage_throws s;
     originalStyles := originalStyles s; config := config s;
     domCache := domCache s; stylesApplied := stylesApplied s;
     mapFound := mapFound s; timer := timer s; frames := frames s;
     storageReads := storageReads s; observing := observing s;
     outbox := outbox s |}.

Definition with_originalStyles (f : OriginalStyles -> OriginalStyles)
    (s : State) : State :=
  {| document := document s; window := window s; heap := heap s;
     runtime_id := runtime_id s; storage_throws := storage_throws s;
     originalStyles := f (originalStyles s); config := config s;
     domCache := domCache s; stylesApplied := stylesApplied s;
     mapFound := mapFound s; timer := timer s; frames := frames s;
     storageReads := storageReads s; observing := observing s;
     outbox := outbox s |}.

Definition with_config (c : Config) (s : State) : State :=
  {| document := document s; window := window s; heap := heap s;
     runtime_id := runtime_id s; storage_throws := storage_throws s;
     originalStyles := originalStyles s; config := c;
     domCache := domCache s; stylesApplied := stylesApplied s;
     mapFound := mapFound s; timer := timer s; frames := frames s;
     storageReads := storageReads s; observing := observing s;
     outbox := outbox s |}.

Definition with_domCache (f : gmap string node_id -> gmap string node_id)
    (s : State) : State :=
  {| document := document s; window := window s; heap := heap s;
     runtime_id := runtime_id s; storage_throws := storage_throws s;
     originalStyles := originalStyles s; config := config s;
     domCache := f (domCache s); stylesApplied := stylesApplied s;
     mapFound := mapFound s; timer := timer s; frames := frames s;
     storageReads := storageReads s; observing := observing s;
     outbox := outbox s |}.

Definition with_stylesApplied (b : bool) (s : State) : State :=
  {| document := document s; window := window s; heap := heap s;
     runtime_id := runtime_id s; storage_throws := storage_throws s;
     originalStyles := originalStyles s; config := config s;
     domCache := domCache s; stylesApplied := b;
     mapFound := mapFound s; timer := timer s; frames := frames s;
     storageReads := storageReads s; observing := observing s;
     outbox := outbox s |}.

Definition with_mapFound (b : bool) (s : State) : State :=
  {| document := document s; window := window s; heap := heap s;
     runtime_id := runtime_id s; storage_throws := storage_throws s;
     originalStyles := originalStyles s; config := config s;
     domCache := domCache s; stylesApplied := stylesApplied s;
     mapFound := b; timer := timer s; frames := frames s;
     storageReads := storageReads s; observing := observing s;
     outbox := outbox s |}.

Definition with_timer (b : bool) (s : State) : State :=
  {| document := document s; window := window s; heap := heap s;
     runtime_id := runtime_id s; storage_throws := storage_throws s;
     originalStyles := originalStyles s; config := config s;
     domCache := domCache s; stylesApplied := stylesApplied s;
     mapFound := mapFound s; timer := b; frames := frames s;
     storageReads := storageReads s; observing := observing s;
     outbox := outbox s |}.

Definition with_frames (f : list FrameCallback -> list FrameCallback)
    (s : State) : State :=
  {| document := document s; window := window s; heap := heap s;
     runtime_id := runtime_id s; storage_throws := storage_throws s;
     originalStyles := originalStyles s; config := config s;
     domCache := domCache s; stylesApplied := stylesApplied s;
     mapFound := mapFound s; timer := timer s; frames := f (frames s);
     storageReads := storageReads s; observing := observing s;
     outbox := outbox s |}.

Definition with_storageReads (f : nat -> nat) (s : State) : State :=
  {| document := document s; window := window s; heap := heap s;
     runtime_id := runtime_id s; storage_throws := storage_throws s;
     originalStyles := originalStyles s; config := config s;
     domCache := domCache s; stylesApplied := stylesApplied s;
     mapFound := mapFound s; timer := timer s; frames := frames s;
     storageReads := f (storageReads s); observing := observing s;
     outbox := outbox s |}.

Definition with_observing (b : bool) (s : State) : State :=
  {| document := document s; window := window s; heap := heap s;
     runtime_id := runtime_id s; storage_throws := storage_throws s;
     originalStyles := originalStyles s; config := config s;
     domCache := domCache s; stylesApplied := stylesApplied s;
     mapFound := mapFound s; timer := timer s; frames := frames s;
     storageReads := storageReads s; observing := b;
     outbox := outbox s |}.

Definition with_outbox (f : list Response -> list Response) (s : State) : State :=
  {| document := document s; window := window s; heap := heap s;
     runtime_id := runtime_id s; storage_throws := storage_throws s;
     originalStyles := originalStyles s; config := config s;
     domCache := domCache s; stylesApplied := stylesApplied s;
     mapFound := mapFound s; timer := timer s; frames := frames s;
     storageReads := storageReads s; observing := observing s;
     outbox := f (outbox s) |}.

(** ** The monad of the script: state and exceptions *)

Record JsError := { error_message : string }.

Inductive Completion (A : Type) :=
| Normal (a : A)
| Thrown (e : JsError).
Arguments Normal {A} a.
Arguments Thrown {A} e.

Definition M (A : Type) : Type := State -> Completion A * State.

#[global] Instance M_ret : MRet M := fun A a s => (Normal a, s).

#[global] Instance M_bind : MBind M := fun A B f m s =>
  match m s with
  | (Normal a, s') => f a s'
  | (Thrown e, s') => (Thrown e, s')
  end.

Definition get : M State := fun s => (Normal s, s).

Definition modify (f : State -> State) : M unit := fun s => (Normal tt, f s).

Definition throw {A} (msg : string) : M A :=
  fun s => (Thrown {| error_message := msg |}, s).

(** [try { body } catch (error) { handler(error) }] *)
Definition try_catch (body : M unit) (handler : JsError -> M unit) : M unit :=
  fun s =>
    match body s with
    | (Normal a, s') => (Normal a, s')
    | (Thrown e, s') => handler e s'
    end.

(** A task of the event loop: an exception nobody caught is reported by the
    browser, and what the task wrote before it stays written. *)
Definition run_task (m : M unit) (s : State) : State := (m s).2.

Definition console_error (msg : string) : M unit := mret tt.
Definition console_log (msg : string) : M unit := mret tt.

Definition gets {A} (f : State -> A) : M A := fun s => (Normal (f s), s).

(** ** Operations of the browser and of the host library *)

Definition document_getElementById (i : string) : M (option node_id) :=
  gets (fun s => dom_getElementById i (document s)).

Definition document_querySelector (sel : selector) : M (option node_id) :=
  gets (fun s => dom_querySelector sel (document s)).

Definition document_contains (n : node_id) : M bool :=
  gets (fun s => dom_contains (document s) n).

Definition element_remove (n : node_id) : M unit :=
  modify (with_document (dom_remove n)).

(** [document.createElement(tag)]: a new node, not yet in the document. *)
Definition document_createElement (tag : string) : M Element :=
  s ← get;
  modify (with_document (fun d =>
    {| documentElement := documentElement d;
       fresh_node := Pos.succ (fresh_node d) |}));;
  mret {| el_node := fresh_node (document s);
          el_attrs := {| a_tag := tag; a_id := ""; a_classes := [] |};
          el_ancestors := [];
          el_leaflet_id := None;
          el_textContent := "";
          el_style := ∅ |}.

Definition set_id (i : string) (e : Element) : Element :=
  {| el_node := el_node e;
     el_attrs := {| a_tag := a_tag (el_attrs e); a_id := i;
                    a_classes := a_classes (el_attrs e) |};
     el_ancestors := el_ancestors e; el_leaflet_id := el_leaflet_id e;
     el_textContent := el_textContent e; el_style := el_style e |}.

Definition set_textContent (t : string) (e : Element) : Element :=
  {| el_node := el_node e; el_attrs := el_attrs e;
     el_ancestors := el_ancestors e; el_leaflet_id := el_leaflet_id e;
     el_textContent := t; el_style := el_style e |}.

Definition document_head (d : Document) : option (list Element) :=
  documentElement d ≫= h_head.

Definition document_body (d : Document) : option Body :=
  documentElement d ≫= h_body.

(** [document.head.appendChild(e)], when [document.head] is there. *)
Definition head_appendChild (e : Element) : M unit :=
  modify (with_document (fun d =>
    {| documentElement :=
         (fun h => {| h_head := (fun l => l ++ [e]) <$> h_head h;
                      h_body := h_body h; h_rest := h_rest h |})
           <$> documentElement d;
       fresh_node := fresh_node d |})).

(** [document.documentElement.appendChild(e)] *)
Definition documentElement_appendChild (e : Element) : M unit :=
  s ← get;
  match documentElement (document s) with
  | None => throw "Cannot read properties of null (reading 'appendChild')"
  | Some h =>
      modify (with_document (fun d =>
        {| documentElement :=
             Some {| h_head := h_head h; h_body := h_body h;
                     h_rest := h_rest h ++ [e] |};
           fresh_node := fresh_node d |}))
  end.

Definition body_classList (f : list string -> list string) : M unit :=
  s ← get;
  match document_body (document s) with
  | None => throw "Cannot read properties of null (reading 'classList')"
  | Some _ =>
      modify (with_document (fun d =>
        {| documentElement :=
             (fun h => {| h_head := h_head h;
                          h_body := (fun b => {| b_classList := f (b_classList b);
                                                 b_children := b_children b |})
                                      <$> h_body h;
                          h_rest := h_rest h |})
               <$> documentElement d;
           fresh_node := fresh_node d |}))
  end.

Definition requestAnimationFrame (cb : FrameCallback) : M unit :=
  modify (with_frames (fun q => q ++ [cb])).

(** [window.dispatchEvent(new Event('resize'))] *)
Definition dispatch_resize : M unit :=
  modify (with_window (fun w =>
    {| w_location := w_location w; w_L := w_L w; w_GLOBALS := w_GLOBALS w;
       w_resizes := S (w_resizes w) |})).

Definition sendResponse (r : Response) : M unit :=
  modify (with_outbox (fun o => o ++ [r])).

Definition record_call (c : MapCall) (o : LeafletMap) : LeafletMap :=
  {| lm_methods := lm_methods o; lm_faulty := lm_faulty o;
     lm_zoom := lm_zoom o; lm_center := lm_center o;
     lm_maxBounds := lm_maxBounds o; lm_minZoom := lm_minZoom o;
     lm_layers := lm_layers o; lm_invalidations := lm_invalidations o;
     lm_calls := lm_calls o ++ [c] |}.

Definition store_zoom (z : Q) (o : LeafletMap) : LeafletMap :=
  {| lm_methods := lm_methods o; lm_faulty := lm_faulty o;
     lm_zoom := z; lm_center := lm_center o;
     lm_maxBounds := lm_maxBounds o; lm_minZoom := lm_minZoom o;
     lm_layers := lm_layers o; lm_invalidations := lm_invalidations o;
     lm_calls := lm_calls o |}.

Definition store_center (c : LatLng) (o : LeafletMap) : LeafletMap :=
  {| lm_methods := lm_methods o; lm_faulty := lm_faulty o;
     lm_zoom := lm_zoom o; lm_center := c;
     lm_maxBounds := lm_maxBounds o; lm_minZoom := lm_minZoom o;
     lm_layers := lm_layers o; lm_invalidations := lm_invalidations o;
     lm_calls := lm_calls o |}.

Definition store_maxBounds (b : LatLngBounds) (o : LeafletMap) : LeafletMap :=
  {| lm_methods := lm_methods o; lm_faulty := lm_faulty o;
     lm_zoom := lm_zoom o; lm_center := lm_center o;
     lm_maxBounds := Some b; lm_minZoom := lm_minZoom o;
     lm_layers := lm_layers o; lm_invalidations := lm_invalidations o;
     lm_calls := lm_calls o |}.

Definition store_minZoom (z : Q) (o : LeafletMap) : LeafletMap :=
  {| lm_methods := lm_methods o; lm_faulty := lm_faulty o;
     lm_zoom := lm_zoom o; lm_center := lm_center o;
     lm_maxBounds := lm_maxBounds o; lm_minZoom := Some z;
     lm_layers := lm_layers o; lm_invalidations := lm_invalidations o;
     lm_calls := lm_calls o |}.

Definition store_layers (f : Layer -> Layer) (o : LeafletMap) : LeafletMap :=
  {| lm_methods := lm_methods o; lm_faulty := lm_faulty o;
     lm_zoom := lm_zoom o; lm_center := lm_center o;
     lm_maxBounds := lm_maxBounds o; lm_minZoom := lm_minZoom o;
     lm_layers := List.map f (lm_layers o);
     lm_invalidations := lm_invalidations o;
     lm_calls := lm_calls o |}.

Definition store_invalidation (o : LeafletMap) : LeafletMap :=
  {| lm_methods := lm_methods o; lm_faulty := lm_faulty o;
     lm_zoom := lm_zoom o; lm_center := lm_center o;
     lm_maxBounds := lm_maxBounds o; lm_minZoom := lm_minZoom o;
     lm_layers := lm_layers o;
     lm_invalidations := S (lm_invalidations o);
     lm_calls := lm_calls o |}.

(** A call of method [m] on the object [h]: a [TypeError] when the object has
    no such method, the host's own exception when the method is faulty (the
    call is recorded, nothing else changes), the effect [f] otherwise. *)
Definition host_call {A} (h : handle) (m : MapMethod) (c : MapCall)
    (result : LeafletMap -> A) (effect : LeafletMap -> LeafletMap) : M A :=
  s ← get;
  match heap s !! h with
  | None => throw "not a function"
  | Some o =>
      if negb (memb m (lm_methods o)) then throw "not a function"
      else if memb m (lm_faulty o) then
        modify (with_heap (<[h := record_call c o]>));;
        throw "host library error"
      else
        modify (with_heap (<[h := record_call c (effect o)]>));;
        mret (result o)
  end.

(** [typeof object.method === 'function'] *)
Definition typeof_function (h : handle) (m : MapMethod) : M bool :=
  gets (fun s => match heap s !! h with
                 | Some o => memb m (lm_methods o)
                 | None => false
                 end).

Definition getZoom (h : handle) : M Q :=
  host_call h GetZoom CallGetZoom lm_zoom id.

Definition getCenter (h : handle) : M LatLng :=
  host_call h GetCenter CallGetCenter lm_center id.

Definition setZoom (h : handle) (z : Q) (animate : bool) : M unit :=
  host_call h SetZoom (CallSetZoom z animate) (fun _ => tt) (store_zoom z).

Definition panTo (h : handle) (c : LatLng) (animate : bool) : M unit :=
  host_call h PanTo (CallPanTo c animate) (fun _ => tt) (store_center c).

Definition invalidateSize (h : handle) (animate pan : bool) : M unit :=
  host_call h InvalidateSize (CallInvalidateSize animate pan) (fun _ => tt)
    store_invalidation.

Definition setMaxBounds (h : handle) (b : LatLngBounds) : M unit :=
  host_call h SetMaxBounds (CallSetMaxBounds b) (fun _ => tt) (store_maxBounds b).

Definition setMinZoom (h : handle) (z : Q) : M unit :=
  host_call h SetMinZoom (CallSetMinZoom z) (fun _ => tt) (store_minZoom z).

Definition eachLayer (h : handle) (callback : Layer -> Layer) : M unit :=
  host_call h EachLayer CallEachLayer (fun _ => tt) (store_layers callback).

(** [window.L.latLng] and [window.L.latLngBounds] *)
Definition L_latLng (la ln : Q) : LatLng := {| lat := la; lng := ln |}.

Definition L_latLngBounds (sw ne : LatLng) : LatLngBounds :=
  {| southWest := sw; northEast := ne |}.

(** [x > y] on numbers *)
Definition gt_number (x y : Q) : bool := negb (Qle_bool x y).

(** ** Constants and selectors *)

Record Constants := {
  MAP_HEIGHT_OFFSET : nat;
  MIN_MAP_HEIGHT : nat;
  OBS_PANEL_WIDTH : nat;
  OBS_PANEL_SPACING : nat;
  ZOOM_ADJUSTMENT : Q;
  MIN_ZOOM_LEVEL : Q;
  STYLE_ID : string;
  DEBOUNCE_DELAY : nat
}.

Module SELECTORS.
Definition MAP : selector := [Simple (ById "map")].
Definition LEAFLET_CONTAINER : selector := [Simple (ByClass "leaflet-container")].
Definition OBS_PANELS : list selector :=
  [ [Simple (ById "obs")];
    [Simple (ByClass "observation-cards")];
    [Descendant (ByClass "ObservationsMapView") (ByClass "observations")];
    [Simple (ByClass "observations")];
    [Simple (ByClass "observation_list")];
    [Simple (ById "observation_list")];
    [Simple (ByClass "obs-container")];
    [Simple (ByClass "observations-container")];
    [Descendant (ByClass "ObservationsMapView") (ByClass "sidebar")];
    [Simple (ByClass "map-sidebar")];
    [Simple (ByClass "map-results")];
    [Simple (ByClass "map-panel")];
    [Simple (ByClass "right-panel")] ].
Definition MAP_CONTROLS : selector :=
  [Simple (ByClass "map-control-group"); Simple (ByClass "map-controls")].
End SELECTORS.

Definition px (n : nat) : string := pretty n +:+ "px".

(** [haystack.includes(needle)] *)
Fixpoint includes (needle haystack : string) : bool :=
  String.prefix needle haystack
  || match haystack with
     | EmptyString => false
     | String _ rest => includes needle rest
     end.

(** ** Functions shared by the two variants *)

Section Shared.

Variable CONSTANTS : Constants.

(** The names every plain object inherits from [Object.prototype] (the
    standard ones and those of Annex B).  [domCache] is a plain object:
    under such a name [domCache[name]] is a function, or the prototype
    itself, as long as the object has no property of its own under it. *)
Definition Object_prototype : list string :=
  ["constructor"; "hasOwnProperty"; "isPrototypeOf"; "propertyIsEnumerable";
   "toLocaleString"; "toString"; "valueOf"; "__proto__";
   "__defineGetter__"; "__defineSetter__"; "__lookupGetter__";
   "__lookupSetter__"].

(** [domCache[cacheKey]] is an inherited value: truthy, and not a node. *)
Definition inherited (s : State) (cacheKey : string) : bool :=
  existsb (String.eqb cacheKey) Object_prototype
  && match domCache s !! cacheKey with
     | Some _ => false
     | None => true
     end.

(** [!domCache[cacheKey] || !document.contains(domCache[cacheKey])], for a
    value that is not inherited. *)
Definition cache_stale (s : State) (cacheKey : string) : bool :=
  match domCache s !! cacheKey with
  | None => true
  | Some n => negb (dom_contains (document s) n)
  end.

Definition cache_store (cacheKey : string) (v : option node_id)
    (c : gmap string node_id) : gmap string node_id :=
  match v with
  | Some n => <[cacheKey := n]> c
  | None => delete cacheKey c
  end.

(** [getCachedElement(selector, cacheKey)].  On an inherited value the test
    [!domCache[cacheKey]] fails and [document.contains] throws, before
    anything is stored: the script creates no property of its own under an
    inherited name. *)
Definition getCachedElement (sel : selector) (cacheKey : string)
    : M (option node_id) :=
  s ← get;
  (if inherited s cacheKey then
     throw "Failed to execute 'contains' on 'Node': parameter 1 is not of type 'Node'."
   else if cache_stale s cacheKey then
     found ← document_querySelector sel;
     modify (with_domCache (cache_store cacheKey found))
   else mret tt);;
  gets (fun s' => domCache s' !! cacheKey).

(** [findElementBySelectors(selectors)] *)
Fixpoint findElementBySelectors (selectors : list selector) : M (option node_id) :=
  match selectors with
  | [] => mret None
  | sel :: rest =>
      element ← document_querySelector sel;
      match element with
      | Some n => mret (Some n)
      | None => findElementBySelectors rest
      end
  end.

(** [mapElement._leaflet_id], read through the document. *)
Definition leaflet_id_of (s : State) (n : node_id) : option positive :=
  dom_element (document s) n ≫= el_leaflet_id.

(** [getLeafletMapInstance(mapElement)] *)
Definition getLeafletMapInstance (mapElement : option node_id) : M jsref :=
  s ← get;
  match mapElement, w_L (window s) with
  | Some el, Some L =>
      match leaflet_id_of s el, L_map L ≫= L_instances with
      | Some i, Some instances =>
          mret (match instances !! i with
                | Some h => RObj h
                | None => RUndefined
                end)
      | _, _ =>
          match w_GLOBALS (window s) ≫= GLOBALS_map with
          | Some h => mret (RObj h)
          | None => mret RNull
          end
      end
  | _, _ => mret RNull
  end.

(** [injectStyles(css, id)] *)
Definition injectStyles (css i : string) : M unit :=
  existingStyle ← document_getElementById i;
  (match existingStyle with
   | Some n => element_remove n
   | None => mret tt
   end);;
  style ← document_createElement "style";
  let style := set_id i style in
  let style := set_textContent css style in
  s ← get;
  match document_head (document s) with
  | Some _ => head_appendChild style
  | None => documentElement_appendChild style
  end.

Definition mark_noWrap (layer : Layer) : Layer :=
  match layer_options layer with
  | Some _ =>
      if layer_setUrl layer then
        {| layer_options := Some {| noWrap := true |};
           layer_setUrl := layer_setUrl layer |}
      else layer
  | None => layer
  end.

(** [applyMapBounds()] *)
Definition applyMapBounds : M unit :=
  mapElement ← getCachedElement SELECTORS.MAP "map";
  match mapElement with
  | None => mret tt
  | Some _ =>
      leafletMap ← getLeafletMapInstance mapElement;
      match leafletMap with
      | RObj h =>
          isFunction ← typeof_function h SetMaxBounds;
          if (isFunction : bool) then
            try_catch
              (let southWest := L_latLng (-85) (-180) in
               let northEast := L_latLng 85 180 in
               let bounds := L_latLngBounds southWest northEast in
               setMaxBounds h bounds;;
               setMinZoom h 2;;
               eachLayer h mark_noWrap)
              (fun error => console_error "Failed to apply map bounds:")
          else mret tt
      | _ => mret tt
      end
  end.

Definition capture_zoom (z : Q) (o : OriginalStyles) : OriginalStyles :=
  {| os_zoom := Some z; os_center := os_center o;
     os_mapHeight := os_mapHeight o |}.

Definition capture_center (c : LatLng) (o : OriginalStyles) : OriginalStyles :=
  {| os_zoom := os_zoom o; os_center := Some c;
     os_mapHeight := os_mapHeight o |}.

Definition capture_mapHeight (h : string) (o : OriginalStyles) : OriginalStyles :=
  {| os_zoom := os_zoom o; os_center := os_center o;
     os_mapHeight := Some h |}.

(** [applyObsPanelStyles(panel)] *)
Definition applyObsPanelStyles (panel : option node_id) : M unit :=
  match panel with
  | None => mret tt
  | Some n =>
      let styles : list (string * string) :=
          [ ("position", "absolute");
            ("top", px (OBS_PANEL_SPACING CONSTANTS));
            ("bottom", px (OBS_PANEL_SPACING CONSTANTS));
            ("right", px (OBS_PANEL_SPACING CONSTANTS));
            ("width", px (OBS_PANEL_WIDTH CONSTANTS));
            ("maxHeight",
             "calc(100% - " +:+ px (OBS_PANEL_SPACING CONSTANTS * 2) +:+ ")");
            ("overflowY", "auto");
            ("zIndex", "1000");
            ("background", "white");
            ("borderRadius", "8px");
            ("boxShadow", "0 0 10px rgba(0, 0, 0, 0.2)") ] in
      modify (with_document (dom_update n (assign_style styles)))
  end.

(** [repositionObservationCards()] *)
Definition repositionObservationCards : M unit :=
  obsPanel ← findElementBySelectors SELECTORS.OBS_PANELS;
  (match obsPanel with
   | Some n =>
       applyObsPanelStyles obsPanel;;
       modify (with_domCache (<["obsPanel" := n]>))
   | None => mret tt
   end);;
  mapControls ← document_querySelector SELECTORS.MAP_CONTROLS;
  match mapControls with
  | Some n =>
      let controlStyles : list (string * string) :=
          [ ("position", "absolute");
            ("left", "10px");
            ("top", "10px");
            ("zIndex", "1000");
            ("backgroundColor", "rgba(255, 255, 255, 0.8)");
            ("borderRadius", "4px");
            ("padding", "5px") ] in
      modify (with_document (dom_update n (assign_style controlStyles)))
  | None => mret tt
  end.

(** [adjustMapZoom()] *)
Definition adjustMapZoom : M unit :=
  mapElement ← getCachedElement SELECTORS.MAP "map";
  match mapElement with
  | None => mret tt
  | Some _ =>
      leafletMap ← getLeafletMapInstance mapElement;
      (match leafletMap with
       | RObj h =>
           isFunction ← typeof_function h GetZoom;
           if (isFunction : bool) then
             try_catch
               (s ← get;
                (match os_zoom (originalStyles s) with
                 | None =>
                     z ← getZoom h;
                     modify (with_originalStyles (capture_zoom z));;
                     c ← getCenter h;
                     modify (with_originalStyles (capture_center c))
                 | Some _ => mret tt
                 end);;
                currentZoom ← getZoom h;
                (if gt_number currentZoom (MIN_ZOOM_LEVEL CONSTANTS) then
                   setZoom h (currentZoom - ZOOM_ADJUSTMENT CONSTANTS) false
                 else mret tt);;
                invalidateSize h false false)
               (fun error => console_error "Failed to adjust map zoom:")
           else mret tt
       | _ => mret tt
       end);;
      repositionObservationCards
  end.

(** The callback [applyFullMapHeight] hands to [requestAnimationFrame]. *)
Definition postPaint : M unit :=
  applyMapBounds;;
  adjustMapZoom;;
  dispatch_resize.

(** [debounce(func, delay)]: a call of the debounced function cancels the
    pending timer and arms a new one; [timer s] tells whether one is pending.
    [timer_fires func] is the timer's expiry. *)
Definition debounced : M unit := modify (with_timer true).

Definition timer_fires (func : M unit) : M unit :=
  s ← get;
  if timer s then modify (with_timer false);; func else mret tt.

(** The function wrapped by [debouncedMapHandler]. *)
Definition mapHandler : M unit :=
  s ← get;
  if fullMapHeight (config s) then adjustMapZoom else mret tt.

Definition debouncedMapHandler : M unit := debounced.

End Shared.

(** ** Callers: storage, messages, initialization, the event loop

    The callers are the same text in both variants; they are embedded once,
    over the variant's [applyFullMapHeight], [removeFullMapHeight] and the
    page test of [init]. *)

Inductive StorageResult :=
| StorageError
| StorageItems (value : option bool).

Record Sender := { sender_id : option string }.

Record Message := {
  action : option string;
  enabled : bool
}.

Inductive MutationType := ChildList | Attributes | CharacterData.

Record AddedNode := {
  n_isElement : bool;
  n_id : string;
  n_classList : list string;
  n_has_leaflet_descendant : bool
}.

Record MutationRecord := {
  m_type : MutationType;
  m_addedNodes : list AddedNode
}.

(** What the page and its user do between two turns of the script. *)
Record HostAction := {
  on_document : Document -> Document;
  on_window : Window -> Window;
  on_heap : gmap handle LeafletMap -> gmap handle LeafletMap
}.

Inductive event :=
| EInit
| EStorage (r : StorageResult)
| EFrame
| ETimer
| EMutations (mutations : list MutationRecord)
| EMessage (message : Message) (sender : Sender)
| EHost (a : HostAction).

Definition is_action (message : Message) (name : string) : bool :=
  match action message with
  | Some a => String.eqb a name
  | None => false
  end.

Section Script.

Variable CONSTANTS : Constants.
Variables applyFullMapHeight removeFullMapHeight : M unit.
Variable onObservationsPage : M bool.

(** [chrome.storage.sync.get(keys, callback)]: the read is queued, or the call
    itself throws (extension context gone). *)
Definition storage_sync_get : M unit :=
  s ← get;
  if storage_throws s then throw "Extension context invalidated."
  else modify (with_storageReads S).

(** The callback [loadUserPreferences] hands to the storage. *)
Definition preferencesLoaded (result : StorageResult) : M unit :=
  match result with
  | StorageError =>
      console_error "Storage error:";;
      applyFullMapHeight
  | StorageItems (Some value) =>
      modify (with_config {| fullMapHeight := value |});;
      s ← get;
      if fullMapHeight (config s) then applyFullMapHeight
      else removeFullMapHeight
  | StorageItems None => applyFullMapHeight
  end.

(** [loadUserPreferences()] *)
Definition loadUserPreferences : M unit :=
  try_catch storage_sync_get
    (fun error =>
       console_error "Failed to load preferences:";;
       applyFullMapHeight).

(** The listener of [chrome.runtime.onMessage]. *)
Definition onMessage (message : Message) (sender : Sender) : M bool :=
  s ← get;
  let valid :=
    match sender_id sender with
    | Some i => negb (String.eqb i "") && String.eqb i (runtime_id s)
    | None => false
    end in
  if negb valid then
    sendResponse (RespFailure "Invalid sender");;
    mret true
  else
    try_catch
      (if is_action message "toggleFullMapHeight" then
         modify (with_config {| fullMapHeight := enabled message |});;
         s' ← get;
         (if fullMapHeight (config s') then applyFullMapHeight
          else removeFullMapHeight);;
         sendResponse RespSuccess
       else if is_action message "getState" then
         s' ← get;
         sendResponse (RespState (fullMapHeight (config s')))
       else
         sendResponse (RespFailure "Unknown action"))
      (fun error =>
         console_error "Message handler error:";;
         sendResponse (RespFailure (error_message error)));;
    mret true.

(** The callback of the [MutationObserver] of [init]. *)
Definition qualifies (node : AddedNode) : bool :=
  n_isElement node
  && (String.eqb (n_id node) "map"
      || has_class "leaflet-container" (n_classList node)
      || n_has_leaflet_descendant node).

Fixpoint scanAddedNodes (nodes : list AddedNode) : M unit :=
  match nodes with
  | [] => mret tt
  | node :: rest =>
      if qualifies node then
        modify (with_mapFound true);;
        debouncedMapHandler
      else scanAddedNodes rest
  end.

Fixpoint scanMutations (mutations : list MutationRecord) : M unit :=
  match mutations with
  | [] => mret tt
  | mutation :: rest =>
      (match m_type mutation with
       | ChildList => scanAddedNodes (m_addedNodes mutation)
       | _ => mret tt
       end);;
      scanMutations rest
  end.

Definition observerCallback (mutations : list MutationRecord) : M unit :=
  s ← get;
  if mapFound s && stylesApplied s then mret tt
  else scanMutations mutations.

(** [observer.observe(mainContainer, ...)], with
    [mainContainer = document.querySelector(...) || document.body]. *)
Definition observe : M unit :=
  mainContainer ← document_querySelector
    [Simple (ByClass "container"); Simple (ByClass "ObservationsMapView");
     Simple (ByTag "main")];
  s ← get;
  match mainContainer, document_body (document s) with
  | None, None =>
      throw "Failed to execute 'observe' on 'MutationObserver'"
  | _, _ => modify (with_observing true)
  end.

Definition inline_height (s : State) (n : node_id) : string :=
  default "" (dom_element (document s) n ≫= fun e => el_style e !! "height").

(** [init()] *)
Definition init : M unit :=
  mapContainer ← getCachedElement SELECTORS.MAP "map";
  (match mapContainer with
   | Some n =>
       s ← get;
       modify (with_originalStyles (capture_mapHeight (inline_height s n)))
   | None => mret tt
   end);;
  observe;;
  loadUserPreferences;;
  onPage ← onObservationsPage;
  if (onPage : bool) then requestAnimationFrame InitApply else mret tt.

(** The callback [init] hands to [requestAnimationFrame]. *)
Definition initApply : M unit :=
  s ← get;
  if fullMapHeight (config s) then
    mapElement ← getCachedElement SELECTORS.MAP "map";
    match mapElement with
    | Some _ => applyFullMapHeight
    | None => mret tt
    end
  else mret tt.

Definition frameCallback (cb : FrameCallback) : M unit :=
  match cb with
  | PostPaint => postPaint CONSTANTS
  | InitApply => initApply
  end.

Definition host (a : HostAction) (s : State) : State :=
  with_heap (on_heap a) (with_window (on_window a) (with_document (on_document a) s)).

(** One turn of the event loop. *)
Definition step (s : State) (e : event) : State :=
  match e with
  | EInit => run_task init s
  | EStorage r =>
      match storageReads s with
      | O => s
      | S _ => run_task (preferencesLoaded r) (with_storageReads pred s)
      end
  | EFrame =>
      fold_left (fun s' cb => run_task (frameCallback cb) s')
        (frames s) (with_frames (fun _ => []) s)
  | ETimer => run_task (timer_fires (mapHandler CONSTANTS)) s
  | EMutations mutations =>
      if observing s then run_task (observerCallback mutations) s else s
  | EMessage message sender =>
      run_task (onMessage message sender;; mret tt) s
  | EHost a => host a s
  end.

Definition run (s : State) (events : list event) : State :=
  fold_left step events s.

End Script.

(** The state of the script when it is loaded into the page [d], [w], [h]. *)
Definition loaded (d : Document) (w : Window) (h : gmap handle LeafletMap)
    (extension : string) (storageThrows : bool) : State :=
  {| document := d; window := w; heap := h;
     runtime_id := extension; storage_throws := storageThrows;
     originalStyles := {| os_zoom := None; os_center := None;
                          os_mapHeight := None |};
     config := {| fullMapHeight := true |};
     domCache := ∅;
     stylesApplied := false;
     mapFound := false;
     timer := false;
     frames := [];
     storageReads := 0;
     observing := false;
     outbox := [] |}.

(** ** [src/content.js] *)

Module Content.

Definition CONSTANTS : Constants :=
  {| MAP_HEIGHT_OFFSET := 135;
     MIN_MAP_HEIGHT := 600;
     OBS_PANEL_WIDTH := 350;
     OBS_PANEL_SPACING := 15;
     ZOOM_ADJUSTMENT := 0.5;
     MIN_ZOOM_LEVEL := 1;
     STYLE_ID := "inat-map-enhancer-styles";
     DEBOUNCE_DELAY := 100 |}.

(** The template literal [mapStyles] of [applyFullMapHeight]. *)
Definition mapStyles : string :=
  "
    /* Base styles for the map container */
    #map {
      position: relative !important;
      height: calc(100vh - " +:+ pretty (MAP_HEIGHT_OFFSET CONSTANTS) +:+ "px) !important;
      min-height: " +:+ pretty (MIN_MAP_HEIGHT CONSTANTS) +:+ "px !important;
      width: 100% !important;
      overflow: hidden !important;
    }
    
    /* Fix for the leaflet container */
    .leaflet-container {
      height: 100% !important;
      width: 100% !important;
      overflow: hidden !important;
      /* Prevent horizontal map repetition */
      max-width: 100vw !important;
    }
    
    /* Fix for the map wrapper */
    .map-wrapper, .ObservationsMapView {
      height: auto !important;
      min-height: calc(100vh - " +:+ pretty (MAP_HEIGHT_OFFSET CONSTANTS) +:+ "px) !important;
      width: 100% !important;
      overflow: hidden !important;
    }
    
    /* Fix for the row containing the map */
    .ObservationsMapView .row {
      width: 100% !important;
      margin-left: 0 !important;
      margin-right: 0 !important;
    }
    
    /* Fix for the columns */
    .ObservationsMapView .col, 
    .ObservationsMapView .col-xs-12, 
    .ObservationsMapView .col-sm-12, 
    .ObservationsMapView .col-md-12, 
    .ObservationsMapView .col-lg-12 {
      padding-left: 0 !important;
      padding-right: 0 !important;
    }
    
    /* Hide footer to reclaim space */
    footer, .site-footer, #footer {
      display: none !important;
    }
    
    /* Reduce bottom margin on main container */
    .bootstrap, .container-fluid, .ObservationsMapView {
      margin-bottom: 0 !important;
      padding-bottom: 0 !important;
    }
    
    /* Ensure the observation panel is visible and properly styled */
    .ObservationsMapView .observation-cards,
    .ObservationsMapView .observations-list {
      position: absolute !important;
      top: " +:+ pretty (OBS_PANEL_SPACING CONSTANTS) +:+ "px !important;
      bottom: " +:+ pretty (OBS_PANEL_SPACING CONSTANTS) +:+ "px !important;
      right: " +:+ pretty (OBS_PANEL_SPACING CONSTANTS) +:+ "px !important;
      width: " +:+ pretty (OBS_PANEL_WIDTH CONSTANTS) +:+ "px !important;
      max-height: calc(100% - " +:+ pretty (OBS_PANEL_SPACING CONSTANTS * 2) +:+ "px) !important;
      overflow-y: auto !important;
      z-index: 1000 !important;
      background: white !important;
      border-radius: 8px !important;
      box-shadow: 0 2px 12px rgba(0, 0, 0, 0.25) !important;
    }
    
    /* Ensure the map legend and controls remain accessible */
    .leaflet-control-container {
      z-index: 1000 !important;
    }
    
    /* Improve visibility of map controls on 4K */
    .leaflet-control-zoom {
      margin-left: 10px !important;
      box-shadow: 0 1px 5px rgba(0,0,0,0.4) !important;
    }
    
    .leaflet-control-zoom a {
      width: 36px !important;
      height: 36px !important;
      line-height: 36px !important;
      font-size: 20px !important;
    }
  ".

(** [applyFullMapHeight()] *)
Definition applyFullMapHeight : M unit :=
  s ← get;
  if stylesApplied s then mret tt
  else
    injectStyles mapStyles (STYLE_ID CONSTANTS);;
    modify (with_stylesApplied true);;
    requestAnimationFrame PostPaint.

(** [removeFullMapHeight()] *)
Definition removeFullMapHeight : M unit :=
  styleElement ← document_getElementById (STYLE_ID CONSTANTS);
  (match styleElement with
   | Some n => element_remove n
   | None => mret tt
   end);;
  modify (with_stylesApplied false);;
  s ← get;
  match os_zoom (originalStyles s) with
  | Some zoom =>
      mapElement ← getCachedElement SELECTORS.MAP "map";
      match mapElement with
      | Some _ =>
          leafletMap ← getLeafletMapInstance mapElement;
          match leafletMap with
          | RObj h =>
              isFunction ← typeof_function h SetZoom;
              if (isFunction : bool) then
                try_catch
                  (setZoom h zoom false;;
                   (match os_center (originalStyles s) with
                    | Some center => panTo h center false
                    | None => mret tt
                    end);;
                   invalidateSize h false false)
                  (fun error => console_error "Failed to restore map state:")
              else mret tt
          | _ => mret tt
          end
      | None => mret tt
      end
  | None => mret tt
  end.

(** The page test of [init]:
    [window.location.href.includes('inaturalist.org/observations')]. *)
Definition onObservationsPage : M bool :=
  gets (fun s => includes "inaturalist.org/observations"
                   (href (w_location (window s)))).

Definition onMessage : Message -> Sender -> M bool :=
  onMessage applyFullMapHeight removeFullMapHeight.

Definition init : M unit :=
  init applyFullMapHeight onObservationsPage.

Definition step : State -> event -> State :=
  step CONSTANTS applyFullMapHeight removeFullMapHeight onObservationsPage.

Definition run : State -> list event -> State :=
  run CONSTANTS applyFullMapHeight removeFullMapHeight onObservationsPage.

End Content.

(** ** The content script of [src/unnamed/part_000] *)

Module Part000.

Definition CONSTANTS : Constants :=
  {| MAP_HEIGHT_OFFSET := 210;
     MIN_MAP_HEIGHT := 400;
     OBS_PANEL_WIDTH := 350;
     OBS_PANEL_SPACING := 25;
     ZOOM_ADJUSTMENT := 0.5;
     MIN_ZOOM_LEVEL := 1;
     STYLE_ID := "inat-map-enhancer-styles";
     DEBOUNCE_DELAY := 100 |}.

(** [isMapViewPage()] *)
Definition isMapViewPage : M bool :=
  url ← gets (fun s => href (w_location (window s)));
  pathname ← gets (fun s => pathname (w_location (window s)));
  let isMainObservationsPage :=
    String.eqb pathname "/observations" || String.eqb pathname "/observations/" in
  console_log "[iNat Map Enhancer] URL check:";;
  mret isMainObservationsPage.

(** The template literal [mapStyles] of [applyFullMapHeight]. *)
Definition mapStyles (headerOffset : nat) (obsHeight mapHeight : string) : string :=
  "
    /* Map containers - using iNaturalist's actual selectors */
    body.inat-map-enhanced #obs-container,
    body.inat-map-enhanced #obs-container .container,
    body.inat-map-enhanced #map,
    body.inat-map-enhanced #observations-map {
      height: " +:+ mapHeight +:+ " !important;
    }
    
    /* Break the Bootstrap container constraints for the map area */
    body.inat-map-enhanced #obs-container .container {
      width: 100% !important;
      max-width: 100% !important;
      padding: 0 !important;
      margin: 0 !important;
    }
    
    /* #obs panel - use fixed positioning to break out of container */
    body.inat-map-enhanced #obs {
      height: calc(" +:+ obsHeight +:+ " - 90px) !important;
      max-height: " +:+ obsHeight +:+ " !important;
      overflow-y: auto !important;
      position: fixed !important;
      right: " +:+ pretty (OBS_PANEL_SPACING CONSTANTS) +:+ "px !important;
      top: calc(" +:+ pretty headerOffset +:+ "px + 60px) !important;
      z-index: 1000 !important;
    }
    
    /* Map controls - add 20px margin from left edge */
    body.inat-map-enhanced #map-controls {
      margin-left: 20px !important;
    }
    
    /* Map legend - position at bottom left with 35px from edges */
    body.inat-map-enhanced #map-legend-control {
      position: absolute !important;
      top: calc(" +:+ mapHeight +:+ " - 70px) !important;
      left: 35px !important;
    }
  ".

(** [applyFullMapHeight()] *)
Definition applyFullMapHeight : M unit :=
  console_log "[iNat Map Enhancer] applyFullMapHeight called, stylesApplied:";;
  s ← get;
  if stylesApplied s then
    console_log "[iNat Map Enhancer] Styles already applied, skipping"
  else
    onMapView ← isMapViewPage;
    if negb onMapView then
      console_log "[iNat Map Enhancer] Not a map view page, skipping"
    else
      mapElement ← document_querySelector
        [Simple (ById "map"); Simple (ByClass "leaflet-container")];
      console_log "[iNat Map Enhancer] Map element found:";;
      match mapElement with
      | None => mret tt
      | Some _ =>
          console_log "[iNat Map Enhancer] Applying styles...";;
          let headerOffset := 210 in
          let footerOffset := 190 in
          let obsHeight :=
            "calc(100vh - " +:+ pretty headerOffset +:+ "px - "
              +:+ pretty footerOffset +:+ "px - "
              +:+ pretty (OBS_PANEL_SPACING CONSTANTS * 2) +:+ "px)" in
          let mapHeight :=
            "calc(100vh - " +:+ pretty headerOffset +:+ "px - "
              +:+ pretty footerOffset +:+ "px)" in
          body_classList (classList_add "inat-map-enhanced");;
          injectStyles (mapStyles headerOffset obsHeight mapHeight)
            (STYLE_ID CONSTANTS);;
          modify (with_stylesApplied true);;
          requestAnimationFrame PostPaint
      end.

(** [removeFullMapHeight()] *)
Definition removeFullMapHeight : M unit :=
  styleElement ← document_getElementById (STYLE_ID CONSTANTS);
  (match styleElement with
   | Some n => element_remove n
   | None => mret tt
   end);;
  body_classList (classList_remove "inat-map-enhanced");;
  modify (with_stylesApplied false);;
  s ← get;
  match os_zoom (originalStyles s) with
  | Some zoom =>
      mapElement ← getCachedElement SELECTORS.MAP "map";
      match mapElement with
      | Some _ =>
          leafletMap ← getLeafletMapInstance mapElement;
          match leafletMap with
          | RObj h =>
              isFunction ← typeof_function h SetZoom;
              if (isFunction : bool) then
                try_catch
                  (setZoom h zoom false;;
                   (match os_center (originalStyles s) with
                    | Some center => panTo h center false
                    | None => mret tt
                    end);;
                   invalidateSize h false false)
                  (fun error => console_error "Failed to restore map state:")
              else mret tt
          | _ => mret tt
          end
      | None => mret tt
      end
  | None => mret tt
  end.

Definition onMessage : Message -> Sender -> M bool :=
  onMessage applyFullMapHeight removeFullMapHeight.

Definition init : M unit :=
  init applyFullMapHeight isMapViewPage.

Definition step : State -> event -> State :=
  step CONSTANTS applyFullMapHeight removeFullMapHeight isMapViewPage.

Definition run : State -> list event -> State :=
  run CONSTANTS applyFullMapHeight removeFullMapHeight isMapViewPage.

End Part000.

(** ** A sample page: the observations listing with a mounted map *)

Module Sample.

Definition allMethods : list MapMethod :=
  [GetZoom; SetZoom; GetCenter; PanTo; InvalidateSize; SetMaxBounds;
   SetMinZoom; EachLayer].

Definition tiles : Layer :=
  {| layer_options := Some {| noWrap := false |}; layer_setUrl := true |}.

Definition leaflet (zoom : Q) : LeafletMap :=
  {| lm_methods := allMethods; lm_faulty := [];
     lm_zoom := zoom; lm_center := {| lat := 10%Q; lng := 20%Q |};
     lm_maxBounds := None; lm_minZoom := None;
     lm_layers := [tiles]; lm_invalidations := 0; lm_calls := [] |}.

Definition mapElement : Element :=
  {| el_node := 1%positive;
     el_attrs := {| a_tag := "div"; a_id := "map";
                    a_classes := ["leaflet-container"] |};
     el_ancestors := [];
     el_leaflet_id := Some 7%positive;
     el_textContent := "";
     el_style := ∅ |}.

Definition page (children : list Element) : Document :=
  {| documentElement :=
       Some {| h_head := Some [];
               h_body := Some {| b_classList := []; b_children := children |};
               h_rest := [] |};
     fresh_node := 100%positive |}.

Definition registry : LeafletGlobal :=
  {| L_map := Some {| L_instances := Some {[ 7%positive := 1%positive ]} |} |}.

Definition at_path (url path : string) : Window :=
  {| w_location := {| href := url; pathname := path |};
     w_L := Some registry;
     w_GLOBALS := None;
     w_resizes := 0 |}.

Definition listing : Window :=
  at_path "https://www.inaturalist.org/observations?place_id=any" "/observations".

Definition item : Window :=
  at_path "https://www.inaturalist.org/observations/123" "/observations/123".

Definition extension : string := "inat-map-enhancer".

(** The listing page, map mounted at zoom level [zoom]. *)
Definition session (zoom : Q) : State :=
  loaded (page [mapElement]) listing {[ 1%positive := leaflet zoom ]}
    extension false.

Definition popup : Sender := {| sender_id := Some extension |}.

Definition toggle (on : bool) : Message :=
  {| action := Some "toggleFullMapHeight"; enabled := on |}.

Definition getState : Message :=
  {| action := Some "getState"; enabled := false |}.

(** The user zooms the map [h] to level [z]. *)
Definition userZoom (h : handle) (z : Q) : HostAction :=
  {| on_document := id; on_window := id;
     on_heap := alter (store_zoom z) h |}.

End Sample.

(** ** The two variants side by side, and a driver for direct calls *)

Inductive variant := ContentJs | Part000Js.

Definition constantsOf (v : variant) : Constants :=
  match v with
  | ContentJs => Content.CONSTANTS
  | Part000Js => Part000.CONSTANTS
  end.

Definition applyOf (v : variant) : M unit :=
  match v with
  | ContentJs => Content.applyFullMapHeight
  | Part000Js => Part000.applyFullMapHeight
  end.

Definition removeOf (v : variant) : M unit :=
  match v with
  | ContentJs => Content.removeFullMapHeight
  | Part000Js => Part000.removeFullMapHeight
  end.

Definition pageTestOf (v : variant) : M bool :=
  match v with
  | ContentJs => Content.onObservationsPage
  | Part000Js => Part000.isMapViewPage
  end.

Definition onMessageOf (v : variant) : Message -> Sender -> M bool :=
  onMessage (applyOf v) (removeOf v).

Definition stepOf (v : variant) : State -> event -> State :=
  step (constantsOf v) (applyOf v) (removeOf v) (pageTestOf v).

Definition runOf (v : variant) : State -> list event -> State :=
  run (constantsOf v) (applyOf v) (removeOf v) (pageTestOf v).

(** Direct calls of [apply()] and [remove()], and the next animation frame. *)
Inductive call := Apply | Remove | Frame.

Definition perform (v : variant) (s : State) (c : call) : State :=
  match c with
  | Apply => run_task (applyOf v) s
  | Remove => run_task (removeOf v) s
  | Frame => stepOf v s EFrame
  end.

Definition session (v : variant) (s : State) (calls : list call) : State :=
  fold_left (perform v) calls s.

(** The reserved identifier is the same in both variants. *)
Definition reserved : string := "inat-map-enhancer-styles".

(** Number of nodes of the document that carry the reserved identifier. *)
Definition style_nodes (s : State) : nat :=
  length (List.filter (has_id reserved) (all_elements (document s))).

Definition captured (s : State) : bool :=
  match os_zoom (originalStyles s) with
  | Some _ => true
  | None => false
  end.

(** Number of steps of a session at which the snapshot gets captured. *)
Fixpoint captures (v : variant) (s : State) (calls : list call) : nat :=
  match calls with
  | [] => 0
  | c :: rest =>
      let s' := perform v s c in
      (if negb (captured s) && captured s' then 1 else 0)
      + captures v s' rest
  end.

Definition is_apply (k : call) : bool :=
  match k with
  | Apply => true
  | _ => false
  end.

Definition is_frame (k : call) : bool :=
  match k with
  | Frame => true
  | _ => false
  end.

(** A session of [apply()] calls and animation frames. *)
Definition applying (calls : list call) : Prop :=
  forall k, In k calls -> k = Apply \/ k = Frame.

(** An animation frame comes after the first [apply()] of the session. *)
Fixpoint painted (calls : list call) : bool :=
  match calls with
  | [] => false
  | Apply :: rest => existsb is_frame rest
  | _ :: rest => painted rest
  end.

(** The marker class is on the body. *)
Definition marked (s : State) : bool :=
  match document_body (document s) with
  | Some b => has_class "inat-map-enhanced" (b_classList b)
  | None => false
  end.

(** What [getLeafletMapInstance] finds for an element whose [_leaflet_id] is
    [stamp] (absent when [None]): the registry entry, else the global
    singleton. *)
Definition lookup_instance (w : Window) (stamp : option positive) : jsref :=
  match w_L w with
  | Some L =>
      match stamp, L_map L ≫= L_instances with
      | Some i, Some instances =>
          match instances !! i with
          | Some h => RObj h
          | None => RUndefined
          end
      | _, _ =>
          match w_GLOBALS w ≫= GLOBALS_map with
          | Some h => RObj h
          | None => RNull
          end
      end
  | None => RNull
  end.

(** The page has one map container, the node [n], whose [_leaflet_id] is [i]
    (absent when [None]), and the script resolves it to the object [h],
    through the registry of the library or through the global singleton. *)
Record mounted (s : State) (n : node_id) (i : option positive) (h : handle)
    : Prop := {
  mounted_present : exists e, In e (all_elements (document s)) /\ el_node e = n;
  mounted_only : forall e, In e (all_elements (document s)) ->
                   (has_id "map" e = true <-> el_node e = n);
  mounted_stamp : forall e, In e (all_elements (document s)) ->
                    el_node e = n -> el_leaflet_id e = i;
  mounted_old : (n < fresh_node (document s))%positive;
  mounted_cache : domCache s !! "map" = None \/ domCache s !! "map" = Some n;
  mounted_instance : lookup_instance (window s) i = RObj h
}.

(** The object [o] has every method of the surface and none of them throws. *)
Definition healthy (o : LeafletMap) : Prop :=
  lm_faulty o = [] /\
  forall m, memb m (lm_methods o) = true.

(** The full-earth box of [applyMapBounds]. *)
Definition fullEarth : LatLngBounds :=
  {| southWest := {| lat := -85; lng := -180 |};
     northEast := {| lat := 85; lng := 180 |} |}.

(** ** [debounce(func, delay)], with the clock

    The session model above keeps of the debounced handler only whether a
    timer is pending.  Here the function [debounce] itself is embedded, for
    any [func] and any [delay], together with the timers of the browser that
    it uses: [setTimeout] registers a callback under a fresh identifier, to
    run once the delay has passed; [clearTimeout] drops a registered
    callback and ignores [null] and identifiers that are not registered (any
    more); while time passes the browser runs the callbacks that fall due,
    each one at its deadline, earlier deadlines first.  The callbacks
    registered here are the closures [() => func(...args)]; a call of [func]
    is recorded with its time and its arguments. *)

Module Debounce.
Section Debounce.

Context {Args : Type}.

Variable delay : nat.

Record Timers := {
  now : nat;
  next_timer : positive;
  pending : gmap positive (nat * Args)
}.

(** One debounced function: the timers of the browser, the variable [timer]
    of the closure, and the calls of [func] so far, oldest first. *)
Record Closure := {
  timers : Timers;
  timer : option positive;
  calls : list (nat * Args)
}.

Definition clearTimeout (t : option positive) (ts : Timers) : Timers :=
  match t with
  | Some i => {| now := now ts; next_timer := next_timer ts;
                 pending := delete i (pending ts) |}
  | None => ts
  end.

Definition setTimeout (args : Args) (d : nat) (ts : Timers) : positive * Timers :=
  (next_timer ts,
   {| now := now ts; next_timer := Pos.succ (next_timer ts);
      pending := <[next_timer ts := (now ts + d, args)]> (pending ts) |}).

(** [debounce(func, delay)]: the closure as it is created. *)
Definition debounce (ts : Timers) : Closure :=
  {| timers := ts; timer := None; calls := [] |}.

(** The function [debounce] returns, called with [args]. *)
Definition executedFunction (args : Args) (c : Closure) : Closure :=
  let ts := clearTimeout (timer c) (timers c) in
  let (i, ts') := setTimeout args delay ts in
  {| timers := ts'; timer := Some i; calls := calls c |}.

Definition earlier (x y : positive * (nat * Args)) : Prop := x.2.1 <= y.2.1.

#[local] Instance earlier_dec : RelDecision earlier :=
  fun x y => decide (x.2.1 <= y.2.1).

(** The callbacks that are due at time [t], earliest deadline first. *)
Definition due (t : nat) (ts : Timers) : list (positive * (nat * Args)) :=
  merge_sort earlier
    (List.filter (fun x => x.2.1 <=? t) (map_to_list (pending ts))).

(** The browser runs the callback registered under [x.1]: [func(...args)]. *)
Definition fire (c : Closure) (x : positive * (nat * Args)) : Closure :=
  {| timers := {| now := now (timers c); next_timer := next_timer (timers c);
                  pending := delete x.1 (pending (timers c)) |};
     timer := timer c;
     calls := calls c ++ [x.2] |}.

(** [ms] milliseconds pass. *)
Definition wait (ms : nat) (c : Closure) : Closure :=
  let c' := fold_left fire (due (now (timers c) + ms) (timers c)) c in
  {| timers := {| now := now (timers c) + ms;
                  next_timer := next_timer (timers c');
                  pending := pending (timers c') |};
     timer := timer c';
     calls := calls c' |}.

Inductive event :=
| Call (args : Args)
| Wait (ms : nat).

Definition step (c : Closure) (e : event) : Closure :=
  match e with
  | Call args => executedFunction args c
  | Wait ms => wait ms c
  end.

Definition run (c : Closure) (events : list event) : Closure :=
  fold_left step events c.

End Debounce.
End Debounce.


(** ** The popup (popup.js)

    The popup runs in a document of its own, [popup.html], and reaches the
    rest through the extension API: [chrome.tabs.query],
    [chrome.tabs.sendMessage], [chrome.tabs.reload] and
    [chrome.storage.sync].  The state below holds the popup's document and
    variables and what the browser answers.  A message goes to the content
    script of the addressed tab, embedded above: its listener runs on the
    state of that page and its response comes back.

    The asynchronous functions are embedded run to completion: a promise
    that is awaited gives its value or throws its rejection, and the
    answers of the browser arrive before the next event of the popup. *)

Module Popup.

(** A content script in a tab: the variant that is installed and the state of
    the page session. *)
Definition ContentScript : Type := variant * State.

Record Constants := {
  DEFAULT_ENABLED : bool;
  STATUS_MESSAGE_DURATION : nat;
  INAT_URL_PATTERN : string
}.

Definition CONSTANTS : Constants :=
  {| DEFAULT_ENABLED := true;
     STATUS_MESSAGE_DURATION := 2000;
     INAT_URL_PATTERN := "inaturalist.org/observations" |}.

Inductive Listener := HandleToggleChange | HandleReloadClick.

(** An element of [popup.html], with the properties the script uses. *)
Record Element := {
  textContent : string;
  className : string;
  opacity : string;
  checked : bool;
  listeners : list (string * Listener)
}.

(** The variable [dom]: each field is [null] or the element with that id. *)
Record Dom := {
  toggle : option string;
  statusIndicator : option string;
  statusMessage : option string;
  reloadButton : option string
}.

Record Tab := {
  tab_id : nat;
  tab_url : option string
}.

Record State := {
  document : gmap string Element;
  dom : Dom;
  now : nat;
  (** deadlines of the callbacks [showStatusMessage] has registered *)
  timeouts : list nat;
  (** [chrome.storage.sync] *)
  storage : gmap string bool;
  (** when set, the call throws or its callback finds
      [chrome.runtime.lastError]: the promise is rejected with the error *)
  storage_get_fault : option JsError;
  storage_set_fault : option JsError;
  tabs_fault : option JsError;
  send_fault : option JsError;
  (** what [chrome.tabs.query] hands to its callback *)
  tabs : option (list Tab);
  (** the content scripts that listen, by tab *)
  scripts : gmap nat ContentScript;
  reloaded : list nat
}.

Definition with_document (f : gmap string Element -> gmap string Element)
    (s : State) : State :=
  {| document := f (document s); dom := dom s; now := now s;
     timeouts := timeouts s; storage := storage s;
     storage_get_fault := storage_get_fault s;
     storage_set_fault := storage_set_fault s; tabs_fault := tabs_fault s;
     send_fault := send_fault s; tabs := tabs s; scripts := scripts s;
     reloaded := reloaded s |}.

Definition with_dom (f : Dom -> Dom) (s : State) : State :=
  {| document := document s; dom := f (dom s); now := now s;
     timeouts := timeouts s; storage := storage s;
     storage_get_fault := storage_get_fault s;
     storage_set_fault := storage_set_fault s; tabs_fault := tabs_fault s;
     send_fault := send_fault s; tabs := tabs s; scripts := scripts s;
     reloaded := reloaded s |}.

Definition with_clock (t : nat) (pending : list nat) (s : State) : State :=
  {| document := document s; dom := dom s; now := t;
     timeouts := pending; storage := storage s;
     storage_get_fault := storage_get_fault s;
     storage_set_fault := storage_set_fault s; tabs_fault := tabs_fault s;
     send_fault := send_fault s; tabs := tabs s; scripts := scripts s;
     reloaded := reloaded s |}.

Definition with_storage (f : gmap string bool -> gmap string bool)
    (s : State) : State :=
  {| document := document s; dom := dom s; now := now s;
     timeouts := timeouts s; storage := f (storage s);
     storage_get_fault := storage_get_fault s;
     storage_set_fault := storage_set_fault s; tabs_fault := tabs_fault s;
     send_fault := send_fault s; tabs := tabs s; scripts := scripts s;
     reloaded := reloaded s |}.

Definition with_scripts (f : gmap nat ContentScript -> gmap nat ContentScript)
    (s : State) : State :=
  {| document := document s; dom := dom s; now := now s;
     timeouts := timeouts s; storage := storage s;
     storage_get_fault := storage_get_fault s;
     storage_set_fault := storage_set_fault s; tabs_fault := tabs_fault s;
     send_fault := send_fault s; tabs := tabs s; scripts := f (scripts s);
     reloaded := reloaded s |}.

Definition with_reloaded (f : list nat -> list nat) (s : State) : State :=
  {| document := document s; dom := dom s; now := now s;
     timeouts := timeouts s; storage := storage s;
     storage_get_fault := storage_get_fault s;
     storage_set_fault := storage_set_fault s; tabs_fault := tabs_fault s;
     send_fault := send_fault s; tabs := tabs s; scripts := scripts s;
     reloaded := f (reloaded s) |}.

(** The monad of the popup: state and exceptions. *)
Definition P (A : Type) : Type := State -> Completion A * State.

#[global] Instance P_ret : MRet P := fun A a s => (Normal a, s).

#[global] Instance P_bind : MBind P := fun A B f m s =>
  match m s with
  | (Normal a, s') => f a s'
  | (Thrown e, s') => (Thrown e, s')
  end.

Definition get : P State := fun s => (Normal s, s).

Definition modify (f : State -> State) : P unit := fun s => (Normal tt, f s).

Definition throw {A} (error : JsError) : P A := fun s => (Thrown error, s).

(** [try { body } catch (error) { handler(error) }] *)
Definition try_catch {A} (body : P A) (handler : JsError -> P A) : P A :=
  fun s =>
    match body s with
    | (Normal a, s') => (Normal a, s')
    | (Thrown e, s') => handler e s'
    end.

Definition run_task (m : P unit) (s : State) : State := (m s).2.

Definition console_error (msg : string) : P unit := mret tt.

(** [document.getElementById(id)] *)
Definition getElementById (id : string) : P (option string) :=
  s ← get;
  mret (match document s !! id with
        | Some _ => Some id
        | None => None
        end).

(** An assignment to a property of [reference]; of [null] it throws. *)
Definition assign (reference : option string) (property : string)
    (f : Element -> Element) : P unit :=
  match reference with
  | Some id => modify (with_document (alter f id))
  | None =>
      throw {| error_message :=
                 "Cannot set properties of null (setting '" +:+ property +:+ "')" |}
  end.

Definition set_textContent (v : string) (e : Element) : Element :=
  {| textContent := v; className := className e; opacity := opacity e;
     checked := checked e; listeners := listeners e |}.

Definition set_className (v : string) (e : Element) : Element :=
  {| textContent := textContent e; className := v; opacity := opacity e;
     checked := checked e; listeners := listeners e |}.

Definition set_opacity (v : string) (e : Element) : Element :=
  {| textContent := textContent e; className := className e; opacity := v;
     checked := checked e; listeners := listeners e |}.

Definition set_checked (v : bool) (e : Element) : Element :=
  {| textContent := textContent e; className := className e;
     opacity := opacity e; checked := v; listeners := listeners e |}.

Definition add_listener (type : string) (l : Listener) (e : Element) : Element :=
  {| textContent := textContent e; className := className e;
     opacity := opacity e; checked := checked e;
     listeners := listeners e ++ [(type, l)] |}.

(** [isINatObservationsPage(url)], as the truth value its callers use: an
    undefined or empty [url] is falsy. *)
Definition isINatObservationsPage (url : option string) : bool :=
  match url with
  | Some u => negb (String.eqb u "") && includes (INAT_URL_PATTERN CONSTANTS) u
  | None => false
  end.

(** [updateStatus(active)] *)
Definition updateStatus (active : bool) : P unit :=
  s ← get;
  match statusIndicator (dom s) with
  | Some _ =>
      assign (statusIndicator (dom s)) "textContent"
        (set_textContent (if active then "Active on this page"
                          else "Not active on this page"));;
      assign (statusIndicator (dom s)) "className"
        (set_className (if active then "status active" else "status inactive"))
  | None => mret tt
  end.

(** [setTimeout(() => { dom.statusMessage.style.opacity = '0'; }, delay)] *)
Definition setTimeout (delay : nat) : P unit :=
  modify (fun s => with_clock (now s) (timeouts s ++ [now s + delay]) s).

(** [showStatusMessage(message)] *)
Definition showStatusMessage (message : string) : P unit :=
  s ← get;
  match statusMessage (dom s) with
  | None => mret tt
  | Some _ =>
      assign (statusMessage (dom s)) "textContent" (set_textContent message);;
      assign (statusMessage (dom s)) "opacity" (set_opacity "1");;
      setTimeout (STATUS_MESSAGE_DURATION CONSTANTS)
  end.

(** [await getStorageValue(key)] *)
Definition getStorageValue (key : string) : P (option bool) :=
  s ← get;
  match storage_get_fault s with
  | Some error => throw error
  | None => mret (storage s !! key)
  end.

(** [await setStorageValue(key, value)] *)
Definition setStorageValue (key : string) (value : bool) : P unit :=
  s ← get;
  match storage_set_fault s with
  | Some error => throw error
  | None => modify (with_storage <[key := value]>)
  end.

(** [await getActiveTab()] *)
Definition getActiveTab : P Tab :=
  s ← get;
  match tabs_fault s with
  | Some error => throw error
  | None =>
      match tabs s with
      | Some (tab :: _) => mret tab
      | _ => throw {| error_message := "No active tab found" |}
      end
  end.

(** [await sendMessageToTab(tabId, message)].  The listener of the content
    script in that tab runs, the popup being the sender; without a content
    script in the tab, and when the listener gives no response, the browser
    sets [chrome.runtime.lastError]. *)
Definition sendMessageToTab (tabId : nat) (message : Message)
    : P (option Response) :=
  s ← get;
  match send_fault s with
  | Some error => throw error
  | None =>
      match scripts s !! tabId with
      | None =>
          throw {| error_message :=
                     "Could not establish connection. Receiving end does not exist." |}
      | Some (v, page) =>
          let sender := {| sender_id := Some (runtime_id page) |} in
          let page' := (onMessageOf v message sender page).2 in
          modify (with_scripts <[tabId := (v, page')]>);;
          match outbox page' !! length (outbox page) with
          | Some response => mret (Some response)
          | None =>
              throw {| error_message :=
                         "The message port closed before a response was received." |}
          end
      end
  end.

(** [chrome.tabs.reload(tabId)] *)
Definition tabs_reload (tabId : nat) : P unit :=
  modify (with_reloaded (fun l => l ++ [tabId])).

(** [dom.toggle.checked], read; of [null] it throws. *)
Definition toggle_checked : P bool :=
  s ← get;
  match toggle (dom s) with
  | Some id =>
      mret (match document s !! id with
            | Some e => checked e
            | None => false
            end)
  | None =>
      throw {| error_message :=
                 "Cannot read properties of null (reading 'checked')" |}
  end.

(** [loadToggleState()].  The inner [try] block gives [true] when it has
    left the function with [return]. *)
Definition loadToggleState : P unit :=
  try_catch
    (tab ← getActiveTab;
     let isOnINatPage := isINatObservationsPage (tab_url tab) in
     updateStatus isOnINatPage;;
     returned ←
       (if isOnINatPage then
          try_catch
            (response ← sendMessageToTab (tab_id tab)
                          {| action := Some "getState"; enabled := false |};
             match response with
             | Some (RespState value) =>
                 s ← get;
                 assign (toggle (dom s)) "checked" (set_checked value);;
                 mret true
             | _ => mret false
             end)
            (fun error => mret false)
        else mret false);
     if (returned : bool) then mret tt
     else
       storedValue ← getStorageValue "fullMapHeight";
       s ← get;
       assign (toggle (dom s)) "checked"
         (set_checked (match storedValue with
                       | Some value => value
                       | None => DEFAULT_ENABLED CONSTANTS
                       end));;
       match storedValue with
       | None => setStorageValue "fullMapHeight" (DEFAULT_ENABLED CONSTANTS)
       | Some _ => mret tt
       end)
    (fun error =>
       console_error "Failed to load toggle state:";;
       s ← get;
       assign (toggle (dom s)) "checked" (set_checked (DEFAULT_ENABLED CONSTANTS))).

(** [handleToggleChange()] *)
Definition handleToggleChange : P unit :=
  isEnabled ← toggle_checked;
  try_catch
    (setStorageValue "fullMapHeight" isEnabled;;
     tab ← getActiveTab;
     if isINatObservationsPage (tab_url tab) then
       try_catch
         (response ← sendMessageToTab (tab_id tab)
                       {| action := Some "toggleFullMapHeight";
                          enabled := isEnabled |};
          match response with
          | Some RespSuccess =>
              showStatusMessage (if (isEnabled : bool)
                                 then "Map height increased!"
                                 else "Map height restored")
          | Some (RespFailure error) =>
              if String.eqb error "" then mret tt
              else
                console_error "Content script error:";;
                showStatusMessage ("Error: " +:+ error)
          | _ => mret tt
          end)
         (fun error =>
            console_error "Failed to send message to tab:";;
            showStatusMessage "Please reload the page")
     else mret tt)
    (fun error =>
       console_error "Failed to handle toggle change:";;
       showStatusMessage "Error saving settings").

(** [handleReloadClick()] *)
Definition handleReloadClick : P unit :=
  try_catch
    (tab ← getActiveTab;
     tabs_reload (tab_id tab))
    (fun error => console_error "Failed to reload tab:").

(** A call of an asynchronous function that is not awaited: a rejection
    stays with the promise. *)
Definition detached (m : P unit) : P unit :=
  fun s => (Normal tt, (m s).2).

(** [element.addEventListener(type, listener)] *)
Definition addEventListener (reference : option string) (type : string)
    (l : Listener) : P unit :=
  match reference with
  | Some id => modify (with_document (alter (add_listener type l) id))
  | None =>
      throw {| error_message :=
                 "Cannot read properties of null (reading 'addEventListener')" |}
  end.

(** [init()] *)
Definition init : P unit :=
  toggle' ← getElementById "fullMapHeight";
  statusIndicator' ← getElementById "status-indicator";
  statusMessage' ← getElementById "status-message";
  reloadButton' ← getElementById "reload-page";
  modify (with_dom (fun _ =>
    {| toggle := toggle'; statusIndicator := statusIndicator';
       statusMessage := statusMessage'; reloadButton := reloadButton' |}));;
  match toggle' with
  | None => console_error "Required DOM elements not found"
  | Some _ =>
      detached loadToggleState;;
      addEventListener toggle' "change" HandleToggleChange;;
      match reloadButton' with
      | Some _ => addEventListener reloadButton' "click" HandleReloadClick
      | None => mret tt
      end
  end.

Definition listener (l : Listener) : P unit :=
  match l with
  | HandleToggleChange => handleToggleChange
  | HandleReloadClick => handleReloadClick
  end.

(** The event [type] at the element [id]: its listeners run in the order in
    which they were added. *)
Definition dispatch (id type : string) (s : State) : State :=
  match document s !! id with
  | Some e =>
      fold_left (fun s' l => if String.eqb l.1 type
                             then run_task (listener l.2) s' else s')
        (listeners e) s
  | None => s
  end.

(** The callback of [showStatusMessage] runs. *)
Definition hideStatusMessage : P unit :=
  s ← get;
  assign (statusMessage (dom s)) "opacity" (set_opacity "0").

(** [ms] milliseconds pass: the callbacks that fall due run. *)
Definition elapse (ms : nat) (s : State) : State :=
  let t := now s + ms in
  let due := List.filter (fun deadline => deadline <=? t) (timeouts s) in
  let rest := List.filter (fun deadline => negb (deadline <=? t)) (timeouts s) in
  fold_left (fun s' _ => run_task hideStatusMessage s') due
    (with_clock t rest s).

Inductive event :=
| DOMContentLoaded
| Toggles
| ClicksReload
| Elapses (ms : nat).

(** The popup opens; the user clicks the checkbox, which changes its state
    and raises [change]; the user clicks the reload button; time passes. *)
Definition step (s : State) (e : event) : State :=
  match e with
  | DOMContentLoaded => run_task init s
  | Toggles =>
      dispatch "fullMapHeight" "change"
        (with_document
           (alter (fun e => set_checked (negb (checked e)) e) "fullMapHeight") s)
  | ClicksReload => dispatch "reload-page" "click" s
  | Elapses ms => elapse ms s
  end.

Definition run (s : State) (events : list event) : State :=
  fold_left step events s.

End Popup.

(** * Definitions used by the statements and the proofs *)

(** [keeps proj m]: the computation [m] leaves the component [proj] of the
    state as it found it, whether it returns or throws. *)
Definition keeps {A B} (proj : State -> B) (m : M A) : Prop :=
  forall s, proj (m s).2 = proj s.

(** [preserves P m]: [P] holds after [m] when it held before. *)
Definition preserves {A} (P : State -> Prop) (m : M A) : Prop :=
  forall s, P s -> P (m s).2.

Definition snapshot_is (z : Q) (c : option LatLng) (o : OriginalStyles) : Prop :=
  os_zoom o = Some z /\ os_center o = c.

Definition snap (z : Q) (c : option LatLng) (s : State) : Prop :=
  snapshot_is z c (originalStyles s).

Definition single (s : State) : Prop := (style_nodes s <= 1)%nat.

(** A host that never creates a node under the reserved identifier. *)
Definition courteous (e : event) : Prop :=
  match e with
  | EHost a => forall d, (length (List.filter (has_id reserved) (all_elements (on_document a d)))
                          <= length (List.filter (has_id reserved) (all_elements d)))%nat
  | _ => True
  end.

Definition applied (s : State) : Prop := stylesApplied s = true.

(** The instance after [applyMapBounds]. *)
Definition bounded (o : LeafletMap) : LeafletMap :=
  record_call CallEachLayer
    (store_layers mark_noWrap
       (record_call (CallSetMinZoom 2)
          (store_minZoom 2
             (record_call (CallSetMaxBounds fullEarth)
                (store_maxBounds fullEarth o))))).

(** The instance after the two reads that take the snapshot. *)
Definition probed (o : LeafletMap) : LeafletMap :=
  record_call CallGetCenter (record_call CallGetZoom o).

(** The instance after the zoom adjustment of [adjustMapZoom]. *)
Definition fitted (K : Constants) (o : LeafletMap) : LeafletMap :=
  let o1 := record_call CallGetZoom o in
  let o2 :=
    if gt_number (lm_zoom o) (MIN_ZOOM_LEVEL K) then
      record_call (CallSetZoom (lm_zoom o - ZOOM_ADJUSTMENT K) false)
        (store_zoom (lm_zoom o - ZOOM_ADJUSTMENT K) o1)
    else o1 in
  record_call (CallInvalidateSize false false) (store_invalidation o2).

(** The instance after the restore of [removeFullMapHeight]. *)
Definition restored (z : Q) (c : option LatLng) (o : LeafletMap) : LeafletMap :=
  let o1 := record_call (CallSetZoom z false) (store_zoom z o) in
  let o2 :=
    match c with
    | Some center => record_call (CallPanTo center false) (store_center center o1)
    | None => o1
    end in
  record_call (CallInvalidateSize false false) (store_invalidation o2).

(** The snapshot [adjustMapZoom] leaves, given the instance it reads. *)
Definition snapshot (o : LeafletMap) (os : OriginalStyles) : OriginalStyles :=
  match os_zoom os with
  | None => capture_center (lm_center o) (capture_zoom (lm_zoom o) os)
  | Some _ => os
  end.

Definition returns {A} (m : M A) : Prop :=
  forall s, exists a, (m s).1 = Normal a.

(** The state after the first two statements of [injectStyles]. *)
Definition deleted (i : string) (s : State) : State :=
  match dom_getElementById i (document s) with
  | Some n => with_document (dom_remove n) s
  | None => s
  end.

(** The remaining statements of [injectStyles]. *)
Definition appendStyle (css i : string) : M unit :=
  style ← document_createElement "style";
  let style := set_id i style in
  let style := set_textContent css style in
  s ← get;
  match document_head (document s) with
  | Some _ => head_appendChild style
  | None => documentElement_appendChild style
  end.

Definition listing_path (s : State) : Prop :=
  pathname (w_location (window s)) = "/observations"
  \/ pathname (w_location (window s)) = "/observations/".

(** What the variant asks of the page before it injects anything. *)
Definition ready (v : variant) (s : State) : Prop :=
  match v with
  | ContentJs => True
  | Part000Js => listing_path s /\ is_Some (document_body (document s))
  end.

(** The last statement of [removeFullMapHeight]: the restore. *)
Definition restoreViewport : M unit :=
  s ← get;
  match os_zoom (originalStyles s) with
  | Some zoom =>
      mapElement ← getCachedElement SELECTORS.MAP "map";
      match mapElement with
      | Some _ =>
          leafletMap ← getLeafletMapInstance mapElement;
          match leafletMap with
          | RObj h =>
              isFunction ← typeof_function h SetZoom;
              if (isFunction : bool) then
                try_catch
                  (setZoom h zoom false;;
                   (match os_center (originalStyles s) with
                    | Some center => panTo h center false
                    | None => mret tt
                    end);;
                   invalidateSize h false false)
                  (fun error => console_error "Failed to restore map state:")
              else mret tt
          | _ => mret tt
          end
      | None => mret tt
      end
  | None => mret tt
  end.

(** A page without body, the map container directly under the root. *)
Definition bodiless : State :=
  loaded
    {| documentElement :=
         Some {| h_head := Some []; h_body := None;
                 h_rest := [Sample.mapElement] |};
       fresh_node := 100%positive |}
    Sample.listing {[ 1%positive := Sample.leaflet 5 ]} Sample.extension false.

Definition with_GLOBALS (g : option Globals) (s : State) : State :=
  with_window (fun w => {| w_location := w_location w; w_L := w_L w;
                           w_GLOBALS := g; w_resizes := w_resizes w |}) s.

(** The sample page with an empty registry and a global singleton. *)
Definition unregistered : State :=
  loaded (Sample.page [Sample.mapElement])
    {| w_location := {| href := "https://www.inaturalist.org/observations";
                        pathname := "/observations" |};
       w_L := Some {| L_map := Some {| L_instances := Some ∅ |} |};
       w_GLOBALS := Some {| GLOBALS_map := Some 1%positive |};
       w_resizes := 0 |}
    {[ 1%positive := Sample.leaflet 5 ]} Sample.extension false.

Definition anchor : selector :=
  [Simple (ById "map"); Simple (ByClass "leaflet-container")].

(** The page of one observation, without any map container. *)
Definition itemPage : State :=
  loaded (Sample.page []) Sample.item ∅ Sample.extension false.

Definition mountedb (s : State) (n : node_id) (i : option positive)
    (h : handle) : bool :=
  let elements := all_elements (document s) in
  existsb (is_node n) elements
  && forallb (fun e => Bool.eqb (has_id "map" e) (is_node n e)) elements
  && forallb (fun e => implb (is_node n e)
                         (bool_decide (el_leaflet_id e = i))) elements
  && Pos.ltb n (fresh_node (document s))
  && match domCache s !! "map" with
     | None => true
     | Some c => Pos.eqb c n
     end
  && match lookup_instance (window s) i with
     | RObj h' => Pos.eqb h' h
     | _ => false
     end.

Definition healthyb (o : LeafletMap) : bool :=
  match lm_faulty o with
  | [] => forallb (fun m => memb m (lm_methods o))
            [GetZoom; SetZoom; GetCenter; PanTo; InvalidateSize; SetMaxBounds;
             SetMinZoom; EachLayer]
  | _ => false
  end.

Definition cycle : list event :=
  [ EMessage (Sample.toggle true) Sample.popup; EFrame;
    EMessage (Sample.toggle false) Sample.popup;
    EHost (Sample.userZoom 1%positive 8);
    EMessage (Sample.toggle true) Sample.popup; EFrame ].

(** The sample session after the first [apply()] and a zoom of the user to
    level 8 that arrives before the animation frame of that [apply()]. *)
Definition zoomedEarly (v : variant) : State :=
  stepOf v (perform v (Sample.session 5) Apply)
    (EHost (Sample.userZoom 1%positive 8)).

(** The sample session after [apply()], its frame, [remove()], and a zoom of
    the user to level 8: the styles are not applied. *)
Definition idleZoomed : State :=
  Content.run (Sample.session 5)
    [ EMessage (Sample.toggle true) Sample.popup; EFrame;
      EMessage (Sample.toggle false) Sample.popup;
      EHost (Sample.userZoom 1%positive 8) ].

(** A batch of mutation records carries the signal the observer waits for:
    a [childList] record with an added element that is the map container,
    has the class of the library's root, or contains such a node. *)
Definition signals (mutations : list MutationRecord) : bool :=
  existsb (fun m => match m_type m with
                    | ChildList => existsb qualifies (m_addedNodes m)
                    | _ => false
                    end) mutations.

(** What the page shows of the overlay: the number of style nodes under the
    reserved identifier, the marker class of the body, and the flag. *)
Definition overlay (s : State) : nat * bool * bool :=
  (style_nodes s, marked s, stylesApplied s).

(** Events of the observer path: mutation batches and expiries of the
    debounce timer. *)
Definition observerPath (e : event) : Prop :=
  match e with
  | EMutations _ | ETimer => True
  | _ => False
  end.

(** The element [injectStyles] creates: a [style] element, node [n], with
    the identifier and the text it is given. *)
Definition styleElement (css i : string) (n : node_id) : Element :=
  {| el_node := n;
     el_attrs := {| a_tag := "style"; a_id := i; a_classes := [] |};
     el_ancestors := [];
     el_leaflet_id := None;
     el_textContent := css;
     el_style := ∅ |}.

(** The text [applyFullMapHeight] hands to [injectStyles]. *)
Definition styleSheetOf (v : variant) : string :=
  match v with
  | ContentJs => Content.mapStyles
  | Part000Js =>
      Part000.mapStyles 210
        ("calc(100vh - " +:+ pretty 210 +:+ "px - " +:+ pretty 190 +:+ "px - "
           +:+ pretty (OBS_PANEL_SPACING Part000.CONSTANTS * 2) +:+ "px)")
        ("calc(100vh - " +:+ pretty 210 +:+ "px - " +:+ pretty 190 +:+ "px)")
  end.

(** The overlay is either fully in place or fully absent: the style node is
    there exactly when the flag is set and, in the second variant, so is the
    marker class. *)
Definition consistent (v : variant) (s : State) : Prop :=
  style_nodes s = (if stylesApplied s then 1 else 0)%nat
  /\ (v = Part000Js -> marked s = stylesApplied s).

(** A host that leaves the style node and the marker class of the extension
    alone. *)
Definition discreet (e : event) : Prop :=
  match e with
  | EHost a =>
      forall d,
        length (List.filter (has_id reserved) (all_elements (on_document a d)))
        = length (List.filter (has_id reserved) (all_elements d))
        /\ (has_class "inat-map-enhanced" <$> (b_classList <$> document_body (on_document a d)))
           = (has_class "inat-map-enhanced" <$> (b_classList <$> document_body d))
  | _ => True
  end.

(** [k] rounds of the observer path: a batch of mutations arrives, then the
    debounce timer expires. *)
Fixpoint rounds (mutations : list MutationRecord) (k : nat) : list event :=
  match k with
  | O => []
  | S k' => EMutations mutations :: ETimer :: rounds mutations k'
  end.

(** The page has a mounted map that resolves to a healthy instance, the
    extension is enabled, the observer runs and the styles are not applied. *)
Record watching (s : State) (n : node_id) (i : option positive) (h : handle)
    : Prop := {
  watching_mounted : mounted s n i h;
  watching_healthy : exists o, heap s !! h = Some o /\ healthy o;
  watching_enabled : fullMapHeight (config s) = true;
  watching_observing : observing s = true;
  watching_idle : stylesApplied s = false
}.

(** A batch of mutations in which the map container is added. *)
Definition mapAdded : list MutationRecord :=
  [ {| m_type := ChildList;
       m_addedNodes := [ {| n_isElement := true; n_id := "map";
                            n_classList := ["leaflet-container"];
                            n_has_leaflet_descendant := false |} ] |} ].

(** The page of one observation, with a map on it, after the start of the
    second variant of the script. *)
Definition itemWithMap : State :=
  Part000.run
    (loaded (Sample.page [Sample.mapElement]) Sample.item
       {[ 1%positive := Sample.leaflet 5 ]} Sample.extension false)
    [EInit].

(** An instance with every method, whose [getCenter] throws. *)
Definition flaky (zoom : Q) : LeafletMap :=
  {| lm_methods := Sample.allMethods; lm_faulty := [GetCenter];
     lm_zoom := zoom; lm_center := {| lat := 10%Q; lng := 20%Q |};
     lm_maxBounds := None; lm_minZoom := None;
     lm_layers := [Sample.tiles]; lm_invalidations := 0; lm_calls := [] |}.

(** The sample page with that instance behind the map. *)
Definition flakySession (zoom : Q) : State :=
  loaded (Sample.page [Sample.mapElement]) Sample.listing
    {[ 1%positive := flaky zoom ]} Sample.extension false.

(** The first node, in the order of the list of selectors, that one of them
    finds. *)
Fixpoint first_match (selectors : list selector) (d : Document)
    : option node_id :=
  match selectors with
  | [] => None
  | sel :: rest =>
      match dom_querySelector sel d with
      | Some n => Some n
      | None => first_match rest d
      end
  end.

(** The object [styles] of [applyObsPanelStyles] and the object
    [controlStyles] of [repositionObservationCards]. *)
Definition panelStyles (K : Constants) : list (string * string) :=
    [ ("position", "absolute");
      ("top", px (OBS_PANEL_SPACING K));
      ("bottom", px (OBS_PANEL_SPACING K));
      ("right", px (OBS_PANEL_SPACING K));
      ("width", px (OBS_PANEL_WIDTH K));
      ("maxHeight", "calc(100% - " +:+ px (OBS_PANEL_SPACING K * 2) +:+ ")");
      ("overflowY", "auto");
      ("zIndex", "1000");
      ("background", "white");
      ("borderRadius", "8px");
      ("boxShadow", "0 0 10px rgba(0, 0, 0, 0.2)") ].

Definition controlStyles : list (string * string) :=
    [ ("position", "absolute");
      ("left", "10px");
      ("top", "10px");
      ("zIndex", "1000");
      ("backgroundColor", "rgba(255, 255, 255, 0.8)");
      ("borderRadius", "4px");
      ("padding", "5px") ].

(** The style properties that the assignment of [styles] declares: the
    properties of [styles], a shorthand counted by its longhands. *)
Definition declared (styles : list (string * string)) : list string :=
  (styles ≫= fun assignment => declarations assignment.1 assignment.2).*1.

(** What [repositionObservationCards] makes of an element, given the panel
    and the controls it found. *)
Definition restyled (K : Constants) (panel controls : option node_id)
    (e : Element) : Element :=
  let e1 := match panel with
            | Some p => if is_node p e then assign_style (panelStyles K) e else e
            | None => e
            end in
  match controls with
  | Some c => if is_node c e1 then assign_style controlStyles e1 else e1
  | None => e1
  end.

(** The page test of [init], as a function of the window. *)
Definition onPage (v : variant) (w : Window) : bool :=
  match v with
  | ContentJs => includes "inaturalist.org/observations" (href (w_location w))
  | Part000Js =>
      String.eqb (pathname (w_location w)) "/observations"
      || String.eqb (pathname (w_location w)) "/observations/"
  end.

(** The two orders in which the start of the script can unfold: the answer
    of the storage arrives before the first animation frame, or after it. *)
Definition answerFirst (r : StorageResult) : list event :=
  [EInit; EStorage r; EFrame; EFrame].

Definition frameFirst (r : StorageResult) : list event :=
  [EInit; EFrame; EStorage r; EFrame].

(** The styles are not applied and nothing of the overlay is on the page;
    the map is mounted and resolves to the healthy instance [o]; the
    extension is enabled. *)
Record idle_at (v : variant) (s : State) (n : node_id) (i : option positive)
    (h : handle) (o : LeafletMap) : Prop := {
  idle_mounted : mounted s n i h;
  idle_heap : heap s !! h = Some o;
  idle_healthy : healthy o;
  idle_ready : ready v s;
  idle_clean : style_nodes s = 0%nat;
  idle_unmarked : marked s = false;
  idle_flag : stylesApplied s = false;
  idle_uncaptured : os_zoom (originalStyles s) = None
}.

(** The styles are applied, the post-paint callback has not run yet. *)
Record applied_at (v : variant) (s : State) (n : node_id)
    (i : option positive) (h : handle) (o : LeafletMap) : Prop := {
  applied_mounted : mounted s n i h;
  applied_heap : heap s !! h = Some o;
  applied_healthy : healthy o;
  applied_body : v = Part000Js -> is_Some (document_body (document s));
  applied_node : style_nodes s = 1%nat;
  applied_flag : stylesApplied s = true;
  applied_uncaptured : os_zoom (originalStyles s) = None
}.

(** The post-paint callback has fitted the viewport of the instance that
    was [o] and has taken the snapshot. *)
Record fitted_at (v : variant) (s : State) (n : node_id)
    (i : option positive) (h : handle) (o : LeafletMap) : Prop := {
  fitted_mounted : mounted s n i h;
  fitted_heap :
    heap s !! h = Some (fitted (constantsOf v) (probed (bounded o)));
  fitted_snapshot : snap (lm_zoom o) (Some (lm_center o)) s;
  fitted_body : v = Part000Js -> is_Some (document_body (document s))
}.

(** The overlay is applied and the one post-paint callback has run. *)
Record settled (v : variant) (s : State) (n : node_id) (i : option positive)
    (h : handle) (o : LeafletMap) : Prop := {
  settled_fitted : fitted_at v s n i h o;
  settled_flag : stylesApplied s = true;
  settled_node : style_nodes s = 1%nat;
  settled_frames : frames s = [];
  settled_config : fullMapHeight (config s) = true
}.

(** Trailing-edge debouncing with one slot: [slot] holds the call that is
    pending, with its deadline; a call replaces it; a wait that reaches the
    deadline runs it, at the deadline. *)
Fixpoint trailing {Args} (delay clock : nat) (slot : option (nat * Args))
    (events : list (@Debounce.event Args)) : list (nat * Args) :=
  match events with
  | [] => []
  | Debounce.Call args :: rest =>
      trailing delay clock (Some (clock + delay, args)) rest
  | Debounce.Wait ms :: rest =>
      match slot with
      | Some (deadline, args) =>
          if deadline <=? clock + ms
          then (deadline, args) :: trailing delay (clock + ms) None rest
          else trailing delay (clock + ms) slot rest
      | None => trailing delay (clock + ms) None rest
      end
  end.

(** The timers of the browser hold the callback of [slot] and no other. *)
Definition slotted {Args} (c : @Debounce.Closure Args)
    (slot : option (nat * Args)) : Prop :=
  match slot with
  | Some x =>
      exists i, Debounce.timer c = Some i
                /\ Debounce.pending (Debounce.timers c) = {[ i := x ]}
  | None => Debounce.pending (Debounce.timers c) = ∅
  end.

(** A burst of calls: before each call, the time that has passed since the
    previous one. *)
Fixpoint burst {Args} (l : list (nat * Args)) : list (@Debounce.event Args) :=
  match l with
  | [] => []
  | (gap, args) :: rest => Debounce.Wait gap :: Debounce.Call args :: burst rest
  end.

(** *** What the popup shows *)

(** The state of the checkbox. *)
Definition toggled (s : Popup.State) : option bool :=
  t ← Popup.toggle (Popup.dom s);
  Popup.checked <$> Popup.document s !! t.

(** The status message: its text and its opacity. *)
Definition displayed (s : Popup.State) : option (string * string) :=
  m ← Popup.statusMessage (Popup.dom s);
  (fun e => (Popup.textContent e, Popup.opacity e)) <$> Popup.document s !! m.

(** The status indicator: its text and its class. *)
Definition indicated (s : Popup.State) : option (string * string) :=
  i ← Popup.statusIndicator (Popup.dom s);
  (fun e => (Popup.textContent e, Popup.className e)) <$> Popup.document s !! i.

(** [chrome.tabs.query] gives no tab: it fails, or it finds none. *)
Definition no_active_tab (s : Popup.State) : Prop :=
  Popup.tabs_fault s <> None \/ Popup.tabs s = None \/ Popup.tabs s = Some [].

(** [chrome.tabs.query] gives [tab]. *)
Definition active_tab (s : Popup.State) (tab : Popup.Tab) : Prop :=
  Popup.tabs_fault s = None
  /\ exists others, Popup.tabs s = Some (tab :: others).

(** No content script answers in the tab [tabId]. *)
Definition unreachable (s : Popup.State) (tabId : nat) : Prop :=
  Popup.send_fault s <> None \/ Popup.scripts s !! tabId = None.

(** The content script [v], in the state [page], answers in the tab
    [tabId]. *)
Definition listening (s : Popup.State) (tabId : nat) (v : variant)
    (page : State) : Prop :=
  Popup.send_fault s = None
  /\ Popup.scripts s !! tabId = Some (v, page)
  /\ runtime_id page <> "".

(** What [updateStatus] and [showStatusMessage] write. *)
Definition status (active : bool) (e : Popup.Element) : Popup.Element :=
  Popup.set_className (if active then "status active" else "status inactive")
    (Popup.set_textContent
       (if active then "Active on this page" else "Not active on this page") e).

Definition message (text : string) (e : Popup.Element) : Popup.Element :=
  Popup.set_opacity "1" (Popup.set_textContent text e).


(** *** Statements about what a function of the popup leaves as it is *)

(** [m] leaves the projection [proj] of the state as it is. *)
Definition popup_keeps {A B} (proj : Popup.State -> B) (m : Popup.P A) : Prop :=
  forall s, proj (m s).2 = proj s.

(** A projection other than the document is kept by the writes to the
    document. *)
Definition beside_document {C} (proj : Popup.State -> C) : Prop :=
  forall f s, proj (Popup.with_document f s) = proj s.

(** A projection that [showStatusMessage] leaves as it is: anything but the
    document and the timers. *)
Definition beside_display {C} (proj : Popup.State -> C) : Prop :=
  forall f t p s,
    proj (Popup.with_clock t p (Popup.with_document f s)) = proj s.

(** Sample popups. *)
Module PopupSample.

Definition element : Popup.Element :=
  {| Popup.textContent := ""; Popup.className := ""; Popup.opacity := "0";
     Popup.checked := false; Popup.listeners := [] |}.

(** [popup.html] *)
Definition html : gmap string Popup.Element :=
  <["fullMapHeight" := element]>
    (<["status-indicator" := element]>
       (<["status-message" := element]> {["reload-page" := element]})).

Definition cached : Popup.Dom :=
  {| Popup.toggle := Some "fullMapHeight";
     Popup.statusIndicator := Some "status-indicator";
     Popup.statusMessage := Some "status-message";
     Popup.reloadButton := Some "reload-page" |}.

(** The popup after [init] has filled [dom]. *)
Definition popup (tabs : option (list Popup.Tab))
    (scripts : gmap nat Popup.ContentScript) (stored : gmap string bool)
    (write_fault : option JsError) : Popup.State :=
  {| Popup.document := html; Popup.dom := cached; Popup.now := 0;
     Popup.timeouts := []; Popup.storage := stored;
     Popup.storage_get_fault := None; Popup.storage_set_fault := write_fault;
     Popup.tabs_fault := None; Popup.send_fault := None;
     Popup.tabs := tabs; Popup.scripts := scripts; Popup.reloaded := [] |}.

(** The popup as it opens, before [init]. *)
Definition fresh (tabs : option (list Popup.Tab))
    (scripts : gmap nat Popup.ContentScript) (stored : gmap string bool)
    : Popup.State :=
  {| Popup.document := html;
     Popup.dom := {| Popup.toggle := None; Popup.statusIndicator := None;
                     Popup.statusMessage := None; Popup.reloadButton := None |};
     Popup.now := 0;
     Popup.timeouts := []; Popup.storage := stored;
     Popup.storage_get_fault := None; Popup.storage_set_fault := None;
     Popup.tabs_fault := None; Popup.send_fault := None;
     Popup.tabs := tabs; Popup.scripts := scripts; Popup.reloaded := [] |}.

Definition listing : Popup.Tab :=
  {| Popup.tab_id := 7;
     Popup.tab_url :=
       Some "https://www.inaturalist.org/observations?place_id=any" |}.

Definition elsewhere : Popup.Tab :=
  {| Popup.tab_id := 8; Popup.tab_url := Some "https://example.org/" |}.

(** The content script of [part_000] on the listing page, in tab 7. *)
Definition script : gmap nat Popup.ContentScript :=
  {[ 7 := (Part000Js, Sample.session 5) ]}.

Definition quota : JsError :=
  {| error_message := "QUOTA_BYTES_PER_ITEM quota exceeded" |}.

End PopupSample.

(** * Reasoning about the monad *)

Lemma bind_run {A B} (m : M A) (k : A -> M B) (s : State) :
  (m ≫= k) s = match m s with
               | (Normal a, s') => k a s'
               | (Thrown e, s') => (Thrown e, s')
               end.
Proof. reflexivity. Qed.

Section Combinators.

Context {B : Type} (proj : State -> B).

Lemma keeps_ret {A} (a : A) : keeps proj (mret a).
Proof. intros s. reflexivity. Qed.

Lemma keeps_get : keeps proj get.
Proof. intros s. reflexivity. Qed.

Lemma keeps_gets {A} (f : State -> A) : keeps proj (gets f).
Proof. intros s. reflexivity. Qed.

Lemma keeps_throw {A} msg : keeps proj (@throw A msg).
Proof. intros s. reflexivity. Qed.

Lemma keeps_modify (f : State -> State) :
  (forall s, proj (f s) = proj s) -> keeps proj (modify f).
Proof. intros H s. apply H. Qed.

Lemma keeps_bind {A C} (m : M A) (k : A -> M C) :
  keeps proj m -> (forall a, keeps proj (k a)) -> keeps proj (m ≫= k).
Proof.
  intros Hm Hk s. rewrite bind_run. specialize (Hm s).
  destruct (m s) as [[a|e] s']; simpl in *.
  - rewrite Hk. exact Hm.
  - exact Hm.
Qed.

Lemma keeps_try_catch (body : M unit) (handler : JsError -> M unit) :
  keeps proj body -> (forall e, keeps proj (handler e)) ->
  keeps proj (try_catch body handler).
Proof.
  intros Hb Hh s. unfold try_catch. specialize (Hb s).
  destruct (body s) as [[a|e] s']; simpl in *.
  - exact Hb.
  - rewrite Hh. exact Hb.
Qed.

Lemma keeps_preserves {A} (Q : B -> Prop) (m : M A) :
  keeps proj m -> preserves (fun s => Q (proj s)) m.
Proof. intros H s Hs. rewrite H. exact Hs. Qed.

End Combinators.

Section Preservation.

Variable P : State -> Prop.

Lemma preserves_ret {A} (a : A) : preserves P (mret a).
Proof. intros s Hs. exact Hs. Qed.

Lemma preserves_gets {A} (f : State -> A) : preserves P (gets f).
Proof. intros s Hs. exact Hs. Qed.

Lemma preserves_throw {A} msg : preserves P (@throw A msg).
Proof. intros s Hs. exact Hs. Qed.

Lemma preserves_modify (f : State -> State) :
  (forall s, P s -> P (f s)) -> preserves P (modify f).
Proof. intros H s Hs. apply H, Hs. Qed.

Lemma preserves_bind {A C} (m : M A) (k : A -> M C) :
  preserves P m -> (forall a, preserves P (k a)) -> preserves P (m ≫= k).
Proof.
  intros Hm Hk s Hs. rewrite bind_run. specialize (Hm s Hs).
  destruct (m s) as [[a|e] s']; simpl in *.
  - apply Hk, Hm.
  - exact Hm.
Qed.

(** After [s ← get], the continuation may use that [P] holds of [s]. *)
Lemma preserves_get {C} (k : State -> M C) :
  (forall s0, P s0 -> preserves P (k s0)) -> preserves P (get ≫= k).
Proof. intros Hk s Hs. rewrite bind_run. simpl. apply Hk; exact Hs. Qed.

Lemma preserves_try_catch (body : M unit) (handler : JsError -> M unit) :
  preserves P body -> (forall e, preserves P (handler e)) ->
  preserves P (try_catch body handler).
Proof.
  intros Hb Hh s Hs. unfold try_catch. specialize (Hb s Hs).
  destruct (body s) as [[a|e] s']; simpl in *.
  - exact Hb.
  - apply Hh, Hb.
Qed.

Lemma preserves_run_task (m : M unit) (s : State) :
  preserves P m -> P s -> P (run_task m s).
Proof. intros H Hs. apply H, Hs. Qed.

End Preservation.

(** ** Which component each function leaves alone *)

Create HintDb script discriminated.
Create HintDb keeps discriminated.

#[local] Hint Unfold
  document_getElementById document_querySelector document_contains
  element_remove document_createElement head_appendChild
  documentElement_appendChild body_classList requestAnimationFrame
  dispatch_resize sendResponse host_call typeof_function
  getZoom getCenter setZoom panTo invalidateSize setMaxBounds setMinZoom
  eachLayer console_error console_log
  getCachedElement getLeafletMapInstance injectStyles applyMapBounds
  applyObsPanelStyles repositionObservationCards adjustMapZoom postPaint
  debounced debouncedMapHandler mapHandler timer_fires
  storage_sync_get preferencesLoaded loadUserPreferences onMessage
  observerCallback observe init initApply frameCallback
  Content.applyFullMapHeight Content.removeFullMapHeight
  Content.onObservationsPage
  Part000.isMapViewPage Part000.applyFullMapHeight
  Part000.removeFullMapHeight
  applyOf removeOf pageTestOf onMessageOf : script.

Lemma findElementBySelectors_reads (selectors : list selector) (s : State) :
  (findElementBySelectors selectors s).2 = s.
Proof.
  induction selectors as [|sel rest IH]; simpl; [reflexivity|].
  rewrite bind_run. unfold document_querySelector, gets.
  destruct (dom_querySelector sel (document s)); [reflexivity | exact IH].
Qed.

Lemma keeps_findElementBySelectors {B} (proj : State -> B) selectors :
  keeps proj (findElementBySelectors selectors).
Proof. intros s. now rewrite findElementBySelectors_reads. Qed.

(** One step of the proof that a computation keeps a component: the shape of
    the computation decides the combinator. *)
Ltac keeps_step :=
  lazymatch goal with
  | |- keeps _ (mret _) => apply keeps_ret
  | |- keeps _ get => apply keeps_get
  | |- keeps _ (gets _) => apply keeps_gets
  | |- keeps _ (throw _) => apply keeps_throw
  | |- keeps _ (modify _) =>
      apply keeps_modify; intros; first [reflexivity | solve [auto with keeps]]
  | |- keeps _ (findElementBySelectors _) => apply keeps_findElementBySelectors
  | |- keeps _ (_ ≫= _) => apply keeps_bind; [| intros ?]
  | |- keeps _ (try_catch _ _) => apply keeps_try_catch; [| intros ?]
  | |- keeps _ (match ?x with _ => _ end) => destruct x
  | |- keeps _ _ => progress (autounfold with script; cbv zeta)
  end.

Ltac solve_keeps := repeat keeps_step.

Lemma keeps_config_apply v : keeps config (applyOf v).
Proof. destruct v; solve_keeps. Qed.

Lemma keeps_config_remove v : keeps config (removeOf v).
Proof. destruct v; solve_keeps. Qed.

Lemma keeps_outbox_apply v : keeps outbox (applyOf v).
Proof. destruct v; solve_keeps. Qed.

Lemma keeps_outbox_remove v : keeps outbox (removeOf v).
Proof. destruct v; solve_keeps. Qed.

Lemma keeps_originalStyles_apply v : keeps originalStyles (applyOf v).
Proof. destruct v; solve_keeps. Qed.

Lemma keeps_originalStyles_remove v : keeps originalStyles (removeOf v).
Proof. destruct v; solve_keeps. Qed.

Lemma keeps_heap_apply v : keeps heap (applyOf v).
Proof. destruct v; solve_keeps. Qed.

(** ** The snapshot, once taken, stays *)

Lemma keeps_snap {A} z c (m : M A) :
  keeps originalStyles m -> preserves (snap z c) m.
Proof. intros H. exact (keeps_preserves originalStyles (snapshot_is z c) m H). Qed.

(** Structural steps of a preservation proof; [leaf] closes the computations
    that are not taken apart. *)
Ltac head_of t :=
  lazymatch t with
  | ?f _ => head_of f
  | _ => t
  end.

Ltac preserves_step leaf :=
  lazymatch goal with
  | |- preserves _ (mret _) => apply preserves_ret
  | |- preserves _ (gets _) => apply preserves_gets
  | |- preserves _ (throw _) => apply preserves_throw
  | |- preserves _ (get ≫= _) => apply preserves_get; intros ? ?
  | |- preserves _ (_ ≫= _) => apply preserves_bind; [| intros ?]
  | |- preserves _ (try_catch _ _) => apply preserves_try_catch; [| intros ?]
  | |- preserves _ (match ?x with _ => _ end) => destruct x eqn:?
  | |- preserves _ ?m =>
      first [ solve [leaf]
            | let h := head_of m in unfold h; cbv beta iota zeta ]
  end.

Ltac snap_leaf :=
  first
    [ solve [apply keeps_snap; solve_keeps]
    | solve [apply preserves_modify; unfold snap, snapshot_is; simpl; intros;
             assumption]
    | exfalso;
      match goal with
      | H : snap _ _ ?s, E : os_zoom (originalStyles ?s) = None |- _ =>
          destruct H as [H _]; rewrite H in E; discriminate E
      end ].

Lemma snap_adjustMapZoom K z c : preserves (snap z c) (adjustMapZoom K).
Proof. repeat preserves_step snap_leaf. Qed.

Lemma snap_postPaint K z c : preserves (snap z c) (postPaint K).
Proof. repeat preserves_step snap_leaf. Qed.

Lemma snap_apply v z c : preserves (snap z c) (applyOf v).
Proof. apply keeps_snap, keeps_originalStyles_apply. Qed.

Lemma snap_remove v z c : preserves (snap z c) (removeOf v).
Proof. apply keeps_snap, keeps_originalStyles_remove. Qed.

Lemma snap_scanAddedNodes z c nodes : preserves (snap z c) (scanAddedNodes nodes).
Proof.
  induction nodes as [|node rest IH]; simpl.
  - apply preserves_ret.
  - destruct (qualifies node); [| exact IH].
    repeat preserves_step snap_leaf.
Qed.

Lemma snap_scanMutations z c ms : preserves (snap z c) (scanMutations ms).
Proof.
  induction ms as [|m rest IH]; simpl.
  - apply preserves_ret.
  - apply preserves_bind; [| intros _; exact IH].
    destruct (m_type m); try apply preserves_ret. apply snap_scanAddedNodes.
Qed.

Lemma snap_frames v z c (cbs : list FrameCallback) (s : State) :
  snap z c s ->
  snap z c (fold_left (fun s' cb =>
              run_task (frameCallback (constantsOf v) (applyOf v) cb) s') cbs s).
Proof.
  revert s. induction cbs as [|cb rest IH]; intros s Hs; simpl; [exact Hs|].
  apply IH. apply preserves_run_task; [| exact Hs].
  destruct cb; simpl.
  - apply snap_postPaint.
  - pose proof (snap_apply v z c).
    unfold initApply. repeat preserves_step ltac:(first [assumption | snap_leaf]).
Qed.

Lemma snap_step v z c (s : State) (e : event) :
  snap z c s -> snap z c (stepOf v s e).
Proof.
  intros Hs. pose proof (snap_apply v z c) as Ha.
  pose proof (snap_remove v z c) as Hr.
  pose proof (snap_postPaint (constantsOf v) z c) as Hp.
  pose proof (snap_adjustMapZoom (constantsOf v) z c) as Hz.
  destruct e; unfold stepOf, step.
  - apply preserves_run_task; [| exact Hs].
    assert (preserves (snap z c) (pageTestOf v))
      by (destruct v; apply keeps_snap; solve_keeps).
    unfold init. repeat preserves_step ltac:(first [assumption | snap_leaf]).
  - destruct (storageReads s); [exact Hs|].
    apply preserves_run_task; [| exact Hs].
    unfold preferencesLoaded.
    repeat preserves_step ltac:(first [assumption | snap_leaf]).
  - apply snap_frames. exact Hs.
  - apply preserves_run_task; [| exact Hs].
    unfold timer_fires, mapHandler.
    repeat preserves_step ltac:(first [assumption | snap_leaf]).
  - destruct (observing s); [| exact Hs].
    apply preserves_run_task; [| exact Hs].
    pose proof (snap_scanMutations z c mutations).
    unfold observerCallback.
    repeat preserves_step ltac:(first [assumption | snap_leaf]).
  - apply preserves_run_task; [| exact Hs].
    unfold onMessage.
    repeat preserves_step ltac:(first [assumption | snap_leaf]).
  - exact Hs.
Qed.

Lemma snap_run v z c (events : list event) (s : State) :
  snap z c s -> snap z c (runOf v s events).
Proof.
  revert s. induction events as [|e rest IH]; intros s Hs; simpl; [exact Hs|].
  apply IH, snap_step, Hs.
Qed.

Lemma snap_perform v z c (s : State) (k : call) :
  snap z c s -> snap z c (perform v s k).
Proof.
  intros Hs. destruct k; cbn [perform].
  - apply preserves_run_task; [apply snap_apply | exact Hs].
  - apply preserves_run_task; [apply snap_remove | exact Hs].
  - apply snap_step, Hs.
Qed.

Lemma snap_session v z c (calls : list call) (s : State) :
  snap z c s -> snap z c (session v s calls).
Proof.
  revert s. induction calls as [|k rest IH]; intros s Hs; simpl; [exact Hs|].
  apply IH, snap_perform, Hs.
Qed.

(** ** The singleton stylesheet *)

Lemma all_elements_remove (n : node_id) (d : Document) :
  all_elements (dom_remove n d) = without n (all_elements d).
Proof.
  destruct d as [[[hd bd rest]|] f]; [| reflexivity].
  unfold all_elements, html_elements, without; simpl.
  destruct hd as [hd|], bd as [[cl ch]|]; simpl;
    rewrite ?List.filter_app; reflexivity.
Qed.

Lemma all_elements_update (n : node_id) (f : Element -> Element) (d : Document) :
  all_elements (dom_update n f d)
  = List.map (fun e => if is_node n e then f e else e) (all_elements d).
Proof.
  destruct d as [[[hd bd rest]|] fr]; [| reflexivity].
  unfold all_elements, html_elements; simpl.
  destruct hd as [hd|], bd as [[cl ch]|]; simpl;
    rewrite ?List.map_app; reflexivity.
Qed.

Lemma filter_found_without (i : string) (l : list Element) (e : Element) :
  (length (List.filter (has_id i) l) <= 1)%nat ->
  List.find (has_id i) l = Some e ->
  List.filter (has_id i) (without (el_node e) l) = [].
Proof.
  induction l as [|x l IH]; simpl; [discriminate|].
  destruct (has_id i x) eqn:Hx; simpl.
  - intros Hlen [= ->].
    assert (Hnil : List.filter (has_id i) l = [])
      by (destruct (List.filter (has_id i) l); [reflexivity | simpl in Hlen; lia]).
    unfold is_node at 1. rewrite Pos.eqb_refl. simpl.
    clear - Hnil. induction l as [|y l IH]; simpl in *; [reflexivity|].
    destruct (has_id i y) eqn:Hy; [discriminate|].
    destruct (negb (is_node (el_node e) y)); simpl; rewrite ?Hy; auto.
  - intros Hlen Hfind.
    destruct (negb (is_node (el_node e) x)); simpl; rewrite ?Hx; auto.
Qed.

Lemma filter_none (i : string) (l : list Element) :
  List.find (has_id i) l = None -> List.filter (has_id i) l = [].
Proof.
  induction l as [|x l IH]; simpl; [reflexivity|].
  destruct (has_id i x); [discriminate | exact IH].
Qed.

Lemma filter_without_le (i : string) (n : node_id) (l : list Element) :
  (length (List.filter (has_id i) (without n l))
   <= length (List.filter (has_id i) l))%nat.
Proof.
  induction l as [|x l IH]; simpl; [lia|].
  destruct (negb (is_node n x)); simpl; destruct (has_id i x); simpl; lia.
Qed.

Lemma style_nodes_remove (n : node_id) (s : State) :
  (style_nodes (with_document (dom_remove n) s) <= style_nodes s)%nat.
Proof.
  unfold style_nodes. simpl. rewrite all_elements_remove.
  apply filter_without_le.
Qed.

(** Deleting the node found under the reserved identifier leaves none. *)
Lemma style_nodes_delete (s : State) :
  single s ->
  style_nodes
    (match dom_getElementById reserved (document s) with
     | Some n => with_document (dom_remove n) s
     | None => s
     end) = 0%nat.
Proof.
  unfold single, style_nodes, dom_getElementById. intros Hs.
  destruct (List.find (has_id reserved) (all_elements (document s))) as [e|] eqn:Hf;
    simpl.
  - rewrite all_elements_remove, (filter_found_without _ _ e); auto.
  - rewrite filter_none; auto.
Qed.

Lemma has_id_assign_style i st e : has_id i (assign_style st e) = has_id i e.
Proof. reflexivity. Qed.

Lemma style_nodes_update (n : node_id) (st : list (string * string)) (s : State) :
  style_nodes (with_document (dom_update n (assign_style st)) s) = style_nodes s.
Proof.
  unfold style_nodes. simpl. rewrite all_elements_update.
  induction (all_elements (document s)) as [|x l IH]; simpl; [reflexivity|].
  destruct (is_node n x); rewrite ?has_id_assign_style;
    destruct (has_id reserved x); simpl; rewrite IH; reflexivity.
Qed.

Lemma all_elements_classList (f : list string -> list string) (d : Document) :
  all_elements
    {| documentElement :=
         (fun h => {| h_head := h_head h;
                      h_body := (fun b => {| b_classList := f (b_classList b);
                                             b_children := b_children b |})
                                  <$> h_body h;
                      h_rest := h_rest h |})
           <$> documentElement d;
       fresh_node := fresh_node d |}
  = all_elements d.
Proof.
  destruct d as [[[hd bd rest]|] fr]; [| reflexivity].
  unfold all_elements, html_elements; simpl.
  destruct bd as [[cl ch]|]; reflexivity.
Qed.

Lemma all_elements_fresh (d : Document) (n : node_id) :
  all_elements {| documentElement := documentElement d; fresh_node := n |}
  = all_elements d.
Proof. reflexivity. Qed.

Lemma all_elements_head_append (e : Element) (d : Document) hd :
  document_head d = Some hd ->
  exists pre post,
    all_elements d = pre ++ post /\
    all_elements
      {| documentElement :=
           (fun h => {| h_head := (fun l => l ++ [e]) <$> h_head h;
                        h_body := h_body h; h_rest := h_rest h |})
             <$> documentElement d;
         fresh_node := fresh_node d |} = pre ++ e :: post.
Proof.
  destruct d as [[[hd' bd rest]|] fr]; [| discriminate].
  unfold document_head; simpl. intros [= ->].
  exists hd, (default [] (b_children <$> bd) ++ rest).
  unfold all_elements, html_elements; simpl.
  split; [reflexivity|]. rewrite <- List.app_assoc. reflexivity.
Qed.

Lemma all_elements_root_append (e : Element) (h : Html) (fr : node_id) :
  all_elements
    {| documentElement :=
         Some {| h_head := h_head h; h_body := h_body h;
                 h_rest := h_rest h ++ [e] |};
       fresh_node := fr |}
  = html_elements h ++ [e].
Proof.
  unfold all_elements, html_elements; simpl.
  rewrite !List.app_assoc. reflexivity.
Qed.

Lemma filter_insert_length (p : Element -> bool) pre post e :
  length (List.filter p (pre ++ e :: post))
  = (length (List.filter p (pre ++ post)) + (if p e then 1 else 0))%nat.
Proof.
  rewrite !List.filter_app, !List.length_app. simpl.
  destruct (p e); simpl; lia.
Qed.

Ltac exec := 
  autounfold with script;
  unfold mbind, M_bind, mret, M_ret, get, gets, modify, throw, try_catch; cbn.

Lemma length_filter_one (p : Element -> bool) (l1 l2 : list Element) e :
  length (List.filter p (l1 ++ l2)) = 0%nat -> p e = true ->
  length (List.filter p (l1 ++ e :: l2)) = 1%nat.
Proof. intros H He. rewrite filter_insert_length, H, He. reflexivity. Qed.

Lemma find_none_of_filter (i : string) (l : list Element) :
  length (List.filter (has_id i) l) = 0%nat -> List.find (has_id i) l = None.
Proof.
  induction l as [|x l IH]; simpl; [reflexivity|].
  destruct (has_id i x); simpl; [discriminate | exact IH].
Qed.

Lemma getElementById_none (s : State) :
  style_nodes s = 0%nat -> dom_getElementById reserved (document s) = None.
Proof.
  unfold style_nodes, dom_getElementById. intros H.
  now rewrite find_none_of_filter.
Qed.

(** Injection into a document without style node. *)
Lemma injectStyles_fresh css (s : State) :
  style_nodes s = 0%nat ->
  match documentElement (document s) with
  | Some _ => (injectStyles css reserved s).1 = Normal tt
              /\ style_nodes (injectStyles css reserved s).2 = 1%nat
  | None => style_nodes (injectStyles css reserved s).2 = 0%nat
  end.
Proof.
  intros H0. unfold injectStyles. rewrite bind_run.
  unfold document_getElementById, gets. cbn [fst snd].
  rewrite (getElementById_none s H0).
  unfold style_nodes in *.
  destruct s as [d w hp ri st os cf dc sa mf tm fr sr ob ox].
  destruct d as [[[hd bd rest]|] fn]; [| exact H0].
  exec. unfold all_elements, html_elements in *. cbn in *.
  destruct hd as [hd|]; cbn in *; (split; [reflexivity|]).
  - rewrite <- List.app_assoc. simpl. apply length_filter_one; auto.
  - rewrite List.app_assoc.
    apply length_filter_one; [rewrite List.app_nil_r; exact H0 | reflexivity].
Qed.

Lemma injectStyles_after_delete css (s : State) :
  single s ->
  injectStyles css reserved s
  = injectStyles css reserved
      (match dom_getElementById reserved (document s) with
       | Some n => with_document (dom_remove n) s
       | None => s
       end).
Proof.
  intros Hs. pose proof (getElementById_none _ (style_nodes_delete s Hs)) as H.
  destruct (dom_getElementById reserved (document s)) as [n|] eqn:Hg;
    [| reflexivity].
  unfold injectStyles at 2. rewrite bind_run.
  unfold document_getElementById at 1, gets at 1. cbn [fst snd]. rewrite H.
  unfold injectStyles. rewrite bind_run.
  unfold document_getElementById at 1, gets at 1. cbn [fst snd]. rewrite Hg.
  reflexivity.
Qed.

Lemma documentElement_delete (s : State) :
  is_Some (documentElement (document
      (match dom_getElementById reserved (document s) with
       | Some n => with_document (dom_remove n) s
       | None => s
       end)))
  <-> is_Some (documentElement (document s)).
Proof.
  destruct (dom_getElementById reserved (document s)); [| reflexivity].
  simpl. destruct (documentElement (document s)); simpl; split; intros [? H];
    try discriminate; eauto.
Qed.

(** [injectStyles] leaves exactly one style node when the document has a
    root, and none when it has not (it throws then). *)
Lemma injectStyles_count css (s : State) :
  single s ->
  match documentElement (document s) with
  | Some _ => (injectStyles css reserved s).1 = Normal tt
              /\ style_nodes (injectStyles css reserved s).2 = 1%nat
  | None => style_nodes (injectStyles css reserved s).2 = 0%nat
  end.
Proof.
  intros Hs. rewrite (injectStyles_after_delete css s Hs).
  pose proof (injectStyles_fresh css _ (style_nodes_delete s Hs)) as H.
  pose proof (documentElement_delete s) as Hd.
  destruct (documentElement (document s)) as [h|].
  - destruct Hd as [_ Hd]. destruct (Hd (ex_intro _ h eq_refl)) as [h' Hh'].
    rewrite Hh' in H. exact H.
  - destruct (documentElement _) as [h'|] eqn:E; [| exact H].
    destruct Hd as [Hd _]. destruct (Hd (ex_intro _ h' eq_refl)); discriminate.
Qed.

Lemma single_injectStyles css : preserves single (injectStyles css reserved).
Proof.
  intros s Hs. pose proof (injectStyles_count css s Hs) as H. unfold single.
  destruct (documentElement (document s)); [destruct H as [_ H] |]; rewrite H; lia.
Qed.

Lemma style_nodes_classList (f : list string -> list string) (s : State) :
  style_nodes
    (with_document (fun d =>
       {| documentElement :=
            (fun h => {| h_head := h_head h;
                         h_body := (fun b => {| b_classList := f (b_classList b);
                                                b_children := b_children b |})
                                     <$> h_body h;
                         h_rest := h_rest h |})
              <$> documentElement d;
          fresh_node := fresh_node d |}) s)
  = style_nodes s.
Proof. unfold style_nodes. simpl. now rewrite all_elements_classList. Qed.

Lemma style_nodes_fresh (s : State) :
  style_nodes
    (with_document (fun d =>
       {| documentElement := documentElement d;
          fresh_node := Pos.succ (fresh_node d) |}) s)
  = style_nodes s.
Proof. reflexivity. Qed.

#[local] Hint Resolve style_nodes_update style_nodes_classList
  style_nodes_fresh : keeps.

Lemma keeps_single {A} (m : M A) : keeps style_nodes m -> preserves single m.
Proof. intros H. exact (keeps_preserves style_nodes (fun n => (n <= 1)%nat) m H). Qed.

Lemma single_element_remove n : preserves single (element_remove n).
Proof.
  apply preserves_modify. intros s Hs. unfold single in *.
  pose proof (style_nodes_remove n s). lia.
Qed.

Ltac single_leaf :=
  idtac;
  lazymatch goal with
  | |- preserves _ (element_remove _) => apply single_element_remove
  | |- preserves _ (injectStyles _ _) => apply single_injectStyles
  | |- preserves _ _ => apply keeps_single; solve_keeps
  end.

Lemma single_postPaint K : preserves single (postPaint K).
Proof. apply keeps_single; solve_keeps. Qed.

Lemma single_adjustMapZoom K : preserves single (adjustMapZoom K).
Proof. apply keeps_single; solve_keeps. Qed.

Lemma single_apply v : preserves single (applyOf v).
Proof. destruct v; repeat preserves_step single_leaf. Qed.

Lemma single_remove v : preserves single (removeOf v).
Proof. destruct v; repeat preserves_step single_leaf. Qed.

Lemma single_scanAddedNodes nodes : preserves single (scanAddedNodes nodes).
Proof.
  apply keeps_single. induction nodes as [|node rest IH]; simpl.
  - apply keeps_ret.
  - destruct (qualifies node); [solve_keeps | exact IH].
Qed.

Lemma single_scanMutations ms : preserves single (scanMutations ms).
Proof.
  induction ms as [|m rest IH]; simpl.
  - apply preserves_ret.
  - apply preserves_bind; [| intros _; exact IH].
    destruct (m_type m); try apply preserves_ret. apply single_scanAddedNodes.
Qed.

Ltac with_hyps leaf := first [assumption | leaf].

Lemma single_frames v (cbs : list FrameCallback) (s : State) :
  single s ->
  single (fold_left (fun s' cb =>
            run_task (frameCallback (constantsOf v) (applyOf v) cb) s') cbs s).
Proof.
  revert s. induction cbs as [|cb rest IH]; intros s Hs; simpl; [exact Hs|].
  apply IH. apply preserves_run_task; [| exact Hs].
  destruct cb; simpl.
  - apply single_postPaint.
  - pose proof (single_apply v).
    unfold initApply. repeat preserves_step ltac:(with_hyps single_leaf).
Qed.

Lemma single_step v (s : State) (e : event) :
  courteous e -> single s -> single (stepOf v s e).
Proof.
  intros He Hs. pose proof (single_apply v) as Ha.
  pose proof (single_remove v) as Hr.
  pose proof (single_adjustMapZoom (constantsOf v)) as Hz.
  destruct e; unfold stepOf, step.
  - apply preserves_run_task; [| exact Hs].
    assert (preserves single (pageTestOf v))
      by (destruct v; apply keeps_single; solve_keeps).
    unfold init. repeat preserves_step ltac:(with_hyps single_leaf).
  - destruct (storageReads s); [exact Hs|].
    apply preserves_run_task; [| exact Hs].
    unfold preferencesLoaded.
    repeat preserves_step ltac:(with_hyps single_leaf).
  - apply single_frames. exact Hs.
  - apply preserves_run_task; [| exact Hs].
    unfold timer_fires, mapHandler.
    repeat preserves_step ltac:(with_hyps single_leaf).
  - destruct (observing s); [| exact Hs].
    apply preserves_run_task; [| exact Hs].
    pose proof (single_scanMutations mutations).
    unfold observerCallback.
    repeat preserves_step ltac:(with_hyps single_leaf).
  - apply preserves_run_task; [| exact Hs].
    unfold onMessage.
    repeat preserves_step ltac:(with_hyps single_leaf).
  - unfold single, style_nodes in *. simpl in *.
    specialize (He (document s)). lia.
Qed.

Lemma single_perform v (s : State) (k : call) :
  single s -> single (perform v s k).
Proof.
  intros Hs. destruct k; cbn [perform].
  - apply preserves_run_task; [apply single_apply | exact Hs].
  - apply preserves_run_task; [apply single_remove | exact Hs].
  - apply single_step; [exact I | exact Hs].
Qed.

Lemma single_session v (calls : list call) (s : State) :
  single s -> single (session v s calls).
Proof.
  revert s. induction calls as [|k rest IH]; intros s Hs; simpl; [exact Hs|].
  apply IH, single_perform, Hs.
Qed.

Lemma single_run v (events : list event) (s : State) :
  Forall courteous events -> single s -> single (runOf v s events).
Proof.
  intros Hev. revert s.
  induction Hev as [|e rest He _ IH]; intros s Hs; simpl; [exact Hs|].
  apply IH, single_step; assumption.
Qed.

(** ** [apply()] when the styles are applied *)

Lemma apply_short_circuit v (s : State) :
  stylesApplied s = true -> applyOf v s = (Normal tt, s).
Proof. intros H. destruct v; exec; rewrite H; reflexivity. Qed.

Lemma applied_apply v : preserves applied (applyOf v).
Proof. intros s Hs. rewrite (apply_short_circuit v s Hs). exact Hs. Qed.

Lemma keeps_applied {A} (m : M A) : keeps stylesApplied m -> preserves applied m.
Proof. intros H. exact (keeps_preserves stylesApplied (fun b => b = true) m H). Qed.

Lemma applied_frame v (s : State) : applied s -> applied (stepOf v s EFrame).
Proof.
  intros Hs. unfold stepOf, step.
  assert (H0 : applied (with_frames (fun _ => []) s)) by exact Hs.
  revert H0. generalize (with_frames (fun _ => []) s).
  induction (frames s) as [|cb rest IH]; intros s0 H0; simpl; [exact H0|].
  apply IH. apply preserves_run_task; [| exact H0].
  destruct cb; simpl.
  - apply keeps_applied. solve_keeps.
  - pose proof (applied_apply v). unfold initApply.
    repeat preserves_step ltac:(with_hyps ltac:(apply keeps_applied; solve_keeps)).
Qed.

Lemma applied_session v (calls : list call) (s : State) :
  (forall k, In k calls -> k = Apply \/ k = Frame) ->
  applied s -> applied (session v s calls).
Proof.
  revert s. induction calls as [|k rest IH]; intros s Hc Hs; simpl; [exact Hs|].
  apply IH; [intros k' Hk'; apply Hc; right; exact Hk' |].
  destruct (Hc k (or_introl eq_refl)) as [-> | ->]; cbn [perform].
  - apply preserves_run_task; [apply applied_apply | exact Hs].
  - apply applied_frame, Hs.
Qed.

(** ** At most one capture *)

Lemma captured_snap (s : State) :
  captured s = true ->
  exists z, snap z (os_center (originalStyles s)) s.
Proof.
  unfold captured, snap, snapshot_is.
  destruct (os_zoom (originalStyles s)) as [z|]; [| discriminate].
  intros _. exists z. split; reflexivity.
Qed.

Lemma snap_captured z c (s : State) : snap z c s -> captured s = true.
Proof. unfold captured. intros [H _]. now rewrite H. Qed.

Lemma captures_after v (calls : list call) (s : State) :
  captured s = true -> captures v s calls = 0%nat.
Proof.
  revert s. induction calls as [|k rest IH]; intros s Hs; simpl; [reflexivity|].
  rewrite Hs. simpl. apply IH.
  destruct (captured_snap s Hs) as [z Hz].
  exact (snap_captured _ _ _ (snap_perform v _ _ s k Hz)).
Qed.

Lemma captures_once v (calls : list call) (s : State) :
  (captures v s calls <= 1)%nat.
Proof.
  revert s. induction calls as [|k rest IH]; intros s; simpl; [lia|].
  destruct (captured (perform v s k)) eqn:Hc.
  - rewrite (captures_after v rest _ Hc). destruct (negb (captured s)); simpl; lia.
  - rewrite andb_false_r. simpl. apply IH.
Qed.

(** ** Resolving the map instance on a page with a mounted map *)

Lemma with_domCache_id (f : gmap string node_id -> gmap string node_id) (s : State) :
  f (domCache s) = domCache s -> with_domCache f s = s.
Proof. destruct s; unfold with_domCache; simpl; intros ->; reflexivity. Qed.

Lemma find_node (p : Element -> bool) (n : node_id) (l : list Element) :
  (exists e, In e l /\ p e = true) ->
  (forall e, In e l -> p e = true -> el_node e = n) ->
  el_node <$> List.find p l = Some n.
Proof.
  induction l as [|x l IH]; simpl; intros [e [Hin Hp]] Hall; [contradiction|].
  destruct (p x) eqn:Hx; simpl.
  - f_equal. apply Hall; auto.
  - apply IH; [| intros; apply Hall; auto].
    destruct Hin as [-> | Hin]; [congruence | eauto].
Qed.

Lemma matches_MAP (e : Element) : matches SELECTORS.MAP e = has_id "map" e.
Proof. unfold matches, SELECTORS.MAP. simpl. apply orb_false_r. Qed.

Lemma is_node_true n e : is_node n e = true <-> el_node e = n.
Proof. unfold is_node. apply Pos.eqb_eq. Qed.

Lemma getLeafletMapInstance_run (s : State) (n : node_id) :
  getLeafletMapInstance (Some n) s
  = (Normal (lookup_instance (window s) (leaflet_id_of s n)), s).
Proof.
  unfold getLeafletMapInstance, lookup_instance. rewrite bind_run.
  cbn [get fst snd].
  destruct (w_L (window s)) as [L|]; [| reflexivity].
  destruct (leaflet_id_of s n) as [i|], (L_map L ≫= L_instances) as [reg|];
    try destruct (w_GLOBALS (window s) ≫= GLOBALS_map); reflexivity.
Qed.

Section Mounted.

Context {s : State} {n : node_id} {i : option positive} {h : handle}.
Hypothesis Hm : mounted s n i h.

Lemma mounted_querySelector :
  dom_querySelector SELECTORS.MAP (document s) = Some n.
Proof.
  destruct Hm as [[e [Hin Hn]] Honly _ _ _ _].
  unfold dom_querySelector. apply find_node.
  - exists e. split; [exact Hin|]. rewrite matches_MAP. now apply Honly.
  - intros e' Hin' Hp. rewrite matches_MAP in Hp. now apply Honly.
Qed.

Lemma mounted_contains : dom_contains (document s) n = true.
Proof.
  destruct Hm as [[e [Hin Hn]] _ _ _ _ _].
  unfold dom_contains. apply existsb_exists. exists e.
  split; [exact Hin | now apply is_node_true].
Qed.

Lemma mounted_leaflet_id : leaflet_id_of s n = i.
Proof.
  destruct Hm as [[e [Hin Hn]] _ Hstamp _ _ _].
  unfold leaflet_id_of, dom_element.
  destruct (List.find (is_node n) (all_elements (document s))) as [e'|] eqn:Hf.
  - apply List.find_some in Hf as [Hin' Hn']. simpl.
    apply Hstamp; [exact Hin' | now apply is_node_true].
  - exfalso. eapply List.find_none in Hf; [| exact Hin].
    apply is_node_true in Hn. congruence.
Qed.

Lemma mounted_getCachedElement :
  getCachedElement SELECTORS.MAP "map" s
  = (Normal (Some n), with_domCache (<["map" := n]>) s).
Proof.
  unfold getCachedElement. rewrite bind_run. cbn [get fst snd].
  change (inherited s "map") with false. cbn iota.
  unfold cache_stale.
  destruct (mounted_cache _ _ _ _ Hm) as [Hc | Hc]; rewrite Hc.
  - rewrite !bind_run. unfold document_querySelector, gets, modify.
    rewrite mounted_querySelector. cbn.
    now rewrite lookup_insert_eq.
  - rewrite mounted_contains. cbn [negb]. rewrite bind_run. cbn. unfold gets.
    rewrite Hc.
    rewrite with_domCache_id; [reflexivity | now apply insert_id].
Qed.

Lemma mounted_getLeafletMapInstance :
  getLeafletMapInstance (Some n) s = (Normal (RObj h), s).
Proof.
  rewrite getLeafletMapInstance_run, mounted_leaflet_id.
  now rewrite (mounted_instance _ _ _ _ Hm).
Qed.

End Mounted.

(** Being mounted depends on the document, the cache entry and the window. *)
Lemma mounted_ext (s s' : State) n i h :
  all_elements (document s') = all_elements (document s) ->
  (fresh_node (document s) <= fresh_node (document s'))%positive ->
  domCache s' !! "map" = domCache s !! "map" \/ domCache s' !! "map" = Some n ->
  window s' = window s ->
  mounted s n i h -> mounted s' n i h.
Proof.
  intros He Hf Hc Hw [H1 H2 H3 H4 H5 H6].
  split; rewrite ?He, ?Hw; auto.
  - lia.
  - destruct Hc as [-> | ->]; auto.
Qed.

Lemma mounted_cached (s : State) n i h :
  mounted s n i h -> mounted (with_domCache (<["map" := n]>) s) n i h.
Proof.
  apply mounted_ext; simpl; auto; try lia.
  right. apply lookup_insert_eq.
Qed.

Lemma mounted_with_heap (s : State) f n i h :
  mounted s n i h -> mounted (with_heap f s) n i h.
Proof. apply mounted_ext; simpl; auto; lia. Qed.

Lemma mounted_with_originalStyles (s : State) f n i h :
  mounted s n i h -> mounted (with_originalStyles f s) n i h.
Proof. apply mounted_ext; simpl; auto; lia. Qed.

(** ** What the script does to a healthy instance *)

Lemma host_call_ok {A} (h : handle) (m : MapMethod) (c : MapCall)
    (result : LeafletMap -> A) (effect : LeafletMap -> LeafletMap)
    (s : State) (o : LeafletMap) :
  heap s !! h = Some o -> healthy o ->
  host_call h m c result effect s
  = (Normal (result o), with_heap (<[h := record_call c (effect o)]>) s).
Proof.
  intros Hh [Hf Hms]. unfold host_call. rewrite bind_run. cbn [get fst snd].
  rewrite Hh, Hms, Hf. reflexivity.
Qed.

Lemma typeof_function_ok (h : handle) (m : MapMethod) (s : State) o :
  heap s !! h = Some o -> healthy o ->
  typeof_function h m s = (Normal true, s).
Proof.
  intros Hh [_ Hms]. unfold typeof_function, gets. now rewrite Hh, Hms.
Qed.

Lemma healthy_record_call c o : healthy o -> healthy (record_call c o).
Proof. intros H; exact H. Qed.

Lemma with_heap_twice f g (s : State) :
  with_heap f (with_heap g s) = with_heap (fun m => f (g m)) s.
Proof. reflexivity. Qed.

Lemma with_heap_insert_insert h (o1 o2 : LeafletMap) (s : State) :
  with_heap (<[h := o2]>) (with_heap (<[h := o1]>) s) = with_heap (<[h := o2]>) s.
Proof.
  destruct s; unfold with_heap; simpl. now rewrite insert_insert_eq.
Qed.

Lemma heap_with_heap_insert h (o : LeafletMap) (s : State) :
  heap (with_heap (<[h := o]>) s) !! h = Some o.
Proof. simpl. apply lookup_insert_eq. Qed.

Lemma applyMapBounds_mounted (s : State) n i h o :
  mounted s n i h -> heap s !! h = Some o -> healthy o ->
  applyMapBounds s
  = (Normal tt,
     with_heap (<[h := bounded o]>) (with_domCache (<["map" := n]>) s)).
Proof.
  intros Hm Hh Ho. unfold applyMapBounds.
  rewrite bind_run, (mounted_getCachedElement Hm).
  rewrite bind_run, (mounted_getLeafletMapInstance (mounted_cached _ _ _ _ Hm)).
  set (s1 := with_domCache (<["map" := n]>) s).
  assert (Hh1 : heap s1 !! h = Some o) by exact Hh.
  rewrite bind_run, (typeof_function_ok h SetMaxBounds s1 o Hh1 Ho).
  unfold try_catch, setMaxBounds, setMinZoom, eachLayer.
  rewrite bind_run, (host_call_ok _ _ _ _ _ s1 o Hh1 Ho).
  rewrite bind_run.
  erewrite host_call_ok; [| apply heap_with_heap_insert | exact Ho].
  erewrite host_call_ok; [| apply heap_with_heap_insert | exact Ho].
  rewrite !with_heap_insert_insert. reflexivity.
Qed.

Lemma gt_number_spec (x y : Q) : gt_number x y = true <-> (y < x)%Q.
Proof.
  unfold gt_number. rewrite negb_true_iff.
  split; intros H.
  - apply Qnot_le_lt. intros Hle. apply Qle_bool_iff in Hle. congruence.
  - destruct (Qle_bool x y) eqn:E; [| reflexivity].
    apply Qle_bool_iff in E. exfalso. exact (Qlt_not_le _ _ H E).
Qed.

(** Nested updates are normalised innermost first: every update mentions the
    state it updates once per field. *)
Ltac fields :=
  cbv [with_document with_window with_heap with_originalStyles with_config
       with_domCache with_stylesApplied with_mapFound with_timer with_frames
       with_storageReads with_observing with_outbox
       document window heap runtime_id storage_throws originalStyles config
       domCache stylesApplied mapFound timer frames storageReads observing
       outbox] in *.

Ltac same_state s :=
  destruct s; fields; rewrite ?insert_insert_eq;
  try match goal with
      | H : os_zoom ?x = _ |- context [match os_zoom ?x with _ => _ end] =>
          rewrite H
      end;
  reflexivity.

(** Run the next host call on a healthy instance. *)
Ltac host_next Ho :=
  rewrite ?bind_run;
  first [ erewrite host_call_ok; [| eassumption | exact Ho]
        | erewrite host_call_ok; [| cbn; apply lookup_insert_eq | exact Ho] ];
  cbn beta iota.

Lemma adjustMapZoom_mounted K (s : State) n i h o :
  mounted s n i h -> heap s !! h = Some o -> healthy o ->
  adjustMapZoom K s
  = repositionObservationCards K
      (with_originalStyles (snapshot o)
         (with_heap (<[h := fitted K (if captured s then o else probed o)]>)
            (with_domCache (<["map" := n]>) s))).
Proof.
  intros Hm Hh Ho. unfold adjustMapZoom.
  rewrite bind_run, (mounted_getCachedElement Hm). cbn beta iota.
  rewrite bind_run.
  rewrite (mounted_getLeafletMapInstance (mounted_cached _ _ _ _ Hm)).
  cbn beta iota.
  set (s1 := with_domCache (<["map" := n]>) s).
  assert (Hh1 : heap s1 !! h = Some o) by exact Hh.
  rewrite bind_run, bind_run, (typeof_function_ok h GetZoom s1 o Hh1 Ho).
  cbn beta iota.
  unfold try_catch, getZoom, getCenter, setZoom, invalidateSize.
  rewrite bind_run. cbn [get fst snd].
  unfold captured, snapshot.
  change (originalStyles s1) with (originalStyles s).
  destruct (os_zoom (originalStyles s)) as [z0|] eqn:Hz.
  - rewrite bind_run. cbn [mret M_ret].
    host_next Ho. unfold fitted. cbn [id].
    destruct (gt_number (lm_zoom o) (MIN_ZOOM_LEVEL K)).
    + host_next Ho. host_next Ho.
      f_equal. subst s1. clear - Hz. same_state s.
    + rewrite bind_run. cbn [mret M_ret]. host_next Ho.
      f_equal. subst s1. clear - Hz. same_state s.
  - host_next Ho. rewrite bind_run. cbn [modify]. host_next Ho.
    cbn [modify]. host_next Ho.
    unfold fitted, probed. cbn [id lm_zoom record_call].
    destruct (gt_number (lm_zoom o) (MIN_ZOOM_LEVEL K)).
    + host_next Ho. host_next Ho.
      f_equal. subst s1. clear - Hz. same_state s.
    + rewrite bind_run. cbn [mret M_ret]. host_next Ho.
      f_equal. subst s1. clear - Hz. same_state s.
Qed.

(** ** Computations that never throw *)

Lemma returns_ret {A} (a : A) : returns (mret a).
Proof. intros s. now exists a. Qed.

Lemma returns_gets {A} (f : State -> A) : returns (gets f).
Proof. intros s. now exists (f s). Qed.

Lemma returns_get : returns get.
Proof. intros s. now exists s. Qed.

Lemma returns_modify f : returns (modify f).
Proof. intros s. now exists tt. Qed.

Lemma returns_bind {A B} (m : M A) (k : A -> M B) :
  returns m -> (forall a, returns (k a)) -> returns (m ≫= k).
Proof.
  intros Hm Hk s. rewrite bind_run. destruct (Hm s) as [a Ha].
  destruct (m s) as [[a'|e] s']; simpl in Ha; [| discriminate].
  apply Hk.
Qed.

Lemma returns_try_catch (body : M unit) handler :
  (forall e, returns (handler e)) -> returns (try_catch body handler).
Proof.
  intros Hh s. unfold try_catch.
  destruct (body s) as [[a|e] s']; [now exists a | apply Hh].
Qed.

Lemma returns_findElementBySelectors selectors :
  returns (findElementBySelectors selectors).
Proof.
  induction selectors as [|sel rest IH]; simpl.
  - apply returns_ret.
  - apply returns_bind; [apply returns_gets|].
    intros [n|]; [apply returns_ret | exact IH].
Qed.

Lemma inherited_own_name (s : State) (cacheKey : string) :
  existsb (String.eqb cacheKey) Object_prototype = false ->
  inherited s cacheKey = false.
Proof. unfold inherited. now intros ->. Qed.

Lemma returns_getCachedElement (sel : selector) (cacheKey : string) :
  existsb (String.eqb cacheKey) Object_prototype = false ->
  returns (getCachedElement sel cacheKey).
Proof.
  intros H. unfold getCachedElement.
  apply returns_bind; [apply returns_get | intros s].
  rewrite (inherited_own_name s cacheKey H).
  apply returns_bind; [| intros ?; apply returns_gets].
  destruct (cache_stale s cacheKey); [| apply returns_ret].
  apply returns_bind; [apply returns_gets | intros ?; apply returns_modify].
Qed.

Ltac returns_step :=
  lazymatch goal with
  | |- returns (mret _) => apply returns_ret
  | |- returns (getCachedElement _ _) =>
      apply returns_getCachedElement; reflexivity
  | |- returns get => apply returns_get
  | |- returns (gets _) => apply returns_gets
  | |- returns (modify _) => apply returns_modify
  | |- returns (findElementBySelectors _) => apply returns_findElementBySelectors
  | |- returns (_ ≫= _) => apply returns_bind; [| intros ?]
  | |- returns (try_catch _ _) => apply returns_try_catch; intros ?
  | |- returns (match ?x with _ => _ end) => destruct x
  | |- returns ?m => let h := head_of m in unfold h; cbv beta iota zeta
  end.

Lemma returns_repositionObservationCards K :
  returns (repositionObservationCards K).
Proof. repeat returns_step. Qed.

Lemma returns_adjustMapZoom K : returns (adjustMapZoom K).
Proof. repeat returns_step. Qed.

Lemma returns_applyMapBounds : returns applyMapBounds.
Proof. repeat returns_step. Qed.

Lemma returns_postPaint K : returns (postPaint K).
Proof.
  pose proof (returns_adjustMapZoom K). pose proof returns_applyMapBounds.
  unfold postPaint. repeat (assumption || returns_step).
Qed.

Lemma returns_unit (m : M unit) (s : State) :
  returns m -> m s = (Normal tt, (m s).2).
Proof.
  intros H. destruct (H s) as [[] Ha]. destruct (m s) as [c s']; simpl in *.
  now rewrite Ha.
Qed.

Lemma keeps_heap_reposition K : keeps heap (repositionObservationCards K).
Proof. solve_keeps. Qed.

Lemma keeps_originalStyles_reposition K :
  keeps originalStyles (repositionObservationCards K).
Proof. solve_keeps. Qed.

(** The viewport fit on a mounted, healthy instance. *)
Lemma adjustMapZoom_fits K (s : State) n i h o :
  mounted s n i h -> heap s !! h = Some o -> healthy o ->
  let s' := (adjustMapZoom K s).2 in
  (adjustMapZoom K s).1 = Normal tt
  /\ heap s' !! h = Some (fitted K (if captured s then o else probed o))
  /\ originalStyles s' = snapshot o (originalStyles s).
Proof.
  intros Hm Hh Ho. cbn zeta.
  rewrite (adjustMapZoom_mounted K s n i h o Hm Hh Ho).
  set (mid := with_originalStyles _ _).
  rewrite (returns_unit _ mid (returns_repositionObservationCards K)).
  cbn [fst snd].
  rewrite keeps_heap_reposition, keeps_originalStyles_reposition.
  subst mid. cbn. rewrite lookup_insert_eq. auto.
Qed.

(** The post-paint follow-up on a mounted, healthy instance. *)
Lemma postPaint_fits K (s : State) n i h o :
  mounted s n i h -> heap s !! h = Some o -> healthy o ->
  let s' := (postPaint K s).2 in
  heap s' !! h
  = Some (fitted K (if captured s then bounded o else probed (bounded o)))
  /\ originalStyles s' = snapshot o (originalStyles s).
Proof.
  intros Hm Hh Ho. cbn zeta. unfold postPaint.
  rewrite bind_run, (applyMapBounds_mounted s n i h o Hm Hh Ho).
  cbn beta iota.
  set (s1 := with_heap _ _).
  assert (Hm1 : mounted s1 n i h)
    by (apply mounted_with_heap, mounted_cached, Hm).
  assert (Hh1 : heap s1 !! h = Some (bounded o))
    by (subst s1; cbn; apply lookup_insert_eq).
  assert (Ho1 : healthy (bounded o)) by exact Ho.
  destruct (adjustMapZoom_fits K s1 n i h (bounded o) Hm1 Hh1 Ho1)
    as (Hr & Hheap & Hos).
  rewrite bind_run.
  destruct (adjustMapZoom K s1) as [c s2]. cbn [fst snd] in *. subst c.
  cbn. split; [exact Hheap | exact Hos].
Qed.

(** ** The map stays mounted while the script edits the document *)

Lemma injectStyles_split css i (s : State) :
  injectStyles css i s = appendStyle css i (deleted i s).
Proof.
  unfold injectStyles, appendStyle, deleted. rewrite bind_run.
  unfold document_getElementById, gets. cbn [fst snd].
  destruct (dom_getElementById i (document s)); reflexivity.
Qed.

Lemma In_without n (l : list Element) e :
  In e (without n l) <-> In e l /\ el_node e <> n.
Proof.
  unfold without. rewrite List.filter_In, negb_true_iff.
  split; intros [H1 H2]; split; auto.
  - intros Hn. apply is_node_true in Hn. congruence.
  - destruct (is_node n e) eqn:E; [| reflexivity].
    apply is_node_true in E. contradiction.
Qed.

Lemma has_id_distinct (i j : string) e :
  i <> j -> has_id i e = true -> has_id j e = false.
Proof.
  unfold has_id. intros Hij Hi. apply String.eqb_eq in Hi.
  apply String.eqb_neq. congruence.
Qed.

Lemma mounted_deleted (s : State) n i h :
  mounted s n i h -> mounted (deleted reserved s) n i h.
Proof.
  intros Hm. unfold deleted, dom_getElementById.
  destruct (List.find (has_id reserved) (all_elements (document s)))
    as [e0|] eqn:Hf; [| exact Hm].
  apply List.find_some in Hf as [Hin0 Hid0].
  assert (Hne : el_node e0 <> n).
  { intros Hn. apply (mounted_only _ _ _ _ Hm e0 Hin0) in Hn.
    rewrite (has_id_distinct reserved "map" e0) in Hn; [discriminate | | exact Hid0].
    discriminate. }
  destruct Hm as [[e [Hin Hn]] Honly Hstamp Hold Hcache Hreg].
  cbn [fmap option_fmap option_map].
  split; unfold with_document; cbn [document domCache window];
    rewrite ?all_elements_remove; auto.
  - exists e. split; [| exact Hn]. apply In_without. split; congruence.
  - intros e' He'. apply In_without in He' as [He' _]. auto.
  - intros e' He'. apply In_without in He' as [He' _]. auto.
Qed.

Lemma mounted_inserted (s s' : State) e0 pre post n i h :
  all_elements (document s) = pre ++ post ->
  all_elements (document s') = pre ++ e0 :: post ->
  el_node e0 <> n -> has_id "map" e0 = false ->
  (fresh_node (document s) <= fresh_node (document s'))%positive ->
  domCache s' = domCache s -> window s' = window s ->
  mounted s n i h -> mounted s' n i h.
Proof.
  intros He He' Hn0 Hid0 Hf Hc Hw [[e [Hin Hn]] Honly Hstamp Hold Hcache Hreg].
  assert (Hins : forall x, In x (pre ++ e0 :: post) <-> x = e0 \/ In x (pre ++ post)).
  { intros x. rewrite !List.in_app_iff. simpl. intuition auto. }
  rewrite He in *.
  split; rewrite ?He', ?Hc, ?Hw; auto.
  - exists e. split; [apply Hins; auto | exact Hn].
  - intros x Hx. apply Hins in Hx as [-> | Hx]; [| auto].
    rewrite Hid0. split; [discriminate | intros; contradiction].
  - intros x Hx Hxn. apply Hins in Hx as [-> | Hx]; [contradiction | auto].
  - lia.
Qed.

Lemma mounted_root (s : State) n i h :
  mounted s n i h -> exists r, documentElement (document s) = Some r.
Proof.
  intros [[e [Hin _]] _ _ _ _ _]. unfold all_elements in Hin.
  destruct (documentElement (document s)) as [r|]; [eauto | contradiction].
Qed.

Lemma appendStyle_mounted css (s : State) n i h :
  mounted s n i h ->
  (appendStyle css reserved s).1 = Normal tt
  /\ mounted (appendStyle css reserved s).2 n i h.
Proof.
  intros Hm. destruct (mounted_root s n i h Hm) as [r Hr].
  pose proof (mounted_old _ _ _ _ Hm) as Hold.
  assert (Hne : fresh_node (document s) <> n) by lia.
  revert Hm Hr Hold Hne.
  destruct s as [d w hp ri st os cf dc sa mf tm fr sr ob ox].
  destruct d as [de fn]. cbn. intros Hm -> Hold Hne.
  destruct r as [hd bd rest]. unfold appendStyle. exec.
  destruct hd as [hd|]; cbn; (split; [reflexivity|]).
  - eapply (mounted_inserted _ _ _ hd (default [] (b_children <$> bd) ++ rest));
      [ | | | | | | | exact Hm].
    2: { unfold all_elements, html_elements. cbn.
         now rewrite <- List.app_assoc. }
    all: cbn; try reflexivity; try lia; exact Hne.
  - eapply (mounted_inserted _ _ _ (default [] (b_children <$> bd) ++ rest) []);
      [ | | | | | | | exact Hm].
    2: { unfold all_elements, html_elements. cbn. now rewrite List.app_assoc. }
    1: { unfold all_elements, html_elements. cbn. now rewrite List.app_nil_r. }
    all: cbn; try reflexivity; try lia; exact Hne.
Qed.

Lemma injectStyles_mounted css (s : State) n i h :
  mounted s n i h ->
  (injectStyles css reserved s).1 = Normal tt
  /\ mounted (injectStyles css reserved s).2 n i h.
Proof.
  intros Hm. rewrite injectStyles_split.
  apply appendStyle_mounted, mounted_deleted, Hm.
Qed.

(** ** [apply()] on a page with a mounted map *)

Lemma isMapViewPage_run (s : State) :
  Part000.isMapViewPage s
  = (Normal (String.eqb (pathname (w_location (window s))) "/observations"
             || String.eqb (pathname (w_location (window s))) "/observations/"),
     s).
Proof. reflexivity. Qed.

Lemma listing_path_true (s : State) :
  listing_path s ->
  String.eqb (pathname (w_location (window s))) "/observations"
  || String.eqb (pathname (w_location (window s))) "/observations/" = true.
Proof.
  intros [-> | ->]; reflexivity.
Qed.

Lemma find_some_exists {A} (p : A -> bool) (l : list A) x :
  In x l -> p x = true -> exists y, List.find p l = Some y.
Proof.
  intros Hin Hp. destruct (List.find p l) as [y|] eqn:Hf; [eauto|].
  eapply List.find_none in Hf; [| exact Hin]. congruence.
Qed.

Lemma mounted_anchor (s : State) n i h :
  mounted s n i h ->
  exists a, dom_querySelector
              [Simple (ById "map"); Simple (ByClass "leaflet-container")]
              (document s) = Some a.
Proof.
  intros [[e [Hin Hn]] Honly _ _ _ _].
  apply Honly in Hn; [| exact Hin].
  unfold dom_querySelector.
  destruct (find_some_exists
              (matches [Simple (ById "map"); Simple (ByClass "leaflet-container")])
              (all_elements (document s)) e Hin) as [y Hy].
  - unfold matches. simpl. unfold has_id in Hn. now rewrite Hn.
  - rewrite Hy. simpl. eauto.
Qed.

Lemma body_classList_run f (s : State) :
  is_Some (document_body (document s)) ->
  exists s', body_classList f s = (Normal tt, s')
    /\ all_elements (document s') = all_elements (document s)
    /\ fresh_node (document s') = fresh_node (document s)
    /\ domCache s' = domCache s /\ window s' = window s
    /\ stylesApplied s' = stylesApplied s /\ frames s' = frames s
    /\ heap s' = heap s /\ originalStyles s' = originalStyles s.
Proof.
  intros [b Hb]. unfold body_classList. rewrite bind_run. cbn [get fst snd].
  rewrite Hb. eexists. split; [reflexivity|].
  unfold modify. cbn [snd]. fields. rewrite all_elements_classList.
  cbn [fresh_node]. repeat split; reflexivity.
Qed.

Lemma keeps_frames_injectStyles css i : keeps frames (injectStyles css i).
Proof. solve_keeps. Qed.

Lemma apply_mounted v (s : State) n i h :
  stylesApplied s = false -> mounted s n i h -> ready v s ->
  (applyOf v s).1 = Normal tt
  /\ mounted (applyOf v s).2 n i h
  /\ stylesApplied (applyOf v s).2 = true
  /\ frames (applyOf v s).2 = frames s ++ [PostPaint].
Proof.
  intros Hsa Hm Hr.
  assert (exists s1, applyOf v s
                     = (Normal tt,
                        with_frames (fun q => q ++ [PostPaint])
                          (with_stylesApplied true s1))
                     /\ mounted s1 n i h /\ frames s1 = frames s)
    as (s1 & Hrun & Hm1 & Hfr).
  { destruct v; cbn [applyOf].
    - unfold Content.applyFullMapHeight. rewrite bind_run. cbn [get fst snd].
      rewrite Hsa. rewrite bind_run.
      change (STYLE_ID Content.CONSTANTS) with reserved.
      destruct (injectStyles_mounted Content.mapStyles s n i h Hm) as [Hn Hm1].
      pose proof (keeps_frames_injectStyles Content.mapStyles reserved s) as Hfr.
      destruct (injectStyles Content.mapStyles reserved s) as [c s1].
      cbn [fst snd] in *. subst c. exists s1. auto.
    - destruct Hr as [Hpath Hbody].
      destruct (mounted_anchor s n i h Hm) as [a Ha].
      destruct (body_classList_run (classList_add "inat-map-enhanced") s Hbody)
        as (s0 & Hrun0 & He0 & Hf0 & Hc0 & Hw0 & Hs0 & Hfr0 & _ & _).
      assert (Hm0 : mounted s0 n i h).
      { revert Hm. apply mounted_ext; auto; [rewrite Hf0; lia | rewrite Hc0; auto]. }
      set (css := Part000.mapStyles 210
                    ("calc(100vh - " +:+ pretty 210 +:+ "px - " +:+ pretty 190
                     +:+ "px - "
                     +:+ pretty (OBS_PANEL_SPACING Part000.CONSTANTS * 2)
                     +:+ "px)")
                    ("calc(100vh - " +:+ pretty 210 +:+ "px - " +:+ pretty 190
                     +:+ "px)")).
      destruct (injectStyles_mounted css s0 n i h Hm0) as [Hn Hm1].
      pose proof (keeps_frames_injectStyles css reserved s0) as Hfr.
      destruct (injectStyles css reserved s0) as [c s1] eqn:Hinj.
      cbn [fst snd] in *. subst c. exists s1.
      split; [| split; [exact Hm1 | now rewrite Hfr, Hfr0]].
      unfold Part000.applyFullMapHeight.
      rewrite bind_run. cbn [console_log mret M_ret fst snd].
      rewrite bind_run. cbn [get fst snd]. rewrite Hsa.
      rewrite bind_run, isMapViewPage_run, (listing_path_true s Hpath).
      cbn [negb]. rewrite bind_run. unfold document_querySelector, gets.
      rewrite Ha. rewrite bind_run. cbn [console_log mret M_ret fst snd].
      rewrite bind_run. cbn [console_log mret M_ret fst snd].
      rewrite bind_run, Hrun0. cbn beta iota.
      change (STYLE_ID Part000.CONSTANTS) with reserved.
      fold css. rewrite bind_run, Hinj. reflexivity. }
  rewrite Hrun. cbn [fst snd].
  split; [reflexivity|]. split; [| split].
  - revert Hm1. apply mounted_ext; cbn; auto; lia.
  - reflexivity.
  - cbn. now rewrite Hfr.
Qed.

(** ** [remove()] on a page with a mounted map *)

Lemma content_remove_split (s : State) :
  Content.removeFullMapHeight s
  = restoreViewport (with_stylesApplied false (deleted reserved s)).
Proof.
  unfold Content.removeFullMapHeight, deleted. rewrite bind_run.
  unfold document_getElementById, gets. cbn [fst snd].
  change (STYLE_ID Content.CONSTANTS) with reserved.
  destruct (dom_getElementById reserved (document s)); reflexivity.
Qed.

Lemma part000_remove_split (s : State) :
  Part000.removeFullMapHeight s
  = (body_classList (classList_remove "inat-map-enhanced");;
     modify (with_stylesApplied false);;
     restoreViewport) (deleted reserved s).
Proof.
  unfold Part000.removeFullMapHeight, deleted. rewrite bind_run.
  unfold document_getElementById, gets. cbn [fst snd].
  change (STYLE_ID Part000.CONSTANTS) with reserved.
  destruct (dom_getElementById reserved (document s)); reflexivity.
Qed.

Lemma restoreViewport_mounted (s : State) n i h o z c :
  mounted s n i h -> heap s !! h = Some o -> healthy o -> snap z c s ->
  restoreViewport s
  = (Normal tt,
     with_heap (<[h := restored z c o]>) (with_domCache (<["map" := n]>) s)).
Proof.
  intros Hm Hh Ho [Hz Hc]. unfold restoreViewport.
  rewrite bind_run. cbn [get fst snd]. rewrite Hz, Hc.
  rewrite bind_run, (mounted_getCachedElement Hm). cbn beta iota.
  rewrite bind_run.
  rewrite (mounted_getLeafletMapInstance (mounted_cached _ _ _ _ Hm)).
  cbn beta iota.
  set (s1 := with_domCache (<["map" := n]>) s).
  assert (Hh1 : heap s1 !! h = Some o) by exact Hh.
  rewrite bind_run, (typeof_function_ok h SetZoom s1 o Hh1 Ho).
  cbn beta iota.
  unfold try_catch, setZoom, panTo, invalidateSize, restored.
  host_next Ho.
  destruct c as [center|].
  - host_next Ho. host_next Ho. f_equal. subst s1. clear. same_state s.
  - rewrite bind_run. cbn [mret M_ret]. host_next Ho.
    f_equal. subst s1. clear. same_state s.
Qed.

Lemma restoreViewport_idle (s : State) :
  os_zoom (originalStyles s) = None -> restoreViewport s = (Normal tt, s).
Proof.
  intros H. unfold restoreViewport. rewrite bind_run. cbn [get fst snd].
  now rewrite H.
Qed.

Lemma remove_restores v (s : State) n i h o z c :
  mounted s n i h -> heap s !! h = Some o -> healthy o -> snap z c s ->
  (v = Part000Js -> is_Some (document_body (document s))) ->
  (removeOf v s).1 = Normal tt
  /\ heap (removeOf v s).2 !! h = Some (restored z c o)
  /\ stylesApplied (removeOf v s).2 = false.
Proof.
  intros Hm Hh Ho Hs Hb.
  pose proof (mounted_deleted s n i h Hm) as Hmd.
  assert (Hhd : heap (deleted reserved s) !! h = Some o)
    by (unfold deleted; destruct (dom_getElementById _ _); exact Hh).
  assert (Hsd : snap z c (deleted reserved s))
    by (unfold deleted; destruct (dom_getElementById _ _); exact Hs).
  destruct v; cbn [removeOf].
  - rewrite content_remove_split.
    assert (Hm1 : mounted (with_stylesApplied false (deleted reserved s)) n i h)
      by (revert Hmd; apply mounted_ext; cbn; auto; lia).
    rewrite (restoreViewport_mounted _ n i h o z c Hm1 Hhd Ho Hsd).
    cbn. rewrite lookup_insert_eq. auto.
  - rewrite part000_remove_split.
    assert (Hbd : is_Some (document_body (document (deleted reserved s)))).
    { specialize (Hb eq_refl). unfold deleted.
      destruct (dom_getElementById _ _); [| exact Hb].
      destruct Hb as [b Hb]. unfold document_body in *. cbn.
      destruct (documentElement (document s)) as [r|]; [| discriminate].
      cbn in *. rewrite Hb. cbn. eauto. }
    destruct (body_classList_run (classList_remove "inat-map-enhanced") _ Hbd)
      as (s0 & Hrun & He0 & Hf0 & Hc0 & Hw0 & Hs0 & Hfr0 & Hh0 & Ho0).
    rewrite bind_run, Hrun. cbn beta iota.
    rewrite bind_run. cbn [modify].
    assert (Hm1 : mounted (with_stylesApplied false s0) n i h).
    { revert Hmd. apply mounted_ext; cbn; auto; [rewrite Hf0; lia | rewrite Hc0; auto]. }
    assert (Hh1 : heap (with_stylesApplied false s0) !! h = Some o)
      by (cbn; rewrite Hh0; exact Hhd).
    assert (Hs1 : snap z c (with_stylesApplied false s0))
      by (unfold snap in *; cbn; rewrite Ho0; exact Hsd).
    rewrite (restoreViewport_mounted _ n i h o z c Hm1 Hh1 Ho Hs1).
    cbn. rewrite lookup_insert_eq. auto.
Qed.

(** * The claims *)

(** ** Messages *)

Lemma sender_mismatch (s : State) (sender : Sender) :
  sender_id sender <> Some (runtime_id s) ->
  match sender_id sender with
  | Some i => negb (String.eqb i "") && String.eqb i (runtime_id s)
  | None => false
  end = false.
Proof.
  destruct (sender_id sender) as [i|]; [| reflexivity].
  intros H. destruct (String.eqb i (runtime_id s)) eqn:E.
  - apply String.eqb_eq in E. congruence.
  - apply andb_false_r.
Qed.

Lemma sender_match (s : State) (sender : Sender) :
  sender_id sender = Some (runtime_id s) -> runtime_id s <> "" ->
  match sender_id sender with
  | Some i => negb (String.eqb i "") && String.eqb i (runtime_id s)
  | None => false
  end = true.
Proof.
  intros -> H. rewrite String.eqb_refl, andb_true_r.
  apply negb_true_iff, String.eqb_neq, H.
Qed.

Lemma is_action_false (message : Message) (name : string) :
  action message <> Some name -> is_action message name = false.
Proof.
  unfold is_action. destruct (action message) as [a|]; [| reflexivity].
  intros H. apply String.eqb_neq. congruence.
Qed.

(** C7: a message whose sender is not the extension itself is answered
    [{success:false, error:"Invalid sender"}], and a message of the
    extension with an action other than [toggleFullMapHeight] and [getState]
    is answered [{success:false, error:"Unknown action"}]; in both cases the
    state is left as it was, the response apart. *)
Theorem message_rejections (v : variant) (s : State) (message : Message)
    (sender : Sender) :
  (sender_id sender <> Some (runtime_id s) ->
   onMessageOf v message sender s
   = (Normal true,
      with_outbox (fun o => o ++ [RespFailure "Invalid sender"]) s))
  /\ (sender_id sender = Some (runtime_id s) -> runtime_id s <> "" ->
      action message <> Some "toggleFullMapHeight" ->
      action message <> Some "getState" ->
      onMessageOf v message sender s
      = (Normal true,
         with_outbox (fun o => o ++ [RespFailure "Unknown action"]) s)).
Proof.
  split.
  - intros H. unfold onMessageOf, onMessage. rewrite bind_run.
    cbn [get fst snd]. rewrite (sender_mismatch s sender H). reflexivity.
  - intros Hs Hr Ht Hg. unfold onMessageOf, onMessage. rewrite bind_run.
    cbn [get fst snd]. rewrite (sender_match s sender Hs Hr).
    rewrite (is_action_false _ _ Ht), (is_action_false _ _ Hg). reflexivity.
Qed.

Lemma message_rejections_witness :
  let stranger := {| sender_id := Some "another-extension" |} in
  let bogus := {| action := Some "bogus"; enabled := true |} in
  let s := Sample.session 5 in
  onMessageOf Part000Js (Sample.toggle false) stranger s
  = (Normal true, with_outbox (fun o => o ++ [RespFailure "Invalid sender"]) s)
  /\ onMessageOf Part000Js bogus Sample.popup s
     = (Normal true, with_outbox (fun o => o ++ [RespFailure "Unknown action"]) s).
Proof.
  split.
  - apply (message_rejections Part000Js). simpl. discriminate.
  - apply (message_rejections Part000Js); simpl;
      [reflexivity | discriminate | discriminate | discriminate].
Defined.

(** C9: a valid toggle request writes the requested value to the mirrored
    flag before [apply()] or [remove()] runs.  When that call throws, the
    handler answers [{success:false, error}] and the flag keeps the requested
    value: a later [getState] reports it. *)
Theorem toggle_is_not_rolled_back (v : variant) (s : State) (on : bool)
    (sender : Sender) :
  sender_id sender = Some (runtime_id s) -> runtime_id s <> "" ->
  let request := {| action := Some "toggleFullMapHeight"; enabled := on |} in
  let asked := with_config {| fullMapHeight := on |} s in
  let operation := if on then applyOf v else removeOf v in
  let answered := (onMessageOf v request sender s).2 in
  fullMapHeight (config answered) = on
  /\ (forall e, (operation asked).1 = Thrown e ->
        answered = with_outbox (fun o => o ++ [RespFailure (error_message e)])
                     (operation asked).2)
  /\ ((operation asked).1 = Normal tt ->
        answered = with_outbox (fun o => o ++ [RespSuccess]) (operation asked).2)
  /\ outbox (onMessageOf v Sample.getState sender answered).2
     = outbox answered ++ [RespState on].
Proof.
  intros Hs Hr request asked operation answered.
  assert (Hrun : answered
                 = match (operation asked).1 with
                   | Normal _ => with_outbox (fun o => o ++ [RespSuccess])
                                   (operation asked).2
                   | Thrown e =>
                       with_outbox (fun o => o ++ [RespFailure (error_message e)])
                         (operation asked).2
                   end).
  { subst answered. unfold onMessageOf, onMessage. rewrite bind_run.
    cbn [get fst snd]. rewrite (sender_match s sender Hs Hr).
    cbn [negb is_action request action]. rewrite String.eqb_refl.
    unfold try_catch. rewrite !bind_run. cbn [modify get fst snd].
    change (with_config {| fullMapHeight := enabled request |} s) with asked.
    rewrite !bind_run. cbn [get fst snd].
    change (fullMapHeight (config asked)) with on.
    change (if on then applyOf v else removeOf v) with operation.
    rewrite bind_run.
    destruct (operation asked) as [[[]|e] st]; reflexivity. }
  assert (Hcfg : config (operation asked).2 = {| fullMapHeight := on |}).
  { subst operation. destruct on.
    - now rewrite keeps_config_apply.
    - now rewrite keeps_config_remove. }
  assert (Hflag : fullMapHeight (config answered) = on).
  { rewrite Hrun. destruct ((operation asked).1); cbn; now rewrite Hcfg. }
  assert (Hid : runtime_id answered = runtime_id s).
  { rewrite Hrun.
    assert (keeps runtime_id operation)
      by (subst operation; destruct on, v; solve_keeps).
    destruct ((operation asked).1); cbn; now rewrite H. }
  split; [exact Hflag|]. split; [| split].
  - intros e He. rewrite Hrun, He. reflexivity.
  - intros He. rewrite Hrun, He. reflexivity.
  - unfold onMessageOf, onMessage. rewrite bind_run. cbn [get fst snd].
    rewrite <- Hid in Hs, Hr. rewrite (sender_match answered sender Hs Hr).
    cbn [negb]. unfold try_catch. rewrite !bind_run.
    cbn [is_action Sample.getState action String.eqb Ascii.eqb Bool.eqb].
    rewrite bind_run. cbn [get fst snd]. rewrite Hflag. reflexivity.
Qed.

Lemma toggle_is_not_rolled_back_witness :
  let s := with_config {| fullMapHeight := false |} bodiless in
  let answered := (onMessageOf Part000Js (Sample.toggle true) Sample.popup s).2 in
  fullMapHeight (config answered) = true
  /\ outbox answered
     = [RespFailure "Cannot read properties of null (reading 'classList')"]
  /\ stylesApplied answered = false
  /\ outbox (onMessageOf Part000Js Sample.getState Sample.popup answered).2
     = outbox answered ++ [RespState true].
Proof.
  cbv zeta. unfold Sample.toggle.
  destruct (toggle_is_not_rolled_back Part000Js
              (with_config {| fullMapHeight := false |} bodiless) true
              Sample.popup)
    as (Hflag & Hthrown & _ & Hstate).
  - reflexivity.
  - simpl. discriminate.
  - split; [exact Hflag|]. split; [| split; [| exact Hstate]].
    + erewrite Hthrown; [| vm_compute; reflexivity]. vm_compute. reflexivity.
    + erewrite Hthrown; [| vm_compute; reflexivity]. vm_compute. reflexivity.
Defined.

(** ** Resolving the map instance *)

(** C10: when the element carries a Leaflet identifier and the registry of
    the library exists, [getLeafletMapInstance] returns the registry entry of
    that identifier, [undefined] included, whatever [window.GLOBALS] holds;
    the global singleton is the answer only when the identifier or the
    registry is missing; without element or without [window.L] the answer is
    [null]; and the function never throws nor writes. *)
Theorem instance_resolution_chain (s : State) (mapElement : option node_id) :
  (forall el L i instances,
     mapElement = Some el -> w_L (window s) = Some L ->
     leaflet_id_of s el = Some i -> L_map L ≫= L_instances = Some instances ->
     forall g,
       getLeafletMapInstance mapElement (with_GLOBALS g s)
       = (Normal (match instances !! i with
                  | Some h => RObj h
                  | None => RUndefined
                  end), with_GLOBALS g s))
  /\ (forall el L,
        mapElement = Some el -> w_L (window s) = Some L ->
        leaflet_id_of s el = None \/ L_map L ≫= L_instances = None ->
        getLeafletMapInstance mapElement s
        = (Normal (match w_GLOBALS (window s) ≫= GLOBALS_map with
                   | Some h => RObj h
                   | None => RNull
                   end), s))
  /\ (mapElement = None \/ w_L (window s) = None ->
      getLeafletMapInstance mapElement s = (Normal RNull, s))
  /\ (exists r, getLeafletMapInstance mapElement s = (Normal r, s)).
Proof.
  unfold getLeafletMapInstance. repeat split.
  - intros el L i instances -> HL Hi Hreg g. rewrite bind_run.
    cbn [get fst snd]. cbn [with_GLOBALS with_window window w_L].
    rewrite HL.
    change (leaflet_id_of (with_GLOBALS g s) el) with (leaflet_id_of s el).
    rewrite Hi, Hreg. reflexivity.
  - intros el L -> HL H. rewrite bind_run. cbn [get fst snd]. rewrite HL.
    destruct H as [H | H]; rewrite H.
    + destruct (w_GLOBALS (window s) ≫= GLOBALS_map); reflexivity.
    + destruct (leaflet_id_of s el);
        destruct (w_GLOBALS (window s) ≫= GLOBALS_map); reflexivity.
  - intros [-> | H]; rewrite bind_run; cbn [get fst snd]; [reflexivity|].
    rewrite H. destruct mapElement; reflexivity.
  - rewrite bind_run. cbn [get fst snd].
    destruct mapElement as [el|]; [| eauto].
    destruct (w_L (window s)) as [L|]; [| eauto].
    destruct (leaflet_id_of s el), (L_map L ≫= L_instances);
      try destruct (w_GLOBALS (window s) ≫= GLOBALS_map); eauto.
Qed.

Lemma instance_resolution_chain_witness :
  getLeafletMapInstance (Some 1%positive) unregistered
  = (Normal RUndefined, unregistered)
  /\ getLeafletMapInstance None unregistered = (Normal RNull, unregistered).
Proof.
  destruct (instance_resolution_chain unregistered (Some 1%positive))
    as (Hreg & _ & _ & _).
  destruct (instance_resolution_chain unregistered None) as (_ & _ & Hnull & _).
  split.
  - exact (Hreg 1%positive {| L_map := Some {| L_instances := Some ∅ |} |}
             7%positive ∅ eq_refl eq_refl eq_refl eq_refl
             (Some {| GLOBALS_map := Some 1%positive |})).
  - apply Hnull. left. reflexivity.
Defined.

(** ** The page test *)

Lemma prefix_app (a b : string) : String.prefix a (a +:+ b) = true.
Proof.
  induction a as [|c a IH]; simpl; [destruct b; reflexivity|].
  rewrite IH. destruct (Ascii.ascii_dec c c); [reflexivity | contradiction].
Qed.

Lemma includes_app (needle pre post : string) :
  includes needle (pre +:+ needle +:+ post) = true.
Proof.
  induction pre as [|c pre IH].
  - change (includes needle (needle +:+ post) = true).
    pose proof (prefix_app needle post) as H.
    destruct (needle +:+ post); cbn [includes]; rewrite H; reflexivity.
  - change (includes needle (String c (pre +:+ needle +:+ post)) = true).
    cbn [includes]. rewrite IH. apply orb_true_r.
Qed.

Lemma deeper_path_differs (segment : string) :
  segment <> "" ->
  String.eqb ("/observations/" +:+ segment) "/observations" = false
  /\ String.eqb ("/observations/" +:+ segment) "/observations/" = false.
Proof.
  intros H. split; [reflexivity|].
  destruct segment as [|c rest]; [contradiction | reflexivity].
Qed.

(** The deciding counterexample of C3: the page test of [src/content.js]
    accepts the page of one observation. *)
Lemma content_accepts_deeper_path :
  pathname (w_location Sample.item) = "/observations/123"
  /\ Content.onObservationsPage
       (loaded (Sample.page [Sample.mapElement]) Sample.item ∅
          Sample.extension false)
     = (Normal true,
        loaded (Sample.page [Sample.mapElement]) Sample.item ∅
          Sample.extension false).
Proof. split; reflexivity. Qed.

(** C3, amended: [isMapViewPage] of the second variant is true exactly on the
    paths [/observations] and [/observations/], whatever the rest of the URL,
    false on every deeper path, and it neither writes nor throws; the page
    test of [src/content.js] is the substring test on the whole URL, which is
    also true on deeper paths. *)
Theorem page_test (s : State) :
  (exists b,
     Part000.isMapViewPage s = (Normal b, s)
     /\ (b = true <-> pathname (w_location (window s)) = "/observations"
                      \/ pathname (w_location (window s)) = "/observations/"))
  /\ (forall s',
        pathname (w_location (window s')) = pathname (w_location (window s)) ->
        (Part000.isMapViewPage s').1 = (Part000.isMapViewPage s).1)
  /\ (forall segment,
        segment <> "" ->
        pathname (w_location (window s)) = "/observations/" +:+ segment ->
        Part000.isMapViewPage s = (Normal false, s))
  /\ Content.onObservationsPage s
     = (Normal (includes "inaturalist.org/observations"
                  (href (w_location (window s)))), s)
  /\ (forall origin rest,
        href (w_location (window s))
        = origin +:+ "inaturalist.org/observations" +:+ rest ->
        Content.onObservationsPage s = (Normal true, s)).
Proof.
  repeat split.
  - eexists. split; [apply isMapViewPage_run|].
    rewrite orb_true_iff, !String.eqb_eq. reflexivity.
  - intros s' H. rewrite !isMapViewPage_run. cbn [fst]. now rewrite H.
  - intros segment Hne Hp. rewrite isMapViewPage_run, Hp.
    destruct (deeper_path_differs segment Hne) as [-> ->]. reflexivity.
  - intros origin rest H. unfold Content.onObservationsPage, gets.
    now rewrite H, includes_app.
Qed.

Lemma page_test_witness :
  Part000.isMapViewPage
    (loaded (Sample.page []) Sample.item ∅ Sample.extension false)
  = (Normal false, loaded (Sample.page []) Sample.item ∅ Sample.extension false)
  /\ Content.onObservationsPage
       (loaded (Sample.page []) Sample.item ∅ Sample.extension false)
     = (Normal true,
        loaded (Sample.page []) Sample.item ∅ Sample.extension false).
Proof.
  destruct (page_test (loaded (Sample.page []) Sample.item ∅ Sample.extension false))
    as (_ & _ & Hdeep & _ & Hsub).
  split.
  - apply (Hdeep "123"); [discriminate | reflexivity].
  - apply (Hsub "https://www." "/123"). reflexivity.
Defined.

(** ** The guards of [apply()] *)

(** The deciding counterexample of C4: on a page that is not the listing and
    has no map container, [applyFullMapHeight] of [src/content.js] injects the
    stylesheet and sets the flag. *)
Lemma content_apply_ignores_page_and_anchor :
  Part000.isMapViewPage itemPage = (Normal false, itemPage)
  /\ dom_querySelector anchor (document itemPage) = None
  /\ stylesApplied itemPage = false
  /\ style_nodes itemPage = 0%nat
  /\ style_nodes (run_task Content.applyFullMapHeight itemPage) = 1%nat
  /\ stylesApplied (run_task Content.applyFullMapHeight itemPage) = true
  /\ frames (run_task Content.applyFullMapHeight itemPage) = [PostPaint].
Proof. repeat split; vm_compute; reflexivity. Qed.

(** The same page reached through the storage callback and the message
    handler of [src/content.js]. *)
Lemma content_callers_ignore_page_and_anchor :
  style_nodes (Content.run itemPage [EInit; EStorage (StorageItems None)]) = 1%nat
  /\ style_nodes
       (Content.run itemPage [EMessage (Sample.toggle true) Sample.popup])
     = 1%nat.
Proof. split; vm_compute; reflexivity. Qed.

(** Run the plain statements at the head of a computation. *)
Ltac walk :=
  repeat (rewrite bind_run;
          cbn [console_error console_log mret M_ret modify get gets fst snd
               fullMapHeight config with_config enabled]);
  cbn [console_error console_log mret M_ret modify get gets fst snd].

Lemma part000_apply_guarded (s : State) :
  stylesApplied s = true
  \/ ~ listing_path s
  \/ dom_querySelector anchor (document s) = None ->
  Part000.applyFullMapHeight s = (Normal tt, s).
Proof.
  intros H. unfold Part000.applyFullMapHeight.
  rewrite bind_run. cbn [console_log mret M_ret fst snd].
  rewrite bind_run. cbn [get fst snd].
  destruct (stylesApplied s) eqn:Hsa; [reflexivity|].
  rewrite bind_run, isMapViewPage_run.
  destruct (String.eqb (pathname (w_location (window s))) "/observations"
            || String.eqb (pathname (w_location (window s))) "/observations/")
    eqn:Hp; [| reflexivity].
  cbn [negb]. rewrite bind_run. unfold document_querySelector, gets.
  fold anchor.
  destruct H as [H | [H | H]].
  - discriminate.
  - exfalso. apply H. apply orb_true_iff in Hp.
    unfold listing_path. now rewrite <- !String.eqb_eq.
  - rewrite H. reflexivity.
Qed.

(** C4, amended: [apply()] is a no-op whenever the styles are applied; in the
    second variant it is also a no-op whenever the page is not the listing or
    the anchor is absent, and then the storage callback, the message handler
    and the callback of [init] inject nothing, change no flag and call no
    map method.  In [src/content.js], [apply()] has the first guard only:
    called with the styles not applied, it injects the stylesheet and sets
    the flag whatever the page. *)
Theorem apply_guards (s : State) :
  (forall v, stylesApplied s = true -> applyOf v s = (Normal tt, s))
  /\ (~ listing_path s \/ dom_querySelector anchor (document s) = None ->
      Part000.applyFullMapHeight s = (Normal tt, s)
      /\ (forall r,
            r = StorageError \/ r = StorageItems None
            \/ r = StorageItems (Some true) ->
            let s' := run_task (preferencesLoaded Part000.applyFullMapHeight
                                  Part000.removeFullMapHeight r) s in
            document s' = document s /\ heap s' = heap s
            /\ stylesApplied s' = stylesApplied s)
      /\ (forall sender,
            let s' := run_task (Part000.onMessage (Sample.toggle true) sender;;
                                mret tt) s in
            document s' = document s /\ heap s' = heap s
            /\ stylesApplied s' = stylesApplied s)
      /\ (let s' := run_task (initApply Part000.applyFullMapHeight) s in
          document s' = document s /\ heap s' = heap s
          /\ stylesApplied s' = stylesApplied s))
  /\ (stylesApplied s = false -> is_Some (documentElement (document s)) ->
      single s ->
      let s' := run_task Content.applyFullMapHeight s in
      style_nodes s' = 1%nat /\ stylesApplied s' = true
      /\ frames s' = frames s ++ [PostPaint]).
Proof.
  split; [intros v; apply apply_short_circuit|]. split.
  - intros Hblock.
    assert (Hnoop : forall s0, document s0 = document s -> window s0 = window s ->
              Part000.applyFullMapHeight s0 = (Normal tt, s0)).
    { intros s0 Hd Hw. apply part000_apply_guarded. right.
      unfold listing_path. rewrite Hd, Hw. exact Hblock. }
    split; [apply Hnoop; reflexivity|]. split; [| split].
    + intros r Hr. unfold run_task, preferencesLoaded.
      destruct Hr as [-> | [-> | ->]]; walk; rewrite Hnoop; auto.
    + intros sender. unfold run_task, Part000.onMessage, onMessage.
      walk.
      destruct (negb _); [walk; cbn; auto|].
      unfold try_catch. cbn [is_action Sample.toggle action].
      rewrite String.eqb_refl. walk. rewrite Hnoop; [| reflexivity | reflexivity].
      walk. cbn. auto.
    + unfold run_task, initApply. walk.
      destruct (fullMapHeight (config s)); [| cbn; auto].
      unfold getCachedElement. walk.
      change (inherited s "map") with false. cbn iota.
      destruct (cache_stale s "map"); unfold document_querySelector; walk.
      * match goal with
        | |- context [domCache ?x !! "map"] => destruct (domCache x !! "map")
        end; [rewrite Hnoop | cbn]; auto.
      * destruct (domCache s !! "map"); [rewrite Hnoop | cbn]; auto.
  - intros Hsa Hroot Hs. unfold run_task, Content.applyFullMapHeight.
    rewrite bind_run. cbn [get fst snd]. rewrite Hsa.
    change (STYLE_ID Content.CONSTANTS) with reserved.
    pose proof (injectStyles_count Content.mapStyles s Hs) as Hc.
    destruct Hroot as [r Hr]. rewrite Hr in Hc. destruct Hc as [Hn Hc].
    pose proof (keeps_frames_injectStyles Content.mapStyles reserved s) as Hf.
    rewrite bind_run.
    destruct (injectStyles Content.mapStyles reserved s) as [c s1].
    cbn [fst snd] in *. subst c. exec. rewrite Hf. auto.
Qed.

Lemma apply_guards_witness :
  Part000.applyFullMapHeight itemPage = (Normal tt, itemPage)
  /\ style_nodes (run_task Content.applyFullMapHeight itemPage) = 1%nat.
Proof.
  destruct (apply_guards itemPage) as (_ & Hpart & Hcontent).
  split.
  - apply Hpart. left. unfold listing_path. simpl.
    intros [H | H]; discriminate H.
  - apply Hcontent.
    + reflexivity.
    + eexists. reflexivity.
    + unfold single. vm_compute. lia.
Defined.

(** ** Deciding that a concrete page has a mounted map *)

Lemma mountedb_sound (s : State) n i h :
  mountedb s n i h = true -> mounted s n i h.
Proof.
  unfold mountedb. rewrite !andb_true_iff.
  intros [[[[[H1 H2] H3] H4] H5] H6].
  rewrite forallb_forall in H2, H3. apply existsb_exists in H1 as [e [Hin Hn]].
  split.
  - exists e. split; [exact Hin | now apply is_node_true].
  - intros x Hx. specialize (H2 x Hx). apply Bool.eqb_prop in H2.
    rewrite H2. apply is_node_true.
  - intros x Hx Hn'. specialize (H3 x Hx). apply is_node_true in Hn'.
    rewrite Hn' in H3. simpl in H3. now apply bool_decide_eq_true in H3.
  - now apply Pos.ltb_lt.
  - destruct (domCache s !! "map") as [c|]; [| now left].
    right. f_equal. now apply Pos.eqb_eq.
  - destruct (lookup_instance (window s) i) as [| |h']; try discriminate.
    f_equal. now apply Pos.eqb_eq.
Qed.

Lemma healthyb_sound (o : LeafletMap) : healthyb o = true -> healthy o.
Proof.
  unfold healthyb, healthy. destruct (lm_faulty o); [| discriminate].
  intros H. split; [reflexivity|]. rewrite forallb_forall in H.
  intros m. apply H. destruct m; simpl; tauto.
Qed.

Lemma sample_mounted z :
  mounted (Sample.session z) 1%positive (Some 7%positive) 1%positive.
Proof. apply mountedb_sound. vm_compute. reflexivity. Qed.

Lemma sample_healthy z : healthy (Sample.leaflet z).
Proof. apply healthyb_sound. reflexivity. Qed.

(** ** The viewport fit *)

Lemma fitted_zoom K (o : LeafletMap) :
  lm_zoom (fitted K o)
  = if gt_number (lm_zoom o) (MIN_ZOOM_LEVEL K)
    then (lm_zoom o - ZOOM_ADJUSTMENT K)%Q else lm_zoom o.
Proof.
  unfold fitted. destruct (gt_number (lm_zoom o) (MIN_ZOOM_LEVEL K)); reflexivity.
Qed.

Lemma fitted_bounds K (o : LeafletMap) :
  lm_maxBounds (fitted K o) = lm_maxBounds o
  /\ lm_minZoom (fitted K o) = lm_minZoom o
  /\ lm_center (fitted K o) = lm_center o.
Proof.
  unfold fitted. destruct (gt_number (lm_zoom o) (MIN_ZOOM_LEVEL K)); auto.
Qed.

Lemma gt_number_false (x y : Q) : (x <= y)%Q -> gt_number x y = false.
Proof.
  intros H. unfold gt_number. apply negb_false_iff. now apply Qle_bool_iff.
Qed.

(** The deciding counterexample of C6: from zoom level 1.25, above the floor
    1, the fit sets the zoom to 0.75, below the floor. *)
Lemma fit_goes_below_the_floor :
  (MIN_ZOOM_LEVEL Content.CONSTANTS < 1.25)%Q
  /\ exists o',
       heap (adjustMapZoom Content.CONSTANTS (Sample.session 1.25)).2 !! 1%positive
       = Some o'
       /\ (lm_zoom o' == 0.75)%Q
       /\ (lm_zoom o' < MIN_ZOOM_LEVEL Content.CONSTANTS)%Q.
Proof.
  split; [reflexivity|]. eexists. split; [vm_compute; reflexivity|].
  split; reflexivity.
Qed.

(** C6, amended: on a resolved instance, when the current zoom exceeds the
    floor 1 the fit sets the zoom to the current zoom minus 0.5; the result
    is above the floor minus 0.5, and is not below the floor when the
    current zoom is at least the floor plus 0.5 (every zoom on the half-step
    grid above the floor); otherwise the zoom stays.  The post-paint
    follow-up restricts the bounds to the full-earth box and sets the
    minimum zoom to 2; from zoom 5 it leaves zoom 4.5. *)
Theorem viewport_fit (v : variant) (s : State) n i h o :
  mounted s n i h -> heap s !! h = Some o -> healthy o ->
  let K := constantsOf v in
  MIN_ZOOM_LEVEL K = 1%Q /\ ZOOM_ADJUSTMENT K = 0.5%Q
  /\ (exists o',
        heap (adjustMapZoom K s).2 !! h = Some o'
        /\ ((1 < lm_zoom o)%Q ->
            lm_zoom o' = (lm_zoom o - 0.5)%Q /\ (1 - 0.5 < lm_zoom o')%Q)
        /\ ((1 + 0.5 <= lm_zoom o)%Q -> (1 <= lm_zoom o')%Q)
        /\ ((lm_zoom o <= 1)%Q -> lm_zoom o' = lm_zoom o))
  /\ (exists o',
        heap (postPaint K s).2 !! h = Some o'
        /\ lm_maxBounds o' = Some fullEarth
        /\ lm_minZoom o' = Some 2%Q
        /\ ((lm_zoom o == 5)%Q -> (lm_zoom o' == 4.5)%Q)).
Proof.
  intros Hm Hh Ho K.
  assert (HK : MIN_ZOOM_LEVEL K = 1%Q /\ ZOOM_ADJUSTMENT K = 0.5%Q)
    by (subst K; destruct v; split; reflexivity).
  destruct HK as [Hfloor Hstep]. split; [exact Hfloor|]. split; [exact Hstep|].
  split.
  - destruct (adjustMapZoom_fits K s n i h o Hm Hh Ho) as (_ & Hheap & _).
    eexists. split; [exact Hheap|].
    rewrite fitted_zoom, Hfloor, Hstep.
    replace (lm_zoom (if captured s then o else probed o)) with (lm_zoom o)
      by (destruct (captured s); reflexivity).
    split; [| split].
    + intros Hgt. rewrite (proj2 (gt_number_spec _ _) Hgt). split; [reflexivity|].
      lra.
    + intros Hge. assert (Hgt : (1 < lm_zoom o)%Q) by lra.
      rewrite (proj2 (gt_number_spec _ _) Hgt). lra.
    + intros Hle. now rewrite (gt_number_false _ _ Hle).
  - destruct (postPaint_fits K s n i h o Hm Hh Ho) as (Hheap & _).
    eexists. split; [exact Hheap|].
    destruct (fitted_bounds K (if captured s then bounded o else probed (bounded o)))
      as (Hb & Hz & _).
    rewrite Hb, Hz, fitted_zoom, Hfloor, Hstep.
    replace (lm_zoom (if captured s then bounded o else probed (bounded o)))
      with (lm_zoom o) by (destruct (captured s); reflexivity).
    split; [destruct (captured s); reflexivity|].
    split; [destruct (captured s); reflexivity|].
    intros H5. assert (Hgt : (1 < lm_zoom o)%Q) by lra.
    rewrite (proj2 (gt_number_spec _ _) Hgt). lra.
Qed.

Lemma viewport_fit_witness :
  exists o',
    heap (postPaint Content.CONSTANTS (Sample.session 5)).2 !! 1%positive = Some o'
    /\ lm_maxBounds o' = Some fullEarth
    /\ lm_minZoom o' = Some 2%Q
    /\ (lm_zoom o' == 4.5)%Q.
Proof.
  destruct (viewport_fit ContentJs (Sample.session 5) 1%positive (Some 7%positive)
              1%positive (Sample.leaflet 5)
              (sample_mounted 5) eq_refl (sample_healthy 5))
    as (_ & _ & _ & o' & Hheap & Hb & Hz & H5).
  exists o'. split; [exact Hheap|]. split; [exact Hb|]. split; [exact Hz|].
  apply H5. reflexivity.
Defined.

(** ** Idempotence of [apply()] *)

Lemma frame_postPaint v (s : State) :
  frames s = [PostPaint] ->
  perform v s Frame
  = run_task (postPaint (constantsOf v)) (with_frames (fun _ => []) s).
Proof. intros H. cbn [perform]. unfold stepOf, step. rewrite H. reflexivity. Qed.

Lemma first_frame_captures v (s : State) n i h o :
  captured s = false -> frames s = [PostPaint] ->
  mounted s n i h -> heap s !! h = Some o -> healthy o ->
  originalStyles (perform v s Frame)
  = capture_center (lm_center o) (capture_zoom (lm_zoom o) (originalStyles s)).
Proof.
  intros Hc Hf Hm Hh Ho. rewrite (frame_postPaint v s Hf). unfold run_task.
  assert (Hm' : mounted (with_frames (fun _ => []) s) n i h)
    by (revert Hm; apply mounted_ext; cbn; auto; lia).
  destruct (postPaint_fits (constantsOf v) _ n i h o Hm' Hh Ho) as [_ Hos].
  rewrite Hos. unfold snapshot. cbn [originalStyles with_frames].
  unfold captured in Hc. destruct (os_zoom (originalStyles s)); [discriminate|].
  reflexivity.
Qed.

(** ** The snapshot over a whole session *)

(** A complete [remove()] + [apply()] cycle on the sample page: the first
    [apply()] observes zoom 5, the second one zoom 8 (and fits it to 7.5),
    and the snapshot still holds 5.  No session at all replaces a snapshot
    once it is taken. *)
Lemma snapshot_survives_a_cycle :
  (os_zoom (originalStyles (Content.run (Sample.session 5) cycle)) = Some 5%Q
   /\ exists o, heap (Content.run (Sample.session 5) cycle) !! 1%positive = Some o
                /\ (lm_zoom o == 7.5)%Q)
  /\ ~ (exists v s events,
          captured s = true
          /\ os_zoom (originalStyles (runOf v s events))
             <> os_zoom (originalStyles s)).
Proof.
  split.
  - split; [vm_compute; reflexivity|].
    eexists. split; [vm_compute; reflexivity | reflexivity].
  - intros (v & s & events & Hc & Hne).
    destruct (captured_snap s Hc) as [z Hz].
    destruct (snap_run v z _ events s Hz) as [Hz' _].
    destruct Hz as [Hz _]. congruence.
Qed.

(** C8: throughout a page session the snapshot is captured at most once, by
    the first viewport adjustment that resolves an instance, and once it is
    captured no event of the session overwrites its zoom or its center: not
    a later adjustment, not [remove()], not [apply()].  So it is not
    overwritten before a [remove()] + [apply()] cycle completes; the
    replacement the claim allows after such a cycle is not made by the code
    either. *)
Theorem snapshot_is_kept (v : variant) (s : State) :
  (forall n i h o,
     captured s = false -> mounted s n i h -> heap s !! h = Some o ->
     healthy o ->
     originalStyles (adjustMapZoom (constantsOf v) s).2
     = capture_center (lm_center o) (capture_zoom (lm_zoom o) (originalStyles s)))
  /\ (forall z events,
        os_zoom (originalStyles s) = Some z ->
        os_zoom (originalStyles (runOf v s events)) = Some z
        /\ os_center (originalStyles (runOf v s events))
           = os_center (originalStyles s))
  /\ (forall calls, (captures v s calls <= 1)%nat).
Proof.
  split; [| split].
  - intros n i h o Hc Hm Hh Ho.
    destruct (adjustMapZoom_fits (constantsOf v) s n i h o Hm Hh Ho)
      as (_ & _ & Hos).
    rewrite Hos. unfold snapshot. unfold captured in Hc.
    destruct (os_zoom (originalStyles s)); [discriminate | reflexivity].
  - intros z events Hz.
    exact (snap_run v z (os_center (originalStyles s)) events s
             (conj Hz eq_refl)).
  - intros calls. apply captures_once.
Qed.

Lemma snapshot_is_kept_witness :
  let s := Content.run (Sample.session 5)
             [EMessage (Sample.toggle true) Sample.popup; EFrame] in
  os_zoom (originalStyles s) = Some 5%Q
  /\ os_zoom (originalStyles
                (runOf ContentJs s
                   [EMessage (Sample.toggle false) Sample.popup;
                    EHost (Sample.userZoom 1%positive 8);
                    EMessage (Sample.toggle true) Sample.popup; EFrame]))
     = Some 5%Q.
Proof.
  intros s.
  assert (H : os_zoom (originalStyles s) = Some 5%Q)
    by (vm_compute; reflexivity).
  split; [exact H|].
  exact (proj1 (proj1 (proj2 (snapshot_is_kept ContentJs s)) 5%Q _ H)).
Defined.

(** ** Round trip *)

Lemma restored_fields z c (o : LeafletMap) :
  lm_zoom (restored z (Some c) o) = z
  /\ lm_center (restored z (Some c) o) = c
  /\ lm_calls (restored z (Some c) o)
     = lm_calls o ++ [CallSetZoom z false; CallPanTo c false;
                      CallInvalidateSize false false]
  /\ lm_invalidations (restored z (Some c) o) = S (lm_invalidations o).
Proof.
  unfold restored. cbn. rewrite <- !List.app_assoc. auto.
Qed.

Lemma first_apply_captures v (s : State) n i h o :
  stylesApplied s = false -> captured s = false -> frames s = [] ->
  mounted s n i h -> heap s !! h = Some o -> healthy o -> ready v s ->
  snap (lm_zoom o) (Some (lm_center o)) (session v s [Apply; Frame]).
Proof.
  intros Hsa Hc Hf Hm Hh Ho Hr.
  destruct (apply_mounted v s n i h Hsa Hm Hr) as (_ & Hm1 & _ & Hf1).
  change (session v s [Apply; Frame])
    with (perform v (run_task (applyOf v) s) Frame).
  unfold run_task.
  set (s1 := (applyOf v s).2) in *.
  assert (Hh1 : heap s1 !! h = Some o)
    by (subst s1; rewrite keeps_heap_apply; exact Hh).
  assert (Hc1 : captured s1 = false)
    by (subst s1; unfold captured; rewrite keeps_originalStyles_apply; exact Hc).
  rewrite Hf in Hf1. cbn [app] in Hf1.
  pose proof (first_frame_captures v s1 n i h o Hc1 Hf1 Hm1 Hh1 Ho) as Hos.
  unfold snap, snapshot_is. rewrite Hos. split; reflexivity.
Qed.

Lemma host_fields (a : HostAction) (s : State) :
  frames (host a s) = frames s
  /\ originalStyles (host a s) = originalStyles s
  /\ stylesApplied (host a s) = stylesApplied s.
Proof. unfold host. repeat split. Qed.

(** The deciding counterexample of C2: the user zooms from 5 to 8 after
    [apply()] has returned and before its animation frame.  The frame takes
    the snapshot, and [remove()] then sets the zoom to 8, three levels away
    from the 5 the map had immediately before [apply()]. *)
Lemma remove_restores_moved_viewport :
  ((exists o, heap (Sample.session 5) !! 1%positive = Some o
              /\ (lm_zoom o == 5)%Q)
   /\ captured (perform ContentJs (Sample.session 5) Apply) = false
   /\ captured (perform ContentJs (zoomedEarly ContentJs) Frame) = true
   /\ (exists o', heap (session ContentJs (zoomedEarly ContentJs) [Frame; Remove])
                    !! 1%positive = Some o'
                  /\ (lm_zoom o' == 8)%Q
                  /\ ~ (lm_zoom o' == 5)%Q
                  /\ last (lm_calls o') = Some (CallInvalidateSize false false)))
  /\
  ((exists o, heap (Sample.session 5) !! 1%positive = Some o
              /\ (lm_zoom o == 5)%Q)
   /\ captured (perform Part000Js (Sample.session 5) Apply) = false
   /\ captured (perform Part000Js (zoomedEarly Part000Js) Frame) = true
   /\ (exists o', heap (session Part000Js (zoomedEarly Part000Js) [Frame; Remove])
                    !! 1%positive = Some o'
                  /\ (lm_zoom o' == 8)%Q
                  /\ ~ (lm_zoom o' == 5)%Q
                  /\ last (lm_calls o') = Some (CallInvalidateSize false false))).
Proof.
  split.
  - split; [eexists; split; [reflexivity | reflexivity]|].
    split; [vm_compute; reflexivity|].
    split; [vm_compute; reflexivity|].
    eexists. split; [vm_compute; reflexivity|].
    split; [vm_compute; reflexivity|].
    split; [vm_compute; discriminate | vm_compute; reflexivity].
  - split; [eexists; split; [reflexivity | reflexivity]|].
    split; [vm_compute; reflexivity|].
    split; [vm_compute; reflexivity|].
    eexists. split; [vm_compute; reflexivity|].
    split; [vm_compute; reflexivity|].
    split; [vm_compute; discriminate | vm_compute; reflexivity].
Qed.

(** C2, amended: the snapshot holds the viewport the map has when the
    post-paint callback of the first [apply()] runs, which is the viewport
    from before that [apply()] only when nothing moves the map in between
    ([apply()] itself leaves the instances alone).  When the first [apply()]
    runs on a page with a mounted map, the host acts on the page, and the
    callback then resolves a healthy instance, the callback captures the zoom
    and the center of that instance; whatever the session does next, a
    [remove()] that still resolves a healthy instance sets its zoom and its
    center to exactly the captured values, with [animate: false], and
    invalidates the rendered size. *)
Theorem remove_restores_postpaint_viewport (v : variant) (s : State)
    (a : HostAction) n i h n1 i1 h1 o (events : list event) n' i' h' o' :
  stylesApplied s = false -> captured s = false -> frames s = [] ->
  mounted s n i h -> ready v s ->
  let applied := perform v s Apply in
  let moved := stepOf v applied (EHost a) in
  mounted moved n1 i1 h1 -> heap moved !! h1 = Some o -> healthy o ->
  let fitted := perform v moved Frame in
  let later := runOf v fitted events in
  mounted later n' i' h' -> heap later !! h' = Some o' -> healthy o' ->
  (v = Part000Js -> is_Some (document_body (document later))) ->
  heap applied = heap s
  /\ captured applied = false
  /\ frames moved = [PostPaint]
  /\ snap (lm_zoom o) (Some (lm_center o)) fitted
  /\ snap (lm_zoom o) (Some (lm_center o)) later
  /\ exists o'',
       heap (perform v later Remove) !! h' = Some o''
       /\ lm_zoom o'' = lm_zoom o
       /\ lm_center o'' = lm_center o
       /\ lm_calls o''
          = lm_calls o' ++ [CallSetZoom (lm_zoom o) false;
                            CallPanTo (lm_center o) false;
                            CallInvalidateSize false false]
       /\ lm_invalidations o'' = S (lm_invalidations o').
Proof.
  intros Hsa Hc Hf Hm Hr applied moved Hm1 Hh1 Ho fitted later Hm' Hh' Ho' Hb.
  destruct (apply_mounted v s n i h Hsa Hm Hr) as (_ & _ & _ & Hf1).
  rewrite Hf in Hf1. cbn [app] in Hf1.
  assert (Hheap : heap applied = heap s)
    by (subst applied; cbn [perform]; unfold run_task; apply keeps_heap_apply).
  assert (Hca : captured applied = false)
    by (subst applied; cbn [perform]; unfold run_task, captured;
        rewrite keeps_originalStyles_apply; exact Hc).
  destruct (host_fields a applied) as (Hhf & Hho & _).
  assert (Hfm : frames moved = [PostPaint])
    by (subst moved; change (stepOf v applied (EHost a)) with (host a applied);
        rewrite Hhf; exact Hf1).
  assert (Hcm : captured moved = false)
    by (subst moved; change (stepOf v applied (EHost a)) with (host a applied);
        unfold captured; rewrite Hho; exact Hca).
  assert (Hsnap : snap (lm_zoom o) (Some (lm_center o)) fitted).
  { pose proof (first_frame_captures v moved n1 i1 h1 o Hcm Hfm Hm1 Hh1 Ho)
      as Hos.
    unfold snap, snapshot_is. fold fitted in Hos. rewrite Hos.
    split; reflexivity. }
  pose proof (snap_run v _ _ events _ Hsnap) as Hlater. fold later in Hlater.
  destruct (remove_restores v later n' i' h' o' _ _ Hm' Hh' Ho' Hlater Hb)
    as (_ & Hrestored & _).
  split; [exact Hheap|]. split; [exact Hca|]. split; [exact Hfm|].
  split; [exact Hsnap|]. split; [exact Hlater|].
  exists (restored (lm_zoom o) (Some (lm_center o)) o').
  split; [exact Hrestored|]. apply restored_fields.
Qed.

Lemma remove_restores_postpaint_viewport_witness :
  let later := runOf Part000Js (perform Part000Js (zoomedEarly Part000Js) Frame)
                 [EHost (Sample.userZoom 1%positive 3)] in
  exists o'',
    heap (perform Part000Js later Remove) !! 1%positive = Some o''
    /\ lm_zoom o'' = 8%Q
    /\ lm_center o'' = {| lat := 10; lng := 20 |}.
Proof.
  intros later.
  pose (o := default (Sample.leaflet 0)
               (heap (zoomedEarly Part000Js) !! 1%positive)).
  pose (o' := default (Sample.leaflet 0) (heap later !! 1%positive)).
  assert (Hh : heap (zoomedEarly Part000Js) !! 1%positive = Some o)
    by (vm_compute; reflexivity).
  assert (Hh' : heap later !! 1%positive = Some o')
    by (vm_compute; reflexivity).
  destruct (remove_restores_postpaint_viewport Part000Js (Sample.session 5)
              (Sample.userZoom 1%positive 8)
              1%positive (Some 7%positive) 1%positive
              1%positive (Some 7%positive) 1%positive o
              [EHost (Sample.userZoom 1%positive 3)]
              1%positive (Some 7%positive) 1%positive o')
    as (_ & _ & _ & _ & _ & o'' & H1 & H2 & H3 & _).
  - reflexivity.
  - reflexivity.
  - reflexivity.
  - exact (sample_mounted 5).
  - split; [left; reflexivity | eexists; reflexivity].
  - apply mountedb_sound. vm_compute. reflexivity.
  - exact Hh.
  - apply healthyb_sound. vm_compute. reflexivity.
  - apply mountedb_sound. vm_compute. reflexivity.
  - exact Hh'.
  - apply healthyb_sound. vm_compute. reflexivity.
  - intros _. eexists. vm_compute. reflexivity.
  - exists o''. split; [exact H1|]. split; [exact H2 | exact H3].
Defined.

(** ** [remove()] *)

#[local] Hint Unfold restoreViewport : script.

Lemma keeps_document_restoreViewport : keeps document restoreViewport.
Proof. solve_keeps. Qed.

Lemma keeps_stylesApplied_restoreViewport : keeps stylesApplied restoreViewport.
Proof. solve_keeps. Qed.

Lemma with_stylesApplied_id (b : bool) (s : State) :
  stylesApplied s = b -> with_stylesApplied b s = s.
Proof. destruct s; unfold with_stylesApplied; simpl; intros ->; reflexivity. Qed.

Lemma has_class_removed (c : string) (cs : list string) :
  has_class c (classList_remove c cs) = false.
Proof.
  unfold has_class, classList_remove.
  induction cs as [|x cs IH]; simpl; [reflexivity|].
  destruct (String.eqb c x) eqn:E; simpl; [exact IH|].
  rewrite E. exact IH.
Qed.

Lemma classList_remove_absent (c : string) (cs : list string) :
  has_class c cs = false -> classList_remove c cs = cs.
Proof.
  unfold has_class, classList_remove.
  induction cs as [|x cs IH]; simpl; [reflexivity|].
  destruct (String.eqb c x); simpl; [discriminate|].
  intros H. now rewrite IH.
Qed.

#[local] Arguments has_class : simpl never.
#[local] Arguments classList_remove : simpl never.

Lemma unmark_run (s : State) :
  is_Some (document_body (document s)) ->
  exists s', body_classList (classList_remove "inat-map-enhanced") s
             = (Normal tt, s')
    /\ marked s' = false
    /\ style_nodes s' = style_nodes s
    /\ heap s' = heap s /\ originalStyles s' = originalStyles s
    /\ (marked s = false -> s' = s).
Proof.
  intros [b Hb]. unfold body_classList. rewrite bind_run. cbn [get fst snd].
  rewrite Hb. eexists. split; [reflexivity|].
  unfold modify. cbn [snd]. split; [| split; [| split; [| split]]].
  - unfold marked, document_body in *. fields.
    destruct s as [d w hp ri st os cf dc sa mf tm fr sr ob ox]. fields.
    destruct d as [[[hd bd rest]|] fn]; [| discriminate].
    cbn in *. subst bd. cbn. apply has_class_removed.
  - apply style_nodes_classList.
  - reflexivity.
  - reflexivity.
  - unfold marked, document_body in *.
    destruct s as [d w hp ri st os cf dc sa mf tm fr sr ob ox]. fields.
    destruct d as [[[hd bd rest]|] fn]; [| discriminate].
    cbn in *. subst bd. cbn. intros Hc.
    rewrite classList_remove_absent by exact Hc. destruct b. reflexivity.
Qed.

Lemma deleted_none (s : State) :
  style_nodes s = 0%nat -> deleted reserved s = s.
Proof.
  intros H. unfold deleted. now rewrite (getElementById_none s H).
Qed.

Lemma deleted_fields (s : State) :
  heap (deleted reserved s) = heap s
  /\ originalStyles (deleted reserved s) = originalStyles s
  /\ (is_Some (document_body (document s)) ->
      is_Some (document_body (document (deleted reserved s)))).
Proof.
  unfold deleted. destruct (dom_getElementById reserved (document s));
    [| auto].
  split; [reflexivity|]. split; [reflexivity|].
  intros [b Hb]. unfold document_body in *. cbn.
  destruct (documentElement (document s)) as [r|]; [| discriminate].
  cbn in *. rewrite Hb. cbn. eauto.
Qed.

Lemma remove_clears v (s : State) :
  single s ->
  (v = Part000Js -> is_Some (document_body (document s))) ->
  style_nodes (removeOf v s).2 = 0%nat
  /\ stylesApplied (removeOf v s).2 = false
  /\ (v = Part000Js -> marked (removeOf v s).2 = false)
  /\ (os_zoom (originalStyles s) = None ->
      (removeOf v s).1 = Normal tt /\ heap (removeOf v s).2 = heap s).
Proof.
  intros Hs Hb. pose proof (style_nodes_delete s Hs) as H0.
  fold (deleted reserved s) in H0.
  destruct (deleted_fields s) as (Hdh & Hdo & Hdb).
  destruct v; cbn [removeOf].
  - rewrite content_remove_split.
    set (s1 := with_stylesApplied false (deleted reserved s)).
    split; [| split; [| split]].
    + change (style_nodes (restoreViewport s1).2 = 0%nat).
      assert (Hk : keeps style_nodes restoreViewport) by solve_keeps.
      rewrite Hk. exact H0.
    + now rewrite keeps_stylesApplied_restoreViewport.
    + discriminate.
    + intros Hz. rewrite restoreViewport_idle by (subst s1; cbn; now rewrite Hdo).
      split; [reflexivity | exact Hdh].
  - rewrite part000_remove_split.
    destruct (unmark_run (deleted reserved s) (Hdb (Hb eq_refl)))
      as (s0 & Hrun & Hmark & Hsn & Hh0 & Ho0 & _).
    rewrite bind_run, Hrun. cbn beta iota. rewrite bind_run. cbn [modify].
    set (s1 := with_stylesApplied false s0).
    split; [| split; [| split]].
    + assert (Hk : keeps style_nodes restoreViewport) by solve_keeps.
      rewrite Hk. subst s1. unfold style_nodes in *. cbn. now rewrite Hsn.
    + now rewrite keeps_stylesApplied_restoreViewport.
    + intros _. unfold marked. rewrite keeps_document_restoreViewport.
      exact Hmark.
    + intros Hz.
      rewrite restoreViewport_idle by (subst s1; cbn; now rewrite Ho0, Hdo).
      split; [reflexivity|]. subst s1. cbn. now rewrite Hh0.
Qed.

Lemma remove_idle v (s : State) :
  stylesApplied s = false -> os_zoom (originalStyles s) = None ->
  style_nodes s = 0%nat ->
  (v = Part000Js ->
   is_Some (document_body (document s)) /\ marked s = false) ->
  removeOf v s = (Normal tt, s).
Proof.
  intros Hsa Hz H0 Hb. destruct v; cbn [removeOf].
  - rewrite content_remove_split, (deleted_none s H0).
    rewrite (with_stylesApplied_id false s Hsa). now apply restoreViewport_idle.
  - destruct (Hb eq_refl) as [Hbody Hmark].
    rewrite part000_remove_split, (deleted_none s H0).
    destruct (unmark_run s Hbody) as (s0 & Hrun & _ & _ & _ & _ & Hsame).
    rewrite (Hsame Hmark) in Hrun.
    rewrite bind_run, Hrun. cbn beta iota. rewrite bind_run. cbn [modify].
    rewrite (with_stylesApplied_id false s Hsa). now apply restoreViewport_idle.
Qed.

(** The deciding counterexample of C5: with the styles not applied,
    [remove()] is not a no-op; it calls the map and sets the zoom back from
    8 to the snapshot's 5. *)
Lemma remove_acts_when_not_applied :
  stylesApplied idleZoomed = false
  /\ style_nodes idleZoomed = 0%nat
  /\ (exists o, heap idleZoomed !! 1%positive = Some o /\ (lm_zoom o == 8)%Q)
  /\ (exists o', heap (run_task Content.removeFullMapHeight idleZoomed) !! 1%positive
                 = Some o'
                 /\ (lm_zoom o' == 5)%Q)
  /\ run_task Content.removeFullMapHeight idleZoomed <> idleZoomed.
Proof.
  split; [vm_compute; reflexivity|]. split; [vm_compute; reflexivity|].
  split; [eexists; split; [vm_compute; reflexivity | reflexivity]|].
  split; [eexists; split; [vm_compute; reflexivity | reflexivity]|].
  intros H. apply (f_equal (fun s => lm_zoom <$> heap s !! 1%positive)) in H.
  vm_compute in H. discriminate H.
Qed.

Lemma deleted_bodiless (s : State) :
  document_body (document s) = None ->
  document_body (document (deleted reserved s)) = None.
Proof.
  unfold deleted. destruct (dom_getElementById reserved (document s));
    [| auto].
  unfold document_body. cbn.
  destruct (documentElement (document s)) as [r|]; [| reflexivity].
  cbn. intros ->. reflexivity.
Qed.

(** In the second variant [remove()] reaches for the body before it clears
    the flag. *)
Lemma part000_remove_bodiless (s : State) :
  document_body (document s) = None ->
  Part000.removeFullMapHeight s
  = (Thrown {| error_message :=
                 "Cannot read properties of null (reading 'classList')" |},
     deleted reserved s).
Proof.
  intros Hb. rewrite part000_remove_split, bind_run.
  unfold body_classList. rewrite bind_run. cbn [get fst snd].
  now rewrite (deleted_bodiless s Hb).
Qed.

(** C5, amended: [remove()] has no guard on the flag.  In [src/content.js],
    and in the second variant on a document that has a body, every call
    deletes the singleton stylesheet, clears the flag [stylesApplied] and,
    in the second variant, the marker class of the body; it calls no map
    method when no snapshot was captured, and when one was captured it
    restores the viewport of the resolved instance from it, whether or not
    the styles were applied.  It is a no-op when the styles are not applied
    and no snapshot was captured.  In the second variant on a document
    without body it deletes the stylesheet and then throws, at
    [document.body.classList], before it clears the flag and before it
    restores anything. *)
Theorem remove_effect (v : variant) (s : State) :
  ((v = Part000Js -> is_Some (document_body (document s))) ->
   (single s ->
    style_nodes (removeOf v s).2 = 0%nat
    /\ stylesApplied (removeOf v s).2 = false
    /\ (v = Part000Js -> marked (removeOf v s).2 = false)
    /\ (os_zoom (originalStyles s) = None ->
        (removeOf v s).1 = Normal tt /\ heap (removeOf v s).2 = heap s))
   /\ (forall n i h o z c,
         os_zoom (originalStyles s) = Some z ->
         os_center (originalStyles s) = c ->
         mounted s n i h -> heap s !! h = Some o -> healthy o ->
         (removeOf v s).1 = Normal tt
         /\ heap (removeOf v s).2 !! h = Some (restored z c o)
         /\ lm_zoom (restored z c o) = z)
   /\ (stylesApplied s = false -> os_zoom (originalStyles s) = None ->
       style_nodes s = 0%nat -> (v = Part000Js -> marked s = false) ->
       removeOf v s = (Normal tt, s)))
  /\ (v = Part000Js -> document_body (document s) = None ->
      removeOf v s
      = (Thrown {| error_message :=
                     "Cannot read properties of null (reading 'classList')" |},
         deleted reserved s)
      /\ stylesApplied (removeOf v s).2 = stylesApplied s
      /\ heap (removeOf v s).2 = heap s
      /\ originalStyles (removeOf v s).2 = originalStyles s
      /\ (single s -> style_nodes (removeOf v s).2 = 0%nat)).
Proof.
  split.
  - intros Hb. split; [| split].
    + intros Hs. exact (remove_clears v s Hs Hb).
    + intros n i h o z c Hz Hc Hm Hh Ho.
      destruct (remove_restores v s n i h o z c Hm Hh Ho (conj Hz Hc) Hb)
        as (H1 & H2 & _).
      split; [exact H1|]. split; [exact H2|].
      unfold restored. destruct c; reflexivity.
    + intros Hsa Hz H0 Hmark. apply remove_idle; auto.
  - intros -> Hb. cbn [removeOf].
    rewrite (part000_remove_bodiless s Hb). cbn [snd].
    destruct (deleted_fields s) as (Hdh & Hdo & _).
    split; [reflexivity|].
    split; [unfold deleted; destruct (dom_getElementById _ _); reflexivity|].
    split; [exact Hdh|]. split; [exact Hdo|].
    intros Hs. exact (style_nodes_delete s Hs).
Qed.

Lemma remove_effect_witness :
  (exists o', heap (removeOf ContentJs idleZoomed).2 !! 1%positive = Some o'
              /\ lm_zoom o' = 5%Q)
  /\ removeOf Part000Js (Sample.session 5) = (Normal tt, Sample.session 5)
  /\ (removeOf Part000Js (with_stylesApplied true bodiless)).1
     = Thrown {| error_message :=
                   "Cannot read properties of null (reading 'classList')" |}
  /\ stylesApplied (removeOf Part000Js (with_stylesApplied true bodiless)).2
     = stylesApplied (with_stylesApplied true bodiless).
Proof.
  pose (o := default (Sample.leaflet 0) (heap idleZoomed !! 1%positive)).
  assert (Hh : heap idleZoomed !! 1%positive = Some o)
    by (vm_compute; reflexivity).
  split; [| split].
  - destruct (proj1 (remove_effect ContentJs idleZoomed)) as (_ & Hrestore & _).
    + discriminate.
    + destruct (Hrestore 1%positive (Some 7%positive) 1%positive o 5%Q
                  (Some {| lat := 10; lng := 20 |}))
        as (_ & H2 & H3).
      * vm_compute. reflexivity.
      * vm_compute. reflexivity.
      * apply mountedb_sound. vm_compute. reflexivity.
      * exact Hh.
      * apply healthyb_sound. vm_compute. reflexivity.
      * eexists. split; [exact H2 | exact H3].
  - destruct (proj1 (remove_effect Part000Js (Sample.session 5)))
      as (_ & _ & Hidle).
    + intros _. eexists. reflexivity.
    + apply Hidle; [reflexivity | reflexivity | reflexivity |].
      intros _. reflexivity.
  - destruct (proj2 (remove_effect Part000Js
                       (with_stylesApplied true bodiless)) eq_refl eq_refl)
      as (Hrun & Hflag & _).
    split; [now rewrite Hrun | exact Hflag].
Defined.

(** * Further properties of the script

    Properties of the functions around the ones above: the element
    helpers, the observer, the panel styles, the storage callback, the
    start of the script, and the popup. *)

(** ** [findElementBySelectors] *)

Lemma querySelector_attached (sel : selector) (d : Document) (n : node_id) :
  dom_querySelector sel d = Some n -> dom_contains d n = true.
Proof.
  unfold dom_querySelector, dom_contains. intros H.
  destruct (List.find (matches sel) (all_elements d)) as [e|] eqn:Hf;
    [| discriminate].
  injection H as <-. apply List.find_some in Hf as [Hin _].
  apply existsb_exists. exists e. split; [exact Hin | now apply is_node_true].
Qed.

Lemma querySelector_none (sel : selector) (d : Document) :
  dom_querySelector sel d = None <->
  forall e, In e (all_elements d) -> matches sel e = false.
Proof.
  unfold dom_querySelector. split.
  - intros H e Hin.
    destruct (List.find (matches sel) (all_elements d)) eqn:Hf; [discriminate|].
    exact (List.find_none _ _ Hf e Hin).
  - intros H. destruct (List.find (matches sel) (all_elements d)) as [e|] eqn:Hf;
      [| reflexivity].
    apply List.find_some in Hf as [Hin Hm]. rewrite (H e Hin) in Hm. discriminate.
Qed.

(** X1: [findElementBySelectors] reads the document and writes nothing; it
    returns the match of the first selector of the list that matches
    anything (the order of the list decides, not the order of the document),
    a node of the document, and [null] exactly when no selector of the list
    matches any element. *)
Theorem findElementBySelectors_first_match (selectors : list selector)
    (s : State) :
  exists r,
    findElementBySelectors selectors s = (Normal r, s)
    /\ match r with
       | Some n =>
           exists pre sel post,
             selectors = pre ++ sel :: post
             /\ (forall sel' e, In sel' pre ->
                   In e (all_elements (document s)) -> matches sel' e = false)
             /\ dom_querySelector sel (document s) = Some n
             /\ dom_contains (document s) n = true
       | None =>
           forall sel e, In sel selectors ->
             In e (all_elements (document s)) -> matches sel e = false
       end.
Proof.
  induction selectors as [|sel rest IH]; simpl.
  - exists None. split; [reflexivity | intros ? ? []].
  - rewrite bind_run. unfold document_querySelector, gets. cbn [fst snd].
    destruct (dom_querySelector sel (document s)) as [n|] eqn:Hq.
    + exists (Some n). split; [reflexivity|].
      exists [], sel, rest. repeat split; auto.
      * intros ? ? [].
      * exact (querySelector_attached _ _ _ Hq).
    + destruct IH as [r [Hrun Hr]]. exists r. split; [exact Hrun|].
      pose proof (proj1 (querySelector_none sel (document s)) Hq) as Hnone.
      destruct r as [n|].
      * destruct Hr as (pre & sel0 & post & -> & Hpre & Hsel & Hin).
        exists (sel :: pre), sel0, post. repeat split; auto.
        intros sel' e [<- | Hs'] He; auto.
      * intros sel' e [<- | Hs'] He; auto.
Qed.

(** ** [getCachedElement] *)

Lemma cache_store_lookup (cacheKey : string) (r : option node_id)
    (c : gmap string node_id) :
  cache_store cacheKey r c !! cacheKey = r.
Proof.
  destruct r; simpl; [apply lookup_insert_eq | apply lookup_delete_eq].
Qed.

Lemma cache_store_other (cacheKey k : string) (r : option node_id)
    (c : gmap string node_id) :
  k <> cacheKey -> cache_store cacheKey r c !! k = c !! k.
Proof.
  intros Hk. destruct r; simpl;
    [apply lookup_insert_ne | apply lookup_delete_ne]; congruence.
Qed.

Lemma inherited_iff (s : State) (cacheKey : string) :
  inherited s cacheKey = true
  <-> In cacheKey Object_prototype /\ domCache s !! cacheKey = None.
Proof.
  unfold inherited. rewrite andb_true_iff, existsb_exists. split.
  - intros [(x & Hin & Hx) Hc]. apply String.eqb_eq in Hx. subst x.
    split; [exact Hin|]. destruct (domCache s !! cacheKey); [discriminate | reflexivity].
  - intros [Hin Hc]. rewrite Hc. split; [| reflexivity].
    exists cacheKey. split; [exact Hin | apply String.eqb_refl].
Qed.

Lemma inherited_stored (s : State) (cacheKey : string) (n : node_id) :
  domCache s !! cacheKey = Some n -> inherited s cacheKey = false.
Proof. unfold inherited. intros ->. apply andb_false_r. Qed.

Lemma getCachedElement_run (sel : selector) (cacheKey : string) (s : State) :
  inherited s cacheKey = false ->
  let r := if cache_stale s cacheKey
           then dom_querySelector sel (document s)
           else domCache s !! cacheKey in
  getCachedElement sel cacheKey s
  = (Normal r, with_domCache (cache_store cacheKey r) s).
Proof.
  intros Hown. cbn zeta. unfold getCachedElement. rewrite bind_run.
  cbn [get fst snd]. rewrite Hown.
  destruct (cache_stale s cacheKey) eqn:Hst.
  - rewrite !bind_run. unfold document_querySelector, gets, modify.
    cbn [fst snd]. cbn [with_domCache domCache].
    now rewrite cache_store_lookup.
  - rewrite bind_run. cbn [mret M_ret fst snd]. unfold gets.
    unfold cache_stale in Hst.
    destruct (domCache s !! cacheKey) as [n|] eqn:Hc; [| discriminate].
    rewrite with_domCache_id; [reflexivity|]. simpl. now apply insert_id.
Qed.

Lemma getCachedElement_throws (sel : selector) (cacheKey : string) (s : State) :
  inherited s cacheKey = true ->
  getCachedElement sel cacheKey s
  = (Thrown {| error_message :=
                 "Failed to execute 'contains' on 'Node': parameter 1 is not of type 'Node'." |},
     s).
Proof.
  intros Hin. unfold getCachedElement. rewrite bind_run. cbn [get fst snd].
  rewrite Hin. reflexivity.
Qed.

Lemma cached_attached (sel : selector) (cacheKey : string) (s : State) n :
  (if cache_stale s cacheKey
   then dom_querySelector sel (document s)
   else domCache s !! cacheKey) = Some n ->
  dom_contains (document s) n = true.
Proof.
  unfold cache_stale.
  destruct (domCache s !! cacheKey) as [m|] eqn:Hc.
  - destruct (dom_contains (document s) m) eqn:Hm; cbn [negb].
    + intros [= <-]. exact Hm.
    + apply querySelector_attached.
  - apply querySelector_attached.
Qed.

Lemma getCachedElement_frame (sel : selector) (cacheKey : string)
    (s : State) :
  inherited s cacheKey = false ->
  exists r s',
    getCachedElement sel cacheKey s = (Normal r, s')
    /\ domCache s' !! cacheKey = r
    /\ s' = with_domCache (fun _ => domCache s') s.
Proof.
  intros Hown. eexists _, _. split; [now apply getCachedElement_run|].
  cbn [with_domCache domCache]. split; [apply cache_store_lookup | reflexivity].
Qed.

(** X2: [domCache] is a plain object, so the cache key decides.  Under a key
    that is no name of [Object.prototype] (such as ["map"], the one key the
    script uses), and under any key the cache has an entry of its own for,
    [getCachedElement] never throws and never hands out a node that is not
    in the document; what it returns is what the cache holds under the key
    afterwards ([null]: no entry); the other cache entries and the rest of
    the state are as before.  Under a name inherited from
    [Object.prototype] (["constructor"], ["toString"], ["__proto__"], ...)
    without an entry of the cache's own, it throws the [TypeError] of
    [document.contains] and leaves the state as it is. *)
Theorem getCachedElement_attached (sel : selector) (cacheKey : string)
    (s : State) :
  (inherited s cacheKey = true
   <-> In cacheKey Object_prototype /\ domCache s !! cacheKey = None)
  /\ (inherited s cacheKey = false ->
      exists r s',
        getCachedElement sel cacheKey s = (Normal r, s')
        /\ (forall n, r = Some n -> dom_contains (document s) n = true)
        /\ domCache s' !! cacheKey = r
        /\ (forall k, k <> cacheKey -> domCache s' !! k = domCache s !! k)
        /\ s' = with_domCache (fun _ => domCache s') s)
  /\ (inherited s cacheKey = true ->
      getCachedElement sel cacheKey s
      = (Thrown {| error_message :=
                     "Failed to execute 'contains' on 'Node': parameter 1 is not of type 'Node'." |},
         s)).
Proof.
  split; [apply inherited_iff|]. split.
  - intros Hown.
    pose proof (getCachedElement_run sel cacheKey s Hown) as Hrun.
    cbn zeta in Hrun.
    set (r := if cache_stale s cacheKey
              then dom_querySelector sel (document s)
              else domCache s !! cacheKey) in Hrun.
    exists r, (with_domCache (cache_store cacheKey r) s).
    split; [exact Hrun|]. split; [| split; [| split]].
    + intros n Hn. subst r. exact (cached_attached sel cacheKey s n Hn).
    + cbn [with_domCache domCache]. apply cache_store_lookup.
    + intros k Hk. cbn [with_domCache domCache]. now apply cache_store_other.
    + reflexivity.
  - intros Hin. unfold getCachedElement. rewrite bind_run. cbn [get fst snd].
    rewrite Hin. reflexivity.
Qed.

Lemma getCachedElement_attached_witness :
  (exists r s',
     getCachedElement SELECTORS.MAP "map" (Sample.session 5) = (Normal r, s')
     /\ (forall n, r = Some n
                   -> dom_contains (document (Sample.session 5)) n = true)
     /\ domCache s' !! "map" = r
     /\ (forall k, k <> "map"
                   -> domCache s' !! k = domCache (Sample.session 5) !! k)
     /\ s' = with_domCache (fun _ => domCache s') (Sample.session 5))
  /\ getCachedElement SELECTORS.MAP "constructor" (Sample.session 5)
     = (Thrown {| error_message :=
                    "Failed to execute 'contains' on 'Node': parameter 1 is not of type 'Node'." |},
        Sample.session 5).
Proof.
  split.
  - exact (proj1 (proj2 (getCachedElement_attached SELECTORS.MAP "map"
                           (Sample.session 5))) eq_refl).
  - exact (proj2 (proj2 (getCachedElement_attached SELECTORS.MAP "constructor"
                           (Sample.session 5))) eq_refl).
Defined.

Lemma contains_removed (n : node_id) (d : Document) :
  dom_contains (dom_remove n d) n = false.
Proof.
  unfold dom_contains. rewrite all_elements_remove.
  induction (all_elements d) as [|x l IH]; simpl; [reflexivity|].
  destruct (is_node n x) eqn:E; simpl; [exact IH|]. now rewrite E.
Qed.

(** X3: the cache is keyed by the cache key alone.  Once a call has returned
    a node, a further call under the same key returns that node and changes
    nothing, whatever selector it is given, for as long as the node is in the
    document; once the node is removed from the document, the next call
    queries the document again with its own selector and caches the
    answer. *)
Theorem getCachedElement_reuse (sel sel' : selector) (cacheKey : string)
    (s : State) (n : node_id) :
  (getCachedElement sel cacheKey s).1 = Normal (Some n) ->
  let s1 := (getCachedElement sel cacheKey s).2 in
  getCachedElement sel' cacheKey s1 = (Normal (Some n), s1)
  /\ let s2 := run_task (element_remove n) s1 in
     let r := dom_querySelector sel' (document s2) in
     getCachedElement sel' cacheKey s2
     = (Normal r, with_domCache (cache_store cacheKey r) s2).
Proof.
  intros Hr. cbn zeta.
  assert (Hown : inherited s cacheKey = false).
  { destruct (inherited s cacheKey) eqn:Hin; [| reflexivity].
    rewrite (getCachedElement_throws sel cacheKey s Hin) in Hr. discriminate. }
  assert (Hatt : dom_contains (document s) n = true).
  { rewrite (getCachedElement_run sel cacheKey s Hown) in Hr.
    cbn [fst] in Hr. injection Hr as Hr.
    exact (cached_attached sel cacheKey s n Hr). }
  destruct (getCachedElement_frame sel cacheKey s Hown)
    as (r & s1 & Hrun & Hcache & Hs1).
  rewrite Hrun in *. cbn [fst snd] in *. injection Hr as ->.
  assert (Hdoc : document s1 = document s) by (rewrite Hs1; reflexivity).
  assert (Hown1 : inherited s1 cacheKey = false)
    by exact (inherited_stored s1 cacheKey n Hcache).
  split.
  - rewrite (getCachedElement_run sel' cacheKey s1 Hown1). unfold cache_stale.
    rewrite Hcache, Hdoc, Hatt. cbn [negb].
    rewrite with_domCache_id; [reflexivity|]. simpl. now apply insert_id.
  - rewrite getCachedElement_run by exact (inherited_stored s1 cacheKey n Hcache).
    unfold cache_stale, run_task, element_remove, modify.
    cbn [snd with_document domCache document].
    now rewrite Hcache, contains_removed.
Qed.

Lemma getCachedElement_reuse_witness :
  getCachedElement SELECTORS.LEAFLET_CONTAINER "map"
    (getCachedElement SELECTORS.MAP "map" (Sample.session 5)).2
  = (Normal (Some 1%positive),
     (getCachedElement SELECTORS.MAP "map" (Sample.session 5)).2).
Proof.
  exact (proj1 (getCachedElement_reuse SELECTORS.MAP SELECTORS.LEAFLET_CONTAINER
                  "map" (Sample.session 5) 1%positive eq_refl)).
Defined.

(** ** The mutation observer *)

Lemma armed_twice (s : State) :
  with_timer true (with_mapFound true (with_timer true (with_mapFound true s)))
  = with_timer true (with_mapFound true s).
Proof. reflexivity. Qed.

Lemma scanAddedNodes_run (nodes : list AddedNode) (s : State) :
  scanAddedNodes nodes s
  = (Normal tt,
     if existsb qualifies nodes then with_timer true (with_mapFound true s)
     else s).
Proof.
  induction nodes as [|node rest IH]; simpl; [reflexivity|].
  destruct (qualifies node); [reflexivity | exact IH].
Qed.

Lemma scanMutations_run (mutations : list MutationRecord) (s : State) :
  scanMutations mutations s
  = (Normal tt,
     if signals mutations then with_timer true (with_mapFound true s) else s).
Proof.
  assert (Harmed : forall ms s0,
            scanMutations ms (with_timer true (with_mapFound true s0))
            = (Normal tt, with_timer true (with_mapFound true s0))).
  { induction ms as [|m rest IH]; intros s0; simpl; [reflexivity|].
    rewrite bind_run.
    destruct (m_type m); cbn [mret M_ret]; try apply IH.
    rewrite scanAddedNodes_run.
    destruct (existsb qualifies (m_addedNodes m)); [rewrite armed_twice|]; apply IH. }
  revert s. induction mutations as [|m rest IH]; intros s; simpl; [reflexivity|].
  rewrite bind_run.
  destruct (m_type m); cbn [mret M_ret orb]; try apply IH.
  rewrite scanAddedNodes_run.
  destruct (existsb qualifies (m_addedNodes m)); cbn [orb]; [apply Harmed | apply IH].
Qed.

Lemma observerCallback_run (s : State) (mutations : list MutationRecord) :
  observerCallback mutations s
  = (Normal tt,
     if negb (mapFound s && stylesApplied s) && signals mutations
     then with_timer true (with_mapFound true s)
     else s).
Proof.
  unfold observerCallback. rewrite bind_run. cbn [get fst snd].
  destruct (mapFound s && stylesApplied s); [reflexivity|].
  now rewrite scanMutations_run.
Qed.

(** X4: the callback of the mutation observer does one thing only: when the
    observer is running, the batch carries the signal (a [childList] record
    with an added element that is the map container, has the class
    [leaflet-container] or contains such a node) and not both flags
    [mapFound] and [stylesApplied] are set, it sets [mapFound] and arms the
    debounce timer.  Otherwise (attribute and text mutations, added text
    nodes, other elements, both flags set) the state is left as it is; in
    particular a batch without added nodes, or with added text nodes only,
    does nothing. *)
Theorem observer_effect (v : variant) (s : State)
    (mutations : list MutationRecord) :
  stepOf v s (EMutations mutations)
  = (if observing s && negb (mapFound s && stylesApplied s) && signals mutations
     then with_timer true (with_mapFound true s)
     else s)
  /\ (Forall (fun m => m_type m <> ChildList
                       \/ Forall (fun node => n_isElement node = false)
                            (m_addedNodes m)) mutations ->
      stepOf v s (EMutations mutations) = s).
Proof.
  assert (Hstep : stepOf v s (EMutations mutations)
                  = if observing s && negb (mapFound s && stylesApplied s)
                       && signals mutations
                    then with_timer true (with_mapFound true s)
                    else s).
  { unfold stepOf, step. destruct (observing s); [| reflexivity].
    unfold run_task. now rewrite observerCallback_run. }
  split; [exact Hstep|]. intros Hquiet. rewrite Hstep.
  assert (Hsig : signals mutations = false).
  { unfold signals. apply not_true_is_false. intros Hex.
    apply existsb_exists in Hex as (m & Hin & Hm).
    rewrite List.Forall_forall in Hquiet.
    destruct (Hquiet m Hin) as [Hty | Hnodes].
    - destruct (m_type m); [congruence | discriminate | discriminate].
    - destruct (m_type m); try discriminate.
      apply existsb_exists in Hm as (node & Hnode & Hq).
      rewrite List.Forall_forall in Hnodes.
      specialize (Hnodes node Hnode).
      unfold qualifies in Hq. rewrite Hnodes in Hq. discriminate. }
  rewrite Hsig, andb_false_r. reflexivity.
Qed.

(** ** The overlay is touched by [apply()] and [remove()] only *)

Lemma marked_document (s s' : State) :
  document_body (document s') = document_body (document s) ->
  marked s' = marked s.
Proof. unfold marked. now intros ->. Qed.

Lemma body_update (n : node_id) (f : Element -> Element) (d : Document) :
  b_classList <$> document_body (dom_update n f d)
  = b_classList <$> document_body d.
Proof.
  destruct d as [[[hd [bd|] rest]|] fr]; reflexivity.
Qed.

Lemma marked_classes (s s' : State) :
  b_classList <$> document_body (document s')
  = b_classList <$> document_body (document s) ->
  marked s' = marked s.
Proof.
  unfold marked. intros H.
  destruct (document_body (document s')), (document_body (document s));
    simpl in H; try discriminate; [| reflexivity].
  now injection H as ->.
Qed.

Lemma overlay_update (n : node_id) (st : list (string * string)) (s : State) :
  overlay (with_document (dom_update n (assign_style st)) s) = overlay s.
Proof.
  unfold overlay. rewrite style_nodes_update. f_equal. f_equal.
  apply marked_classes. apply body_update.
Qed.

#[local] Hint Resolve overlay_update : keeps.

Lemma keeps_overlay_adjustMapZoom K : keeps overlay (adjustMapZoom K).
Proof. solve_keeps. Qed.

Lemma keeps_overlay_applyMapBounds : keeps overlay applyMapBounds.
Proof. solve_keeps. Qed.

Lemma keeps_overlay_postPaint K : keeps overlay (postPaint K).
Proof. solve_keeps. Qed.

Lemma keeps_config_postPaint K : keeps config (postPaint K).
Proof. solve_keeps. Qed.

Lemma keeps_config_adjustMapZoom K : keeps config (adjustMapZoom K).
Proof. solve_keeps. Qed.

Lemma observer_step (v : variant) (s : State) (e : event) :
  observerPath e ->
  overlay (stepOf v s e) = overlay s /\ config (stepOf v s e) = config s.
Proof.
  destruct e; try contradiction; intros _.
  - unfold stepOf, step, run_task.
    split.
    + assert (H : keeps overlay (timer_fires (mapHandler (constantsOf v)))).
      { pose proof (keeps_overlay_adjustMapZoom (constantsOf v)).
        unfold timer_fires, mapHandler.
        repeat (assumption || keeps_step). }
      apply H.
    + assert (H : keeps config (timer_fires (mapHandler (constantsOf v)))).
      { pose proof (keeps_config_adjustMapZoom (constantsOf v)).
        unfold timer_fires, mapHandler.
        repeat (assumption || keeps_step). }
      apply H.
  - unfold stepOf, step, run_task. rewrite observerCallback_run. cbn [snd].
    destruct (observing s), (negb (mapFound s && stylesApplied s)
                              && signals mutations); split; reflexivity.
Qed.

(** X5: the observer path never applies the overlay.  Whatever batches of
    mutations arrive and however often the debounce timer expires, the
    number of style nodes under the reserved identifier, the marker class of
    the body, the flag [stylesApplied] and the configuration stay as they
    were: the debounced handler adjusts the viewport and the panels, it does
    not call [applyFullMapHeight]. *)
Theorem observer_never_applies (v : variant) (s : State) (events : list event) :
  Forall observerPath events ->
  style_nodes (runOf v s events) = style_nodes s
  /\ marked (runOf v s events) = marked s
  /\ stylesApplied (runOf v s events) = stylesApplied s
  /\ config (runOf v s events) = config s.
Proof.
  intros Hev.
  assert (H : overlay (runOf v s events) = overlay s
              /\ config (runOf v s events) = config s).
  { revert s. induction Hev as [|e rest He _ IH]; intros s; [split; reflexivity|].
    change (runOf v s (e :: rest)) with (runOf v (stepOf v s e) rest).
    destruct (IH (stepOf v s e)) as [-> ->]. now apply observer_step. }
  destruct H as [Ho Hc]. unfold overlay in Ho. injection Ho as H1 H2 H3. auto.
Qed.

Lemma observer_never_applies_witness :
  let map := {| n_isElement := true; n_id := "map"; n_classList := [];
                n_has_leaflet_descendant := false |} in
  let batch := [{| m_type := ChildList; m_addedNodes := [map] |}] in
  let events := [EMutations batch; ETimer; EMutations batch; ETimer] in
  let s := Part000.run (Sample.session 5) [EInit] in
  stylesApplied (runOf Part000Js s events) = false
  /\ style_nodes (runOf Part000Js s events) = 0%nat.
Proof.
  cbn zeta.
  match goal with
  | |- stylesApplied (runOf ?v ?s ?ev) = _ /\ _ =>
      destruct (observer_never_applies v s ev) as (H1 & _ & H3 & _)
  end.
  - repeat constructor.
  - split; [rewrite H3 | rewrite H1]; vm_compute; reflexivity.
Defined.

(** ** The post-paint follow-up when the library is missing or misbehaves *)

Lemma keeps_window_adjustMapZoom K : keeps window (adjustMapZoom K).
Proof. solve_keeps. Qed.

Lemma keeps_window_applyMapBounds : keeps window applyMapBounds.
Proof. solve_keeps. Qed.

Lemma lookup_instance_unloaded (w : Window) (stamp : option positive) :
  w_L w = None -> lookup_instance w stamp = RNull.
Proof. unfold lookup_instance. now intros ->. Qed.

Lemma applyMapBounds_unloaded (s : State) :
  w_L (window s) = None ->
  exists s', applyMapBounds s = (Normal tt, s')
    /\ s' = with_domCache (fun _ => domCache s') s.
Proof.
  intros HL. unfold applyMapBounds.
  destruct (getCachedElement_frame SELECTORS.MAP "map" s eq_refl)
    as (r & s1 & Hrun & _ & Hs1).
  rewrite bind_run, Hrun. cbn beta iota.
  destruct r as [n|]; [| exists s1; split; [reflexivity | exact Hs1]].
  assert (Hw : w_L (window s1) = None) by (rewrite Hs1; exact HL).
  rewrite bind_run, getLeafletMapInstance_run.
  rewrite lookup_instance_unloaded by exact Hw. cbn beta iota.
  exists s1. split; [reflexivity | exact Hs1].
Qed.

Lemma adjustMapZoom_unloaded K (s : State) :
  w_L (window s) = None ->
  heap (adjustMapZoom K s).2 = heap s
  /\ originalStyles (adjustMapZoom K s).2 = originalStyles s.
Proof.
  intros HL. unfold adjustMapZoom.
  destruct (getCachedElement_frame SELECTORS.MAP "map" s eq_refl)
    as (r & s1 & Hrun & _ & Hs1).
  assert (Hh : heap s1 = heap s) by (rewrite Hs1; reflexivity).
  assert (Ho : originalStyles s1 = originalStyles s) by (rewrite Hs1; reflexivity).
  rewrite bind_run, Hrun. cbn beta iota.
  destruct r as [n|]; [| split; assumption].
  assert (Hw : w_L (window s1) = None) by (rewrite Hs1; exact HL).
  cbn beta iota.
  rewrite bind_run, getLeafletMapInstance_run.
  rewrite lookup_instance_unloaded by exact Hw. cbn beta iota.
  rewrite bind_run. cbn [mret M_ret].
  rewrite keeps_heap_reposition, keeps_originalStyles_reposition. auto.
Qed.

Lemma postPaint_run K (s : State) :
  postPaint K s
  = (Normal tt,
     run_task dispatch_resize
       (adjustMapZoom K (applyMapBounds s).2).2).
Proof.
  unfold postPaint. rewrite bind_run.
  rewrite (returns_unit _ s returns_applyMapBounds). cbn beta iota.
  rewrite bind_run.
  rewrite (returns_unit _ _ (returns_adjustMapZoom K)). cbn beta iota.
  reflexivity.
Qed.

(** X6: the post-paint follow-up degrades gracefully.  Whatever the page and
    the mapping library are like (no map container, no library, an instance
    without the methods, methods that throw), the callback completes without
    an exception and dispatches exactly one [resize] event; it leaves the
    overlay (style node, marker class, flag), the configuration and the
    queue of frame callbacks alone.  When the library is not on the page
    ([window.L] missing) it calls no map method and takes no snapshot. *)
Theorem postPaint_degrades K (s : State) :
  exists s',
    postPaint K s = (Normal tt, s')
    /\ w_resizes (window s') = S (w_resizes (window s))
    /\ w_location (window s') = w_location (window s)
    /\ style_nodes s' = style_nodes s
    /\ marked s' = marked s
    /\ stylesApplied s' = stylesApplied s
    /\ config s' = config s
    /\ frames s' = frames s
    /\ (w_L (window s) = None ->
        heap s' = heap s /\ originalStyles s' = originalStyles s).
Proof.
  eexists. split; [apply postPaint_run|].
  unfold run_task, dispatch_resize, modify. cbn [snd].
  set (s1 := (applyMapBounds s).2).
  set (s2 := (adjustMapZoom K s1).2).
  assert (Hw1 : window s1 = window s) by apply keeps_window_applyMapBounds.
  assert (Hw2 : window s2 = window s1) by apply keeps_window_adjustMapZoom.
  assert (Ho1 : overlay s1 = overlay s) by apply keeps_overlay_applyMapBounds.
  assert (Ho2 : overlay s2 = overlay s1) by apply keeps_overlay_adjustMapZoom.
  rewrite Ho1 in Ho2. unfold overlay in Ho2. injection Ho2 as H1 H2 H3.
  assert (Hc : config s2 = config s).
  { transitivity (config s1).
    - apply keeps_config_adjustMapZoom.
    - assert (H : keeps config applyMapBounds) by solve_keeps. apply H. }
  assert (Hf : frames s2 = frames s).
  { transitivity (frames s1).
    - assert (H : keeps frames (adjustMapZoom K)) by solve_keeps. apply H.
    - assert (H : keeps frames applyMapBounds) by solve_keeps. apply H. }
  cbn [with_window window]. rewrite Hw2, Hw1. cbn [w_resizes w_location].
  repeat split; auto.
  - destruct (applyMapBounds_unloaded s H) as (s1' & Hrun & Hs1).
    destruct (adjustMapZoom_unloaded K s1) as [Hh _].
    { rewrite Hw1. exact H. }
    fold s2 in Hh. cbn [heap with_window]. rewrite Hh. subst s1.
    rewrite Hrun. cbn [snd]. rewrite Hs1. reflexivity.
  - destruct (applyMapBounds_unloaded s H) as (s1' & Hrun & Hs1).
    destruct (adjustMapZoom_unloaded K s1) as [_ Hos].
    { rewrite Hw1. exact H. }
    fold s2 in Hos. cbn [originalStyles with_window]. rewrite Hos. subst s1.
    rewrite Hrun. cbn [snd]. rewrite Hs1. reflexivity.
Qed.

(** ** [injectStyles] replaces the style node *)

Lemma appendStyle_run css i (s : State) :
  is_Some (documentElement (document s)) ->
  exists pre post s',
    appendStyle css i s = (Normal tt, s')
    /\ all_elements (document s) = pre ++ post
    /\ all_elements (document s')
       = pre ++ styleElement css i (fresh_node (document s)) :: post
    /\ b_classList <$> document_body (document s')
       = b_classList <$> document_body (document s)
    /\ s' = with_document (fun _ => document s') s.
Proof.
  intros [r Hr].
  destruct s as [d w hp ri st os cf dc sa mf tm fr sr ob ox].
  destruct d as [de fn]. cbn in Hr. subst de.
  destruct r as [hd bd rest]. unfold appendStyle. exec.
  destruct hd as [hd|]; cbn.
  - exists hd, (default [] (b_children <$> bd) ++ rest). eexists.
    split; [reflexivity|]. unfold all_elements, html_elements. cbn.
    rewrite <- List.app_assoc. repeat split; reflexivity.
  - exists (default [] (b_children <$> bd) ++ rest), []. eexists.
    split; [reflexivity|]. unfold all_elements, html_elements. cbn.
    rewrite List.app_nil_r, List.app_assoc. repeat split; reflexivity.
Qed.

Lemma deleted_elements (i : string) (s : State) :
  all_elements (document (deleted i s))
  = match dom_getElementById i (document s) with
    | Some n => without n (all_elements (document s))
    | None => all_elements (document s)
    end.
Proof.
  unfold deleted. destruct (dom_getElementById i (document s)); [| reflexivity].
  cbn [with_document document]. apply all_elements_remove.
Qed.

Lemma deleted_clean (i : string) (s : State) :
  (length (List.filter (has_id i) (all_elements (document s))) <= 1)%nat ->
  List.filter (has_id i) (all_elements (document (deleted i s))) = [].
Proof.
  intros Hlen. rewrite deleted_elements. unfold dom_getElementById.
  destruct (List.find (has_id i) (all_elements (document s))) as [e|] eqn:Hf;
    cbn [fmap option_fmap option_map].
  - now apply filter_found_without.
  - now apply filter_none.
Qed.

Lemma deleted_frame (i : string) (s : State) :
  deleted i s = with_document (fun _ => document (deleted i s)) s
  /\ fresh_node (document (deleted i s)) = fresh_node (document s)
  /\ (is_Some (documentElement (document (deleted i s)))
      <-> is_Some (documentElement (document s)))
  /\ b_classList <$> document_body (document (deleted i s))
     = b_classList <$> document_body (document s).
Proof.
  unfold deleted. destruct (dom_getElementById i (document s)) as [n|].
  - cbn [with_document document]. split; [reflexivity|]. split; [reflexivity|].
    destruct (document s) as [[[hd [bd|] rest]|] fr]; cbn;
      (split; [split; intros [? H]; try discriminate; eauto | reflexivity]).
  - split; [now destruct s|]. split; [reflexivity|]. split; reflexivity.
Qed.

Lemma find_inserted (p : Element -> bool) (pre post : list Element) e :
  List.filter p (pre ++ post) = [] -> p e = true ->
  List.find p (pre ++ e :: post) = Some e
  /\ List.filter p (pre ++ e :: post) = [e].
Proof.
  intros Hnil He. rewrite List.filter_app in Hnil.
  apply app_eq_nil in Hnil as [Hpre Hpost].
  split.
  - clear Hpost. induction pre as [|x pre IH]; simpl in *; [now rewrite He|].
    destruct (p x); [discriminate | exact (IH Hpre)].
  - rewrite List.filter_app. simpl. now rewrite Hpre, He, Hpost.
Qed.

Lemma injectStyles_text css i (s : State) :
  is_Some (documentElement (document s)) ->
  (length (List.filter (has_id i) (all_elements (document s))) <= 1)%nat ->
  exists s',
    injectStyles css i s = (Normal tt, s')
    /\ List.find (has_id i) (all_elements (document s'))
       = Some (styleElement css i (fresh_node (document s)))
    /\ List.filter (has_id i) (all_elements (document s'))
       = [styleElement css i (fresh_node (document s))]
    /\ (forall e, has_id i e = false ->
          (In e (all_elements (document s')) ->
           In e (all_elements (document s)))
          /\ (In e (all_elements (document s)) ->
              dom_getElementById i (document s) <> Some (el_node e) ->
              In e (all_elements (document s'))))
    /\ b_classList <$> document_body (document s')
       = b_classList <$> document_body (document s)
    /\ s' = with_document (fun _ => document s') s.
Proof.
  intros Hroot Hlen. rewrite injectStyles_split.
  destruct (deleted_frame i s) as (Hds & Hfn & Hdr & Hdb).
  destruct (appendStyle_run css i (deleted i s) (proj2 Hdr Hroot))
    as (pre & post & s' & Hrun & Hpre & Hpost & Hbody & Hs').
  pose proof (deleted_clean i s Hlen) as Hclean. rewrite Hpre in Hclean.
  rewrite Hfn in Hpost.
  assert (Hnew : has_id i (styleElement css i (fresh_node (document s))) = true)
    by (unfold has_id; cbn; apply String.eqb_refl).
  destruct (find_inserted _ pre post _ Hclean Hnew) as [Hfind Hfilter].
  exists s'. split; [exact Hrun|]. rewrite Hpost.
  split; [exact Hfind|]. split; [exact Hfilter|]. split; [| split].
  - intros e He.
    assert (Hin : In e (pre ++ styleElement css i (fresh_node (document s)) :: post)
                  <-> In e (pre ++ post)).
    { rewrite !List.in_app_iff. simpl. split; [| tauto].
      intros [H | [H | H]]; auto. subst e. congruence. }
    rewrite Hin, <- Hpre, deleted_elements.
    destruct (dom_getElementById i (document s)) as [n|].
    + rewrite In_without. split; [tauto|]. intros H1 H2. split; [exact H1|].
      congruence.
    + tauto.
  - now rewrite Hbody.
  - rewrite Hs', Hds. reflexivity.
Qed.

(** X7: [injectStyles(css, id)] replaces.  On a document that has a root
    element and at most one node under the identifier, the call returns, and
    afterwards exactly one node carries the identifier: a new [style]
    element whose text is [css], which [getElementById] finds.  No other
    element is added, and none is removed but the node that carried the
    identifier before; so of two calls in a row the text of the second one
    is the one in the document.  Without a root element the call throws. *)
Theorem injectStyles_replaces css css' i (s : State) :
  (is_Some (documentElement (document s)) ->
   (length (List.filter (has_id i) (all_elements (document s))) <= 1)%nat ->
   let s' := (injectStyles css i s).2 in
   let s'' := (injectStyles css' i s').2 in
   (injectStyles css i s).1 = Normal tt
   /\ List.filter (has_id i) (all_elements (document s'))
      = [styleElement css i (fresh_node (document s))]
   /\ dom_getElementById i (document s') = Some (fresh_node (document s))
   /\ (forall e, has_id i e = false ->
         (In e (all_elements (document s')) -> In e (all_elements (document s)))
         /\ (In e (all_elements (document s)) ->
             dom_getElementById i (document s) <> Some (el_node e) ->
             In e (all_elements (document s'))))
   /\ (injectStyles css' i s').1 = Normal tt
   /\ el_textContent <$> List.filter (has_id i) (all_elements (document s''))
      = [css'])
  /\ (documentElement (document s) = None ->
      exists e, (injectStyles css i s).1 = Thrown e).
Proof.
  split.
  - intros Hroot Hlen. cbn zeta.
    destruct (injectStyles_text css i s Hroot Hlen)
      as (s' & Hrun & Hfind & Hfilter & Hothers & _ & Hs').
    rewrite Hrun. cbn [fst snd].
    split; [reflexivity|]. split; [exact Hfilter|]. split; [| split].
    + unfold dom_getElementById. now rewrite Hfind.
    + exact Hothers.
    + destruct (injectStyles_text css' i s') as (s'' & Hrun' & _ & Hfilter' & _).
      * rewrite Hs'. cbn [with_document document].
        destruct (documentElement (document s')) eqn:E; [eauto|].
        unfold all_elements in Hfilter. rewrite E in Hfilter. discriminate.
      * rewrite Hfilter. simpl. lia.
      * rewrite Hrun'. cbn [fst snd]. split; [reflexivity|].
        rewrite Hfilter'. reflexivity.
  - intros Hroot. rewrite injectStyles_split.
    destruct (deleted_frame i s) as (_ & _ & Hdr & _).
    destruct (documentElement (document (deleted i s))) eqn:E.
    + destruct (proj1 Hdr (ex_intro _ _ eq_refl)) as [? H]. congruence.
    + unfold appendStyle. exec. unfold document_head. rewrite E. cbn.
      rewrite E. eexists. reflexivity.
Qed.

Lemma injectStyles_replaces_witness :
  el_textContent
    <$> List.filter (has_id reserved)
          (all_elements (document
             (injectStyles "b" reserved
                (injectStyles "a" reserved (Sample.session 5)).2).2))
  = ["b"].
Proof.
  destruct (injectStyles_replaces "a" "b" reserved (Sample.session 5)) as [H _].
  destruct H as (_ & _ & _ & _ & _ & H).
  - eexists. reflexivity.
  - vm_compute. lia.
  - exact H.
Defined.

(** ** [apply()] is all or nothing *)

Lemma has_class_added (c : string) (cs : list string) :
  has_class c (classList_add c cs) = true.
Proof.
  unfold classList_add. destruct (has_class c cs) eqn:E; [exact E|].
  unfold has_class. rewrite existsb_app. simpl.
  rewrite String.eqb_refl. apply orb_true_r.
Qed.

Lemma mark_run (s : State) :
  is_Some (document_body (document s)) ->
  exists s', body_classList (classList_add "inat-map-enhanced") s
             = (Normal tt, s')
    /\ marked s' = true
    /\ all_elements (document s') = all_elements (document s)
    /\ fresh_node (document s') = fresh_node (document s)
    /\ is_Some (documentElement (document s'))
    /\ s' = with_document (fun _ => document s') s.
Proof.
  intros [b Hb]. unfold body_classList. rewrite bind_run. cbn [get fst snd].
  rewrite Hb. eexists. split; [reflexivity|].
  unfold modify. cbn [snd].
  destruct s as [d w hp ri st os cf dc sa mf tm fr sr ob ox]. fields.
  destruct d as [[[hd bd rest]|] fn]; [| discriminate].
  unfold document_body in Hb. cbn in Hb. subst bd.
  split; [| split; [| split; [| split]]].
  - unfold marked, document_body. cbn. apply has_class_added.
  - apply all_elements_classList.
  - reflexivity.
  - cbn. eauto.
  - reflexivity.
Qed.

Lemma body_missing (s : State) :
  document_body (document s) = None ->
  body_classList (classList_add "inat-map-enhanced") s
  = (Thrown {| error_message :=
                 "Cannot read properties of null (reading 'classList')" |}, s).
Proof.
  intros Hb. unfold body_classList. rewrite bind_run. cbn [get fst snd].
  now rewrite Hb.
Qed.

Lemma apply_outcome (v : variant) (s : State) :
  single s ->
  applyOf v s = (Normal tt, s)
  \/ (exists s',
        applyOf v s = (Normal tt, s')
        /\ stylesApplied s = false /\ stylesApplied s' = true
        /\ List.filter (has_id reserved) (all_elements (document s'))
           = [styleElement (styleSheetOf v) reserved (fresh_node (document s))]
        /\ frames s' = frames s ++ [PostPaint]
        /\ marked s' = match v with
                       | ContentJs => marked s
                       | Part000Js => true
                       end)
  \/ (exists e s',
        applyOf v s = (Thrown e, s')
        /\ stylesApplied s = false /\ stylesApplied s' = false
        /\ style_nodes s' = style_nodes s /\ marked s' = marked s
        /\ frames s' = frames s
        /\ match v with
           | ContentJs => documentElement (document s) = None
           | Part000Js => document_body (document s) = None
           end).
Proof.
  intros Hs. destruct (stylesApplied s) eqn:Hsa;
    [left; now apply apply_short_circuit|].
  destruct v; cbn [applyOf].
  - unfold Content.applyFullMapHeight. rewrite bind_run. cbn [get fst snd].
    rewrite Hsa. change (STYLE_ID Content.CONSTANTS) with reserved.
    destruct (documentElement (document s)) as [r|] eqn:Hroot.
    + right; left.
      destruct (injectStyles_text Content.mapStyles reserved s
                  (ex_intro _ r Hroot) Hs)
        as (s1 & Hrun & _ & Hfilter & _ & Hbody & Hs1).
      rewrite bind_run, Hrun. cbn beta iota.
      eexists. split; [reflexivity|]. cbn.
      split; [reflexivity|]. split; [reflexivity|]. split; [exact Hfilter|].
      split; [rewrite Hs1; reflexivity|].
      apply marked_classes. exact Hbody.
    + right; right.
      assert (Hel : all_elements (document s) = [])
        by (unfold all_elements; now rewrite Hroot).
      rewrite bind_run, injectStyles_split.
      assert (Hdel : deleted reserved s = s).
      { unfold deleted, dom_getElementById. now rewrite Hel. }
      rewrite Hdel. unfold appendStyle.
      destruct s as [d w hp ri st os cf dc sa mf tm fr sr ob ox].
      destruct d as [de fn]. cbn in Hroot, Hsa. subst de sa. exec.
      eexists _, _. split; [reflexivity|]. repeat split.
  - unfold Part000.applyFullMapHeight.
    rewrite bind_run. cbn [console_log mret M_ret fst snd].
    rewrite bind_run. cbn [get fst snd]. rewrite Hsa.
    rewrite bind_run, isMapViewPage_run.
    destruct (String.eqb (pathname (w_location (window s))) "/observations"
              || String.eqb (pathname (w_location (window s))) "/observations/");
      [| left; reflexivity].
    cbn [negb]. rewrite bind_run. unfold document_querySelector, gets.
    cbn [fst snd].
    destruct (dom_querySelector _ (document s)) as [a|]; [| left; reflexivity].
    rewrite bind_run. cbn [console_log mret M_ret fst snd].
    rewrite bind_run. cbn [console_log mret M_ret fst snd].
    change (STYLE_ID Part000.CONSTANTS) with reserved.
    fold (styleSheetOf Part000Js).
    destruct (document_body (document s)) as [b|] eqn:Hb.
    + right; left.
      destruct (mark_run s (ex_intro _ b Hb))
        as (s0 & Hrun0 & Hmark & Hel & Hfn & Hroot & Hs0).
      assert (Hs0' : single s0) by (unfold single, style_nodes; now rewrite Hel).
      destruct (injectStyles_text (styleSheetOf Part000Js) reserved s0 Hroot Hs0')
        as (s1 & Hrun & _ & Hfilter & _ & Hbody & Hs1).
      rewrite bind_run, Hrun0. cbn beta iota.
      rewrite bind_run, Hrun. cbn beta iota.
      eexists. split; [reflexivity|]. cbn.
      split; [reflexivity|]. split; [reflexivity|].
      split; [now rewrite Hfilter, Hfn|].
      split; [rewrite Hs1, Hs0; reflexivity|].
      rewrite <- Hmark. apply marked_classes. exact Hbody.
    + right; right. rewrite bind_run, (body_missing s Hb).
      eexists _, s. split; [reflexivity|]. repeat split; auto.
Qed.

(** X8: [apply()] is all or nothing.  Called on a page with at most one
    style node under the reserved identifier, it ends in one of three ways:
    it returns and has changed nothing (a guard held); or it returns and the
    overlay is complete: the flag is set, the one node under the reserved
    identifier is a new [style] element that holds the text of the variant's
    template, one post-paint callback is queued and, in the second variant,
    the body carries the marker class; or it throws (no root element in
    [src/content.js], no body in the second variant) and then the flag, the
    style nodes, the marker class and the queue of callbacks are as they
    were. *)
Theorem apply_all_or_nothing (v : variant) (s : State) :
  single s ->
  let s' := (applyOf v s).2 in
  match (applyOf v s).1 with
  | Normal _ =>
      s' = s
      \/ (stylesApplied s = false /\ stylesApplied s' = true
          /\ List.filter (has_id reserved) (all_elements (document s'))
             = [styleElement (styleSheetOf v) reserved (fresh_node (document s))]
          /\ frames s' = frames s ++ [PostPaint]
          /\ marked s' = match v with
                         | ContentJs => marked s
                         | Part000Js => true
                         end)
  | Thrown _ =>
      stylesApplied s = false /\ stylesApplied s' = false
      /\ style_nodes s' = style_nodes s /\ marked s' = marked s
      /\ frames s' = frames s
      /\ match v with
         | ContentJs => documentElement (document s) = None
         | Part000Js => document_body (document s) = None
         end
  end.
Proof.
  intros Hs. cbn zeta.
  destruct (apply_outcome v s Hs)
    as [Hrun | [(s' & Hrun & H) | (e & s' & Hrun & H)]];
    rewrite Hrun; cbn [fst snd]; auto.
Qed.

Lemma apply_all_or_nothing_witness :
  (exists e,
     List.filter (has_id reserved)
       (all_elements (document (applyOf ContentJs (Sample.session 5)).2)) = [e]
     /\ includes "height: calc(100vh - 135px) !important" (el_textContent e)
        = true
     /\ a_tag (el_attrs e) = "style")
  /\ stylesApplied (applyOf Part000Js bodiless).2 = false.
Proof.
  split.
  - pose proof (apply_all_or_nothing ContentJs (Sample.session 5)) as H.
    assert (Hs : single (Sample.session 5)) by (unfold single; vm_compute; lia).
    specialize (H Hs). cbn zeta in H.
    assert (Hn : (applyOf ContentJs (Sample.session 5)).1 = Normal tt)
      by (vm_compute; reflexivity).
    rewrite Hn in H. destruct H as [H | (_ & _ & H & _)].
    + apply (f_equal stylesApplied) in H. vm_compute in H. discriminate H.
    + eexists. split; [exact H|]. split; [vm_compute; reflexivity | reflexivity].
  - pose proof (apply_all_or_nothing Part000Js bodiless) as H.
    assert (Hs : single bodiless) by (unfold single; vm_compute; lia).
    specialize (H Hs). cbn zeta in H.
    destruct ((applyOf Part000Js bodiless).1) eqn:E.
    + vm_compute in E. discriminate E.
    + destruct H as (_ & H & _). exact H.
Defined.

(** ** [apply()] over a session *)

Lemma with_frames_done (s : State) :
  frames s = [] -> with_frames (fun _ => []) s = s.
Proof. destruct s. cbn. now intros ->. Qed.

Lemma idle_frame v (s : State) : frames s = [] -> perform v s Frame = s.
Proof.
  intros H. cbn [perform]. unfold stepOf, step. rewrite H. cbn [fold_left].
  now apply with_frames_done.
Qed.

Lemma applied_again v (s : State) :
  stylesApplied s = true -> perform v s Apply = s.
Proof.
  intros H. cbn [perform]. unfold run_task. now rewrite apply_short_circuit.
Qed.

Lemma applying_cons k (calls : list call) :
  applying (k :: calls) -> (k = Apply \/ k = Frame) /\ applying calls.
Proof.
  intros H. split; [apply H; now left | intros k' Hk'; apply H; now right].
Qed.

(** Applied, and nothing queued: the session stays where it is. *)
Lemma settled_session v (calls : list call) (s : State) :
  applying calls -> stylesApplied s = true -> frames s = [] ->
  session v s calls = s.
Proof.
  induction calls as [|k rest IH]; intros Hk Ha Hf; [reflexivity|].
  apply applying_cons in Hk as [[-> | ->] Hrest];
    change (session v s (?k :: rest)) with (session v (perform v s k) rest).
  - rewrite (applied_again v s Ha). now apply IH.
  - rewrite (idle_frame v s Hf). now apply IH.
Qed.

(** Applied, with the follow-up queued: the next frame runs it. *)
Lemma pending_session v (calls : list call) (s : State) :
  applying calls ->
  stylesApplied s = true -> frames (perform v s Frame) = [] ->
  session v s calls
  = if existsb is_frame calls then perform v s Frame else s.
Proof.
  induction calls as [|k rest IH]; intros Hk Ha Hf; [reflexivity|].
  apply applying_cons in Hk as [[-> | ->] Hrest];
    change (session v s (?k :: rest)) with (session v (perform v s k) rest);
    cbn [existsb is_frame orb].
  - rewrite (applied_again v s Ha). now apply IH.
  - apply settled_session; [exact Hrest | exact (applied_frame v s Ha) | exact Hf].
Qed.

Lemma pending_captures v (calls : list call) (s : State) :
  applying calls ->
  stylesApplied s = true -> captured s = false ->
  captured (perform v s Frame) = true ->
  captures v s calls = if existsb is_frame calls then 1%nat else 0%nat.
Proof.
  induction calls as [|k rest IH]; intros Hk Ha Hc Hf; [reflexivity|].
  cbn [captures existsb].
  apply applying_cons in Hk as [[-> | ->] Hrest]; cbn [is_frame orb].
  - rewrite (applied_again v s Ha), Hc. cbn [negb andb Nat.add].
    now apply IH.
  - rewrite Hc, Hf. cbn [negb andb]. now rewrite captures_after.
Qed.

(** Not applied, nothing queued: frames pass, the first [apply()] applies. *)
Lemma idle_session v (calls : list call) (s : State) :
  applying calls ->
  frames s = [] ->
  stylesApplied (perform v s Apply) = true ->
  frames (perform v (perform v s Apply) Frame) = [] ->
  session v s calls
  = if painted calls then perform v (perform v s Apply) Frame
    else if existsb is_apply calls then perform v s Apply
    else s.
Proof.
  induction calls as [|k rest IH]; intros Hk Hf Ha Hf'; [reflexivity|].
  apply applying_cons in Hk as [[-> | ->] Hrest];
    change (session v s (?k :: rest)) with (session v (perform v s k) rest);
    cbn [painted existsb is_apply orb].
  - now apply pending_session.
  - rewrite (idle_frame v s Hf). now apply IH.
Qed.

Lemma idle_captures v (calls : list call) (s : State) :
  applying calls ->
  frames s = [] -> captured s = false ->
  stylesApplied (perform v s Apply) = true ->
  captured (perform v s Apply) = false ->
  captured (perform v (perform v s Apply) Frame) = true ->
  captures v s calls = if painted calls then 1%nat else 0%nat.
Proof.
  induction calls as [|k rest IH]; intros Hk Hf Hc Ha Hc1 Hc2; [reflexivity|].
  cbn [captures painted].
  apply applying_cons in Hk as [[-> | ->] Hrest].
  - rewrite Hc1. rewrite andb_false_r. cbn [Nat.add].
    now apply pending_captures.
  - rewrite (idle_frame v s Hf), Hc. cbn [negb andb Nat.add]. now apply IH.
Qed.

(** C1: over any number of [apply()] calls and animation frames, the document
    holds at most one node with the reserved identifier at every point (and
    so it does after any sequence of events of the page, whoever calls
    [apply()], as long as the host adds no such node), and the snapshot is
    captured at most once; once the flag [stylesApplied] is set it stays
    set, and [apply()] then leaves the state as it is.  On a page with a
    mounted map and a healthy instance, where the styles are not applied
    and no snapshot is taken yet, the first [apply()] injects the one
    stylesheet, sets the flag and queues its post-paint follow-up; the next
    animation frame runs it, and it captures the zoom and the center the map
    has; every other call of the session changes nothing.  So the session
    ends in one of three states, and the snapshot is captured exactly once
    when a frame follows the first [apply()], and not at all otherwise. *)
Theorem apply_is_idempotent (v : variant) (s0 : State) (calls : list call) :
  single s0 -> (forall k, In k calls -> k = Apply \/ k = Frame) ->
  let s := session v s0 calls in
  (style_nodes s <= 1)%nat
  /\ (forall events, Forall courteous events ->
        (style_nodes (runOf v s0 events) <= 1)%nat)
  /\ (captures v s0 calls <= 1)%nat
  /\ (stylesApplied s0 = true -> stylesApplied s = true)
  /\ (stylesApplied s = true -> applyOf v s = (Normal tt, s))
  /\ (forall n i h o,
        stylesApplied s0 = false -> captured s0 = false -> frames s0 = [] ->
        mounted s0 n i h -> heap s0 !! h = Some o -> healthy o -> ready v s0 ->
        let applied := perform v s0 Apply in
        let fitted := perform v applied Frame in
        (style_nodes applied = 1%nat /\ stylesApplied applied = true
         /\ frames applied = [PostPaint] /\ captured applied = false)
        /\ (style_nodes fitted = 1%nat /\ stylesApplied fitted = true
            /\ frames fitted = []
            /\ snap (lm_zoom o) (Some (lm_center o)) fitted)
        /\ s = (if painted calls then fitted
                else if existsb is_apply calls then applied
                else s0)
        /\ captures v s0 calls = (if painted calls then 1%nat else 0%nat)).
Proof.
  intros Hs Hc s. split; [| split; [| split; [| split; [| split]]]].
  - exact (single_session v calls s0 Hs).
  - intros events Hev. exact (single_run v events s0 Hev Hs).
  - apply captures_once.
  - intros Ha. exact (applied_session v calls s0 Hc Ha).
  - apply apply_short_circuit.
  - intros n i h o Hsa Hcap Hf Hm Hh Ho Hr. cbn zeta.
    destruct (apply_mounted v s0 n i h Hsa Hm Hr) as (Hret & Hm1 & Ha1 & Hf1).
    rewrite Hf in Hf1. cbn [app] in Hf1.
    change (perform v s0 Apply) with (applyOf v s0).2.
    set (s1 := (applyOf v s0).2) in *.
    assert (Hn1 : style_nodes s1 = 1%nat).
    { destruct (apply_outcome v s0 Hs)
        as [Hsame | [(s' & Hrun & _ & _ & Hfilter & _) | (e & s' & Hrun & _)]].
      - subst s1. rewrite Hsame in Ha1. cbn [snd] in Ha1. congruence.
      - subst s1. rewrite Hrun. cbn [snd]. unfold style_nodes.
        now rewrite Hfilter.
      - rewrite Hrun in Hret. discriminate. }
    assert (Hh1 : heap s1 !! h = Some o)
      by (subst s1; rewrite keeps_heap_apply; exact Hh).
    assert (Hc1 : captured s1 = false)
      by (subst s1; unfold captured; rewrite keeps_originalStyles_apply;
          exact Hcap).
    pose proof (first_frame_captures v s1 n i h o Hc1 Hf1 Hm1 Hh1 Ho) as Hos.
    set (s2 := perform v s1 Frame) in *.
    assert (Hs2 : s2 = run_task (postPaint (constantsOf v))
                         (with_frames (fun _ => []) s1))
      by exact (frame_postPaint v s1 Hf1).
    assert (Hov : overlay s2 = overlay s1).
    { rewrite Hs2. unfold run_task. now rewrite keeps_overlay_postPaint. }
    assert (Hf2 : frames s2 = []).
    { rewrite Hs2. unfold run_task.
      assert (H : keeps frames (postPaint (constantsOf v))) by solve_keeps.
      now rewrite H. }
    assert (Hn2 : style_nodes s2 = 1%nat)
      by (rewrite <- Hn1; exact (f_equal (fun x => fst (fst x)) Hov)).
    assert (Ha2 : stylesApplied s2 = true)
      by (rewrite <- Ha1; exact (f_equal snd Hov)).
    assert (Hsnap : snap (lm_zoom o) (Some (lm_center o)) s2)
      by (unfold snap, snapshot_is; rewrite Hos; split; reflexivity).
    assert (Hc2 : captured s2 = true)
      by (unfold captured; now rewrite (proj1 Hsnap)).
    split; [auto|]. split; [auto|]. split.
    + subst s. exact (idle_session v calls s0 Hc Hf Ha1 Hf2).
    + exact (idle_captures v calls s0 Hc Hf Hcap Ha1 Hc1 Hc2).
Qed.

Lemma apply_is_idempotent_witness :
  let calls := [Apply; Apply; Frame; Apply; Frame] in
  let s0 := Sample.session 5 in
  let s := session Part000Js s0 calls in
  let applied := perform Part000Js s0 Apply in
  let fitted := perform Part000Js applied Frame in
  (style_nodes s <= 1)%nat
  /\ (captures Part000Js s0 calls <= 1)%nat
  /\ (style_nodes applied = 1%nat /\ stylesApplied applied = true
      /\ frames applied = [PostPaint] /\ captured applied = false)
  /\ (style_nodes fitted = 1%nat /\ stylesApplied fitted = true
      /\ frames fitted = []
      /\ snap (lm_zoom (Sample.leaflet 5))
           (Some (lm_center (Sample.leaflet 5))) fitted)
  /\ s = (if painted calls then fitted
          else if existsb is_apply calls then applied
          else s0)
  /\ captures Part000Js s0 calls = (if painted calls then 1%nat else 0%nat).
Proof.
  assert (Hsingle : single (Sample.session 5))
    by (unfold single; vm_compute; lia).
  assert (Hcalls : forall k, In k [Apply; Apply; Frame; Apply; Frame]
                             -> k = Apply \/ k = Frame)
    by (simpl; intros k [<- | [<- | [<- | [<- | [<- | []]]]]]; auto).
  pose proof (apply_is_idempotent Part000Js (Sample.session 5)
                [Apply; Apply; Frame; Apply; Frame] Hsingle Hcalls)
    as (H1 & _ & H2 & _ & _ & H5).
  pose proof (H5 1%positive (Some 7%positive) 1%positive (Sample.leaflet 5)
                eq_refl eq_refl eq_refl (sample_mounted 5) eq_refl
                (sample_healthy 5)
                (conj (or_introl eq_refl) (ex_intro _ _ eq_refl)))
    as (Ha & Hf & Hend & Hcount).
  exact (conj H1 (conj H2 (conj Ha (conj Hf (conj Hend Hcount))))).
Defined.

(** ** The overlay is never half applied *)

Lemma consistent_single v (s : State) : consistent v s -> single s.
Proof.
  intros [H _]. unfold single. rewrite H. destruct (stylesApplied s); lia.
Qed.

Lemma keeps_consistent {A} v (m : M A) :
  keeps overlay m -> preserves (consistent v) m.
Proof.
  intros H s [H1 H2]. specialize (H s). unfold overlay in H.
  injection H as Hn Hm Hf. unfold consistent. now rewrite Hn, Hm, Hf.
Qed.

Lemma consistent_apply v : preserves (consistent v) (applyOf v).
Proof.
  intros s Hc. pose proof (consistent_single v s Hc) as Hs.
  destruct Hc as [Hn Hm].
  destruct (apply_outcome v s Hs)
    as [Hrun | [(s' & Hrun & Hsa & Hsa' & Hf & _ & Hmk)
               | (e & s' & Hrun & Hsa & Hsa' & Hn' & Hmk & _)]];
    rewrite Hrun; cbn [snd].
  - split; assumption.
  - split.
    + unfold style_nodes. now rewrite Hf, Hsa'.
    + intros ->. now rewrite Hmk, Hsa'.
  - split.
    + now rewrite Hn', Hsa', Hn, Hsa.
    + intros Hv. now rewrite Hmk, Hsa', (Hm Hv), Hsa.
Qed.

Lemma marked_body (s : State) :
  marked s = true -> is_Some (document_body (document s)).
Proof.
  unfold marked. destruct (document_body (document s)); [eauto | discriminate].
Qed.

Lemma consistent_remove v : preserves (consistent v) (removeOf v).
Proof.
  intros s Hc. pose proof (consistent_single v s Hc) as Hs.
  destruct v.
  - destruct (remove_clears ContentJs s Hs) as (H0 & Hsa & _); [discriminate|].
    split; [now rewrite H0, Hsa | discriminate].
  - destruct (document_body (document s)) as [b|] eqn:Hb.
    + destruct (remove_clears Part000Js s Hs) as (H0 & Hsa & Hmk & _);
        [eauto|].
      split; [now rewrite H0, Hsa | intros _; now rewrite (Hmk eq_refl), Hsa].
    + destruct Hc as [Hn Hm]. specialize (Hm eq_refl).
      assert (Hmark : marked s = false) by (unfold marked; now rewrite Hb).
      rewrite Hmark in Hm. rewrite <- Hm in Hn.
      cbn [removeOf]. rewrite part000_remove_split, (deleted_none s Hn).
      rewrite bind_run. unfold body_classList at 1. rewrite bind_run.
      cbn [get fst snd]. rewrite Hb. cbn [throw fst snd].
      split; [now rewrite Hn, <- Hm | intros _; now rewrite Hmark].
Qed.

Ltac consistent_leaf :=
  first [ assumption | solve [apply keeps_consistent; solve_keeps] ].

Lemma consistent_scanMutations v ms : preserves (consistent v) (scanMutations ms).
Proof.
  intros s Hc. rewrite scanMutations_run. cbn [snd].
  destruct (signals ms); exact Hc.
Qed.

Lemma consistent_frames v (cbs : list FrameCallback) (s : State) :
  consistent v s ->
  consistent v (fold_left (fun s' cb =>
                  run_task (frameCallback (constantsOf v) (applyOf v) cb) s')
                  cbs s).
Proof.
  revert s. induction cbs as [|cb rest IH]; intros s Hs; simpl; [exact Hs|].
  apply IH. apply preserves_run_task; [| exact Hs].
  destruct cb; simpl.
  - apply keeps_consistent, keeps_overlay_postPaint.
  - pose proof (consistent_apply v).
    unfold initApply. repeat preserves_step consistent_leaf.
Qed.

Lemma marked_classes_of (s : State) :
  marked s
  = default false (has_class "inat-map-enhanced"
                     <$> (b_classList <$> document_body (document s))).
Proof. unfold marked. now destruct (document_body (document s)). Qed.

Lemma consistent_step v (s : State) (e : event) :
  discreet e -> consistent v s -> consistent v (stepOf v s e).
Proof.
  intros He Hs. pose proof (consistent_apply v) as Ha.
  pose proof (consistent_remove v) as Hr.
  assert (Hz : preserves (consistent v) (adjustMapZoom (constantsOf v)))
    by apply keeps_consistent, keeps_overlay_adjustMapZoom.
  destruct e; unfold stepOf, step.
  - apply preserves_run_task; [| exact Hs].
    assert (preserves (consistent v) (pageTestOf v))
      by (destruct v; apply keeps_consistent; solve_keeps).
    unfold init. repeat preserves_step consistent_leaf.
  - destruct (storageReads s); [exact Hs|].
    apply preserves_run_task; [| exact Hs].
    unfold preferencesLoaded. repeat preserves_step consistent_leaf.
  - apply consistent_frames. exact Hs.
  - apply preserves_run_task; [| exact Hs].
    unfold timer_fires, mapHandler. repeat preserves_step consistent_leaf.
  - destruct (observing s); [| exact Hs].
    apply preserves_run_task; [| exact Hs].
    pose proof (consistent_scanMutations v mutations).
    unfold observerCallback. repeat preserves_step consistent_leaf.
  - apply preserves_run_task; [| exact Hs].
    unfold onMessage. repeat preserves_step consistent_leaf.
  - destruct Hs as [Hn Hm]. cbn in He.
    destruct (He (document s)) as [He1 He2].
    assert (Hmk : marked (host a s) = marked s).
    { rewrite !marked_classes_of. cbn [host with_heap with_window with_document document].
      now rewrite He2. }
    split.
    + unfold style_nodes in *. cbn [host with_heap with_window with_document
                                     document stylesApplied].
      now rewrite He1.
    + intros Hv. rewrite Hmk. exact (Hm Hv).
Qed.

Lemma consistent_run v (events : list event) (s : State) :
  Forall discreet events -> consistent v s -> consistent v (runOf v s events).
Proof.
  intros Hev. revert s.
  induction Hev as [|e rest He _ IH]; intros s Hs; simpl; [exact Hs|].
  apply IH, consistent_step; assumption.
Qed.

(** X9: the overlay is never half applied.  Start the script on a page
    that holds no node under the reserved identifier and no marker class.
    Then after any sequence of events (start, storage answers, animation
    frames, timer expiries, mutation batches, messages, and actions of the
    page that leave the extension's style node and marker class alone),
    whether the handlers returned or threw: the style node is in the document
    exactly when [stylesApplied] is set, there is never more than one, and in
    the second variant the body carries the marker class exactly then. *)
Theorem overlay_never_half_applied (v : variant) (d : Document) (w : Window)
    (hp : gmap handle LeafletMap) (extension : string) (storageThrows : bool)
    (events : list event) :
  List.filter (has_id reserved) (all_elements d) = [] ->
  has_class "inat-map-enhanced"
    <$> (b_classList <$> document_body d) <> Some true ->
  Forall discreet events ->
  let s := runOf v (loaded d w hp extension storageThrows) events in
  style_nodes s = (if stylesApplied s then 1 else 0)%nat
  /\ (v = Part000Js -> marked s = stylesApplied s).
Proof.
  intros Hd Hm Hev. apply consistent_run; [exact Hev|].
  split.
  - unfold style_nodes. cbn. now rewrite Hd.
  - intros _. rewrite marked_classes_of. cbn.
    destruct (document_body d) as [b|]; cbn in *; [| reflexivity].
    destruct (has_class "inat-map-enhanced" (b_classList b)); congruence.
Qed.

Lemma overlay_never_half_applied_witness :
  let s := runOf Part000Js (Sample.session 5) cycle in
  style_nodes s = 1%nat /\ marked s = true /\ stylesApplied s = true.
Proof.
  destruct (overlay_never_half_applied Part000Js (Sample.page [Sample.mapElement])
              Sample.listing {[ 1%positive := Sample.leaflet 5 ]}
              Sample.extension false cycle)
    as [H1 H2].
  - reflexivity.
  - vm_compute. discriminate.
  - unfold cycle. repeat constructor.
  - cbn zeta in *. change (loaded _ _ _ _ _) with (Sample.session 5) in *.
    assert (Hsa : stylesApplied (runOf Part000Js (Sample.session 5) cycle) = true)
      by (vm_compute; reflexivity).
    rewrite Hsa in *. split; [exact H1|]. split; [exact (H2 eq_refl) | reflexivity].
Defined.

(** ** The map stays mounted through the viewport functions *)

Lemma mounted_update (s : State) m st n i h :
  mounted s n i h ->
  mounted (with_document (dom_update m (assign_style st)) s) n i h.
Proof.
  intros [[e [Hin Hn]] Honly Hstamp Hold Hcache Hinst].
  set (g := fun e => if is_node m e then assign_style st e else e).
  assert (Hg : forall x, el_node (g x) = el_node x
                         /\ has_id "map" (g x) = has_id "map" x
                         /\ el_leaflet_id (g x) = el_leaflet_id x)
    by (intros x; unfold g; destruct (is_node m x); auto).
  split; cbn [with_document document domCache window];
    rewrite ?all_elements_update; auto; fold g.
  - exists (g e). split; [now apply List.in_map|]. now rewrite (proj1 (Hg e)).
  - intros e' Hin'. apply List.in_map_iff in Hin' as (x & <- & Hx).
    destruct (Hg x) as (-> & -> & _). now apply Honly.
  - intros e' Hin'. apply List.in_map_iff in Hin' as (x & <- & Hx).
    destruct (Hg x) as (-> & _ & ->). now apply Hstamp.
Qed.

Lemma mounted_resized (s : State) n i h :
  mounted s n i h ->
  mounted (with_window (fun w =>
             {| w_location := w_location w; w_L := w_L w;
                w_GLOBALS := w_GLOBALS w; w_resizes := S (w_resizes w) |}) s)
    n i h.
Proof. intros [H1 H2 H3 H4 H5 H6]. split; auto. Qed.

Lemma mounted_stays_cached n i h :
  preserves (fun s => mounted s n i h) (getCachedElement SELECTORS.MAP "map").
Proof.
  intros s Hm. rewrite (mounted_getCachedElement Hm). now apply mounted_cached.
Qed.

Lemma mounted_other_key (s : State) k v n i h :
  k <> "map" -> mounted s n i h -> mounted (with_domCache (<[k := v]>) s) n i h.
Proof.
  intros Hk. apply mounted_ext; cbn; auto; try lia.
  left. apply lookup_insert_ne. exact Hk.
Qed.

Lemma mounted_body_classList f n i h :
  preserves (fun s => mounted s n i h) (body_classList f).
Proof.
  intros s Hm. unfold body_classList. rewrite bind_run. cbn [get fst snd].
  destruct (document_body (document s)); [| exact Hm].
  unfold modify. cbn [snd]. revert Hm.
  apply mounted_ext; cbn [with_document document domCache window]; auto.
  - apply all_elements_classList.
  - cbn. lia.
Qed.

Ltac mounted_leaf :=
  idtac;
  lazymatch goal with
  | |- preserves _ (getCachedElement SELECTORS.MAP "map") =>
      apply mounted_stays_cached
  | |- preserves _ (findElementBySelectors _) =>
      let s := fresh "s" in
      intros s ?; rewrite findElementBySelectors_reads; assumption
  | |- preserves _ (body_classList _) => apply mounted_body_classList
  | |- preserves _ (injectStyles _ reserved) =>
      let s := fresh "s" in
      intros s ?; now apply injectStyles_mounted
  | |- preserves _ (modify _) =>
      apply preserves_modify; intros ? ?;
      first [ now apply mounted_update
            | now apply mounted_resized
            | now (apply mounted_other_key; [discriminate|])
            | eapply mounted_ext; [ | | | | eassumption]; cbn; auto; lia ]
  end.

Lemma mounted_repositionObservationCards K n i h :
  preserves (fun s => mounted s n i h) (repositionObservationCards K).
Proof. repeat preserves_step mounted_leaf. Qed.

Lemma mounted_adjustMapZoom K n i h :
  preserves (fun s => mounted s n i h) (adjustMapZoom K).
Proof.
  pose proof (mounted_repositionObservationCards K n i h).
  unfold adjustMapZoom. repeat preserves_step ltac:(with_hyps mounted_leaf).
Qed.

Lemma mounted_applyMapBounds n i h :
  preserves (fun s => mounted s n i h) applyMapBounds.
Proof. repeat preserves_step mounted_leaf. Qed.

Lemma mounted_postPaint K n i h :
  preserves (fun s => mounted s n i h) (postPaint K).
Proof.
  pose proof (mounted_adjustMapZoom K n i h).
  pose proof (mounted_applyMapBounds n i h).
  unfold postPaint. repeat preserves_step ltac:(with_hyps mounted_leaf).
Qed.

Lemma mounted_restoreViewport n i h :
  preserves (fun s => mounted s n i h) restoreViewport.
Proof. repeat preserves_step mounted_leaf. Qed.

Lemma mounted_apply v n i h : preserves (fun s => mounted s n i h) (applyOf v).
Proof.
  destruct v; cbn [applyOf].
  - unfold Content.applyFullMapHeight.
    change (STYLE_ID Content.CONSTANTS) with reserved.
    repeat preserves_step mounted_leaf.
  - unfold Part000.applyFullMapHeight.
    change (STYLE_ID Part000.CONSTANTS) with reserved.
    repeat preserves_step mounted_leaf.
Qed.

Lemma mounted_remove v n i h : preserves (fun s => mounted s n i h) (removeOf v).
Proof.
  pose proof (mounted_restoreViewport n i h) as Hr.
  intros s Hm. pose proof (mounted_deleted s n i h Hm) as Hd.
  destruct v; cbn [removeOf].
  - rewrite content_remove_split. apply Hr.
    revert Hd. apply mounted_ext; cbn; auto; lia.
  - rewrite part000_remove_split. revert Hd.
    generalize (deleted reserved s).
    change (preserves (fun s => mounted s n i h)
              (body_classList (classList_remove "inat-map-enhanced");;
               modify (with_stylesApplied false);; restoreViewport)).
    repeat preserves_step ltac:(with_hyps mounted_leaf).
Qed.

Lemma healthy_fitted K o : healthy o -> healthy (fitted K o).
Proof.
  intros H. unfold fitted. destruct (gt_number _ _); exact H.
Qed.

Lemma healthy_restored z c o : healthy o -> healthy (restored z c o).
Proof. intros H. unfold restored. destruct c; exact H. Qed.

(** ** The observer path adjusts the viewport again and again *)

Lemma timer_run K (s : State) :
  timer s = true -> fullMapHeight (config s) = true ->
  run_task (timer_fires (mapHandler K)) s
  = (adjustMapZoom K (with_timer false s)).2.
Proof.
  intros Ht Hc. unfold run_task, timer_fires. rewrite bind_run.
  cbn [get fst snd]. rewrite Ht. rewrite bind_run. cbn [modify].
  unfold mapHandler. rewrite bind_run. cbn [get fst snd with_timer config].
  now rewrite Hc.
Qed.

Lemma round_fits (v : variant) (s : State) n i h o
    (mutations : list MutationRecord) :
  watching s n i h -> heap s !! h = Some o -> signals mutations = true ->
  let s' := runOf v s [EMutations mutations; ETimer] in
  watching s' n i h
  /\ heap s' !! h
     = Some (fitted (constantsOf v) (if captured s then o else probed o))
  /\ originalStyles s' = snapshot o (originalStyles s).
Proof.
  intros [Hm (o0 & Hh0 & Ho) Hc Hob Hsa] Hh Hsig. cbn zeta.
  rewrite Hh in Hh0. injection Hh0 as <-.
  change (runOf v s [EMutations mutations; ETimer])
    with (stepOf v (stepOf v s (EMutations mutations)) ETimer).
  assert (Hmut : stepOf v s (EMutations mutations)
                 = with_timer true (with_mapFound true s)).
  { unfold stepOf, step, run_task.
    now rewrite Hob, observerCallback_run, Hsa, Hsig, andb_false_r. }
  rewrite Hmut.
  unfold stepOf, step. rewrite timer_run by (cbn; auto).
  set (s1 := with_timer false (with_timer true (with_mapFound true s))).
  assert (Hm1 : mounted s1 n i h)
    by (revert Hm; apply mounted_ext; cbn; auto; lia).
  assert (Hh1 : heap s1 !! h = Some o) by exact Hh.
  destruct (adjustMapZoom_fits (constantsOf v) s1 n i h o Hm1 Hh1 Ho)
    as (_ & Hheap & Hos).
  cbn zeta in Hheap, Hos.
  split; [| split; [exact Hheap | exact Hos]].
  split.
  - now apply mounted_adjustMapZoom.
  - eexists. split; [exact Hheap|]. apply healthy_fitted.
    destruct (captured s1); exact Ho.
  - now rewrite keeps_config_adjustMapZoom.
  - assert (H : keeps observing (adjustMapZoom (constantsOf v))) by solve_keeps.
    now rewrite H.
  - pose proof (keeps_overlay_adjustMapZoom (constantsOf v) s1) as H.
    unfold overlay in H. injection H as _ _ H. now rewrite H.
Qed.

Lemma rounds_drift (v : variant) (mutations : list MutationRecord) (k : nat) :
  signals mutations = true ->
  forall (s : State) n i h o,
    watching s n i h -> heap s !! h = Some o ->
    (1 + inject_Z (Z.of_nat k) * 0.5 < lm_zoom o + 0.5)%Q ->
    let s' := runOf v s (rounds mutations k) in
    watching s' n i h
    /\ exists o', heap s' !! h = Some o'
         /\ (lm_zoom o' == lm_zoom o - inject_Z (Z.of_nat k) * 0.5)%Q.
Proof.
  intros Hsig. induction k as [|k IH]; intros s n i h o Hw Hh Hz; cbn zeta.
  - split; [exact Hw|]. exists o. split; [exact Hh|].
    change (inject_Z (Z.of_nat 0)) with 0%Q. lra.
  - change (runOf v s (rounds mutations (S k)))
      with (runOf v (runOf v s [EMutations mutations; ETimer])
              (rounds mutations k)).
    destruct (round_fits v s n i h o mutations Hw Hh Hsig) as (Hw1 & Hh1 & _).
    set (s1 := runOf v s [EMutations mutations; ETimer]) in *.
    set (o1 := fitted (constantsOf v) (if captured s then o else probed o)) in *.
    rewrite Nat2Z.inj_succ in Hz |- *. unfold Z.succ in Hz |- *.
    rewrite inject_Z_plus in Hz |- *.
    assert (Hk : (0 <= inject_Z (Z.of_nat k))%Q).
    { change 0%Q with (inject_Z 0). rewrite <- Zle_Qle. lia. }
    assert (Hgt : (1 < lm_zoom o)%Q) by (change (inject_Z 1) with 1%Q in Hz; nra).
    assert (Hz1 : lm_zoom o1 = (lm_zoom o - 0.5)%Q).
    { subst o1. rewrite fitted_zoom.
      replace (lm_zoom (if captured s then o else probed o)) with (lm_zoom o)
        by (destruct (captured s); reflexivity).
      replace (MIN_ZOOM_LEVEL (constantsOf v)) with 1%Q by (destruct v; reflexivity).
      replace (ZOOM_ADJUSTMENT (constantsOf v)) with 0.5%Q by (destruct v; reflexivity).
      now rewrite (proj2 (gt_number_spec _ _) Hgt). }
    destruct (IH s1 n i h o1 Hw1 Hh1) as (Hw' & o' & Hh' & Hz').
    + rewrite Hz1. change (inject_Z 1) with 1%Q in Hz. lra.
    + split; [exact Hw'|]. exists o'. split; [exact Hh'|].
      rewrite Hz', Hz1. change (inject_Z 1) with 1%Q. lra.
Qed.

(** X10: the observer path adjusts the viewport again on every round.  On
    a page with a mounted map and a healthy instance, with the extension
    enabled, the observer running and the styles not applied (in the second
    variant: any page that is not the listing), every batch of mutations
    that carries the signal, followed by the expiry of the debounce timer,
    runs [adjustMapZoom]: after [k] rounds the zoom level is [k] steps of 0.5
    below the level at the start (as long as the level before each round is
    above the floor 1), and still the styles are not applied. *)
Theorem observer_rounds_zoom_out (v : variant) (s : State) n i h o
    (mutations : list MutationRecord) (k : nat) :
  watching s n i h -> heap s !! h = Some o -> signals mutations = true ->
  (1 + inject_Z (Z.of_nat k) * 0.5 < lm_zoom o + 0.5)%Q ->
  let s' := runOf v s (rounds mutations k) in
  stylesApplied s' = false
  /\ exists o', heap s' !! h = Some o'
       /\ (lm_zoom o' == lm_zoom o - inject_Z (Z.of_nat k) * 0.5)%Q.
Proof.
  intros Hw Hh Hsig Hz. cbn zeta.
  destruct (rounds_drift v mutations k Hsig s n i h o Hw Hh Hz) as (Hw' & H).
  split; [exact (watching_idle _ _ _ _ Hw') | exact H].
Qed.

Lemma observer_rounds_zoom_out_witness :
  stylesApplied (runOf Part000Js itemWithMap (rounds mapAdded 3)) = false
  /\ exists o',
       heap (runOf Part000Js itemWithMap (rounds mapAdded 3)) !! 1%positive
       = Some o'
       /\ (lm_zoom o' == 3.5)%Q.
Proof.
  assert (Hw : watching itemWithMap 1%positive (Some 7%positive) 1%positive).
  { split.
    - apply mountedb_sound. vm_compute. reflexivity.
    - exists (Sample.leaflet 5). split; [vm_compute; reflexivity|].
      apply sample_healthy.
    - vm_compute. reflexivity.
    - vm_compute. reflexivity.
    - vm_compute. reflexivity. }
  assert (Hh : heap itemWithMap !! 1%positive = Some (Sample.leaflet 5))
    by (vm_compute; reflexivity).
  assert (Hz : (1 + inject_Z (Z.of_nat 3) * 0.5 < lm_zoom (Sample.leaflet 5) + 0.5)%Q)
    by (vm_compute; reflexivity).
  destruct (observer_rounds_zoom_out Part000Js itemWithMap 1%positive
              (Some 7%positive) 1%positive (Sample.leaflet 5) mapAdded 3
              Hw Hh eq_refl Hz) as (Hsa & o' & Hh' & Hz').
  split; [exact Hsa|]. exists o'. split; [exact Hh'|].
  rewrite Hz'. vm_compute. reflexivity.
Defined.

(** ** A pending post-paint callback outlives [remove()] *)

Lemma keeps_frames_remove v : keeps frames (removeOf v).
Proof. destruct v; solve_keeps. Qed.

Lemma apply_fresh v (s : State) n i h :
  stylesApplied s = false -> single s -> mounted s n i h -> ready v s ->
  let s1 := (applyOf v s).2 in
  mounted s1 n i h /\ stylesApplied s1 = true
  /\ frames s1 = frames s ++ [PostPaint]
  /\ heap s1 = heap s /\ originalStyles s1 = originalStyles s
  /\ style_nodes s1 = 1%nat
  /\ (v = Part000Js -> is_Some (document_body (document s1))).
Proof.
  intros Hsa Hs Hm Hr. cbn zeta.
  destruct (apply_mounted v s n i h Hsa Hm Hr) as (Hn & Hm1 & Hsa1 & Hf1).
  split; [exact Hm1|]. split; [exact Hsa1|]. split; [exact Hf1|].
  split; [apply keeps_heap_apply|]. split; [apply keeps_originalStyles_apply|].
  destruct (apply_outcome v s Hs)
    as [Hrun | [(s' & Hrun & _ & _ & Hfilter & _ & Hmk)
               | (e & s' & Hrun & _)]];
    rewrite Hrun in *; cbn [fst snd] in *.
  - congruence.
  - split; [unfold style_nodes; now rewrite Hfilter|].
    intros ->. now apply marked_body.
  - discriminate.
Qed.

(** X11: a pending post-paint callback outlives [remove()].  When
    [apply()] is followed by [remove()] before the next animation frame (the
    toggle switched on and off), the callback [apply()] queued still runs at
    that frame: with the styles removed and the flag cleared, it restricts
    the bounds, takes the snapshot and lowers the zoom by one step.  Nothing
    undoes this before a later [remove()]. *)
Theorem postPaint_outlives_remove (v : variant) (s : State) n i h o :
  stylesApplied s = false -> captured s = false -> frames s = [] ->
  single s -> mounted s n i h -> heap s !! h = Some o -> healthy o ->
  ready v s ->
  let s' := session v s [Apply; Remove; Frame] in
  stylesApplied s' = false /\ style_nodes s' = 0%nat
  /\ snap (lm_zoom o) (Some (lm_center o)) s'
  /\ exists o',
       heap s' !! h = Some o'
       /\ lm_maxBounds o' = Some fullEarth
       /\ lm_minZoom o' = Some 2%Q
       /\ lm_invalidations o' = S (lm_invalidations o)
       /\ ((1 < lm_zoom o)%Q -> lm_zoom o' = (lm_zoom o - 0.5)%Q).
Proof.
  intros Hsa Hc Hf Hs Hm Hh Ho Hr. cbn zeta.
  change (session v s [Apply; Remove; Frame])
    with (perform v (run_task (removeOf v) (run_task (applyOf v) s)) Frame).
  unfold run_task.
  destruct (apply_fresh v s n i h Hsa Hs Hm Hr)
    as (Hm1 & Hsa1 & Hf1 & Hh1 & Ho1 & Hn1 & Hb1).
  set (s1 := (applyOf v s).2) in *.
  assert (Hs1 : single s1) by (unfold single; rewrite Hn1; lia).
  assert (Hz1 : os_zoom (originalStyles s1) = None).
  { rewrite Ho1. unfold captured in Hc.
    destruct (os_zoom (originalStyles s)); [discriminate | reflexivity]. }
  destruct (remove_clears v s1 Hs1 Hb1) as (Hn2 & Hsa2 & _ & Hidle).
  destruct (Hidle Hz1) as [_ Hh2].
  pose proof (mounted_remove v n i h s1 Hm1) as Hm2.
  pose proof (keeps_frames_remove v s1) as Hf2.
  pose proof (keeps_originalStyles_remove v s1) as Ho2.
  set (s2 := (removeOf v s1).2) in *.
  rewrite Hf1, Hf in Hf2. cbn [app] in Hf2.
  rewrite (frame_postPaint v s2 Hf2). unfold run_task.
  set (s2' := with_frames (fun _ => []) s2).
  assert (Hm2' : mounted s2' n i h)
    by (revert Hm2; apply mounted_ext; cbn; auto; lia).
  assert (Hh2' : heap s2' !! h = Some o)
    by (subst s2'; cbn; rewrite Hh2, Hh1; exact Hh).
  assert (Hc2 : captured s2' = false).
  { unfold captured. subst s2'. cbn. now rewrite Ho2, Hz1. }
  destruct (postPaint_fits (constantsOf v) s2' n i h o Hm2' Hh2' Ho)
    as (Hheap & Hos).
  rewrite Hc2 in Hheap.
  pose proof (keeps_overlay_postPaint (constantsOf v) s2') as Hov.
  unfold overlay in Hov. injection Hov as Hn3 _ Hsa3.
  split; [rewrite Hsa3; exact Hsa2|].
  split; [rewrite Hn3; exact Hn2|].
  split.
  { unfold snap, snapshot_is. rewrite Hos. unfold snapshot.
    change (originalStyles s2') with (originalStyles s2).
    rewrite Ho2, Hz1. split; reflexivity. }
  eexists. split; [exact Hheap|].
  destruct (fitted_bounds (constantsOf v) (probed (bounded o))) as (Hb & Hmz & _).
  rewrite Hb, Hmz, fitted_zoom.
  split; [reflexivity|]. split; [reflexivity|].
  split.
  - unfold fitted. destruct (gt_number _ _); reflexivity.
  - intros Hgt.
    change (lm_zoom (probed (bounded o))) with (lm_zoom o).
    replace (MIN_ZOOM_LEVEL (constantsOf v)) with 1%Q by (destruct v; reflexivity).
    replace (ZOOM_ADJUSTMENT (constantsOf v)) with 0.5%Q by (destruct v; reflexivity).
    now rewrite (proj2 (gt_number_spec _ _) Hgt).
Qed.

Lemma postPaint_outlives_remove_witness :
  let s' := session Part000Js (Sample.session 5) [Apply; Remove; Frame] in
  stylesApplied s' = false
  /\ exists o', heap s' !! 1%positive = Some o'
                /\ lm_zoom o' = (5 - 0.5)%Q
                /\ lm_maxBounds o' = Some fullEarth.
Proof.
  destruct (postPaint_outlives_remove Part000Js (Sample.session 5) 1%positive
              (Some 7%positive) 1%positive (Sample.leaflet 5))
    as (Hsa & _ & _ & o' & Hh & Hb & _ & _ & Hz).
  - reflexivity.
  - reflexivity.
  - reflexivity.
  - unfold single. vm_compute. lia.
  - exact (sample_mounted 5).
  - reflexivity.
  - exact (sample_healthy 5).
  - split; [left; reflexivity | eexists; reflexivity].
  - split; [exact Hsa|]. exists o'. split; [exact Hh|].
    split; [apply Hz; reflexivity | exact Hb].
Defined.

(** ** A snapshot without centre *)

Lemma host_call_throws {A} (h : handle) (m : MapMethod) (c : MapCall)
    (result : LeafletMap -> A) (effect : LeafletMap -> LeafletMap)
    (s : State) (o : LeafletMap) :
  heap s !! h = Some o -> memb m (lm_methods o) = true ->
  memb m (lm_faulty o) = true ->
  host_call h m c result effect s
  = (Thrown {| error_message := "host library error" |},
     with_heap (<[h := record_call c o]>) s).
Proof.
  intros Hh Hm Hf. unfold host_call. rewrite bind_run. cbn [get fst snd].
  rewrite Hh, Hm, Hf. reflexivity.
Qed.

Lemma host_call_returns {A} (h : handle) (m : MapMethod) (c : MapCall)
    (result : LeafletMap -> A) (effect : LeafletMap -> LeafletMap)
    (s : State) (o : LeafletMap) :
  heap s !! h = Some o -> memb m (lm_methods o) = true ->
  memb m (lm_faulty o) = false ->
  host_call h m c result effect s
  = (Normal (result o), with_heap (<[h := record_call c (effect o)]>) s).
Proof.
  intros Hh Hm Hf. unfold host_call. rewrite bind_run. cbn [get fst snd].
  rewrite Hh, Hm, Hf. reflexivity.
Qed.

Lemma adjustMapZoom_without_center K (s : State) n i h o :
  mounted s n i h -> heap s !! h = Some o ->
  (forall m, memb m (lm_methods o) = true) ->
  memb GetZoom (lm_faulty o) = false -> memb GetCenter (lm_faulty o) = true ->
  os_zoom (originalStyles s) = None ->
  adjustMapZoom K s
  = repositionObservationCards K
      (with_heap (<[h := probed o]>)
         (with_originalStyles (capture_zoom (lm_zoom o))
            (with_domCache (<["map" := n]>) s))).
Proof.
  intros Hm Hh Hms Hz Hc Hos. unfold adjustMapZoom.
  rewrite bind_run, (mounted_getCachedElement Hm). cbn beta iota.
  rewrite bind_run.
  rewrite (mounted_getLeafletMapInstance (mounted_cached _ _ _ _ Hm)).
  cbn beta iota.
  set (s1 := with_domCache (<["map" := n]>) s).
  assert (Hh1 : heap s1 !! h = Some o) by exact Hh.
  rewrite bind_run, bind_run. unfold typeof_function at 1, gets at 1.
  cbn [fst snd]. rewrite Hh1, Hms. cbn beta iota.
  unfold try_catch, getZoom, getCenter.
  rewrite bind_run. cbn [get fst snd].
  change (originalStyles s1) with (originalStyles s). rewrite Hos.
  rewrite !bind_run.
  rewrite (host_call_returns h GetZoom CallGetZoom lm_zoom id s1 o Hh1 (Hms _) Hz).
  cbn beta iota. rewrite ?bind_run. cbn [modify id]. rewrite ?bind_run.
  erewrite host_call_throws;
    [| cbn; apply lookup_insert_eq | apply Hms | exact Hc].
  cbn beta iota. cbn [console_error mret M_ret].
  f_equal. subst s1. unfold probed. clear. destruct s. fields.
  now rewrite insert_insert_eq.
Qed.

(** X12: a snapshot without centre.  When the first viewport adjustment
    reads the zoom but [getCenter] throws, the exception is caught, the
    snapshot keeps the zoom it has just read and has no centre, and the zoom
    of the map is not changed in that call.  From then on the snapshot is
    never completed: whatever happens later in the session, it holds that
    zoom and no centre, so that a restore sets the zoom and does not pan. *)
Theorem snapshot_without_center (v : variant) (s : State) n i h o :
  mounted s n i h -> heap s !! h = Some o ->
  (forall m, memb m (lm_methods o) = true) ->
  memb GetZoom (lm_faulty o) = false -> memb GetCenter (lm_faulty o) = true ->
  os_zoom (originalStyles s) = None -> os_center (originalStyles s) = None ->
  let s' := (adjustMapZoom (constantsOf v) s).2 in
  (adjustMapZoom (constantsOf v) s).1 = Normal tt
  /\ (exists o', heap s' !! h = Some o'
                 /\ lm_zoom o' = lm_zoom o
                 /\ lm_invalidations o' = lm_invalidations o
                 /\ lm_calls o' = lm_calls o ++ [CallGetZoom; CallGetCenter])
  /\ forall events,
       os_zoom (originalStyles (runOf v s' events)) = Some (lm_zoom o)
       /\ os_center (originalStyles (runOf v s' events)) = None.
Proof.
  intros Hm Hh Hms Hz Hc Hos Hoc. cbn zeta.
  rewrite (adjustMapZoom_without_center _ s n i h o Hm Hh Hms Hz Hc Hos).
  set (mid := with_heap _ _).
  rewrite (returns_unit _ mid (returns_repositionObservationCards _)).
  cbn [fst snd]. split; [reflexivity|]. split.
  - rewrite keeps_heap_reposition. subst mid. cbn [heap with_heap].
    rewrite lookup_insert_eq. eexists. split; [reflexivity|].
    unfold probed. cbn. rewrite <- List.app_assoc. auto.
  - intros events. apply (snap_run v (lm_zoom o) None events).
    unfold snap, snapshot_is. rewrite keeps_originalStyles_reposition.
    subst mid. cbn. auto.
Qed.

Lemma snapshot_without_center_witness :
  let s' := (adjustMapZoom Content.CONSTANTS (flakySession 5)).2 in
  os_zoom (originalStyles (runOf ContentJs s' cycle)) = Some 5%Q
  /\ os_center (originalStyles (runOf ContentJs s' cycle)) = None.
Proof.
  destruct (snapshot_without_center ContentJs (flakySession 5) 1%positive
              (Some 7%positive) 1%positive (flaky 5)) as (_ & _ & H).
  - apply mountedb_sound. vm_compute. reflexivity.
  - reflexivity.
  - intros []; reflexivity.
  - reflexivity.
  - reflexivity.
  - reflexivity.
  - reflexivity.
  - exact (H cycle).
Defined.

(** ** The inline styles of the panel and of the controls *)

Lemma findElementBySelectors_run (selectors : list selector) (s : State) :
  findElementBySelectors selectors s
  = (Normal (first_match selectors (document s)), s).
Proof.
  induction selectors as [|sel rest IH]; simpl; [reflexivity|].
  rewrite bind_run. unfold document_querySelector, gets. cbn [fst snd].
  destruct (dom_querySelector sel (document s)); [reflexivity | exact IH].
Qed.

Lemma find_map_same {A} (p : A -> bool) (g : A -> A) (l : list A) :
  (forall x, p (g x) = p x) ->
  List.find p (List.map g l) = g <$> List.find p l.
Proof.
  intros Hp. induction l as [|x l IH]; simpl; [reflexivity|].
  rewrite Hp. destruct (p x); [reflexivity | exact IH].
Qed.

Lemma querySelector_update sel n st (d : Document) :
  dom_querySelector sel (dom_update n (assign_style st) d)
  = dom_querySelector sel d.
Proof.
  unfold dom_querySelector. rewrite all_elements_update.
  rewrite find_map_same.
  - destruct (List.find (matches sel) (all_elements d)) as [e|]; [| reflexivity].
    cbn. destruct (is_node n e); reflexivity.
  - intros x. destruct (is_node n x); reflexivity.
Qed.

Lemma reposition_run K (s : State) :
  let panel := first_match SELECTORS.OBS_PANELS (document s) in
  let controls := dom_querySelector SELECTORS.MAP_CONTROLS (document s) in
  exists s',
    repositionObservationCards K s = (Normal tt, s')
    /\ all_elements (document s')
       = List.map (restyled K panel controls) (all_elements (document s))
    /\ domCache s' = match panel with
                     | Some p => <["obsPanel" := p]> (domCache s)
                     | None => domCache s
                     end.
Proof.
  cbn zeta. unfold repositionObservationCards.
  rewrite bind_run, findElementBySelectors_run. cbn beta iota.
  fold (panelStyles K). fold controlStyles.
  destruct (first_match SELECTORS.OBS_PANELS (document s)) as [p|].
  - rewrite !bind_run. unfold applyObsPanelStyles, modify at 1 2.
    fold (panelStyles K). cbn beta iota.
    unfold document_querySelector, gets. cbn [fst snd].
    rewrite bind_run. cbn beta iota.
    cbn [with_domCache with_document document].
    rewrite querySelector_update.
    destruct (dom_querySelector SELECTORS.MAP_CONTROLS (document s)) as [c|].
    + eexists. split; [reflexivity|]. unfold modify. cbn [snd].
      cbn [with_document document domCache].
      rewrite all_elements_update.
      cbn [with_domCache with_document document domCache].
      rewrite all_elements_update, List.map_map. split; reflexivity.
    + eexists. split; [reflexivity|].
      cbn [with_domCache with_document document domCache].
      rewrite all_elements_update. split; reflexivity.
  - rewrite bind_run. cbn [mret M_ret]. rewrite bind_run.
    unfold document_querySelector, gets. cbn [fst snd]. cbn beta iota.
    destruct (dom_querySelector SELECTORS.MAP_CONTROLS (document s)) as [c|].
    + eexists. split; [reflexivity|]. unfold modify. cbn [snd].
      cbn [with_document document domCache].
      rewrite all_elements_update. split; reflexivity.
    + eexists. split; [reflexivity|]. rewrite List.map_id. split; reflexivity.
Qed.

Lemma Forall2_map_self {A} (R : A -> A -> Prop) (f : A -> A) (l : list A) :
  (forall x, R x (f x)) -> Forall2 R l (List.map f l).
Proof. intros H. induction l; simpl; constructor; auto. Qed.

Lemma is_node_self e : is_node (el_node e) e = true.
Proof. unfold is_node. apply Pos.eqb_refl. Qed.

Lemma declare_other (decls : list (string * string))
    (style : gmap string string) (k : string) :
  k ∉ decls.*1 -> fold_left declare decls style !! k = style !! k.
Proof.
  revert style. induction decls as [|[k' v] decls IH]; intros style Hk;
    [reflexivity|].
  cbn [fmap list_fmap fst] in Hk. apply not_elem_of_cons in Hk as [Hne Hk].
  cbn [fold_left]. rewrite IH by exact Hk. unfold declare. cbn [fst snd].
  now apply lookup_insert_ne.
Qed.

Lemma assign_style_other (styles : list (string * string)) (e : Element)
    (k : string) :
  k ∉ declared styles ->
  el_style (assign_style styles e) !! k = el_style e !! k.
Proof.
  cbn [assign_style el_style]. generalize (el_style e).
  induction styles as [|assignment styles IH]; intros style Hk; [reflexivity|].
  unfold declared in Hk. cbn [mbind list_bind] in Hk.
  rewrite fmap_app in Hk. apply not_elem_of_app in Hk as [Hhere Hrest].
  cbn [fold_left]. rewrite IH by exact Hrest.
  unfold set_property. now apply declare_other.
Qed.

Ltac style_lookup :=
  cbn [el_style assign_style fold_left set_property declarations
       panelStyles controlStyles String.eqb Ascii.eqb Bool.eqb fst snd];
  unfold declare; cbn [fst snd];
  repeat (rewrite lookup_insert_ne by discriminate);
  apply lookup_insert_eq.

Ltac style_goals :=
  repeat match goal with
         | |- _ /\ _ => split
         end;
  try style_lookup;
  try (let Hnc := fresh "Hnc" in
       intros Hnc;
       first [ exfalso; apply Hnc; f_equal; symmetry; now apply is_node_true
             | split; style_lookup ]).

(** X13: the inline styles are merged, not replaced, and a shorthand takes
    its longhands with it.  [repositionObservationCards] never throws.  It
    picks the panel by the order of the list [OBS_PANELS] and the controls
    by [MAP_CONTROLS], both on the document as it finds it, caches the panel
    under [obsPanel], and changes nothing of any element but style
    declarations of these two.  The panel gets its position, offsets, width,
    scrolling and shadow; the controls get theirs, and the shorthand
    [padding] overwrites the four paddings the controls had, as [background]
    does the background colour of the panel.  Every longhand property that
    is neither assigned nor a longhand of an assigned shorthand keeps the
    value it had ([el_style] is keyed by longhand property). *)
Theorem reposition_assigns K (s : State) :
  let panel := first_match SELECTORS.OBS_PANELS (document s) in
  let controls := dom_querySelector SELECTORS.MAP_CONTROLS (document s) in
  let s' := (repositionObservationCards K s).2 in
  (repositionObservationCards K s).1 = Normal tt
  /\ domCache s' = match panel with
                   | Some p => <["obsPanel" := p]> (domCache s)
                   | None => domCache s
                   end
  /\ Forall2
       (fun e e' =>
          el_node e' = el_node e /\ el_attrs e' = el_attrs e
          /\ el_ancestors e' = el_ancestors e
          /\ el_leaflet_id e' = el_leaflet_id e
          /\ el_textContent e' = el_textContent e
          /\ (panel <> Some (el_node e) -> controls <> Some (el_node e) ->
              e' = e)
          /\ (panel = Some (el_node e) ->
              el_style e' !! "position" = Some "absolute"
              /\ el_style e' !! "right" = Some (px (OBS_PANEL_SPACING K))
              /\ el_style e' !! "bottom" = Some (px (OBS_PANEL_SPACING K))
              /\ el_style e' !! "width" = Some (px (OBS_PANEL_WIDTH K))
              /\ el_style e' !! "maxHeight"
                 = Some ("calc(100% - " +:+ px (OBS_PANEL_SPACING K * 2) +:+ ")")
              /\ el_style e' !! "overflowY" = Some "auto"
              /\ el_style e' !! "boxShadow" = Some "0 0 10px rgba(0, 0, 0, 0.2)"
              /\ (controls <> Some (el_node e) ->
                  el_style e' !! "backgroundColor" = Some "white"
                  /\ el_style e' !! "borderTopLeftRadius" = Some "8px"))
          /\ (controls = Some (el_node e) ->
              el_style e' !! "position" = Some "absolute"
              /\ el_style e' !! "left" = Some "10px"
              /\ el_style e' !! "top" = Some "10px"
              /\ el_style e' !! "zIndex" = Some "1000"
              /\ el_style e' !! "backgroundColor"
                 = Some "rgba(255, 255, 255, 0.8)"
              /\ el_style e' !! "borderTopLeftRadius" = Some "4px"
              /\ el_style e' !! "paddingTop" = Some "5px"
              /\ el_style e' !! "paddingRight" = Some "5px"
              /\ el_style e' !! "paddingBottom" = Some "5px"
              /\ el_style e' !! "paddingLeft" = Some "5px")
          /\ (forall k, k ∉ declared (panelStyles K) ->
                        k ∉ declared controlStyles ->
                el_style e' !! k = el_style e !! k)
          /\ (controls <> Some (el_node e) ->
              forall k, k ∉ declared (panelStyles K) ->
                el_style e' !! k = el_style e !! k)
          /\ (panel <> Some (el_node e) ->
              forall k, k ∉ declared controlStyles ->
                el_style e' !! k = el_style e !! k))
       (all_elements (document s)) (all_elements (document s')).
Proof.
  cbn zeta. destruct (reposition_run K s) as (s' & Hrun & Hel & Hcache).
  rewrite Hrun. cbn [fst snd]. split; [reflexivity|]. split; [exact Hcache|].
  rewrite Hel. apply Forall2_map_self. intros e.
  unfold restyled.
  destruct (first_match SELECTORS.OBS_PANELS (document s)) as [p|];
    destruct (dom_querySelector SELECTORS.MAP_CONTROLS (document s)) as [c|];
    try (destruct (is_node p e) eqn:Hp);
    try (change (is_node c (assign_style (panelStyles K) e)) with (is_node c e));
    try (destruct (is_node c e) eqn:Hc);
    (split; [reflexivity|]); (split; [reflexivity|]); (split; [reflexivity|]);
    (split; [reflexivity|]); (split; [reflexivity|]);
    (split; [| split; [| split; [| split; [| split]]]]);
    try (intros Hnp Hnc; try reflexivity; exfalso;
         first [ apply Hnp; f_equal; symmetry; now apply is_node_true
               | apply Hnc; f_equal; symmetry; now apply is_node_true ]);
    try (intros [= ->]; try discriminate;
         try (rewrite is_node_self in *; discriminate);
         style_goals);
    try (intros k Hk1 Hk2; rewrite ?assign_style_other by assumption;
         reflexivity);
    try (intros Hn k Hk; try (exfalso; apply Hn; f_equal; symmetry;
                              now apply is_node_true);
         rewrite ?assign_style_other by assumption; reflexivity).
Qed.

(** ** What [remove()] does not undo *)

Lemma remove_elements v (s : State) :
  (v = Part000Js -> is_Some (document_body (document s))) ->
  all_elements (document (removeOf v s).2)
  = all_elements (document (deleted reserved s)).
Proof.
  intros Hb. destruct (deleted_fields s) as (_ & _ & Hdb).
  destruct v; cbn [removeOf].
  - rewrite content_remove_split, keeps_document_restoreViewport. reflexivity.
  - rewrite part000_remove_split.
    destruct (body_classList_run (classList_remove "inat-map-enhanced")
                (deleted reserved s) (Hdb (Hb eq_refl)))
      as (s0 & Hrun & He0 & _).
    rewrite bind_run, Hrun. cbn beta iota. rewrite bind_run. cbn [modify].
    rewrite keeps_document_restoreViewport. exact He0.
Qed.

Lemma frame_fits v (s : State) n i h o :
  frames s = [PostPaint] -> captured s = false ->
  mounted s n i h -> heap s !! h = Some o -> healthy o ->
  let s' := perform v s Frame in
  mounted s' n i h
  /\ heap s' !! h = Some (fitted (constantsOf v) (probed (bounded o)))
  /\ snap (lm_zoom o) (Some (lm_center o)) s'
  /\ overlay s' = overlay s
  /\ frames s' = [].
Proof.
  intros Hf Hc Hm Hh Ho. cbn zeta. rewrite (frame_postPaint v s Hf).
  unfold run_task. set (s0 := with_frames (fun _ => []) s).
  assert (Hm0 : mounted s0 n i h) by (revert Hm; apply mounted_ext; cbn; auto; lia).
  assert (Hh0 : heap s0 !! h = Some o) by exact Hh.
  assert (Hc0 : captured s0 = false) by exact Hc.
  destruct (postPaint_fits (constantsOf v) s0 n i h o Hm0 Hh0 Ho) as (Hheap & Hos).
  rewrite Hc0 in Hheap.
  split; [now apply mounted_postPaint|]. split; [exact Hheap|]. split; [| split].
  - unfold snap, snapshot_is. rewrite Hos. unfold snapshot.
    unfold captured in Hc0. destruct (os_zoom (originalStyles s0)); [discriminate|].
    split; reflexivity.
  - exact (keeps_overlay_postPaint (constantsOf v) s0).
  - assert (H : keeps frames (postPaint (constantsOf v))) by solve_keeps.
    now rewrite H.
Qed.

(** X14: what [remove()] does not undo.  After [apply()], its post-paint
    callback and [remove()] on a page with a mounted map and a healthy
    instance, the zoom and the centre are the ones from before, but the
    instance keeps the maximal bounds (the full-earth box), the minimal zoom
    2 and the [noWrap] marks on its tile layers that the callback set; and
    [remove()] takes nothing out of the document but the style node: every
    other element, the inline styles that [repositionObservationCards] gave
    to the panel and the controls included, is left as it is. *)
Theorem remove_does_not_undo (v : variant) (s : State) n i h o :
  stylesApplied s = false -> captured s = false -> frames s = [] ->
  single s -> mounted s n i h -> heap s !! h = Some o -> healthy o ->
  ready v s ->
  let s2 := session v s [Apply; Frame] in
  let s3 := perform v s2 Remove in
  (exists o3,
     heap s3 !! h = Some o3
     /\ lm_zoom o3 = lm_zoom o /\ lm_center o3 = lm_center o
     /\ lm_maxBounds o3 = Some fullEarth
     /\ lm_minZoom o3 = Some 2%Q
     /\ lm_layers o3 = List.map mark_noWrap (lm_layers o))
  /\ (forall e, In e (all_elements (document s3)) ->
        In e (all_elements (document s2)))
  /\ (forall e, In e (all_elements (document s2)) ->
        dom_getElementById reserved (document s2) <> Some (el_node e) ->
        In e (all_elements (document s3))).
Proof.
  intros Hsa Hc Hf Hs Hm Hh Ho Hr. cbn zeta.
  change (session v s [Apply; Frame])
    with (perform v (run_task (applyOf v) s) Frame).
  unfold run_task.
  destruct (apply_fresh v s n i h Hsa Hs Hm Hr)
    as (Hm1 & Hsa1 & Hf1 & Hh1 & Ho1 & Hn1 & Hb1).
  set (s1 := (applyOf v s).2) in *.
  rewrite Hf in Hf1. cbn [app] in Hf1.
  assert (Hc1 : captured s1 = false) by (unfold captured; now rewrite Ho1).
  assert (Hh1' : heap s1 !! h = Some o) by (now rewrite Hh1).
  destruct (frame_fits v s1 n i h o Hf1 Hc1 Hm1 Hh1' Ho)
    as (Hm2 & Hh2 & Hsnap & Hov & _).
  set (s2 := perform v s1 Frame) in *.
  assert (Hb2 : v = Part000Js -> is_Some (document_body (document s2))).
  { intros Hv. apply marked_body.
    unfold overlay in Hov. injection Hov as _ Hmk _. rewrite Hmk.
    destruct (apply_outcome v s Hs)
      as [Hrun | [(s' & Hrun & _ & _ & _ & _ & Hmk')
                 | (e & s' & Hrun & _ & Hsa' & _)]];
      fold s1 in Hsa1; subst s1; rewrite Hrun in *; cbn [snd] in *.
    - congruence.
    - now rewrite Hmk', Hv.
    - congruence. }
  assert (Ho2 : healthy (fitted (constantsOf v) (probed (bounded o))))
    by (apply healthy_fitted; exact Ho).
  destruct (remove_restores v s2 n i h _ _ _ Hm2 Hh2 Ho2 Hsnap Hb2)
    as (_ & Hh3 & _).
  cbn [perform]. unfold run_task. split; [| split].
  - eexists. split; [exact Hh3|].
    unfold restored, fitted. destruct (gt_number _ _); cbn; auto.
  - intros e. rewrite (remove_elements v s2 Hb2), deleted_elements.
    destruct (dom_getElementById reserved (document s2)); [| auto].
    rewrite In_without. tauto.
  - intros e He Hne. rewrite (remove_elements v s2 Hb2), deleted_elements.
    destruct (dom_getElementById reserved (document s2)); [| auto].
    rewrite In_without. split; [exact He | congruence].
Qed.

Lemma remove_does_not_undo_witness :
  exists o3,
    heap (perform Part000Js
            (session Part000Js (Sample.session 5) [Apply; Frame]) Remove)
      !! 1%positive = Some o3
    /\ lm_zoom o3 = lm_zoom (Sample.leaflet 5)
    /\ lm_maxBounds o3 = Some fullEarth
    /\ lm_minZoom o3 = Some 2%Q.
Proof.
  destruct (remove_does_not_undo Part000Js (Sample.session 5) 1%positive
              (Some 7%positive) 1%positive (Sample.leaflet 5))
    as ((o3 & Hh & Hz & _ & Hb & Hmz & _) & _).
  - reflexivity.
  - reflexivity.
  - reflexivity.
  - unfold single. vm_compute. lia.
  - exact (sample_mounted 5).
  - reflexivity.
  - exact (sample_healthy 5).
  - split; [left; reflexivity | eexists; reflexivity].
  - exists o3. split; [exact Hh|]. split; [exact Hz|].
    split; [exact Hb | exact Hmz].
Defined.

(** ** The answer of the storage *)

Lemma ready_ext v (s s' : State) :
  window s' = window s ->
  document_body (document s') = document_body (document s) ->
  ready v s -> ready v s'.
Proof.
  intros Hw Hb. destruct v; [auto|]. unfold ready, listing_path.
  now rewrite Hw, Hb.
Qed.

Lemma apply_applies v (s : State) n i h :
  mounted s n i h -> ready v s ->
  stylesApplied (applyOf v s).2 = true.
Proof.
  intros Hm Hr. destruct (stylesApplied s) eqn:Hsa.
  - now rewrite apply_short_circuit.
  - now destruct (apply_mounted v s n i h Hsa Hm Hr) as (_ & _ & H & _).
Qed.

(** X15: the answer of the storage decides, the mirrored configuration does
    not.  On a page that passes the guards of [apply()] (map mounted; in the
    second variant the listing page, with a body), the callback of
    [chrome.storage.sync.get] leaves the styles applied unless the stored
    value is [false]: on a storage error and on a missing key it calls
    [apply()] and leaves [config.fullMapHeight] as it is, even when that is
    [false] (then [getState] reports [false] while the styles are applied);
    on a stored value it sets [config.fullMapHeight] to it and applies or
    removes accordingly. *)
Theorem storage_answer_decides (v : variant) (s : State) n i h
    (r : StorageResult) :
  single s -> mounted s n i h -> ready v s ->
  (v = Part000Js -> is_Some (document_body (document s))) ->
  let s' := run_task (preferencesLoaded (applyOf v) (removeOf v) r) s in
  stylesApplied s' = match r with
                     | StorageItems (Some false) => false
                     | _ => true
                     end
  /\ fullMapHeight (config s') = match r with
                                 | StorageItems (Some value) => value
                                 | _ => fullMapHeight (config s)
                                 end.
Proof.
  intros Hs Hm Hr Hb. cbn zeta. unfold run_task, preferencesLoaded.
  destruct r as [|[[|]|]].
  - rewrite bind_run. cbn [console_error mret M_ret].
    split; [exact (apply_applies v s n i h Hm Hr) | now rewrite keeps_config_apply].
  - rewrite bind_run. cbn [modify]. rewrite bind_run. cbn [get fst snd].
    cbn [config with_config fullMapHeight].
    set (s1 := with_config {| fullMapHeight := true |} s).
    assert (Hm1 : mounted s1 n i h) by (revert Hm; apply mounted_ext; cbn; auto; lia).
    assert (Hr1 : ready v s1) by (revert Hr; apply ready_ext; reflexivity).
    split; [exact (apply_applies v s1 n i h Hm1 Hr1) | now rewrite keeps_config_apply].
  - rewrite bind_run. cbn [modify]. rewrite bind_run. cbn [get fst snd].
    cbn [config with_config fullMapHeight].
    set (s1 := with_config {| fullMapHeight := false |} s).
    assert (Hs1 : single s1) by exact Hs.
    destruct (remove_clears v s1 Hs1 Hb) as (_ & Hsa & _).
    split; [exact Hsa | now rewrite keeps_config_remove].
  - split; [exact (apply_applies v s n i h Hm Hr) | now rewrite keeps_config_apply].
Qed.

Lemma storage_answer_decides_witness :
  let s := Content.run (Sample.session 5)
             [EMessage (Sample.toggle false) Sample.popup] in
  let s' := run_task (preferencesLoaded (applyOf ContentJs) (removeOf ContentJs)
                        StorageError) s in
  fullMapHeight (config s) = false
  /\ stylesApplied s' = true /\ fullMapHeight (config s') = false.
Proof.
  cbn zeta. split; [vm_compute; reflexivity|].
  match goal with
  | |- stylesApplied (run_task _ ?s) = _ /\ _ =>
      destruct (storage_answer_decides ContentJs s 1%positive (Some 7%positive)
                  1%positive StorageError) as [H1 H2]
  end.
  - unfold single. vm_compute. lia.
  - apply mountedb_sound. vm_compute. reflexivity.
  - exact I.
  - discriminate.
  - split; [exact H1|]. rewrite H2. vm_compute. reflexivity.
Defined.

(** ** The start of the script *)

Lemma pageTest_run v (s : State) :
  pageTestOf v s = (Normal (onPage v (window s)), s).
Proof. destruct v; reflexivity. Qed.

Lemma observe_run (s : State) :
  is_Some (document_body (document s)) ->
  observe s = (Normal tt, with_observing true s).
Proof.
  intros [b Hb]. unfold observe. rewrite bind_run.
  unfold document_querySelector, gets. cbn [fst snd].
  rewrite bind_run. cbn [get fst snd]. rewrite Hb.
  destruct (dom_querySelector _ (document s)); reflexivity.
Qed.

Lemma init_run v d w hp ext n i h :
  let s0 := loaded d w hp ext false in
  mounted s0 n i h -> is_Some (document_body d) ->
  stepOf v s0 EInit
  = with_frames (fun q => q ++ (if onPage v w then [InitApply] else []))
      (with_storageReads S
         (with_observing true
            (with_originalStyles
               (capture_mapHeight
                  (inline_height (with_domCache (<["map" := n]>) s0) n))
               (with_domCache (<["map" := n]>) s0)))).
Proof.
  cbn zeta. intros Hm Hb. unfold stepOf, step, run_task, init.
  rewrite bind_run, (mounted_getCachedElement Hm). cbn beta iota.
  rewrite bind_run. rewrite bind_run. cbn [get fst snd modify].
  rewrite bind_run. rewrite observe_run by exact Hb. cbn beta iota.
  rewrite bind_run. unfold loadUserPreferences, try_catch, storage_sync_get.
  cbn beta. rewrite bind_run. cbn [get fst snd].
  change (storage_throws _) with false. cbn iota. cbn [modify].
  rewrite bind_run, pageTest_run. cbn beta iota.
  cbn [window with_storageReads with_observing with_originalStyles
       with_domCache loaded].
  destruct (onPage v w); cbn [requestAnimationFrame modify mret M_ret snd].
  - reflexivity.
  - reflexivity.
Qed.

Lemma idle_at_ext v (s s' : State) n i h o :
  document s' = document s -> window s' = window s -> heap s' = heap s ->
  domCache s' !! "map" = domCache s !! "map" \/ domCache s' !! "map" = Some n ->
  stylesApplied s' = stylesApplied s ->
  os_zoom (originalStyles s') = os_zoom (originalStyles s) ->
  idle_at v s n i h o -> idle_at v s' n i h o.
Proof.
  intros Hd Hw Hh Hc Hsa Hos [H1 H2 H3 H4 H5 H6 H7 H8].
  split.
  - revert H1. apply mounted_ext; auto; rewrite Hd; auto. lia.
  - now rewrite Hh.
  - exact H3.
  - revert H4. apply ready_ext; [exact Hw | now rewrite Hd].
  - unfold style_nodes in *. now rewrite Hd.
  - unfold marked in *. now rewrite Hd.
  - now rewrite Hsa.
  - now rewrite Hos.
Qed.

Lemma applied_at_ext v (s s' : State) n i h o :
  document s' = document s -> window s' = window s -> heap s' = heap s ->
  domCache s' !! "map" = domCache s !! "map" \/ domCache s' !! "map" = Some n ->
  stylesApplied s' = stylesApplied s ->
  os_zoom (originalStyles s') = os_zoom (originalStyles s) ->
  applied_at v s n i h o -> applied_at v s' n i h o.
Proof.
  intros Hd Hw Hh Hc Hsa Hos [H1 H2 H3 H4 H5 H6 H7].
  split.
  - revert H1. apply mounted_ext; auto; rewrite Hd; auto. lia.
  - now rewrite Hh.
  - exact H3.
  - now rewrite Hd.
  - unfold style_nodes in *. now rewrite Hd.
  - now rewrite Hsa.
  - now rewrite Hos.
Qed.

Lemma apply_from_idle v (s : State) n i h o :
  idle_at v s n i h o ->
  (applyOf v s).1 = Normal tt
  /\ applied_at v (applyOf v s).2 n i h o
  /\ frames (applyOf v s).2 = frames s ++ [PostPaint]
  /\ config (applyOf v s).2 = config s.
Proof.
  intros [Hm Hh Ho Hr Hn Hmk Hsa Hos].
  assert (Hs : single s) by (unfold single; rewrite Hn; lia).
  destruct (apply_mounted v s n i h Hsa Hm Hr) as (Hnormal & _).
  destruct (apply_fresh v s n i h Hsa Hs Hm Hr)
    as (Hm1 & Hsa1 & Hf1 & Hh1 & Ho1 & Hn1 & Hb1).
  split; [exact Hnormal|]. split; [| split; [exact Hf1 | apply keeps_config_apply]].
  split; auto.
  - now rewrite Hh1.
  - now rewrite Ho1.
Qed.

Lemma initApply_run (apply : M unit) (s : State) n i h :
  mounted s n i h ->
  run_task (initApply apply) s
  = if fullMapHeight (config s)
    then run_task apply (with_domCache (<["map" := n]>) s)
    else s.
Proof.
  intros Hm. unfold run_task, initApply. rewrite bind_run. cbn [get fst snd].
  destruct (fullMapHeight (config s)); [| reflexivity].
  now rewrite bind_run, (mounted_getCachedElement Hm).
Qed.

Lemma postPaint_from_applied v (s : State) n i h o :
  applied_at v s n i h o ->
  let s' := (postPaint (constantsOf v) s).2 in
  fitted_at v s' n i h o
  /\ stylesApplied s' = true /\ style_nodes s' = 1%nat
  /\ config s' = config s /\ frames s' = frames s
  /\ storageReads s' = storageReads s.
Proof.
  intros [Hm Hh Ho Hb Hn Hsa Hos]. cbn zeta.
  assert (Hc : captured s = false) by (unfold captured; now rewrite Hos).
  destruct (postPaint_fits (constantsOf v) s n i h o Hm Hh Ho) as (Hheap & Hsnap).
  rewrite Hc in Hheap.
  pose proof (keeps_overlay_postPaint (constantsOf v) s) as Hov.
  unfold overlay in Hov. injection Hov as Hn' Hmk' Hsa'.
  split; [split|].
  - now apply mounted_postPaint.
  - exact Hheap.
  - unfold snap, snapshot_is. rewrite Hsnap. unfold snapshot. rewrite Hos.
    split; reflexivity.
  - intros Hv. specialize (Hb Hv).
    assert (H : keeps (fun s => b_classList <$> document_body (document s))
                  (postPaint (constantsOf v))).
    { assert (Hupd : forall m st s0,
                b_classList <$> document_body
                  (document (with_document (dom_update m (assign_style st)) s0))
                = b_classList <$> document_body (document s0))
        by (intros; apply body_update).
      solve_keeps; apply Hupd. }
    specialize (H s). cbn beta in H.
    destruct (document_body (document (postPaint (constantsOf v) s).2));
      [eauto|].
    destruct Hb as [b Hb]. rewrite Hb in H. discriminate.
  - split; [now rewrite Hsa'|]. split; [now rewrite Hn'|].
    split; [apply keeps_config_postPaint|].
    split.
    + assert (H : keeps frames (postPaint (constantsOf v))) by solve_keeps.
      apply H.
    + assert (H : keeps storageReads (postPaint (constantsOf v))) by solve_keeps.
      apply H.
Qed.

Lemma frame_step v (s : State) :
  stepOf v s EFrame
  = fold_left (fun s' cb =>
                 run_task (frameCallback (constantsOf v) (applyOf v) cb) s')
      (frames s) (with_frames (fun _ => []) s).
Proof. reflexivity. Qed.

Lemma storage_step v (s : State) r k :
  storageReads s = S k ->
  stepOf v s (EStorage r)
  = run_task (preferencesLoaded (applyOf v) (removeOf v) r)
      (with_storageReads pred s).
Proof. intros H. unfold stepOf, step. now rewrite H. Qed.

Lemma enabled_answer (apply remove : M unit) r (s : State) :
  r <> StorageItems (Some false) ->
  run_task (preferencesLoaded apply remove r) s
  = run_task apply
      (match r with
       | StorageItems (Some _) => with_config {| fullMapHeight := true |} s
       | _ => s
       end).
Proof.
  intros Hr. unfold run_task, preferencesLoaded.
  destruct r as [|[[|]|]]; try congruence; try reflexivity.
Qed.

Lemma fitted_at_ext v (s s' : State) n i h o :
  document s' = document s -> window s' = window s -> heap s' = heap s ->
  domCache s' !! "map" = domCache s !! "map" \/ domCache s' !! "map" = Some n ->
  originalStyles s' = originalStyles s ->
  fitted_at v s n i h o -> fitted_at v s' n i h o.
Proof.
  intros Hd Hw Hh Hc Hos [H1 H2 H3 H4].
  split.
  - revert H1. apply mounted_ext; auto; rewrite Hd; auto. lia.
  - now rewrite Hh.
  - unfold snap in *. now rewrite Hos.
  - now rewrite Hd.
Qed.

(** The last frame: the styles are applied and the queue holds the
    post-paint callback, after the callback of [init] or alone. *)
Lemma frame_settles v (s : State) n i h o :
  applied_at v s n i h o -> fullMapHeight (config s) = true ->
  frames s = [PostPaint] \/ frames s = [InitApply; PostPaint] ->
  settled v (stepOf v s EFrame) n i h o
  /\ storageReads (stepOf v s EFrame) = storageReads s.
Proof.
  intros Ha Hc Hf. rewrite frame_step.
  set (s0 := with_frames (fun _ => []) s).
  assert (Ha0 : applied_at v s0 n i h o)
    by (revert Ha; apply applied_at_ext; auto).
  assert (Hpost : forall s1, applied_at v s1 n i h o -> frames s1 = [] ->
            fullMapHeight (config s1) = true ->
            settled v (run_task (postPaint (constantsOf v)) s1) n i h o
            /\ storageReads (run_task (postPaint (constantsOf v)) s1)
               = storageReads s1).
  { intros s1 Ha1 Hf1 Hc1.
    destruct (postPaint_from_applied v s1 n i h o Ha1)
      as (H1 & H2 & H3 & H4 & H5 & H6).
    unfold run_task. split; [split| exact H6].
    - exact H1.
    - exact H2.
    - exact H3.
    - now rewrite H5.
    - now rewrite H4. }
  change (storageReads s) with (storageReads s0).
  destruct Hf as [-> | ->]; cbn [fold_left frameCallback].
  - apply Hpost; auto.
  - rewrite (initApply_run (applyOf v) s0 n i h (applied_mounted _ _ _ _ _ _ Ha0)).
    change (fullMapHeight (config s0)) with (fullMapHeight (config s)).
    rewrite Hc.
    set (s1 := with_domCache (<["map" := n]>) s0).
    assert (Ha1 : applied_at v s1 n i h o).
    { revert Ha0. apply applied_at_ext; auto; right; apply lookup_insert_eq. }
    assert (Hnoop : run_task (applyOf v) s1 = s1).
    { unfold run_task.
      now rewrite (apply_short_circuit v s1 (applied_flag _ _ _ _ _ _ Ha1)). }
    rewrite Hnoop. change (storageReads s0) with (storageReads s1).
    apply Hpost; auto.
Qed.

Lemma init_idle v d w hp ext n i h o :
  let s0 := loaded d w hp ext false in
  idle_at v s0 n i h o -> is_Some (document_body d) ->
  let s1 := stepOf v s0 EInit in
  idle_at v s1 n i h o
  /\ frames s1 = (if onPage v w then [InitApply] else [])
  /\ storageReads s1 = 1%nat
  /\ fullMapHeight (config s1) = true.
Proof.
  cbn zeta. intros Hi Hb.
  rewrite (init_run v d w hp ext n i h (idle_mounted _ _ _ _ _ _ Hi) Hb).
  split; [| split; [| split]]; try reflexivity.
  revert Hi. apply idle_at_ext; auto; right; apply lookup_insert_eq.
Qed.

Lemma keeps_storageReads_apply v : keeps storageReads (applyOf v).
Proof. destruct v; solve_keeps. Qed.

Lemma settled_frame v (s : State) n i h o :
  settled v s n i h o -> settled v (stepOf v s EFrame) n i h o.
Proof.
  intros [Hfit Hsa Hn Hf Hc]. rewrite frame_step, Hf. cbn [fold_left].
  split; auto. revert Hfit. apply fitted_at_ext; auto.
Qed.

Lemma answered_idle v (s : State) r n i h o :
  idle_at v s n i h o ->
  idle_at v (match r with
             | StorageItems (Some _) =>
                 with_config {| fullMapHeight := true |}
                   (with_storageReads pred s)
             | _ => with_storageReads pred s
             end) n i h o.
Proof.
  intros Hi. destruct r as [|[b|]]; revert Hi; apply idle_at_ext; auto.
Qed.

Lemma answered_applied v (s : State) r n i h o :
  applied_at v s n i h o ->
  applied_at v (match r with
                | StorageItems (Some _) =>
                    with_config {| fullMapHeight := true |}
                      (with_storageReads pred s)
                | _ => with_storageReads pred s
                end) n i h o.
Proof.
  intros Hi. destruct r as [|[b|]]; revert Hi; apply applied_at_ext; auto.
Qed.

Lemma answer_first_settles v d w hp ext n i h o r :
  let s0 := loaded d w hp ext false in
  idle_at v s0 n i h o -> is_Some (document_body d) ->
  r <> StorageItems (Some false) ->
  settled v (runOf v s0 (answerFirst r)) n i h o.
Proof.
  cbn zeta. intros Hi Hb Hr.
  change (runOf v (loaded d w hp ext false) (answerFirst r))
    with (stepOf v (stepOf v (stepOf v (stepOf v (loaded d w hp ext false) EInit)
                                (EStorage r)) EFrame) EFrame).
  destruct (init_idle v d w hp ext n i h o Hi Hb) as (Hi1 & Hf1 & Hr1 & Hc1).
  set (s1 := stepOf v (loaded d w hp ext false) EInit) in *.
  rewrite (storage_step v s1 r 0 Hr1), enabled_answer by exact Hr.
  set (s1' := match r with
              | StorageItems (Some _) => _
              | _ => _
              end).
  assert (Hi1' : idle_at v s1' n i h o) by (apply answered_idle; exact Hi1).
  assert (Hf1' : frames s1' = frames s1) by (subst s1'; now destruct r as [|[b|]]).
  assert (Hc1' : fullMapHeight (config s1') = true)
    by (subst s1'; destruct r as [|[b|]]; auto).
  destruct (apply_from_idle v s1' n i h o Hi1') as (_ & Ha2 & Hf2 & Hc2).
  unfold run_task at 1. set (s2 := (applyOf v s1').2) in *.
  apply settled_frame.
  apply (frame_settles v s2 n i h o Ha2).
  - now rewrite Hc2.
  - rewrite Hf2, Hf1', Hf1. destruct (onPage v w); auto.
Qed.

Lemma frame_first_settles v d w hp ext n i h o r :
  let s0 := loaded d w hp ext false in
  idle_at v s0 n i h o -> is_Some (document_body d) ->
  r <> StorageItems (Some false) ->
  settled v (runOf v s0 (frameFirst r)) n i h o.
Proof.
  cbn zeta. intros Hi Hb Hr.
  change (runOf v (loaded d w hp ext false) (frameFirst r))
    with (stepOf v (stepOf v (stepOf v (stepOf v (loaded d w hp ext false) EInit)
                                EFrame) (EStorage r)) EFrame).
  destruct (init_idle v d w hp ext n i h o Hi Hb) as (Hi1 & Hf1 & Hr1 & Hc1).
  set (s1 := stepOf v (loaded d w hp ext false) EInit) in *.
  set (s1' := with_frames (fun _ => []) s1).
  assert (Hi1' : idle_at v s1' n i h o) by (revert Hi1; apply idle_at_ext; auto).
  assert (Hpoised :
            let s3 := stepOf v (stepOf v s1 EFrame) (EStorage r) in
            applied_at v s3 n i h o /\ fullMapHeight (config s3) = true
            /\ frames s3 = [PostPaint]).
  { cbn zeta. rewrite (frame_step v s1), Hf1. fold s1'.
    destruct (onPage v w); cbn [fold_left frameCallback].
    - rewrite (initApply_run (applyOf v) s1' n i h (idle_mounted _ _ _ _ _ _ Hi1')).
      change (fullMapHeight (config s1')) with (fullMapHeight (config s1)).
      rewrite Hc1. unfold run_task.
      set (s1c := with_domCache (<["map" := n]>) s1').
      assert (Hi1c : idle_at v s1c n i h o).
      { revert Hi1'. apply idle_at_ext; auto; right; apply lookup_insert_eq. }
      destruct (apply_from_idle v s1c n i h o Hi1c) as (_ & Ha2 & Hf2 & Hc2).
      pose proof (keeps_storageReads_apply v s1c) as Hr2.
      set (s2 := (applyOf v s1c).2) in *.
      rewrite (storage_step v s2 r 0) by (rewrite Hr2; exact Hr1).
      rewrite enabled_answer by exact Hr.
      set (s2' := match r with
                  | StorageItems (Some _) => _
                  | _ => _
                  end).
      assert (Ha2' : applied_at v s2' n i h o) by (apply answered_applied; exact Ha2).
      unfold run_task.
      rewrite (apply_short_circuit v s2' (applied_flag _ _ _ _ _ _ Ha2')).
      cbn [snd]. split; [exact Ha2'|].
      assert (Hc2' : fullMapHeight (config s2) = true)
        by exact (eq_trans (f_equal fullMapHeight Hc2) Hc1).
      subst s2'. destruct r as [|[b|]];
        (split; [first [exact Hc2' | reflexivity] | exact Hf2]).
    - rewrite (storage_step v s1' r 0) by exact Hr1.
      rewrite enabled_answer by exact Hr.
      set (s2' := match r with
                  | StorageItems (Some _) => _
                  | _ => _
                  end).
      assert (Hi2' : idle_at v s2' n i h o) by (apply answered_idle; exact Hi1').
      destruct (apply_from_idle v s2' n i h o Hi2') as (_ & Ha3 & Hf3 & Hc3).
      unfold run_task. split; [exact Ha3|]. split.
      + rewrite Hc3. subst s2'.
        destruct r as [|[b|]]; first [exact Hc1 | reflexivity].
      + rewrite Hf3. subst s2'. now destruct r as [|[b|]]. }
  cbn zeta in Hpoised. destruct Hpoised as (Ha3 & Hc3 & Hf3).
  apply (frame_settles v _ n i h o Ha3 Hc3). left. exact Hf3.
Qed.

Lemma fresh_idle v d w hp ext n i h o :
  let s0 := loaded d w hp ext false in
  mounted s0 n i h -> hp !! h = Some o -> healthy o -> ready v s0 ->
  List.filter (has_id reserved) (all_elements d) = [] -> marked s0 = false ->
  idle_at v s0 n i h o.
Proof.
  cbn zeta. intros Hm Hh Ho Hr Hd Hmk. split; auto.
  unfold style_nodes. cbn. now rewrite Hd.
Qed.

Lemma settled_facts v (s : State) n i h o :
  settled v s n i h o ->
  stylesApplied s = true /\ style_nodes s = 1%nat /\ frames s = []
  /\ fullMapHeight (config s) = true
  /\ snap (lm_zoom o) (Some (lm_center o)) s
  /\ exists o',
       heap s !! h = Some o'
       /\ lm_maxBounds o' = Some fullEarth
       /\ lm_minZoom o' = Some 2%Q
       /\ lm_invalidations o' = S (lm_invalidations o)
       /\ ((1 < lm_zoom o)%Q -> lm_zoom o' = (lm_zoom o - 0.5)%Q).
Proof.
  intros [[Hm Hh Hsnap Hb] Hsa Hn Hf Hc].
  split; [exact Hsa|]. split; [exact Hn|]. split; [exact Hf|].
  split; [exact Hc|]. split; [exact Hsnap|].
  eexists. split; [exact Hh|].
  destruct (fitted_bounds (constantsOf v) (probed (bounded o))) as (Hbd & Hmz & _).
  rewrite Hbd, Hmz, fitted_zoom.
  split; [reflexivity|]. split; [reflexivity|]. split.
  - unfold fitted. destruct (gt_number _ _); reflexivity.
  - intros Hgt. change (lm_zoom (probed (bounded o))) with (lm_zoom o).
    replace (MIN_ZOOM_LEVEL (constantsOf v)) with 1%Q by (destruct v; reflexivity).
    replace (ZOOM_ADJUSTMENT (constantsOf v)) with 0.5%Q by (destruct v; reflexivity).
    now rewrite (proj2 (gt_number_spec _ _) Hgt).
Qed.

(** X16: the start of the script applies the overlay once, whichever
    callback comes first.  On a page with a mounted map, a healthy instance
    and a body (in the second variant: the listing page), with no overlay
    yet, [init] is followed by the answer of the storage and by animation
    frames.  Unless the stored value is [false], both orders (answer before
    the first frame, first frame before the answer) end in the same
    situation: the styles are applied, there is one style node, the
    post-paint callback has run exactly once (one [invalidateSize], the zoom
    one step lower when it was above 1, full-earth bounds, minimal zoom 2),
    the snapshot holds the zoom and the centre from before, and no callback
    is left in the queue. *)
Theorem startup_applies_once (v : variant) (d : Document) (w : Window)
    (hp : gmap handle LeafletMap) (ext : string) n i h o
    (r : StorageResult) (order : list event) :
  let s0 := loaded d w hp ext false in
  mounted s0 n i h -> hp !! h = Some o -> healthy o ->
  is_Some (document_body d) -> ready v s0 ->
  List.filter (has_id reserved) (all_elements d) = [] -> marked s0 = false ->
  r <> StorageItems (Some false) ->
  order = answerFirst r \/ order = frameFirst r ->
  let s := runOf v s0 order in
  stylesApplied s = true /\ style_nodes s = 1%nat /\ frames s = []
  /\ fullMapHeight (config s) = true
  /\ snap (lm_zoom o) (Some (lm_center o)) s
  /\ exists o',
       heap s !! h = Some o'
       /\ lm_maxBounds o' = Some fullEarth
       /\ lm_minZoom o' = Some 2%Q
       /\ lm_invalidations o' = S (lm_invalidations o)
       /\ ((1 < lm_zoom o)%Q -> lm_zoom o' = (lm_zoom o - 0.5)%Q).
Proof.
  cbn zeta. intros Hm Hh Ho Hb Hr Hd Hmk Hans Horder.
  pose proof (fresh_idle v d w hp ext n i h o Hm Hh Ho Hr Hd Hmk) as Hi.
  apply (settled_facts v _ n i h o).
  destruct Horder as [-> | ->].
  - now apply answer_first_settles.
  - now apply frame_first_settles.
Qed.

Lemma startup_applies_once_witness :
  let s := runOf Part000Js (Sample.session 5)
             (frameFirst (StorageItems None)) in
  stylesApplied s = true /\ style_nodes s = 1%nat
  /\ exists o', heap s !! 1%positive = Some o'
                /\ lm_zoom o' = (lm_zoom (Sample.leaflet 5) - 0.5)%Q.
Proof.
  destruct (startup_applies_once Part000Js (Sample.page [Sample.mapElement])
              Sample.listing {[ 1%positive := Sample.leaflet 5 ]}
              Sample.extension 1%positive (Some 7%positive) 1%positive
              (Sample.leaflet 5) (StorageItems None)
              (frameFirst (StorageItems None)))
    as (H1 & H2 & _ & _ & _ & o' & Hh & _ & _ & _ & Hz).
  - exact (sample_mounted 5).
  - reflexivity.
  - exact (sample_healthy 5).
  - eexists. reflexivity.
  - split; [left; reflexivity | eexists; reflexivity].
  - reflexivity.
  - reflexivity.
  - discriminate.
  - right. reflexivity.
  - split; [exact H1|]. split; [exact H2|]. exists o'.
    split; [exact Hh|]. apply Hz. reflexivity.
Defined.

Lemma disabled_answer (apply remove : M unit) (s : State) :
  run_task (preferencesLoaded apply remove (StorageItems (Some false))) s
  = run_task remove (with_config {| fullMapHeight := false |} s).
Proof. reflexivity. Qed.

Lemma idle_remove v (s : State) n i h o :
  idle_at v s n i h o -> removeOf v s = (Normal tt, s).
Proof.
  intros [Hm Hh Ho Hr Hn Hmk Hsa Hos]. apply remove_idle; auto.
  intros ->. split; [exact (proj2 Hr) | exact Hmk].
Qed.

Lemma applied_remove v (s : State) n i h o :
  applied_at v s n i h o ->
  let s' := (removeOf v s).2 in
  mounted s' n i h /\ heap s' !! h = Some o
  /\ stylesApplied s' = false /\ style_nodes s' = 0%nat
  /\ os_zoom (originalStyles s') = None
  /\ frames s' = frames s /\ config s' = config s.
Proof.
  intros [Hm Hh Ho Hb Hn Hsa Hos]. cbn zeta.
  assert (Hs : single s) by (unfold single; rewrite Hn; lia).
  destruct (remove_clears v s Hs Hb) as (Hn' & Hsa' & _ & Hidle).
  destruct (Hidle Hos) as [_ Hh'].
  split; [now apply mounted_remove|].
  split; [now rewrite Hh'|]. split; [exact Hsa'|]. split; [exact Hn'|].
  split; [now rewrite keeps_originalStyles_remove|].
  split; [apply keeps_frames_remove | apply keeps_config_remove].
Qed.

(** X17: with the stored preference [false], the order of the callbacks
    decides what happens to the map.  On the page of X16, where the page
    test of [init] holds: when the answer of the storage arrives before the
    first animation frame, nothing is applied and no map method is called;
    when the first frame comes before the answer, the callback of [init]
    applies the styles, the answer removes them again, and the post-paint
    callback that is still queued then fits the viewport: the session ends
    with the styles not applied and the extension disabled, but with the
    bounds restricted, the snapshot taken and a zoom above 1 lowered by one
    step. *)
Theorem startup_disabled_depends_on_order (v : variant) (d : Document)
    (w : Window) (hp : gmap handle LeafletMap) (ext : string) n i h o :
  let s0 := loaded d w hp ext false in
  mounted s0 n i h -> hp !! h = Some o -> healthy o ->
  is_Some (document_body d) -> ready v s0 ->
  List.filter (has_id reserved) (all_elements d) = [] -> marked s0 = false ->
  onPage v w = true ->
  let sA := runOf v s0 (answerFirst (StorageItems (Some false))) in
  let sB := runOf v s0 (frameFirst (StorageItems (Some false))) in
  (stylesApplied sA = false /\ fullMapHeight (config sA) = false
   /\ style_nodes sA = 0%nat /\ heap sA = hp
   /\ os_zoom (originalStyles sA) = None)
  /\ (stylesApplied sB = false /\ fullMapHeight (config sB) = false
      /\ style_nodes sB = 0%nat
      /\ snap (lm_zoom o) (Some (lm_center o)) sB
      /\ exists o',
           heap sB !! h = Some o'
           /\ lm_maxBounds o' = Some fullEarth
           /\ lm_minZoom o' = Some 2%Q
           /\ ((1 < lm_zoom o)%Q -> lm_zoom o' = (lm_zoom o - 0.5)%Q)).
Proof.
  cbn zeta. intros Hm Hh Ho Hb Hr Hd Hmk Hpage.
  pose proof (fresh_idle v d w hp ext n i h o Hm Hh Ho Hr Hd Hmk) as Hi.
  destruct (init_idle v d w hp ext n i h o Hi Hb) as (Hi1 & Hf1 & Hr1 & Hc1).
  rewrite Hpage in Hf1.
  set (s1 := stepOf v (loaded d w hp ext false) EInit) in *.
  split.
  - change (runOf v (loaded d w hp ext false)
              (answerFirst (StorageItems (Some false))))
      with (stepOf v (stepOf v (stepOf v s1 (EStorage (StorageItems (Some false))))
                        EFrame) EFrame).
    rewrite (storage_step v s1 _ 0 Hr1), disabled_answer.
    set (s1' := with_config {| fullMapHeight := false |}
                  (with_storageReads pred s1)).
    assert (Hi1' : idle_at v s1' n i h o) by (revert Hi1; apply idle_at_ext; auto).
    unfold run_task. rewrite (idle_remove v s1' n i h o Hi1'). cbn [snd].
    rewrite (frame_step v s1').
    change (frames s1') with (frames s1). rewrite Hf1.
    cbn [fold_left frameCallback].
    set (s2 := with_frames (fun _ => []) s1').
    assert (Hi2 : idle_at v s2 n i h o) by (revert Hi1'; apply idle_at_ext; auto).
    rewrite (initApply_run (applyOf v) s2 n i h (idle_mounted _ _ _ _ _ _ Hi2)).
    change (fullMapHeight (config s2)) with false. cbn iota.
    rewrite (frame_step v s2). change (frames s2) with (@nil FrameCallback).
    cbn [fold_left].
    set (s3 := with_frames (fun _ => []) s2).
    assert (Hi3 : idle_at v s3 n i h o) by (revert Hi2; apply idle_at_ext; auto).
    destruct Hi3 as [_ _ _ _ Hn3 _ Hsa3 Hos3].
    split; [exact Hsa3|]. split; [reflexivity|]. split; [exact Hn3|].
    split; [| exact Hos3].
    subst s3 s2 s1' s1. rewrite (init_run v d w hp ext n i h Hm Hb). reflexivity.
  - change (runOf v (loaded d w hp ext false)
              (frameFirst (StorageItems (Some false))))
      with (stepOf v (stepOf v (stepOf v s1 EFrame)
                        (EStorage (StorageItems (Some false)))) EFrame).
    rewrite (frame_step v s1), Hf1. cbn [fold_left frameCallback].
    set (s1' := with_frames (fun _ => []) s1).
    assert (Hi1' : idle_at v s1' n i h o) by (revert Hi1; apply idle_at_ext; auto).
    rewrite (initApply_run (applyOf v) s1' n i h (idle_mounted _ _ _ _ _ _ Hi1')).
    change (fullMapHeight (config s1')) with (fullMapHeight (config s1)).
    rewrite Hc1. unfold run_task.
    set (s1c := with_domCache (<["map" := n]>) s1').
    assert (Hi1c : idle_at v s1c n i h o)
      by (revert Hi1'; apply idle_at_ext; auto; right; apply lookup_insert_eq).
    destruct (apply_from_idle v s1c n i h o Hi1c) as (_ & Ha2 & Hf2 & Hc2).
    pose proof (keeps_storageReads_apply v s1c) as Hr2.
    set (s2 := (applyOf v s1c).2) in *.
    rewrite (storage_step v s2 _ 0) by (rewrite Hr2; exact Hr1).
    rewrite disabled_answer. unfold run_task.
    set (s2' := with_config {| fullMapHeight := false |}
                  (with_storageReads pred s2)).
    assert (Ha2' : applied_at v s2' n i h o)
      by (revert Ha2; apply applied_at_ext; auto).
    destruct (applied_remove v s2' n i h o Ha2')
      as (Hm3 & Hh3 & Hsa3 & Hn3 & Hos3 & Hf3 & Hc3).
    set (s3 := (removeOf v s2').2) in *.
    assert (Hf3' : frames s3 = [PostPaint]) by (rewrite Hf3; exact Hf2).
    assert (Hcap3 : captured s3 = false) by (unfold captured; now rewrite Hos3).
    destruct (frame_fits v s3 n i h o Hf3' Hcap3 Hm3 Hh3 Ho)
      as (_ & Hh4 & Hsnap4 & Hov4 & _).
    change (perform v s3 Frame) with (stepOf v s3 EFrame) in *.
    assert (Hsa4 : stylesApplied (stepOf v s3 EFrame) = stylesApplied s3)
      by exact (f_equal snd Hov4).
    assert (Hn4 : style_nodes (stepOf v s3 EFrame) = style_nodes s3)
      by exact (f_equal (fun x => fst (fst x)) Hov4).
    split; [now rewrite Hsa4|]. split; [| split; [now rewrite Hn4|]].
    { rewrite frame_step, Hf3'. cbn [fold_left frameCallback].
      unfold run_task. rewrite keeps_config_postPaint.
      change (config (with_frames (fun _ => []) s3)) with (config s3).
      now rewrite Hc3. }
    split; [exact Hsnap4|].
    eexists. split; [exact Hh4|].
    destruct (fitted_bounds (constantsOf v) (probed (bounded o))) as (Hbd & Hmz & _).
    rewrite Hbd, Hmz, fitted_zoom.
    split; [reflexivity|]. split; [reflexivity|].
    intros Hgt. change (lm_zoom (probed (bounded o))) with (lm_zoom o).
    replace (MIN_ZOOM_LEVEL (constantsOf v)) with 1%Q by (destruct v; reflexivity).
    replace (ZOOM_ADJUSTMENT (constantsOf v)) with 0.5%Q by (destruct v; reflexivity).
    now rewrite (proj2 (gt_number_spec _ _) Hgt).
Qed.

Lemma startup_disabled_depends_on_order_witness :
  heap (runOf Part000Js (Sample.session 5)
          (answerFirst (StorageItems (Some false))))
  = {[ 1%positive := Sample.leaflet 5 ]}
  /\ exists o',
       heap (runOf Part000Js (Sample.session 5)
               (frameFirst (StorageItems (Some false)))) !! 1%positive
       = Some o'
       /\ lm_zoom o' = (lm_zoom (Sample.leaflet 5) - 0.5)%Q.
Proof.
  destruct (startup_disabled_depends_on_order Part000Js
              (Sample.page [Sample.mapElement]) Sample.listing
              {[ 1%positive := Sample.leaflet 5 ]} Sample.extension
              1%positive (Some 7%positive) 1%positive (Sample.leaflet 5))
    as ((_ & _ & _ & HA & _) & (_ & _ & _ & _ & o' & Hh & _ & _ & Hz)).
  - exact (sample_mounted 5).
  - reflexivity.
  - exact (sample_healthy 5).
  - eexists. reflexivity.
  - split; [left; reflexivity | eexists; reflexivity].
  - reflexivity.
  - reflexivity.
  - reflexivity.
  - split; [exact HA|]. exists o'. split; [exact Hh|]. apply Hz. reflexivity.
Defined.

(** ** [debounce] *)

Section DebounceFacts.

Context {Args : Type}.
Variable delay : nat.

#[local] Abbreviation Closure := (@Debounce.Closure Args).
#[local] Abbreviation event := (@Debounce.event Args).

Lemma slotted_call (c : Closure) slot args :
  slotted c slot ->
  slotted (Debounce.executedFunction delay args c)
    (Some (Debounce.now (Debounce.timers c) + delay, args))
  /\ Debounce.now (Debounce.timers (Debounce.executedFunction delay args c))
     = Debounce.now (Debounce.timers c)
  /\ Debounce.calls (Debounce.executedFunction delay args c) = Debounce.calls c.
Proof.
  intros Hs. unfold Debounce.executedFunction, Debounce.setTimeout. cbn.
  split; [| split; [| reflexivity]].
  - eexists. split; [reflexivity|].
    assert (Hempty : Debounce.pending
                       (Debounce.clearTimeout (Debounce.timer c)
                          (Debounce.timers c)) = ∅).
    { destruct slot as [x|]; cbn in Hs.
      - destruct Hs as (i & -> & Hp). cbn. rewrite Hp. apply delete_singleton_eq.
      - unfold Debounce.clearTimeout. destruct (Debounce.timer c); cbn;
          rewrite Hs; [apply delete_empty | reflexivity]. }
    rewrite Hempty.
    assert (Hnow : Debounce.now (Debounce.clearTimeout (Debounce.timer c)
                                   (Debounce.timers c))
                   = Debounce.now (Debounce.timers c))
      by (unfold Debounce.clearTimeout; destruct (Debounce.timer c); reflexivity).
    rewrite Hnow. apply insert_empty.
  - unfold Debounce.clearTimeout; destruct (Debounce.timer c); reflexivity.
Qed.

Lemma slotted_wait (c : Closure) slot ms :
  slotted c slot ->
  let clock := Debounce.now (Debounce.timers c) in
  let c' := Debounce.wait ms c in
  Debounce.now (Debounce.timers c') = clock + ms
  /\ match slot with
     | Some (deadline, args) =>
         if deadline <=? clock + ms
         then slotted c' None
              /\ Debounce.calls c' = Debounce.calls c ++ [(deadline, args)]
         else slotted c' slot /\ Debounce.calls c' = Debounce.calls c
     | None => slotted c' None /\ Debounce.calls c' = Debounce.calls c
     end.
Proof.
  intros Hs. cbn zeta. split; [reflexivity|].
  unfold Debounce.wait, Debounce.due.
  destruct slot as [[deadline args]|]; cbn in Hs.
  - destruct Hs as (i & Ht & Hp). rewrite Hp, map_to_list_singleton.
    cbn [List.filter snd fst].
    destruct (deadline <=? Debounce.now (Debounce.timers c) + ms); cbn.
    + split; [| reflexivity]. rewrite Hp. apply delete_singleton_eq.
    + split; [| reflexivity]. exists i. split; assumption.
  - rewrite Hs, map_to_list_empty. cbn. split; [exact Hs | reflexivity].
Qed.

Lemma run_trailing (events : list event) :
  forall (c : Closure) slot,
    slotted c slot ->
    Debounce.calls (Debounce.run delay c events)
    = Debounce.calls c
      ++ trailing delay (Debounce.now (Debounce.timers c)) slot events
    /\ exists slot', slotted (Debounce.run delay c events) slot'.
Proof.
  induction events as [|e rest IH]; intros c slot Hs.
  - cbn. rewrite List.app_nil_r. eauto.
  - change (Debounce.run delay c (e :: rest))
      with (Debounce.run delay (Debounce.step delay c e) rest).
    destruct e as [args | ms]; cbn [Debounce.step trailing].
    + destruct (slotted_call c slot args Hs) as (Hs' & Hnow & Hcalls).
      destruct (IH _ _ Hs') as [Hrun Hslot]. rewrite Hrun, Hnow, Hcalls. auto.
    + destruct (slotted_wait c slot ms Hs) as (Hnow & Hcase).
      destruct slot as [[deadline args]|].
      * destruct (deadline <=? Debounce.now (Debounce.timers c) + ms).
        -- destruct Hcase as [Hs' Hcalls].
           destruct (IH _ _ Hs') as [Hrun Hslot].
           rewrite Hrun, Hnow, Hcalls, <- List.app_assoc. auto.
        -- destruct Hcase as [Hs' Hcalls].
           destruct (IH _ _ Hs') as [Hrun Hslot].
           rewrite Hrun, Hnow, Hcalls. auto.
      * destruct Hcase as [Hs' Hcalls].
        destruct (IH _ _ Hs') as [Hrun Hslot].
        rewrite Hrun, Hnow, Hcalls. auto.
Qed.

(** X18: [debounce] is trailing-edge debouncing with one slot.  Whatever
    calls of the debounced function and whatever waits follow each other,
    the browser holds at most one of its callbacks at any time, the one the
    variable [timer] names; [func] is called with the arguments of a call
    exactly when [delay] has passed since that call without another call,
    at that moment, and in no other case. *)
Theorem debounce_is_trailing (ts : Debounce.Timers) (events : list event) :
  Debounce.pending ts = ∅ ->
  let c := Debounce.run delay (Debounce.debounce ts) events in
  Debounce.calls c = trailing delay (Debounce.now ts) None events
  /\ (forall i x, Debounce.pending (Debounce.timers c) !! i = Some x ->
        Debounce.timer c = Some i)
  /\ size (Debounce.pending (Debounce.timers c)) <= 1.
Proof.
  intros Hp. cbn zeta.
  destruct (run_trailing events (Debounce.debounce ts) None Hp)
    as [Hrun [slot Hslot]].
  split; [exact Hrun|].
  destruct slot as [x0|]; cbn in Hslot.
  - destruct Hslot as (i0 & Ht & Hpend). rewrite Hpend. split.
    + intros i x Hi. apply lookup_singleton_Some in Hi as [<- _]. exact Ht.
    + now rewrite map_size_singleton.
  - rewrite Hslot. split.
    + intros i x Hi. rewrite lookup_empty in Hi. discriminate.
    + rewrite map_size_empty. lia.
Qed.

Lemma last_cons_default {A} (l : list A) (a b : A) :
  List.last (b :: l) a = List.last l b.
Proof.
  revert a b. induction l as [|c l IH]; intros a b; [reflexivity|].
  change (List.last (b :: c :: l) a) with (List.last (c :: l) a).
  rewrite !IH. reflexivity.
Qed.

Lemma trailing_burst (rest : list (nat * Args)) (m : nat) :
  delay <= m ->
  Forall (fun x => x.1 < delay) rest ->
  forall clock args,
    trailing delay clock (Some (clock + delay, args))
      (burst rest ++ [Debounce.Wait m])
    = [(clock + sum_list rest.*1 + delay, List.last rest.*2 args)].
Proof.
  intros Hm. induction 1 as [|[gap b] rest Hgap Hrest IH]; intros clock args.
  - cbn. destruct (Nat.leb_spec (clock + delay) (clock + m)) as [_|Hlt]; [|lia].
    do 2 f_equal. lia.
  - cbn [burst app trailing fmap list_fmap fst snd sum_list sum_list_with].
    cbn in Hgap.
    destruct (Nat.leb_spec (clock + delay) (clock + gap)) as [Hle|_]; [lia|].
    rewrite IH, last_cons_default. do 2 f_equal. unfold id. lia.
Qed.

(** X19: calls of a debounced function that follow each other within less
    than [delay] are coalesced.  After a first call, further calls that each
    come less than [delay] after the one before, and then [delay] or more
    without a call, [func] has been called exactly once: with the arguments
    of the last call, [delay] after that call.  The earlier calls never
    reach [func]. *)
Theorem debounce_coalesces (ts : Debounce.Timers) (args : Args)
    (rest : list (nat * Args)) (m : nat) :
  Debounce.pending ts = ∅ ->
  Forall (fun x => x.1 < delay) rest ->
  delay <= m ->
  Debounce.calls
    (Debounce.run delay (Debounce.debounce ts)
       (Debounce.Call args :: burst rest ++ [Debounce.Wait m]))
  = [(Debounce.now ts + sum_list rest.*1 + delay, List.last rest.*2 args)].
Proof.
  intros Hp Hrest Hm.
  destruct (run_trailing
              (Debounce.Call args :: burst rest ++ [Debounce.Wait m])
              (Debounce.debounce ts) None Hp) as [-> _].
  cbn [Debounce.debounce Debounce.calls Debounce.timers app trailing].
  apply trailing_burst; assumption.
Qed.

End DebounceFacts.

Lemma debounce_is_trailing_witness :
  let ts := {| Debounce.now := 0; Debounce.next_timer := 1%positive;
               Debounce.pending := (∅ : gmap positive (nat * string)) |} in
  let events := [Debounce.Call "a"; Debounce.Wait 40; Debounce.Call "b";
                 Debounce.Wait 100; Debounce.Wait 500; Debounce.Call "c";
                 Debounce.Wait 99] in
  let c := Debounce.run 100 (Debounce.debounce ts) events in
  Debounce.calls c = [(140, "b")]
  /\ (forall i x, Debounce.pending (Debounce.timers c) !! i = Some x ->
        Debounce.timer c = Some i)
  /\ size (Debounce.pending (Debounce.timers c)) <= 1.
Proof.
  exact (debounce_is_trailing 100
           {| Debounce.now := 0; Debounce.next_timer := 1%positive;
              Debounce.pending := (∅ : gmap positive (nat * string)) |}
           [Debounce.Call "a"; Debounce.Wait 40; Debounce.Call "b";
            Debounce.Wait 100; Debounce.Wait 500; Debounce.Call "c";
            Debounce.Wait 99] eq_refl).
Defined.

Lemma debounce_coalesces_witness :
  Debounce.calls
    (Debounce.run 100
       (Debounce.debounce
          {| Debounce.now := 7; Debounce.next_timer := 1%positive;
             Debounce.pending := (∅ : gmap positive (nat * string)) |})
       (Debounce.Call "a"
        :: burst [(30, "b"); (99, "c")] ++ [Debounce.Wait 100]))
  = [(7 + sum_list [(30, "b"); (99, "c")].*1 + 100,
      List.last [(30, "b"); (99, "c")].*2 "a")].
Proof.
  apply (debounce_coalesces 100
           {| Debounce.now := 7; Debounce.next_timer := 1%positive;
              Debounce.pending := (∅ : gmap positive (nat * string)) |}
           "a" [(30, "b"); (99, "c")] 100 eq_refl).
  - repeat constructor; cbn; lia.
  - lia.
Defined.

(** ** The listener, as the popup reaches it *)

Lemma onMessage_getState_run (v : variant) (page : State) :
  runtime_id page <> "" ->
  onMessageOf v {| action := Some "getState"; enabled := false |}
    {| sender_id := Some (runtime_id page) |} page
  = (Normal true,
     with_outbox (fun o => o ++ [RespState (fullMapHeight (config page))]) page).
Proof.
  intros Hr. unfold onMessageOf, onMessage. rewrite bind_run.
  cbn [get fst snd].
  rewrite (sender_match page {| sender_id := Some (runtime_id page) |}
             eq_refl Hr).
  reflexivity.
Qed.

(** The response to a toggle request. *)
Lemma onMessage_toggle_run (v : variant) (page : State) (on : bool) :
  runtime_id page <> "" ->
  let operation := if on then applyOf v else removeOf v in
  let asked := with_config {| fullMapHeight := on |} page in
  let response := match (operation asked).1 with
                  | Normal _ => RespSuccess
                  | Thrown e => RespFailure (error_message e)
                  end in
  onMessageOf v {| action := Some "toggleFullMapHeight"; enabled := on |}
    {| sender_id := Some (runtime_id page) |} page
  = (Normal true, with_outbox (fun o => o ++ [response]) (operation asked).2).
Proof.
  intros Hr operation asked response.
  unfold onMessageOf, onMessage. rewrite bind_run. cbn [get fst snd].
  rewrite (sender_match page {| sender_id := Some (runtime_id page) |}
             eq_refl Hr).
  cbn [negb is_action action]. rewrite String.eqb_refl.
  unfold try_catch. rewrite !bind_run. cbn [modify get fst snd enabled].
  change (with_config {| fullMapHeight := on |} page) with asked.
  rewrite !bind_run. cbn [get fst snd].
  change (fullMapHeight (config asked)) with on.
  change (if on then applyOf v else removeOf v) with operation.
  rewrite bind_run. subst response.
  destruct (operation asked) as [[[]|e] st]; reflexivity.
Qed.

Lemma keeps_outbox_operation (v : variant) (on : bool) :
  keeps outbox (if on then applyOf v else removeOf v).
Proof. destruct on, v; solve_keeps. Qed.

(** ** The popup *)

(** One step of symbolic evaluation of a popup function. *)
Ltac popup_eval :=
  cbv beta iota zeta delta
    [mbind mret Popup.P_bind Popup.P_ret Popup.get Popup.modify Popup.throw
     Popup.try_catch Popup.assign Popup.console_error Popup.run_task
     Popup.detached Popup.setTimeout Popup.tabs_reload
     Popup.with_document Popup.with_dom Popup.with_clock Popup.with_storage
     Popup.with_scripts Popup.with_reloaded];
  cbn [Popup.document Popup.dom Popup.now Popup.timeouts Popup.storage
       Popup.storage_get_fault Popup.storage_set_fault Popup.tabs_fault
       Popup.send_fault Popup.tabs Popup.scripts Popup.reloaded
       Popup.toggle Popup.statusIndicator Popup.statusMessage
       Popup.reloadButton fst snd].

(** Keeps the right-hand side of the goal as it is stated. *)
Ltac expecting :=
  match goal with
  | |- _ = ?r => let expected := fresh "expected" in set (expected := r)
  end.

Lemma popup_bind_run {A B} (m : Popup.P A) (k : A -> Popup.P B)
    (s : Popup.State) :
  (m ≫= k) s = match m s with
               | (Normal a, s') => k a s'
               | (Thrown e, s') => (Thrown e, s')
               end.
Proof. reflexivity. Qed.

Ltac popup_binds :=
  repeat (rewrite popup_bind_run;
          cbn [Popup.get Popup.console_error mret Popup.P_ret]).

Lemma popup_try_catch_run {A} (body : Popup.P A)
    (handler : JsError -> Popup.P A) (s : Popup.State) :
  Popup.try_catch body handler s
  = match body s with
    | (Normal a, s') => (Normal a, s')
    | (Thrown e, s') => handler e s'
    end.
Proof. reflexivity. Qed.

Lemma popup_state_eta (s : Popup.State) :
  {| Popup.document := Popup.document s; Popup.dom := Popup.dom s;
     Popup.now := Popup.now s; Popup.timeouts := Popup.timeouts s;
     Popup.storage := Popup.storage s;
     Popup.storage_get_fault := Popup.storage_get_fault s;
     Popup.storage_set_fault := Popup.storage_set_fault s;
     Popup.tabs_fault := Popup.tabs_fault s;
     Popup.send_fault := Popup.send_fault s; Popup.tabs := Popup.tabs s;
     Popup.scripts := Popup.scripts s; Popup.reloaded := Popup.reloaded s |}
  = s.
Proof. now destruct s. Qed.

Lemma getActiveTab_run (s : Popup.State) (tab : Popup.Tab) :
  active_tab s tab -> Popup.getActiveTab s = (Normal tab, s).
Proof.
  intros (Hf & others & Ht). unfold Popup.getActiveTab. popup_eval.
  now rewrite Hf, Ht.
Qed.

Lemma getActiveTab_fails (s : Popup.State) :
  no_active_tab s -> exists e, Popup.getActiveTab s = (Thrown e, s).
Proof.
  unfold Popup.getActiveTab. popup_eval.
  intros [Hf | [Ht | Ht]].
  - destruct (Popup.tabs_fault s) as [e|]; [eauto | congruence].
  - destruct (Popup.tabs_fault s) as [e|]; [eauto |]. rewrite Ht. eauto.
  - destruct (Popup.tabs_fault s) as [e|]; [eauto |]. rewrite Ht. eauto.
Qed.

(** [updateStatus] and [showStatusMessage] never throw, and write to the
    document only. *)
Lemma updateStatus_run (active : bool) (s : Popup.State) :
  Popup.updateStatus active s
  = (Normal tt,
     match Popup.statusIndicator (Popup.dom s) with
     | Some i => Popup.with_document (alter (status active) i) s
     | None => s
     end).
Proof.
  unfold Popup.updateStatus. popup_eval.
  destruct (Popup.statusIndicator (Popup.dom s)) as [i|]; popup_eval;
    [| reflexivity].
  now rewrite alter_alter_eq.
Qed.

Lemma showStatusMessage_run (text : string) (s : Popup.State) :
  Popup.showStatusMessage text s
  = (Normal tt,
     match Popup.statusMessage (Popup.dom s) with
     | Some m =>
         Popup.with_clock (Popup.now s)
           (Popup.timeouts s
              ++ [Popup.now s
                  + Popup.STATUS_MESSAGE_DURATION Popup.CONSTANTS])
           (Popup.with_document (alter (message text) m) s)
     | None => s
     end).
Proof.
  unfold Popup.showStatusMessage. popup_eval.
  destruct (Popup.statusMessage (Popup.dom s)) as [m|]; popup_eval;
    [| reflexivity].
  now rewrite alter_alter_eq.
Qed.

Lemma sendMessageToTab_getState (s : Popup.State) (tabId : nat) (v : variant)
    (page : State) :
  listening s tabId v page ->
  let value := fullMapHeight (config page) in
  Popup.sendMessageToTab tabId {| action := Some "getState"; enabled := false |} s
  = (Normal (Some (RespState value)),
     Popup.with_scripts
       <[tabId := (v, with_outbox (fun o => o ++ [RespState value]) page)]> s).
Proof.
  intros (Hf & Hs & Hr) value. expecting.
  unfold Popup.sendMessageToTab. popup_eval.
  rewrite Hf, Hs. popup_eval. rewrite (onMessage_getState_run v page Hr).
  cbn [snd with_outbox outbox].
  now rewrite list_lookup_middle.
Qed.

Lemma sendMessageToTab_toggle (s : Popup.State) (tabId : nat) (v : variant)
    (page : State) (on : bool) :
  listening s tabId v page ->
  let operation := if on then applyOf v else removeOf v in
  let asked := with_config {| fullMapHeight := on |} page in
  let response := match (operation asked).1 with
                  | Normal _ => RespSuccess
                  | Thrown e => RespFailure (error_message e)
                  end in
  Popup.sendMessageToTab tabId
    {| action := Some "toggleFullMapHeight"; enabled := on |} s
  = (Normal (Some response),
     Popup.with_scripts
       <[tabId := (v, with_outbox (fun o => o ++ [response])
                        (operation asked).2)]> s).
Proof.
  intros (Hf & Hs & Hr) operation asked response. expecting.
  unfold Popup.sendMessageToTab. popup_eval.
  rewrite Hf, Hs. popup_eval. rewrite (onMessage_toggle_run v page on Hr).
  cbn [snd with_outbox outbox].
  fold operation asked response.
  assert (Hout : outbox (operation asked).2 = outbox page)
    by (subst operation; rewrite keeps_outbox_operation; reflexivity).
  rewrite Hout. now rewrite list_lookup_middle.
Qed.

Lemma sendMessageToTab_unreachable (s : Popup.State) (tabId : nat)
    (request : Message) :
  unreachable s tabId ->
  exists e, Popup.sendMessageToTab tabId request s = (Thrown e, s).
Proof.
  unfold Popup.sendMessageToTab. popup_eval. intros [Hf | Hs].
  - destruct (Popup.send_fault s) as [e|]; [eauto | congruence].
  - destruct (Popup.send_fault s) as [e|]; [eauto |].
    destruct (Popup.scripts s !! tabId) as [[v page]|]; [discriminate | eauto].
Qed.

(** *** What the functions of the popup leave as it is *)

Lemma pk_ret {A B} (proj : Popup.State -> B) (a : A) :
  popup_keeps proj (mret a : Popup.P A).
Proof. intros s. reflexivity. Qed.

Lemma pk_get {B} (proj : Popup.State -> B) : popup_keeps proj Popup.get.
Proof. intros s. reflexivity. Qed.

Lemma pk_throw {A B} (proj : Popup.State -> B) (e : JsError) :
  popup_keeps proj (Popup.throw e : Popup.P A).
Proof. intros s. reflexivity. Qed.

Lemma pk_bind {A B C} (proj : Popup.State -> C) (m : Popup.P A)
    (k : A -> Popup.P B) :
  popup_keeps proj m -> (forall a, popup_keeps proj (k a)) ->
  popup_keeps proj (m ≫= k).
Proof.
  intros Hm Hk s. rewrite popup_bind_run. specialize (Hm s).
  destruct (m s) as [[a|e] s']; cbn [snd] in *; [| exact Hm].
  now rewrite Hk.
Qed.

Lemma pk_try_catch {A C} (proj : Popup.State -> C) (body : Popup.P A)
    (handler : JsError -> Popup.P A) :
  popup_keeps proj body -> (forall e, popup_keeps proj (handler e)) ->
  popup_keeps proj (Popup.try_catch body handler).
Proof.
  intros Hm Hk s. unfold Popup.try_catch. specialize (Hm s).
  destruct (body s) as [[a|e] s']; cbn [snd] in *; [exact Hm |].
  now rewrite Hk.
Qed.

Lemma pk_modify {C} (proj : Popup.State -> C) (f : Popup.State -> Popup.State) :
  (forall s, proj (f s) = proj s) -> popup_keeps proj (Popup.modify f).
Proof. intros H s. apply H. Qed.

Lemma pk_detached {C} (proj : Popup.State -> C) (m : Popup.P unit) :
  popup_keeps proj m -> popup_keeps proj (Popup.detached m).
Proof. intros H s. apply H. Qed.

Lemma pk_assign {C} (proj : Popup.State -> C) reference property f :
  beside_document proj -> popup_keeps proj (Popup.assign reference property f).
Proof.
  intros H. unfold Popup.assign. destruct reference; [| apply pk_throw].
  apply pk_modify. intros ?. apply H.
Qed.

Lemma pk_updateStatus {C} (proj : Popup.State -> C) active :
  beside_document proj -> popup_keeps proj (Popup.updateStatus active).
Proof.
  intros H s. rewrite updateStatus_run. cbn [snd].
  destruct (Popup.statusIndicator (Popup.dom s)); [apply H | reflexivity].
Qed.

Lemma pk_getActiveTab {C} (proj : Popup.State -> C) :
  popup_keeps proj Popup.getActiveTab.
Proof.
  intros s. unfold Popup.getActiveTab. popup_eval.
  destruct (Popup.tabs_fault s); [reflexivity|].
  destruct (Popup.tabs s) as [[|tab others]|]; reflexivity.
Qed.

Lemma pk_getStorageValue {C} (proj : Popup.State -> C) key :
  popup_keeps proj (Popup.getStorageValue key).
Proof.
  intros s. unfold Popup.getStorageValue. popup_eval.
  destruct (Popup.storage_get_fault s); reflexivity.
Qed.

Lemma pk_setStorageValue {C} (proj : Popup.State -> C) key value :
  (forall f s, proj (Popup.with_storage f s) = proj s) ->
  popup_keeps proj (Popup.setStorageValue key value).
Proof.
  intros H s. unfold Popup.setStorageValue. popup_eval.
  destruct (Popup.storage_set_fault s); [reflexivity|]. apply H.
Qed.

Lemma pk_sendMessageToTab {C} (proj : Popup.State -> C) tabId request :
  (forall f s, proj (Popup.with_scripts f s) = proj s) ->
  popup_keeps proj (Popup.sendMessageToTab tabId request).
Proof.
  intros H s. unfold Popup.sendMessageToTab.
  rewrite popup_bind_run. cbn [Popup.get].
  destruct (Popup.send_fault s); [reflexivity|].
  destruct (Popup.scripts s !! tabId) as [[v page]|]; [| reflexivity].
  cbn zeta. rewrite popup_bind_run. cbn [Popup.modify].
  destruct (outbox _ !! _); cbn [snd Popup.throw mret Popup.P_ret]; apply H.
Qed.

Lemma dom_beside_document : beside_document Popup.dom.
Proof. intros f s. reflexivity. Qed.

(** [loadToggleState] keeps what its writes keep: [assign] and [status] are
    tactics for the assignment to the checkbox and for [updateStatus],
    [send] for [sendMessageToTab] and [save] for [setStorageValue]. *)
Ltac kept_by_try assign status send save :=
  apply pk_bind; [apply pk_getActiveTab | intros tab]; cbn zeta;
  apply pk_bind; [status | intros _];
  apply pk_bind;
  [ destruct (Popup.isINatObservationsPage _); [| apply pk_ret];
    apply pk_try_catch; [| intros; apply pk_ret];
    apply pk_bind; [send | intros [[| |value]|]];
    try apply pk_ret;
    apply pk_bind; [apply pk_get | intros s'];
    apply pk_bind; [assign | intros _];
    apply pk_ret
  | intros [|]; [apply pk_ret|];
    apply pk_bind; [apply pk_getStorageValue | intros [value|]];
    (apply pk_bind; [apply pk_get | intros s']);
    (apply pk_bind; [assign | intros _]);
    [apply pk_ret | save] ].

Ltac kept_by_loadToggleState assign status send save :=
  unfold Popup.loadToggleState;
  apply pk_try_catch;
  [ kept_by_try assign status send save
  | intros e; apply pk_bind; [apply pk_ret | intros _];
    apply pk_bind; [apply pk_get | intros s'];
    assign ].

Ltac dom_kept_by_try :=
  kept_by_try ltac:(apply pk_assign, dom_beside_document)
              ltac:(apply pk_updateStatus, dom_beside_document)
              ltac:(now apply pk_sendMessageToTab)
              ltac:(now apply pk_setStorageValue).

Lemma keeps_dom_loadToggleState : popup_keeps Popup.dom Popup.loadToggleState.
Proof.
  kept_by_loadToggleState ltac:(apply pk_assign, dom_beside_document)
                          ltac:(apply pk_updateStatus, dom_beside_document)
                          ltac:(now apply pk_sendMessageToTab)
                          ltac:(now apply pk_setStorageValue).
Qed.

(** The tab, and the tabs that were reloaded, are none of its business. *)
Lemma keeps_tabs_loadToggleState :
  popup_keeps (fun s => (Popup.tabs_fault s, Popup.tabs s, Popup.reloaded s))
    Popup.loadToggleState.
Proof.
  kept_by_loadToggleState
    ltac:(apply pk_assign; intros ? ?; reflexivity)
    ltac:(apply pk_updateStatus; intros ? ?; reflexivity)
    ltac:(now apply pk_sendMessageToTab)
    ltac:(now apply pk_setStorageValue).
Qed.

Lemma loadToggleState_completes (s : Popup.State) (t : string) :
  Popup.toggle (Popup.dom s) = Some t ->
  (Popup.loadToggleState s).1 = Normal tt.
Proof.
  intros Ht. unfold Popup.loadToggleState.
  match goal with
  | |- (Popup.try_catch ?b ?h s).1 = _ =>
      assert (Hk : popup_keeps Popup.dom b);
      [| rewrite popup_try_catch_run; specialize (Hk s);
         destruct (b s) as [[[]|e] s']; cbn [fst snd] in * ]
  end.
  - dom_kept_by_try.
  - reflexivity.
  - popup_eval. rewrite Hk, Ht. reflexivity.
Qed.

(** Without an active tab the stored preference is not read. *)
Lemma loadToggleState_no_tab (s : Popup.State) :
  no_active_tab s ->
  Popup.loadToggleState s
  = Popup.assign (Popup.toggle (Popup.dom s)) "checked"
      (Popup.set_checked (Popup.DEFAULT_ENABLED Popup.CONSTANTS)) s.
Proof.
  intros Hno. destruct (getActiveTab_fails s Hno) as [e He].
  unfold Popup.loadToggleState.
  rewrite popup_try_catch_run, popup_bind_run, He. reflexivity.
Qed.

(** The content script answers: its flag is shown. *)
Lemma loadToggleState_page (s : Popup.State) (tab : Popup.Tab) (v : variant)
    (page : State) (t : string) :
  active_tab s tab ->
  Popup.isINatObservationsPage (Popup.tab_url tab) = true ->
  listening s (Popup.tab_id tab) v page ->
  Popup.toggle (Popup.dom s) = Some t ->
  let value := fullMapHeight (config page) in
  Popup.loadToggleState s
  = (Normal tt,
     Popup.with_document (alter (Popup.set_checked value) t)
       (Popup.with_scripts
          <[Popup.tab_id tab :=
              (v, with_outbox (fun o => o ++ [RespState value]) page)]>
          (Popup.updateStatus true s).2)).
Proof.
  intros Htab Hurl Hl Ht value. expecting.
  unfold Popup.loadToggleState.
  rewrite popup_try_catch_run, popup_bind_run, (getActiveTab_run s tab Htab).
  cbn zeta.
  rewrite Hurl, popup_bind_run.
  pose proof (pk_updateStatus Popup.send_fault true
                ltac:(intros ? ?; reflexivity) s) as Hsf.
  pose proof (pk_updateStatus Popup.scripts true
                ltac:(intros ? ?; reflexivity) s) as Hsc.
  pose proof (pk_updateStatus Popup.dom true dom_beside_document s) as Hdom.
  destruct (Popup.updateStatus true s) as [c s1] eqn:Hup.
  assert (Hc : c = Normal tt) by (rewrite updateStatus_run in Hup; congruence).
  subst c. cbn [snd] in *.
  assert (Hl1 : listening s1 (Popup.tab_id tab) v page).
  { destruct Hl as (H1 & H2 & H3). unfold listening.
    rewrite Hsf, Hsc. auto. }
  assert (Ht1 : Popup.toggle (Popup.dom s1) = Some t) by now rewrite Hdom.
  rewrite popup_bind_run, popup_try_catch_run.
  rewrite popup_bind_run, (sendMessageToTab_getState _ _ _ _ Hl1).
  popup_eval. rewrite Ht1. reflexivity.
Qed.

Lemma assign_run (id property : string) (f : Popup.Element -> Popup.Element)
    (s : Popup.State) :
  Popup.assign (Some id) property f s
  = (Normal tt, Popup.with_document (alter f id) s).
Proof. reflexivity. Qed.

Lemma getStorageValue_run (key : string) (s : Popup.State) :
  Popup.storage_get_fault s = None ->
  Popup.getStorageValue key s = (Normal (Popup.storage s !! key), s).
Proof. intros H. unfold Popup.getStorageValue. popup_eval. now rewrite H. Qed.

Lemma getStorageValue_fails (key : string) (s : Popup.State) (e : JsError) :
  Popup.storage_get_fault s = Some e ->
  Popup.getStorageValue key s = (Thrown e, s).
Proof. intros H. unfold Popup.getStorageValue. popup_eval. now rewrite H. Qed.

Lemma setStorageValue_run (key : string) (value : bool) (s : Popup.State) :
  Popup.storage_set_fault s = None ->
  Popup.setStorageValue key value s
  = (Normal tt, Popup.with_storage <[key := value]> s).
Proof.
  intros H. expecting. unfold Popup.setStorageValue. popup_eval.
  rewrite H. reflexivity.
Qed.

Lemma setStorageValue_fails (key : string) (value : bool) (s : Popup.State)
    (e : JsError) :
  Popup.storage_set_fault s = Some e ->
  Popup.setStorageValue key value s = (Thrown e, s).
Proof. intros H. unfold Popup.setStorageValue. popup_eval. now rewrite H. Qed.

(** Neither the page nor an answer of the content script: the stored
    preference is read, and the default is written where there is none. *)
Lemma loadToggleState_fallback (s : Popup.State) (tab : Popup.Tab) (t : string) :
  active_tab s tab ->
  Popup.isINatObservationsPage (Popup.tab_url tab) = false
  \/ unreachable s (Popup.tab_id tab) ->
  Popup.toggle (Popup.dom s) = Some t ->
  let s1 := (Popup.updateStatus
               (Popup.isINatObservationsPage (Popup.tab_url tab)) s).2 in
  let shown := match Popup.storage_get_fault s with
               | Some _ => true
               | None => default true (Popup.storage s !! "fullMapHeight")
               end in
  let s2 := Popup.with_document (alter (Popup.set_checked shown) t) s1 in
  Popup.loadToggleState s
  = (Normal tt,
     match Popup.storage_get_fault s, Popup.storage s !! "fullMapHeight",
           Popup.storage_set_fault s with
     | None, None, None => Popup.with_storage <["fullMapHeight" := true]> s2
     | _, _, _ => s2
     end).
Proof.
  intros Htab Hcase Ht. cbn zeta.
  unfold Popup.loadToggleState.
  rewrite popup_try_catch_run, popup_bind_run, (getActiveTab_run s tab Htab).
  cbn zeta. rewrite popup_bind_run.
  set (active := Popup.isINatObservationsPage (Popup.tab_url tab)) in *.
  pose proof (pk_updateStatus Popup.send_fault active
                ltac:(intros ? ?; reflexivity) s) as Hsf.
  pose proof (pk_updateStatus Popup.scripts active
                ltac:(intros ? ?; reflexivity) s) as Hsc.
  pose proof (pk_updateStatus Popup.dom active dom_beside_document s) as Hdom.
  pose proof (pk_updateStatus Popup.storage active
                ltac:(intros ? ?; reflexivity) s) as Hst.
  pose proof (pk_updateStatus Popup.storage_get_fault active
                ltac:(intros ? ?; reflexivity) s) as Hgf.
  pose proof (pk_updateStatus Popup.storage_set_fault active
                ltac:(intros ? ?; reflexivity) s) as Hwf.
  destruct (Popup.updateStatus active s) as [c s1] eqn:Hup.
  assert (Hc : c = Normal tt) by (rewrite updateStatus_run in Hup; congruence).
  subst c. cbn [snd] in *.
  assert (Ht1 : Popup.toggle (Popup.dom s1) = Some t) by now rewrite Hdom.
  rewrite <- Hst, <- Hgf, <- Hwf. clear Hst Hgf Hwf Hdom.
  rewrite popup_bind_run.
  assert (Hreturned :
            (if active
             then Popup.try_catch
                    (response ← Popup.sendMessageToTab (Popup.tab_id tab)
                                  {| action := Some "getState";
                                     enabled := false |};
                     match response with
                     | Some (RespState value) =>
                         s0 ← Popup.get;
                         Popup.assign (Popup.toggle (Popup.dom s0)) "checked"
                           (Popup.set_checked value);;
                         mret true
                     | _ => mret false
                     end)
                    (fun _ => mret false)
             else mret false) s1 = (Normal false, s1)).
  { destruct active; [| reflexivity].
    destruct Hcase as [Hcase | Hun]; [discriminate|].
    assert (Hun1 : unreachable s1 (Popup.tab_id tab))
      by (unfold unreachable; now rewrite Hsf, Hsc).
    destruct (sendMessageToTab_unreachable s1 (Popup.tab_id tab)
                {| action := Some "getState"; enabled := false |} Hun1)
      as [e He].
    rewrite popup_try_catch_run, popup_bind_run, He. reflexivity. }
  rewrite Hreturned. cbn iota. rewrite popup_bind_run.
  destruct (Popup.storage_get_fault s1) as [e|] eqn:Hg.
  { rewrite (getStorageValue_fails _ _ _ Hg).
    popup_binds.
    rewrite Ht1. reflexivity. }
  rewrite (getStorageValue_run _ _ Hg), popup_bind_run.
  cbn [Popup.get]. rewrite Ht1, popup_bind_run, assign_run.
  destruct (Popup.storage s1 !! "fullMapHeight") as [value|] eqn:Hv;
    [reflexivity|].
  destruct (Popup.storage_set_fault s1) as [e|] eqn:Hw.
  - rewrite (setStorageValue_fails _ _ _ e) by exact Hw.
    popup_binds.
    change (Popup.dom (Popup.with_document _ s1)) with (Popup.dom s1).
    rewrite Ht1, assign_run. unfold Popup.with_document.
    cbn [Popup.document Popup.dom Popup.now Popup.timeouts Popup.storage
         Popup.storage_get_fault Popup.storage_set_fault Popup.tabs_fault
         Popup.send_fault Popup.tabs Popup.scripts Popup.reloaded].
    rewrite alter_alter_eq. reflexivity.
  - rewrite setStorageValue_run by exact Hw. reflexivity.
Qed.

(** *** What is on display *)

Lemma lookup_alter_observe {B} (g : Popup.Element -> B)
    (f : Popup.Element -> Popup.Element) (i x : string)
    (d : gmap string Popup.Element) :
  (forall e, g (f e) = g e) ->
  g <$> alter f i d !! x = g <$> d !! x.
Proof.
  intros H. destruct (decide (i = x)) as [->|Hne].
  - rewrite lookup_alter_eq. destruct (d !! x); cbn; [now rewrite H | reflexivity].
  - now rewrite lookup_alter_ne.
Qed.

Lemma lookup_alter_set {B} (g : Popup.Element -> B)
    (f : Popup.Element -> Popup.Element) (b : B) (x : string)
    (d : gmap string Popup.Element) :
  (forall e, g (f e) = b) ->
  g <$> alter f x d !! x = (fun _ => b) <$> (g <$> d !! x).
Proof.
  intros H. rewrite lookup_alter_eq.
  destruct (d !! x); cbn; [now rewrite H | reflexivity].
Qed.

Lemma document_updateStatus {B} (g : Popup.Element -> B) (active : bool)
    (s : Popup.State) (x : string) :
  (forall e, g (status active e) = g e) ->
  g <$> Popup.document (Popup.updateStatus active s).2 !! x
  = g <$> Popup.document s !! x.
Proof.
  intros H. rewrite updateStatus_run. cbn [snd].
  destruct (Popup.statusIndicator (Popup.dom s)); [| reflexivity].
  now apply lookup_alter_observe.
Qed.

(** It adds no listener and removes none. *)
Lemma keeps_listeners_loadToggleState (x : string) :
  popup_keeps (fun s => Popup.listeners <$> Popup.document s !! x)
    Popup.loadToggleState.
Proof.
  kept_by_loadToggleState
    ltac:(unfold Popup.assign;
          match goal with
          | |- popup_keeps _ (match ?r with _ => _ end) =>
              destruct r; [| apply pk_throw]
          end;
          apply pk_modify; intros ?; cbn [Popup.with_document Popup.document];
          now apply lookup_alter_observe)
    ltac:(intros ?; now apply document_updateStatus)
    ltac:(now apply pk_sendMessageToTab)
    ltac:(now apply pk_setStorageValue).
Qed.

Lemma indicated_updateStatus (active : bool) (s : Popup.State) :
  indicated (Popup.updateStatus active s).2
  = (fun _ => (if active then "Active on this page"
               else "Not active on this page",
               if active then "status active" else "status inactive"))
      <$> indicated s.
Proof.
  unfold indicated. rewrite updateStatus_run. cbn [snd].
  destruct (Popup.statusIndicator (Popup.dom s)) as [i|] eqn:Hi;
    cbn [Popup.with_document Popup.dom]; rewrite Hi; [| reflexivity].
  cbn [mbind option_bind Popup.document].
  now apply lookup_alter_set.
Qed.

Lemma indicated_checked (s : Popup.State) (value : bool) (t : string) :
  indicated (Popup.with_document (alter (Popup.set_checked value) t) s)
  = indicated s.
Proof.
  unfold indicated. cbn [Popup.with_document Popup.dom Popup.document].
  destruct (Popup.statusIndicator (Popup.dom s)) as [i|]; [| reflexivity].
  cbn [mbind option_bind]. now apply lookup_alter_observe.
Qed.

Lemma toggled_checked (s : Popup.State) (value : bool) (t : string) :
  Popup.toggle (Popup.dom s) = Some t ->
  toggled (Popup.with_document (alter (Popup.set_checked value) t) s)
  = (fun _ => value) <$> toggled s.
Proof.
  intros Ht. unfold toggled.
  cbn [Popup.with_document Popup.dom Popup.document]. rewrite Ht.
  cbn [mbind option_bind]. now apply lookup_alter_set.
Qed.

Lemma toggled_updateStatus (active : bool) (s : Popup.State) :
  toggled (Popup.updateStatus active s).2 = toggled s.
Proof.
  unfold toggled.
  rewrite (pk_updateStatus Popup.dom active dom_beside_document s).
  destruct (Popup.toggle (Popup.dom s)) as [t|]; [| reflexivity].
  cbn [mbind option_bind]. now apply document_updateStatus.
Qed.

(** X20: on an observations page where the content script answers, the
    popup shows the flag of the content script, not the stored preference:
    [loadToggleState] sets the checkbox to the [fullMapHeight] of the
    script's [config], marks the page as active, and neither reads nor
    writes [chrome.storage.sync]; the page is left as it was, the response
    apart. *)
Theorem popup_shows_page_state (s : Popup.State) (tab : Popup.Tab)
    (v : variant) (page : State) (t : string) :
  active_tab s tab ->
  Popup.isINatObservationsPage (Popup.tab_url tab) = true ->
  listening s (Popup.tab_id tab) v page ->
  Popup.toggle (Popup.dom s) = Some t ->
  let s' := Popup.run_task Popup.loadToggleState s in
  let value := fullMapHeight (config page) in
  toggled s' = (fun _ => value) <$> toggled s
  /\ indicated s'
     = (fun _ => ("Active on this page", "status active")) <$> indicated s
  /\ Popup.storage s' = Popup.storage s
  /\ Popup.scripts s'
     = <[Popup.tab_id tab :=
           (v, with_outbox (fun o => o ++ [RespState value]) page)]>
         (Popup.scripts s).
Proof.
  intros Htab Hurl Hl Ht s' value. subst s'. unfold Popup.run_task.
  rewrite (loadToggleState_page s tab v page t Htab Hurl Hl Ht). cbn [snd].
  fold value.
  pose proof (pk_updateStatus Popup.dom true dom_beside_document s) as Hdom.
  split; [| split; [| split]].
  - rewrite toggled_checked by (cbn; now rewrite Hdom).
    f_equal. apply (toggled_updateStatus true s).
  - rewrite indicated_checked. apply (indicated_updateStatus true s).
  - apply (pk_updateStatus Popup.storage true ltac:(intros ? ?; reflexivity) s).
  - cbn [Popup.with_document Popup.with_scripts Popup.scripts]. f_equal.
    apply (pk_updateStatus Popup.scripts true ltac:(intros ? ?; reflexivity) s).
Qed.

(** X21: [loadToggleState] never leaves its promise rejected once [init]
    has found the checkbox, whatever the browser answers.  When
    [chrome.tabs.query] fails or finds no tab, the checkbox is set to the
    default, enabled, and nothing else happens: the stored preference is
    not read, so a stored [false] is shown as enabled. *)
Theorem popup_defaults_to_enabled (s : Popup.State) (t : string) :
  Popup.toggle (Popup.dom s) = Some t ->
  (Popup.loadToggleState s).1 = Normal tt
  /\ (no_active_tab s ->
      Popup.run_task Popup.loadToggleState s
      = Popup.with_document (alter (Popup.set_checked true) t) s
      /\ toggled (Popup.run_task Popup.loadToggleState s)
         = (fun _ => true) <$> toggled s).
Proof.
  intros Ht. split; [exact (loadToggleState_completes s t Ht)|].
  intros Hno.
  assert (Hrun : Popup.run_task Popup.loadToggleState s
                 = Popup.with_document (alter (Popup.set_checked true) t) s).
  { unfold Popup.run_task. rewrite (loadToggleState_no_tab s Hno), Ht.
    reflexivity. }
  split; [exact Hrun|]. rewrite Hrun. now apply toggled_checked.
Qed.

(** X22: with an active tab that is not an observations page, or whose
    content script does not answer, [loadToggleState] shows the stored
    preference, and enabled when there is none or when it cannot be read.
    Where nothing is stored it writes the default [true] to
    [chrome.storage.sync].  The status indicator follows the address alone:
    it reads "Active on this page" on a matching address also when no
    content script answers there. *)
Theorem popup_falls_back_to_storage (s : Popup.State) (tab : Popup.Tab)
    (t : string) :
  active_tab s tab ->
  Popup.isINatObservationsPage (Popup.tab_url tab) = false
  \/ unreachable s (Popup.tab_id tab) ->
  Popup.toggle (Popup.dom s) = Some t ->
  let s' := Popup.run_task Popup.loadToggleState s in
  let stored := Popup.storage s !! "fullMapHeight" in
  toggled s'
  = (fun _ => match Popup.storage_get_fault s with
              | Some _ => true
              | None => default true stored
              end) <$> toggled s
  /\ indicated s'
     = (fun _ => if Popup.isINatObservationsPage (Popup.tab_url tab)
                 then ("Active on this page", "status active")
                 else ("Not active on this page", "status inactive"))
         <$> indicated s
  /\ Popup.scripts s' = Popup.scripts s
  /\ Popup.storage s'
     = match Popup.storage_get_fault s, stored, Popup.storage_set_fault s with
       | None, None, None => <["fullMapHeight" := true]> (Popup.storage s)
       | _, _, _ => Popup.storage s
       end.
Proof.
  intros Htab Hcase Ht s' stored. subst s'. unfold Popup.run_task.
  rewrite (loadToggleState_fallback s tab t Htab Hcase Ht). cbn [snd].
  fold stored.
  set (active := Popup.isINatObservationsPage (Popup.tab_url tab)).
  set (shown := match Popup.storage_get_fault s with
                | Some _ => true
                | None => default true stored
                end).
  set (s1 := (Popup.updateStatus active s).2).
  set (s2 := Popup.with_document (alter (Popup.set_checked shown) t) s1).
  assert (Hdom : Popup.dom s1 = Popup.dom s)
    by apply (pk_updateStatus Popup.dom active dom_beside_document s).
  assert (Htog : toggled s2 = (fun _ => shown) <$> toggled s).
  { subst s2. rewrite toggled_checked by now rewrite Hdom.
    f_equal. apply toggled_updateStatus. }
  assert (Hind : indicated s2
                 = (fun _ => if active
                             then ("Active on this page", "status active")
                             else ("Not active on this page", "status inactive"))
                     <$> indicated s).
  { subst s2. rewrite indicated_checked. subst s1.
    rewrite indicated_updateStatus. now destruct active. }
  assert (Hsc : Popup.scripts s2 = Popup.scripts s)
    by apply (pk_updateStatus Popup.scripts active
                ltac:(intros ? ?; reflexivity) s).
  assert (Hst : Popup.storage s2 = Popup.storage s)
    by apply (pk_updateStatus Popup.storage active
                ltac:(intros ? ?; reflexivity) s).
  destruct (Popup.storage_get_fault s), stored, (Popup.storage_set_fault s);
    (split; [exact Htog | split; [exact Hind | split; [exact Hsc |]]]);
    try exact Hst.
  cbn [Popup.with_storage Popup.storage]. now rewrite Hst.
Qed.

(** *** [handleToggleChange] *)

Lemma toggle_checked_run (s : Popup.State) (on : bool) :
  toggled s = Some on -> Popup.toggle_checked s = (Normal on, s).
Proof.
  unfold toggled, Popup.toggle_checked. popup_eval.
  destruct (Popup.toggle (Popup.dom s)) as [t|]; [| discriminate].
  cbn [mbind option_bind].
  destruct (Popup.document s !! t) as [e|]; [| discriminate].
  cbn. congruence.
Qed.

Lemma showStatusMessage_completes (text : string) (s : Popup.State) :
  Popup.showStatusMessage text s
  = (Normal tt, (Popup.showStatusMessage text s).2).
Proof. rewrite showStatusMessage_run. reflexivity. Qed.

(** The setting is saved first: when that fails, nothing else is tried. *)
Lemma handleToggleChange_not_saved (s : Popup.State) (on : bool) (e : JsError) :
  toggled s = Some on ->
  Popup.storage_set_fault s = Some e ->
  Popup.handleToggleChange s
  = Popup.showStatusMessage "Error saving settings" s.
Proof.
  intros Hon He. unfold Popup.handleToggleChange.
  rewrite popup_bind_run, (toggle_checked_run s on Hon).
  rewrite popup_try_catch_run, popup_bind_run.
  rewrite (setStorageValue_fails _ _ _ e He). reflexivity.
Qed.

Lemma handleToggleChange_no_tab (s : Popup.State) (on : bool) :
  toggled s = Some on ->
  Popup.storage_set_fault s = None ->
  no_active_tab s ->
  Popup.handleToggleChange s
  = Popup.showStatusMessage "Error saving settings"
      (Popup.with_storage <["fullMapHeight" := on]> s).
Proof.
  intros Hon Hw Hno. unfold Popup.handleToggleChange.
  rewrite popup_bind_run, (toggle_checked_run s on Hon).
  rewrite popup_try_catch_run, popup_bind_run.
  rewrite (setStorageValue_run _ _ _ Hw), popup_bind_run.
  destruct (getActiveTab_fails
              (Popup.with_storage <["fullMapHeight" := on]> s) Hno) as [e He].
  rewrite He. reflexivity.
Qed.

Lemma handleToggleChange_off_page (s : Popup.State) (on : bool)
    (tab : Popup.Tab) :
  toggled s = Some on ->
  Popup.storage_set_fault s = None ->
  active_tab s tab ->
  Popup.isINatObservationsPage (Popup.tab_url tab) = false ->
  Popup.handleToggleChange s
  = (Normal tt, Popup.with_storage <["fullMapHeight" := on]> s).
Proof.
  intros Hon Hw Htab Hurl. unfold Popup.handleToggleChange.
  rewrite popup_bind_run, (toggle_checked_run s on Hon).
  rewrite popup_try_catch_run, popup_bind_run.
  rewrite (setStorageValue_run _ _ _ Hw), popup_bind_run.
  rewrite (getActiveTab_run
             (Popup.with_storage <["fullMapHeight" := on]> s) tab Htab).
  rewrite Hurl. reflexivity.
Qed.

Lemma handleToggleChange_unreachable (s : Popup.State) (on : bool)
    (tab : Popup.Tab) :
  toggled s = Some on ->
  Popup.storage_set_fault s = None ->
  active_tab s tab ->
  Popup.isINatObservationsPage (Popup.tab_url tab) = true ->
  unreachable s (Popup.tab_id tab) ->
  Popup.handleToggleChange s
  = Popup.showStatusMessage "Please reload the page"
      (Popup.with_storage <["fullMapHeight" := on]> s).
Proof.
  intros Hon Hw Htab Hurl Hun. unfold Popup.handleToggleChange.
  rewrite popup_bind_run, (toggle_checked_run s on Hon).
  rewrite popup_try_catch_run, popup_bind_run.
  rewrite (setStorageValue_run _ _ _ Hw), popup_bind_run.
  set (saved := Popup.with_storage <["fullMapHeight" := on]> s).
  rewrite (getActiveTab_run saved tab Htab).
  rewrite Hurl, popup_try_catch_run, popup_bind_run.
  destruct (sendMessageToTab_unreachable saved (Popup.tab_id tab)
              {| action := Some "toggleFullMapHeight"; enabled := on |} Hun)
    as [e He].
  rewrite He. popup_binds.
  now rewrite (showStatusMessage_completes "Please reload the page" saved).
Qed.

Lemma handleToggleChange_page (s : Popup.State) (on : bool) (tab : Popup.Tab)
    (v : variant) (page : State) :
  toggled s = Some on ->
  Popup.storage_set_fault s = None ->
  active_tab s tab ->
  Popup.isINatObservationsPage (Popup.tab_url tab) = true ->
  listening s (Popup.tab_id tab) v page ->
  let operation := if on then applyOf v else removeOf v in
  let asked := with_config {| fullMapHeight := on |} page in
  let response := match (operation asked).1 with
                  | Normal _ => RespSuccess
                  | Thrown e => RespFailure (error_message e)
                  end in
  let delivered :=
    Popup.with_scripts
      <[Popup.tab_id tab :=
          (v, with_outbox (fun o => o ++ [response]) (operation asked).2)]>
      (Popup.with_storage <["fullMapHeight" := on]> s) in
  Popup.handleToggleChange s
  = match (operation asked).1 with
    | Normal _ =>
        Popup.showStatusMessage
          (if on then "Map height increased!" else "Map height restored")
          delivered
    | Thrown e =>
        if String.eqb (error_message e) "" then (Normal tt, delivered)
        else Popup.showStatusMessage ("Error: " +:+ error_message e) delivered
    end.
Proof.
  intros Hon Hw Htab Hurl Hl operation asked response delivered.
  unfold Popup.handleToggleChange.
  rewrite popup_bind_run, (toggle_checked_run s on Hon).
  rewrite popup_try_catch_run, popup_bind_run.
  rewrite (setStorageValue_run _ _ _ Hw), popup_bind_run.
  set (saved := Popup.with_storage <["fullMapHeight" := on]> s) in *.
  rewrite (getActiveTab_run saved tab Htab).
  rewrite Hurl, popup_try_catch_run, popup_bind_run.
  rewrite (sendMessageToTab_toggle saved (Popup.tab_id tab) v page on Hl).
  fold operation asked response. fold delivered.
  subst response.
  destruct ((operation asked).1) as [[]|e].
  - now rewrite (showStatusMessage_completes _ delivered).
  - destruct (String.eqb (error_message e) ""); [reflexivity|].
    popup_binds.
    now rewrite (showStatusMessage_completes _ delivered).
Qed.

Lemma displayed_showStatusMessage (text : string) (s : Popup.State) :
  displayed (Popup.showStatusMessage text s).2
  = (fun _ => (text, "1")) <$> displayed s.
Proof.
  unfold displayed. rewrite showStatusMessage_run. cbn [snd].
  destruct (Popup.statusMessage (Popup.dom s)) as [m|] eqn:Hm;
    cbn [Popup.with_clock Popup.with_document Popup.dom Popup.document];
    rewrite Hm; [| reflexivity].
  cbn [mbind option_bind]. now apply lookup_alter_set.
Qed.

Lemma toggled_showStatusMessage (text : string) (s : Popup.State) :
  toggled (Popup.showStatusMessage text s).2 = toggled s.
Proof.
  unfold toggled. rewrite showStatusMessage_run. cbn [snd].
  destruct (Popup.statusMessage (Popup.dom s)) as [m|]; [| reflexivity].
  cbn [Popup.with_clock Popup.with_document Popup.dom Popup.document].
  destruct (Popup.toggle (Popup.dom s)) as [t|]; [| reflexivity].
  cbn [mbind option_bind]. now apply lookup_alter_observe.
Qed.

Lemma pk_showStatusMessage {C} (proj : Popup.State -> C) (text : string) :
  beside_display proj -> popup_keeps proj (Popup.showStatusMessage text).
Proof.
  intros H s. rewrite showStatusMessage_run. cbn [snd].
  destruct (Popup.statusMessage (Popup.dom s)); [apply H | reflexivity].
Qed.

Lemma storage_beside_display : beside_display Popup.storage.
Proof. intros f t p s. reflexivity. Qed.

Lemma scripts_beside_display : beside_display Popup.scripts.
Proof. intros f t p s. reflexivity. Qed.

Lemma config_operation (v : variant) (on : bool) (page : State) :
  fullMapHeight
    (config ((if on then applyOf v else removeOf v)
               (with_config {| fullMapHeight := on |} page)).2) = on.
Proof.
  destruct on.
  - now rewrite keeps_config_apply.
  - now rewrite keeps_config_remove.
Qed.

(** X23: [handleToggleChange] saves before it sends.  When the write to
    [chrome.storage.sync] fails, no message is sent and no tab is asked
    for: storage and the content scripts are as they were, the popup shows
    "Error saving settings", and the checkbox keeps the state the user gave
    it, which is neither saved nor applied. *)
Theorem toggle_not_saved_not_sent (s : Popup.State) (on : bool) (e : JsError) :
  toggled s = Some on ->
  Popup.storage_set_fault s = Some e ->
  let s' := Popup.run_task Popup.handleToggleChange s in
  (Popup.handleToggleChange s).1 = Normal tt
  /\ Popup.storage s' = Popup.storage s
  /\ Popup.scripts s' = Popup.scripts s
  /\ toggled s' = Some on
  /\ displayed s' = (fun _ => ("Error saving settings", "1")) <$> displayed s.
Proof.
  intros Hon He s'. subst s'. unfold Popup.run_task.
  rewrite (handleToggleChange_not_saved s on e Hon He).
  split; [now rewrite showStatusMessage_completes|].
  split; [apply pk_showStatusMessage, storage_beside_display|].
  split; [apply pk_showStatusMessage, scripts_beside_display|].
  split; [now rewrite toggled_showStatusMessage|].
  apply displayed_showStatusMessage.
Qed.

(** X24: the popup and the content script together.  On an observations
    page whose content script answers, a change of the checkbox to [on]
    stores [on], then runs the listener of the content script on the page:
    its flag becomes [on] and [applyFullMapHeight] or [removeFullMapHeight]
    runs.  The popup shows "Map height increased!" or "Map height
    restored" when that call returned and "Error: " with the message of the
    exception when it threw; in that case storage, the flag and the
    checkbox still say [on]. *)
Theorem toggle_reaches_content_script (s : Popup.State) (on : bool)
    (tab : Popup.Tab) (v : variant) (page : State) :
  toggled s = Some on ->
  Popup.storage_set_fault s = None ->
  active_tab s tab ->
  Popup.isINatObservationsPage (Popup.tab_url tab) = true ->
  listening s (Popup.tab_id tab) v page ->
  let operation := if on then applyOf v else removeOf v in
  let asked := with_config {| fullMapHeight := on |} page in
  let response := match (operation asked).1 with
                  | Normal _ => RespSuccess
                  | Thrown e => RespFailure (error_message e)
                  end in
  let answered := with_outbox (fun o => o ++ [response]) (operation asked).2 in
  let s' := Popup.run_task Popup.handleToggleChange s in
  Popup.storage s' = <["fullMapHeight" := on]> (Popup.storage s)
  /\ Popup.scripts s' = <[Popup.tab_id tab := (v, answered)]> (Popup.scripts s)
  /\ fullMapHeight (config answered) = on
  /\ toggled s' = Some on
  /\ displayed s'
     = match (operation asked).1 with
       | Normal _ =>
           (fun _ => (if on then "Map height increased!"
                      else "Map height restored", "1")) <$> displayed s
       | Thrown e =>
           if String.eqb (error_message e) "" then displayed s
           else (fun _ => ("Error: " +:+ error_message e, "1")) <$> displayed s
       end.
Proof.
  intros Hon Hw Htab Hurl Hl operation asked response answered s'.
  subst s'. unfold Popup.run_task.
  rewrite (handleToggleChange_page s on tab v page Hon Hw Htab Hurl Hl).
  fold operation asked response. fold answered.
  set (delivered := Popup.with_scripts _ _).
  assert (Hflag : fullMapHeight (config answered) = on)
    by apply (config_operation v on page).
  assert (Hshown : forall text,
            Popup.storage (Popup.showStatusMessage text delivered).2
            = <["fullMapHeight" := on]> (Popup.storage s)
            /\ Popup.scripts (Popup.showStatusMessage text delivered).2
               = <[Popup.tab_id tab := (v, answered)]> (Popup.scripts s)
            /\ toggled (Popup.showStatusMessage text delivered).2 = Some on
            /\ displayed (Popup.showStatusMessage text delivered).2
               = (fun _ => (text, "1")) <$> displayed s).
  { intros text.
    rewrite (pk_showStatusMessage Popup.storage text storage_beside_display),
      (pk_showStatusMessage Popup.scripts text scripts_beside_display),
      toggled_showStatusMessage, displayed_showStatusMessage.
    auto. }
  destruct ((operation asked).1) as [[]|e].
  - destruct (Hshown (if on then "Map height increased!"
                      else "Map height restored")) as (H1 & H2 & H3 & H4).
    auto.
  - destruct (String.eqb (error_message e) "").
    + cbn [snd]. auto.
    + destruct (Hshown ("Error: " +:+ error_message e)) as (H1 & H2 & H3 & H4).
      auto.
Qed.

(** X25: a change that is saved but does not reach a content script.  The
    new state of the checkbox is stored; then, when no active tab is found,
    the popup shows "Error saving settings" although the setting is saved;
    when the active tab is not an observations page, nothing is sent and
    nothing is shown; when it is one but no content script answers, the
    popup shows "Please reload the page". *)
Theorem toggle_saved_but_not_delivered (s : Popup.State) (on : bool) :
  toggled s = Some on ->
  Popup.storage_set_fault s = None ->
  let s' := Popup.run_task Popup.handleToggleChange s in
  (no_active_tab s ->
   Popup.storage s' = <["fullMapHeight" := on]> (Popup.storage s)
   /\ Popup.scripts s' = Popup.scripts s
   /\ displayed s' = (fun _ => ("Error saving settings", "1")) <$> displayed s)
  /\ (forall tab,
        active_tab s tab ->
        Popup.isINatObservationsPage (Popup.tab_url tab) = false ->
        s' = Popup.with_storage <["fullMapHeight" := on]> s)
  /\ (forall tab,
        active_tab s tab ->
        Popup.isINatObservationsPage (Popup.tab_url tab) = true ->
        unreachable s (Popup.tab_id tab) ->
        Popup.storage s' = <["fullMapHeight" := on]> (Popup.storage s)
        /\ Popup.scripts s' = Popup.scripts s
        /\ displayed s'
           = (fun _ => ("Please reload the page", "1")) <$> displayed s).
Proof.
  intros Hon Hw s'. subst s'. unfold Popup.run_task.
  set (saved := Popup.with_storage <["fullMapHeight" := on]> s).
  assert (Hshown : forall text,
            Popup.storage (Popup.showStatusMessage text saved).2
            = <["fullMapHeight" := on]> (Popup.storage s)
            /\ Popup.scripts (Popup.showStatusMessage text saved).2
               = Popup.scripts s
            /\ displayed (Popup.showStatusMessage text saved).2
               = (fun _ => (text, "1")) <$> displayed s).
  { intros text.
    rewrite (pk_showStatusMessage Popup.storage text storage_beside_display),
      (pk_showStatusMessage Popup.scripts text scripts_beside_display),
      displayed_showStatusMessage.
    auto. }
  split; [| split].
  - intros Hno. rewrite (handleToggleChange_no_tab s on Hon Hw Hno).
    apply Hshown.
  - intros tab Htab Hurl.
    now rewrite (handleToggleChange_off_page s on tab Hon Hw Htab Hurl).
  - intros tab Htab Hurl Hun.
    rewrite (handleToggleChange_unreachable s on tab Hon Hw Htab Hurl Hun).
    apply Hshown.
Qed.

(** *** The timers of [showStatusMessage] *)

Lemma hideStatusMessage_run (s : Popup.State) (m : string) :
  Popup.statusMessage (Popup.dom s) = Some m ->
  Popup.run_task Popup.hideStatusMessage s
  = Popup.with_document (alter (Popup.set_opacity "0") m) s.
Proof.
  intros Hm. unfold Popup.run_task, Popup.hideStatusMessage.
  rewrite popup_bind_run. cbn [Popup.get]. rewrite Hm. reflexivity.
Qed.

(** X26: [showStatusMessage] does not cancel the timer of the message
    before.  A second message that is shown [gap] milliseconds after a
    first one, with [0 < gap < STATUS_MESSAGE_DURATION], is hidden by the
    callback of the first: it is on display for
    [STATUS_MESSAGE_DURATION - gap] milliseconds only, and its own callback
    is still pending then. *)
Theorem status_message_hidden_early (s : Popup.State) (m : string)
    (e : Popup.Element) (first second : string) (gap : nat) :
  Popup.statusMessage (Popup.dom s) = Some m ->
  Popup.document s !! m = Some e ->
  Popup.timeouts s = [] ->
  0 < gap < Popup.STATUS_MESSAGE_DURATION Popup.CONSTANTS ->
  let s1 := Popup.run_task (Popup.showStatusMessage first) s in
  let s2 := Popup.elapse gap s1 in
  let s3 := Popup.run_task (Popup.showStatusMessage second) s2 in
  let s4 :=
    Popup.elapse (Popup.STATUS_MESSAGE_DURATION Popup.CONSTANTS - gap) s3 in
  displayed s3 = Some (second, "1")
  /\ displayed s4 = Some (second, "0")
  /\ Popup.now s4
     = Popup.now s3 + (Popup.STATUS_MESSAGE_DURATION Popup.CONSTANTS - gap)
  /\ Popup.timeouts s4
     = [Popup.now s3 + Popup.STATUS_MESSAGE_DURATION Popup.CONSTANTS].
Proof.
  change (Popup.STATUS_MESSAGE_DURATION Popup.CONSTANTS) with 2000.
  intros Hm He Hts [Hpos Hgap]. cbn zeta.
  set (t0 := Popup.now s).
  assert (H1 : Popup.run_task (Popup.showStatusMessage first) s
               = Popup.with_clock t0 [t0 + 2000]
                   (Popup.with_document (alter (message first) m) s)).
  { unfold Popup.run_task. rewrite showStatusMessage_run, Hm, Hts.
    reflexivity. }
  rewrite H1.
  set (s1 := Popup.with_clock t0 [t0 + 2000] _).
  assert (Hlate : (t0 + 2000 <=? t0 + gap) = false)
    by (apply Nat.leb_gt; lia).
  assert (H2 : Popup.elapse gap s1
               = Popup.with_clock (t0 + gap) [t0 + 2000] s1).
  { unfold Popup.elapse. cbn [Popup.now Popup.timeouts s1 Popup.with_clock
      List.filter]. rewrite Hlate. reflexivity. }
  rewrite H2.
  set (s2 := Popup.with_clock (t0 + gap) [t0 + 2000] s1).
  assert (H3 : Popup.run_task (Popup.showStatusMessage second) s2
               = Popup.with_clock (t0 + gap) [t0 + 2000; t0 + gap + 2000]
                   (Popup.with_document (alter (message second) m) s2)).
  { unfold Popup.run_task. rewrite showStatusMessage_run.
    change (Popup.statusMessage (Popup.dom s2))
      with (Popup.statusMessage (Popup.dom s)).
    rewrite Hm. reflexivity. }
  rewrite H3.
  set (s3 := Popup.with_clock (t0 + gap) [t0 + 2000; t0 + gap + 2000] _).
  assert (Hdue : (t0 + 2000 <=? t0 + gap + (2000 - gap)) = true)
    by (apply Nat.leb_le; lia).
  assert (Hnot : (t0 + gap + 2000 <=? t0 + gap + (2000 - gap)) = false)
    by (apply Nat.leb_gt; lia).
  assert (H4 : Popup.elapse (2000 - gap) s3
               = Popup.with_document (alter (Popup.set_opacity "0") m)
                   (Popup.with_clock (t0 + gap + (2000 - gap))
                      [t0 + gap + 2000] s3)).
  { unfold Popup.elapse.
    cbn [Popup.now Popup.timeouts s3 Popup.with_clock List.filter].
    rewrite Hdue, Hnot. cbn [negb fold_left].
    now apply hideStatusMessage_run. }
  rewrite H4.
  assert (Hd3 : displayed s3 = Some (second, "1")).
  { unfold displayed.
    change (Popup.statusMessage (Popup.dom s3))
      with (Popup.statusMessage (Popup.dom s)).
    rewrite Hm. cbn [mbind option_bind].
    change (Popup.document s3)
      with (alter (message second) m (alter (message first) m (Popup.document s))).
    now rewrite !lookup_alter_eq, He. }
  split; [exact Hd3|]. split; [| split; reflexivity].
  unfold displayed.
  change (Popup.statusMessage (Popup.dom (Popup.with_document _ _)))
    with (Popup.statusMessage (Popup.dom s)).
  rewrite Hm. cbn [mbind option_bind].
  change (Popup.document (Popup.with_document _ _))
    with (alter (Popup.set_opacity "0") m
            (alter (message second) m
               (alter (message first) m (Popup.document s)))).
  now rewrite !lookup_alter_eq, He.
Qed.

(** *** The popup from its opening *)

(** The variable [dom] after [init]. *)
Lemma popup_init_run (s : Popup.State) (e : Popup.Element) :
  Popup.document s !! "fullMapHeight" = Some e ->
  let found := fun id => match Popup.document s !! id with
                         | Some _ => Some id
                         | None => None
                         end in
  let cached :=
    Popup.with_dom (fun _ =>
      {| Popup.toggle := Some "fullMapHeight";
         Popup.statusIndicator := found "status-indicator";
         Popup.statusMessage := found "status-message";
         Popup.reloadButton := found "reload-page" |}) s in
  let loaded := Popup.run_task Popup.loadToggleState cached in
  let listened :=
    Popup.with_document
      (alter (Popup.add_listener "change" Popup.HandleToggleChange)
         "fullMapHeight") loaded in
  Popup.run_task Popup.init s
  = match Popup.document s !! "reload-page" with
    | Some _ =>
        Popup.with_document
          (alter (Popup.add_listener "click" Popup.HandleReloadClick)
             "reload-page") listened
    | None => listened
    end.
Proof.
  intros He. cbn zeta. unfold Popup.run_task, Popup.init, Popup.getElementById.
  popup_binds. rewrite He. popup_binds.
  cbn [Popup.modify]. popup_binds.
  unfold Popup.detached at 1. popup_binds.
  cbn [Popup.addEventListener Popup.modify]. popup_binds.
  destruct (Popup.document s !! "reload-page"); reflexivity.
Qed.

(** X27: the popup from its opening to the first click.  On an
    observations page whose content script answers, the popup opens with
    the checkbox in the state of the script's flag; [init] has attached
    [handleToggleChange] once.  A click on the checkbox then turns all
    three the other way: the checkbox, the stored preference and the flag
    of the content script, on which [applyFullMapHeight] or
    [removeFullMapHeight] has run. *)
Theorem popup_session_in_sync (s : Popup.State) (e : Popup.Element)
    (tab : Popup.Tab) (v : variant) (page : State) :
  Popup.document s !! "fullMapHeight" = Some e ->
  Popup.listeners e = [] ->
  Popup.storage_set_fault s = None ->
  active_tab s tab ->
  Popup.isINatObservationsPage (Popup.tab_url tab) = true ->
  listening s (Popup.tab_id tab) v page ->
  let flag := fullMapHeight (config page) in
  let asked :=
    with_config {| fullMapHeight := negb flag |}
      (with_outbox (fun o => o ++ [RespState flag]) page) in
  let operation := if negb flag then applyOf v else removeOf v in
  let response := match (operation asked).1 with
                  | Normal _ => RespSuccess
                  | Thrown e => RespFailure (error_message e)
                  end in
  let opened := Popup.run s [Popup.DOMContentLoaded] in
  let s' := Popup.run s [Popup.DOMContentLoaded; Popup.Toggles] in
  toggled opened = Some flag
  /\ toggled s' = Some (negb flag)
  /\ Popup.storage s' !! "fullMapHeight" = Some (negb flag)
  /\ Popup.scripts s' !! Popup.tab_id tab
     = Some (v, with_outbox (fun o => o ++ [response]) (operation asked).2)
  /\ fullMapHeight (config (operation asked).2) = negb flag.
Proof.
  intros Hdoc Hlis Hw Htab Hurl Hl flag asked operation response.
  cbn zeta.
  change (Popup.run s [Popup.DOMContentLoaded])
    with (Popup.run_task Popup.init s).
  change (Popup.run s [Popup.DOMContentLoaded; Popup.Toggles])
    with (Popup.step (Popup.run_task Popup.init s) Popup.Toggles).
  set (page1 := with_outbox (fun o => o ++ [RespState flag]) page) in *.
  set (t := "fullMapHeight") in *.
  set (opened := Popup.run_task Popup.init s).
  assert (Hopened :
            Popup.toggle (Popup.dom opened) = Some t
            /\ Popup.document opened !! t
               = Some (Popup.add_listener "change" Popup.HandleToggleChange
                         (Popup.set_checked flag e))
            /\ Popup.storage_set_fault opened = None
            /\ active_tab opened tab
            /\ listening opened (Popup.tab_id tab) v page1).
  { subst opened. rewrite (popup_init_run s e Hdoc). cbn zeta.
    set (cached := Popup.with_dom _ s).
    unfold Popup.run_task.
    rewrite (loadToggleState_page cached tab v page t Htab Hurl Hl eq_refl).
    cbn [snd]. rewrite updateStatus_run. cbn [snd].
    fold flag. fold page1.
    destruct Hl as (Hsf & Hsc & Hid).
    change (Popup.statusIndicator (Popup.dom cached))
      with (match Popup.document s !! "status-indicator" with
            | Some _ => Some "status-indicator"
            | None => None
            end).
    destruct (Popup.document s !! "status-indicator");
      destruct (Popup.document s !! "reload-page");
      (split; [reflexivity|]);
      (split;
       [cbn [Popup.with_document Popup.with_scripts Popup.document cached
               Popup.with_dom];
        repeat (rewrite lookup_alter_eq
                || rewrite lookup_alter_ne by (subst t; discriminate));
        rewrite Hdoc; reflexivity |]);
      (split; [exact Hw|]);
      (split; [exact Htab|]);
      (split; [exact Hsf|]);
      (split; [apply lookup_insert_eq | exact Hid]). }
  destruct Hopened as (Ht & Hel & Hw1 & Htab1 & Hl1).
  split.
  { unfold toggled. rewrite Ht. cbn [mbind option_bind]. now rewrite Hel. }
  cbn [Popup.step]. fold t.
  set (clicked := Popup.with_document _ opened).
  assert (Hclicked : Popup.document clicked !! t
                     = Some (Popup.set_checked (negb flag)
                               (Popup.add_listener "change"
                                  Popup.HandleToggleChange
                                  (Popup.set_checked flag e)))).
  { subst clicked. cbn [Popup.with_document Popup.document].
    rewrite lookup_alter_eq, Hel. reflexivity. }
  assert (Hon : toggled clicked = Some (negb flag)).
  { unfold toggled.
    change (Popup.toggle (Popup.dom clicked))
      with (Popup.toggle (Popup.dom opened)).
    rewrite Ht. cbn [mbind option_bind]. now rewrite Hclicked. }
  unfold Popup.dispatch. rewrite Hclicked.
  cbn [Popup.listeners Popup.set_checked Popup.add_listener].
  rewrite Hlis.
  cbn [app fold_left fst snd String.eqb Ascii.eqb Bool.eqb Popup.listener].
  unfold Popup.run_task.
  rewrite (handleToggleChange_page clicked (negb flag) tab v page1
             Hon Hw1 Htab1 Hurl Hl1).
  fold asked operation response.
  set (delivered := Popup.with_scripts _ _).
  assert (Hflag : fullMapHeight (config (operation asked).2) = negb flag)
    by apply (config_operation v (negb flag) page1).
  assert (Hdelivered :
            toggled delivered = Some (negb flag)
            /\ Popup.storage delivered !! t = Some (negb flag)
            /\ Popup.scripts delivered !! Popup.tab_id tab
               = Some (v, with_outbox (fun o => o ++ [response])
                            (operation asked).2)).
  { split; [exact Hon|]. split; apply lookup_insert_eq. }
  assert (Hshown : forall text,
            toggled (Popup.showStatusMessage text delivered).2
            = Some (negb flag)
            /\ Popup.storage (Popup.showStatusMessage text delivered).2 !! t
               = Some (negb flag)
            /\ Popup.scripts (Popup.showStatusMessage text delivered).2
               !! Popup.tab_id tab
               = Some (v, with_outbox (fun o => o ++ [response])
                            (operation asked).2)
            /\ fullMapHeight (config (operation asked).2) = negb flag).
  { intros text.
    rewrite (pk_showStatusMessage Popup.storage text storage_beside_display),
      (pk_showStatusMessage Popup.scripts text scripts_beside_display),
      toggled_showStatusMessage.
    destruct Hdelivered as (H1 & H2 & H3). auto. }
  destruct ((operation asked).1) as [[]|err].
  - apply Hshown.
  - destruct (String.eqb (error_message err) ""); [| apply Hshown].
    cbn [snd]. destruct Hdelivered as (H1 & H2 & H3). auto.
Qed.

(** X29: the popup reports success where the content script of
    [part_000] has declined.  On an address that contains
    [inaturalist.org/observations] the popup sends the request; when the
    page is not the listing ([/observations] or [/observations/]) or has no
    map container, [applyFullMapHeight] of [part_000] returns at its guard,
    the listener answers [{success: true}], and the popup shows "Map height
    increased!" although nothing on the page has changed: no style is
    applied, only [config.fullMapHeight] is set. *)
Theorem popup_reports_success_when_nothing_applied (s : Popup.State)
    (tab : Popup.Tab) (page : State) :
  toggled s = Some true ->
  Popup.storage_set_fault s = None ->
  active_tab s tab ->
  Popup.isINatObservationsPage (Popup.tab_url tab) = true ->
  listening s (Popup.tab_id tab) Part000Js page ->
  stylesApplied page = false ->
  ~ listing_path page \/ dom_querySelector anchor (document page) = None ->
  let s' := Popup.run_task Popup.handleToggleChange s in
  let page' := with_outbox (fun o => o ++ [RespSuccess])
                 (with_config {| fullMapHeight := true |} page) in
  displayed s' = (fun _ => ("Map height increased!", "1")) <$> displayed s
  /\ Popup.scripts s' !! Popup.tab_id tab = Some (Part000Js, page')
  /\ stylesApplied page' = false
  /\ document page' = document page.
Proof.
  intros Hon Hw Htab Hurl Hl Hsa Hguard. cbn zeta.
  unfold Popup.run_task.
  rewrite (handleToggleChange_page s true tab Part000Js page
             Hon Hw Htab Hurl Hl).
  cbn zeta.
  change (applyOf Part000Js) with Part000.applyFullMapHeight.
  set (asked := with_config {| fullMapHeight := true |} page).
  assert (Hdeclined : Part000.applyFullMapHeight asked = (Normal tt, asked)).
  { apply part000_apply_guarded. right. exact Hguard. }
  rewrite Hdeclined. cbn [fst snd].
  rewrite displayed_showStatusMessage.
  rewrite (pk_showStatusMessage Popup.scripts _ scripts_beside_display).
  split; [reflexivity|]. split; [apply lookup_insert_eq|].
  split; [exact Hsa | reflexivity].
Qed.

(** *** The reload button *)

Lemma handleReloadClick_run (s : Popup.State) (tab : Popup.Tab) :
  active_tab s tab ->
  Popup.run_task Popup.handleReloadClick s
  = Popup.with_reloaded (fun l => l ++ [Popup.tab_id tab]) s.
Proof.
  intros Htab. unfold Popup.run_task, Popup.handleReloadClick.
  rewrite popup_try_catch_run, popup_bind_run, (getActiveTab_run s tab Htab).
  reflexivity.
Qed.

Lemma handleReloadClick_no_tab (s : Popup.State) :
  no_active_tab s -> Popup.run_task Popup.handleReloadClick s = s.
Proof.
  intros Hno. destruct (getActiveTab_fails s Hno) as [e He].
  unfold Popup.run_task, Popup.handleReloadClick.
  rewrite popup_try_catch_run, popup_bind_run, He. reflexivity.
Qed.

(** X28: the reload button.  In a popup with the checkbox and the button,
    [init] attaches [handleReloadClick] once, whatever [loadToggleState]
    meets; a click on the button then asks the browser to reload the active
    tab, once, whatever its address (an observations page or not) and
    whether a content script runs there or not, and changes nothing else.
    Without an active tab the click changes nothing. *)
Theorem reload_click_reloads_active_tab (s : Popup.State)
    (e er : Popup.Element) :
  Popup.document s !! "fullMapHeight" = Some e ->
  Popup.document s !! "reload-page" = Some er ->
  Popup.listeners er = [] ->
  let opened := Popup.run s [Popup.DOMContentLoaded] in
  let s' := Popup.run s [Popup.DOMContentLoaded; Popup.ClicksReload] in
  (forall tab,
     active_tab s tab ->
     s' = Popup.with_reloaded (fun l => l ++ [Popup.tab_id tab]) opened
     /\ Popup.reloaded s' = Popup.reloaded s ++ [Popup.tab_id tab])
  /\ (no_active_tab s -> s' = opened /\ Popup.reloaded s' = Popup.reloaded s).
Proof.
  intros Hdoc Hreload Hlis. cbn zeta.
  change (Popup.run s [Popup.DOMContentLoaded])
    with (Popup.run_task Popup.init s).
  change (Popup.run s [Popup.DOMContentLoaded; Popup.ClicksReload])
    with (Popup.step (Popup.run_task Popup.init s) Popup.ClicksReload).
  rewrite (popup_init_run s e Hdoc). cbn zeta. rewrite Hreload.
  set (cached := Popup.with_dom _ s).
  set (loaded := Popup.run_task Popup.loadToggleState cached).
  set (opened := Popup.with_document _ (Popup.with_document _ loaded)).
  pose proof (keeps_tabs_loadToggleState cached) as Htabs.
  change ((Popup.tabs_fault loaded, Popup.tabs loaded, Popup.reloaded loaded)
          = (Popup.tabs_fault s, Popup.tabs s, Popup.reloaded s)) in Htabs.
  injection Htabs as Hfault Hfound Hreloaded.
  pose proof (keeps_listeners_loadToggleState "reload-page" cached) as Hkept.
  change (Popup.listeners <$> Popup.document loaded !! "reload-page"
          = Popup.listeners <$> Popup.document s !! "reload-page") in Hkept.
  rewrite Hreload in Hkept.
  destruct (Popup.document loaded !! "reload-page") as [er'|] eqn:Her;
    [| discriminate].
  cbn in Hkept. rewrite Hlis in Hkept.
  assert (Hbutton : Popup.document opened !! "reload-page"
                    = Some (Popup.add_listener "click" Popup.HandleReloadClick
                              er')).
  { subst opened. cbn [Popup.with_document Popup.document].
    rewrite lookup_alter_eq, lookup_alter_ne by discriminate.
    now rewrite Her. }
  assert (Hclick : Popup.step opened Popup.ClicksReload
                   = Popup.run_task Popup.handleReloadClick opened).
  { cbn [Popup.step]. unfold Popup.dispatch. rewrite Hbutton.
    cbn [Popup.listeners Popup.add_listener].
    replace (Popup.listeners er') with (@nil (string * Popup.Listener))
      by congruence.
    reflexivity. }
  rewrite Hclick. split.
  - intros tab (Hf & others & Ht).
    assert (Htab : active_tab opened tab).
    { split.
      - change (Popup.tabs_fault loaded = None). now rewrite Hfault.
      - exists others. change (Popup.tabs loaded = Some (tab :: others)).
        now rewrite Hfound. }
    rewrite (handleReloadClick_run opened tab Htab).
    split; [reflexivity|]. cbn [Popup.with_reloaded Popup.reloaded].
    now rewrite <- Hreloaded.
  - intros Hno.
    assert (Hno' : no_active_tab opened).
    { unfold no_active_tab in *.
      change (Popup.tabs_fault opened) with (Popup.tabs_fault loaded).
      change (Popup.tabs opened) with (Popup.tabs loaded).
      now rewrite Hfault, Hfound. }
    rewrite (handleReloadClick_no_tab opened Hno').
    split; [reflexivity | exact Hreloaded].
Qed.

(** *** Witnesses *)

Lemma popup_shows_page_state_witness :
  let s := PopupSample.popup (Some [PopupSample.listing]) PopupSample.script
             {[ "fullMapHeight" := false ]} None in
  let s' := Popup.run_task Popup.loadToggleState s in
  let value := fullMapHeight (config (Sample.session 5)) in
  toggled s' = (fun _ => value) <$> toggled s
  /\ indicated s'
     = (fun _ => ("Active on this page", "status active")) <$> indicated s
  /\ Popup.storage s' = Popup.storage s
  /\ Popup.scripts s'
     = <[Popup.tab_id PopupSample.listing :=
           (Part000Js,
            with_outbox (fun o => o ++ [RespState value]) (Sample.session 5))]>
         (Popup.scripts s).
Proof.
  apply (popup_shows_page_state
           (PopupSample.popup (Some [PopupSample.listing]) PopupSample.script
              {[ "fullMapHeight" := false ]} None)
           PopupSample.listing Part000Js (Sample.session 5) "fullMapHeight").
  - split; [reflexivity | exists []; reflexivity].
  - reflexivity.
  - split; [reflexivity | split; [reflexivity | discriminate]].
  - reflexivity.
Defined.

Lemma popup_defaults_to_enabled_witness :
  let s := PopupSample.popup (Some []) PopupSample.script
             {[ "fullMapHeight" := false ]} None in
  (Popup.loadToggleState s).1 = Normal tt
  /\ Popup.run_task Popup.loadToggleState s
     = Popup.with_document (alter (Popup.set_checked true) "fullMapHeight") s
  /\ toggled (Popup.run_task Popup.loadToggleState s)
     = (fun _ => true) <$> toggled s.
Proof.
  pose proof (popup_defaults_to_enabled
                (PopupSample.popup (Some []) PopupSample.script
                   {[ "fullMapHeight" := false ]} None)
                "fullMapHeight" eq_refl) as [Hdone Hdefault].
  split; [exact Hdone|].
  apply Hdefault. right. right. reflexivity.
Defined.

Lemma popup_falls_back_to_storage_witness :
  let s := PopupSample.popup (Some [PopupSample.listing]) ∅ ∅ None in
  let tab := PopupSample.listing in
  let s' := Popup.run_task Popup.loadToggleState s in
  let stored := Popup.storage s !! "fullMapHeight" in
  toggled s'
  = (fun _ => match Popup.storage_get_fault s with
              | Some _ => true
              | None => default true stored
              end) <$> toggled s
  /\ indicated s'
     = (fun _ => if Popup.isINatObservationsPage (Popup.tab_url tab)
                 then ("Active on this page", "status active")
                 else ("Not active on this page", "status inactive"))
         <$> indicated s
  /\ Popup.scripts s' = Popup.scripts s
  /\ Popup.storage s'
     = match Popup.storage_get_fault s, stored, Popup.storage_set_fault s with
       | None, None, None => <["fullMapHeight" := true]> (Popup.storage s)
       | _, _, _ => Popup.storage s
       end.
Proof.
  apply (popup_falls_back_to_storage
           (PopupSample.popup (Some [PopupSample.listing]) ∅ ∅ None)
           PopupSample.listing "fullMapHeight").
  - split; [reflexivity | exists []; reflexivity].
  - right. right. reflexivity.
  - reflexivity.
Defined.

Lemma toggle_not_saved_not_sent_witness :
  let s := PopupSample.popup (Some [PopupSample.listing]) PopupSample.script
             ∅ (Some PopupSample.quota) in
  let s' := Popup.run_task Popup.handleToggleChange s in
  (Popup.handleToggleChange s).1 = Normal tt
  /\ Popup.storage s' = Popup.storage s
  /\ Popup.scripts s' = Popup.scripts s
  /\ toggled s' = Some false
  /\ displayed s' = (fun _ => ("Error saving settings", "1")) <$> displayed s.
Proof.
  exact (toggle_not_saved_not_sent
           (PopupSample.popup (Some [PopupSample.listing]) PopupSample.script
              ∅ (Some PopupSample.quota))
           false PopupSample.quota eq_refl eq_refl).
Defined.

Lemma toggle_reaches_content_script_witness :
  let s := PopupSample.popup (Some [PopupSample.listing]) PopupSample.script
             ∅ None in
  let on := false in
  let v := Part000Js in
  let page := Sample.session 5 in
  let operation := if on then applyOf v else removeOf v in
  let asked := with_config {| fullMapHeight := on |} page in
  let response := match (operation asked).1 with
                  | Normal _ => RespSuccess
                  | Thrown e => RespFailure (error_message e)
                  end in
  let answered := with_outbox (fun o => o ++ [response]) (operation asked).2 in
  let s' := Popup.run_task Popup.handleToggleChange s in
  Popup.storage s' = <["fullMapHeight" := on]> (Popup.storage s)
  /\ Popup.scripts s'
     = <[Popup.tab_id PopupSample.listing := (v, answered)]> (Popup.scripts s)
  /\ fullMapHeight (config answered) = on
  /\ toggled s' = Some on
  /\ displayed s'
     = match (operation asked).1 with
       | Normal _ =>
           (fun _ => (if on then "Map height increased!"
                      else "Map height restored", "1")) <$> displayed s
       | Thrown e =>
           if String.eqb (error_message e) "" then displayed s
           else (fun _ => ("Error: " +:+ error_message e, "1")) <$> displayed s
       end.
Proof.
  apply (toggle_reaches_content_script
           (PopupSample.popup (Some [PopupSample.listing]) PopupSample.script
              ∅ None)
           false PopupSample.listing Part000Js (Sample.session 5)).
  - reflexivity.
  - reflexivity.
  - split; [reflexivity | exists []; reflexivity].
  - reflexivity.
  - split; [reflexivity | split; [reflexivity | discriminate]].
Defined.

Lemma toggle_saved_but_not_delivered_witness :
  (let s := PopupSample.popup None PopupSample.script ∅ None in
   let s' := Popup.run_task Popup.handleToggleChange s in
   Popup.storage s' = <["fullMapHeight" := false]> (Popup.storage s)
   /\ Popup.scripts s' = Popup.scripts s
   /\ displayed s' = (fun _ => ("Error saving settings", "1")) <$> displayed s)
  /\ (let s := PopupSample.popup (Some [PopupSample.elsewhere])
                 PopupSample.script ∅ None in
      Popup.run_task Popup.handleToggleChange s
      = Popup.with_storage <["fullMapHeight" := false]> s)
  /\ (let s := PopupSample.popup (Some [PopupSample.listing]) ∅ ∅ None in
      let s' := Popup.run_task Popup.handleToggleChange s in
      Popup.storage s' = <["fullMapHeight" := false]> (Popup.storage s)
      /\ Popup.scripts s' = Popup.scripts s
      /\ displayed s'
         = (fun _ => ("Please reload the page", "1")) <$> displayed s).
Proof.
  split; [| split].
  - refine (proj1 (toggle_saved_but_not_delivered
                     (PopupSample.popup None PopupSample.script ∅ None)
                     false eq_refl eq_refl) _).
    right. left. reflexivity.
  - refine (proj1 (proj2 (toggle_saved_but_not_delivered
                            (PopupSample.popup (Some [PopupSample.elsewhere])
                               PopupSample.script ∅ None)
                            false eq_refl eq_refl))
              PopupSample.elsewhere _ _).
    + split; [reflexivity | exists []; reflexivity].
    + reflexivity.
  - refine (proj2 (proj2 (toggle_saved_but_not_delivered
                            (PopupSample.popup (Some [PopupSample.listing])
                               ∅ ∅ None)
                            false eq_refl eq_refl))
              PopupSample.listing _ _ _).
    + split; [reflexivity | exists []; reflexivity].
    + reflexivity.
    + right. reflexivity.
Defined.

Lemma status_message_hidden_early_witness :
  let s := PopupSample.popup None ∅ ∅ None in
  let s1 := Popup.run_task (Popup.showStatusMessage "Map height increased!") s in
  let s2 := Popup.elapse 1500 s1 in
  let s3 := Popup.run_task (Popup.showStatusMessage "Map height restored") s2 in
  let s4 :=
    Popup.elapse (Popup.STATUS_MESSAGE_DURATION Popup.CONSTANTS - 1500) s3 in
  displayed s3 = Some ("Map height restored", "1")
  /\ displayed s4 = Some ("Map height restored", "0")
  /\ Popup.now s4
     = Popup.now s3 + (Popup.STATUS_MESSAGE_DURATION Popup.CONSTANTS - 1500)
  /\ Popup.timeouts s4
     = [Popup.now s3 + Popup.STATUS_MESSAGE_DURATION Popup.CONSTANTS].
Proof.
  apply (status_message_hidden_early (PopupSample.popup None ∅ ∅ None)
           "status-message" PopupSample.element
           "Map height increased!" "Map height restored" 1500).
  - reflexivity.
  - reflexivity.
  - reflexivity.
  - cbn. lia.
Defined.

Lemma popup_session_in_sync_witness :
  let s := PopupSample.fresh (Some [PopupSample.listing]) PopupSample.script
             ∅ in
  let v := Part000Js in
  let page := Sample.session 5 in
  let flag := fullMapHeight (config page) in
  let asked :=
    with_config {| fullMapHeight := negb flag |}
      (with_outbox (fun o => o ++ [RespState flag]) page) in
  let operation := if negb flag then applyOf v else removeOf v in
  let response := match (operation asked).1 with
                  | Normal _ => RespSuccess
                  | Thrown e => RespFailure (error_message e)
                  end in
  let opened := Popup.run s [Popup.DOMContentLoaded] in
  let s' := Popup.run s [Popup.DOMContentLoaded; Popup.Toggles] in
  toggled opened = Some flag
  /\ toggled s' = Some (negb flag)
  /\ Popup.storage s' !! "fullMapHeight" = Some (negb flag)
  /\ Popup.scripts s' !! Popup.tab_id PopupSample.listing
     = Some (v, with_outbox (fun o => o ++ [response]) (operation asked).2)
  /\ fullMapHeight (config (operation asked).2) = negb flag.
Proof.
  apply (popup_session_in_sync
           (PopupSample.fresh (Some [PopupSample.listing]) PopupSample.script ∅)
           PopupSample.element PopupSample.listing Part000Js (Sample.session 5)).
  - reflexivity.
  - reflexivity.
  - reflexivity.
  - split; [reflexivity | exists []; reflexivity].
  - reflexivity.
  - split; [reflexivity | split; [reflexivity | discriminate]].
Defined.

Lemma reload_click_reloads_active_tab_witness :
  let s := PopupSample.fresh (Some [PopupSample.elsewhere]) ∅ ∅ in
  let opened := Popup.run s [Popup.DOMContentLoaded] in
  let s' := Popup.run s [Popup.DOMContentLoaded; Popup.ClicksReload] in
  s' = Popup.with_reloaded
         (fun l => l ++ [Popup.tab_id PopupSample.elsewhere]) opened
  /\ Popup.reloaded s'
     = Popup.reloaded s ++ [Popup.tab_id PopupSample.elsewhere].
Proof.
  refine (proj1 (reload_click_reloads_active_tab
                   (PopupSample.fresh (Some [PopupSample.elsewhere]) ∅ ∅)
                   PopupSample.element PopupSample.element
                   eq_refl eq_refl eq_refl)
            PopupSample.elsewhere _).
  split; [reflexivity | exists []; reflexivity].
Defined.

Lemma popup_reports_success_when_nothing_applied_witness :
  let tab := {| Popup.tab_id := 9;
                Popup.tab_url :=
                  Some "https://www.inaturalist.org/observations/123" |} in
  let s := Popup.with_document
             (alter (Popup.set_checked true) "fullMapHeight")
             (PopupSample.popup (Some [tab]) {[ 9 := (Part000Js, itemPage) ]}
                ∅ None) in
  let s' := Popup.run_task Popup.handleToggleChange s in
  let page' := with_outbox (fun o => o ++ [RespSuccess])
                 (with_config {| fullMapHeight := true |} itemPage) in
  displayed s' = (fun _ => ("Map height increased!", "1")) <$> displayed s
  /\ Popup.scripts s' !! Popup.tab_id tab = Some (Part000Js, page')
  /\ stylesApplied page' = false
  /\ document page' = document itemPage.
Proof.
  apply (popup_reports_success_when_nothing_applied
           (Popup.with_document
              (alter (Popup.set_checked true) "fullMapHeight")
              (PopupSample.popup
                 (Some [{| Popup.tab_id := 9;
                           Popup.tab_url :=
                             Some "https://www.inaturalist.org/observations/123" |}])
                 {[ 9 := (Part000Js, itemPage) ]} ∅ None))
           {| Popup.tab_id := 9;
              Popup.tab_url :=
                Some "https://www.inaturalist.org/observations/123" |}
           itemPage).
  - reflexivity.
  - reflexivity.
  - split; [reflexivity | exists []; reflexivity].
  - reflexivity.
  - split; [reflexivity | split; [reflexivity | discriminate]].
  - reflexivity.
  - left. intros [H | H]; discriminate H.
Defined.
